(* ===== verification/_CoqProject ===== *)
-Q . S2P
Prelude.v
GoText.v
Net.v
Host.v
AddrText.v
Prog.v
Rely.v
Cost.v
Api.v
Effects.v
Helpers.v
Pattern.v
Crd.v
Schema.v
Upsert.v
Charts.v
SDCore.v
NFDeploy.v
Fabric.v
GitOps.v
Subscribers.v
Slices.v
Datapath.v
DatapathSafety.v
Addressing.v
AddressPlan.v
RanProfile.v
EdgeSite.v
EdgePlan.v
Children.v
Fleet.v
MeshLink.v
System.v
Contracts.v
Manager.v
Admission.v
Termination.v
Health.v
Memory.v
Copy.v
DeepCopy.v
Scheme.v
Platform.v
Forge.v
Desired.v
Pipeline.v
Interleave.v
Concurrent.v
