(* ===== verification/Prelude.v ===== *)
(** * Verification of the SD-Core Nephio operator (src/operator)

    The operator turns declarations of 5G edge sites into running clusters.  It is one Go binary
    with two modes: the manager of the management cluster, with eight controllers, and a node
    agent per host.  An EdgeSite (or a Fleet, a list of them) is expanded by the EdgeSite
    controller into Kubernetes objects that other controllers act on - PackageVariants and
    IPClaims (Nephio), a MeshLink, a NetworkSlice - and into manifests committed to the site's
    Git repository, from which Config Sync runs them on the site.  The MeshLink controller joins
    the site to its control plane, the NetworkSlice and Subscriber controllers provision the
    core, and the node agent keeps the host's forwarding state and the UPF working.

    ** How the code is modelled

    Every Go function of the controllers is a definition of the same name.  A function that
    touches the world is a program (Prog.v): its calls - API server, HTTP, remote clusters, Helm,
    netlink, iptables, exec, clock, logger, the order of a map iteration - are uninterpreted
    operations of a signature ([Env] of Effects.v, [Proc] of Manager.v) answered by whatever the
    environment returns.  [spec m s Q] says that [Q] holds of the trace of calls, the final object
    and the result of [m] whatever the answers are; this covers failures of every call, and is
    how the theorems speak of errors and of ordering: the strongest of them give the whole trace,
    by relations that say call by call what a part of a reconcile does ([performs] for loops,
    [upserted], [filed], [retired], [step_ran], [fleet_reported], [wiring_ends]).  Theorems about healthy servers assume the
    laws of the class [ApiServer] (an instance is built in Effects.v) and run the program on it
    ([run], [run_world]).  The object under reconciliation, which Go passes as a pointer, is the
    state of the program; its fields carry the Go names with a prefix per type (Api.v).

    Pure third-party functions (controller-runtime, controllerutil, apimachinery: SetStatusCondition and the
    finalizer functions) are the class [Apimachinery], their documented behaviour the laws
    [ApimachineryLaws], with a concrete instance.  What the code uses of Go's standard library is
    modelled (GoText.v, Net.v, Host.v, AddrText.v).

    ** The files

    - Prelude: lists, tactics and hint databases.
    - GoText, Net, Host, AddrText: strings, strconv, fmt, base64 and UTF-8; IPv4 text and
      prefixes; IPv6 text, links, routes, addresses and pods as the agent sees them; the text of
      an address and its round trip.
    - Prog, Api, Effects: programs and their specifications; the custom resources
      (api/v1alpha1); the calls and the laws of their environment.
    - Helpers (mesh_helpers.go and small functions), Upsert (the create-or-update that the
      EdgeSite and the NetworkFabric controllers share).
    - Charts, SDCore, NFDeploy: sdcoredeployment_controller.go, nfdeployment_controller.go.
    - Fabric: network_controller.go.  GitOps: mesh_gitops.go.
    - Subscribers, Slices: subscriber_controller.go and mongo_helpers.go.
    - Datapath, DatapathSafety: upfdatapath_controller.go, the node agent.
    - Addressing, AddressPlan: the addressing half of edgesite_controller.go and what it promises
      fleet-wide; RanProfile: its gNB renderers and deliverRAN; EdgeSite, EdgePlan, Children: its
      reconciler, the refinement of its plan, the objects it owns.
    - Fleet: fleet_controller.go.  MeshLink: meshlink_controller.go and mesh_clustermesh.go.
    - System, Contracts: the controllers together, on one API server and through the objects they
      write for each other.
    - Manager: cmd/main.go and SetupWithManager of every controller.
    - Rely, Pattern, Crd, Schema, Admission: an assume/guarantee judgement on programs; the
      patterns and schemas of the operator's CustomResourceDefinitions (config/crd/bases) and of
      those of the unstructured children (platform/mgmt-bootstrap/nephio-packages); every
      controller checked against them.
    - Health: the same judgement against a platform on which nothing fails.
    - Cost, Termination: the potential method on programs, and the number of calls of a reconcile.
    - Memory, Copy, DeepCopy: Go's memory - cells of values with pointers, slices and maps in it -
      the statement forms of generated copies, and every function of zz_generated.deepcopy.go in
      them.  Scheme: the registration of the types (groupversion_info.go and the init functions).
    - Platform, Forge: an API server and a Git server on which nothing fails, total correctness on
      them, and one in memory.  Desired: the desired state of an EdgeSite.  Pipeline: a Fleet and
      its sites.
    - Interleave, Concurrent: a judgement on programs under interference, and the EdgeSite and the
      Fleet controller, users and crashes interleaved call by call.

    ** What the theorems show

    - Addresses: networks of sites with different indices are disjoint, the addresses lie in
      their subnets, one derivation is enough, and N2 VIPs are distinct over every history of
      creations, edits, deletions, EdgeSite and Fleet reconciles ([system_vips_distinct]), also
      when these are interleaved call by call ([vips_distinct_under_interleaving]); where
      this stops (an exhausted pool, a hash collision, two workers, a failed listing) is proved
      too.
    - Reconcilers: each is reported as it went.  A reconcile of an EdgeSite refines a plan
      ([reconcile_follows_plan]), and so do a Fleet, which applies and prunes exactly what it
      declares ([fleet_reconcile_acts]), and a MeshLink ([wire_outcome]); the agent runs every
      step whatever failed before; slices, subscribers, charts and network functions
      are reported provisioned exactly when the other side acknowledged them.
    - Liveness: on a platform that answers every call as it should, every reconcile of a
      well-formed object succeeds and reports success ([healthy_reconcile_succeeds]).
    - Desired state: on such a platform one reconcile of an EdgeSite puts every child and every
      manifest of its desired state in place and changes nothing else - an unstructured child
      whose spec is the wanted one already is not touched ([site_reaches_desired_state]), and a Fleet followed by its sites, in any order, brings
      about all of theirs ([fleet_to_sites]).
    - Copies: every generated DeepCopy returns memory of its own that holds the same value
      ([generated_copies_are_deep]), so writing through a copy is never seen through the original
      ([deep_copies_are_independent]).  This is what lets the other files treat the objects the
      client hands out of its cache as values.
    - Delivery: a Git upsert succeeds exactly when its PUT was acknowledged; a gNB's manifests
      are delivered in order; the CA reaches the edge unchanged.
    - Settling: PackageVariants, IPClaims and fabrics are written once.
    - Deletion: a finalizer is stored before a peer is touched, and deleting takes the link's
      footprint down on the peers that can be reached and never wedges on them.
    - Agreements: gNB and core carry one TAC and slice differentiator, the slice names the N4
      Service the MeshLink creates, the agent owns every VIP the operator hands out, and the
      address of a network function survives its rendering.
    - Types: every object a controller writes is one its schema accepts ([writes_admitted]), but
      for the NetworkInstance of a fabric whose prefixes are not CIDRs ([fabric_prefix_unchecked])
      and for failure statuses whose reason the schema refuses, which are never stored
      ([accepted_status_reports], [link_failure_unreported]).
    - Wiring: every kind has its controller in one process, the manager starts last, and its
      scheme knows every kind the controllers ask the client for ([scheme_knows_every_kind]).

    Where the code departs from its comments, or from what it must mean, a theorem states what it
    does (for example [meshLink_strips_finalizers], [prefix_length_dropped]).

    ** Bounds and fuel

    A program is a finite tree of calls: no reconciler loops on its environment, so every
    reconcile ends, and [reconcile_terminates] bounds its calls by a constant of its controller and
    the size of the listings it is answered; loops over lists are structural.  Fuel appears where the recursion is on
    numbers or on text: [fmt_fuel] gives a printed number one digit per bit ([parse_format_uint]
    shows nothing is lost), [print0] one round per byte ([print0_fuel]), IPv6 text one round per
    group ([v6_groups_fuel]), [shuffle] one per entry ([shuffle_perm]).  Integers are Z with
    Go's wrap-around or range checks where they matter: the octets of atoiOr, siteIndex's hash in
    32 bits, strconv's 64-bit range errors.

    ** Not modelled

    The logger's configuration and flag parsing have no logic of the program. Helm's debug log
    and the one line the TLS call-back logs are left out. Condition timestamps
    (LastTransitionTime) are not kept. The defaults a CustomResourceDefinition fills into absent
    fields when an object is stored are not: the laws of [ApiServer] say that the spec stored is
    the one submitted, and concern objects that are not being deleted.  A RAN block reaches an
    EdgeSite through a Fleet whose schema has the same defaults, a role is never left empty, and
    egressNic, the one default left, is in no conclusion drawn from these laws; theorems on traces
    hold for every server. The panic of removeFromGit when its lookup request cannot be built is an
    error of the model. Outside Memory.v objects are values: the RAN block that
    applyEdgeSite shares between the listed Fleet and the EdgeSite it writes is not followed as a
    pointer, as neither is written through after that. [%q] of text with non-printable characters
    is outside the model. Tests are not part of the program. *)

From Stdlib Require Export ZArith Lia Ascii.
From stdpp Require Export base tactics gmap sets list strings sorting.

Set Default Goal Selector "!".
#[export] Set Warnings "-clear-no-such-hyp".
#[export] Set Default Goal Selector "!".

Declare Scope go_scope.
Delimit Scope go_scope with go.
#[global] Open Scope string_scope.
#[global] Open Scope Z_scope.

(** The rewriting and resolution databases the files below extend. *)
Create HintDb go discriminated.
Create Rewrite HintDb go.

(** ** Tactics *)

(** Case analysis on the discriminee of the innermost [match] of the goal. *)
Ltac split_match :=
  match goal with
  | |- context [match ?x with _ => _ end] =>
      lazymatch x with
      | context [match _ with _ => _ end] => fail
      | _ => destruct x eqn:?
      end
  end.

(** Discharges goals that are trivial once constructors are separated. *)
Ltac crush := intros; simplify_eq/=; auto with go; try done; try lia.

(** ** Lists *)

Lemma list_fmap_singleton {A B} (f : A → B) (x : A) : f <$> [x] = [f x].
Proof. done. Qed.

(** A boolean search that keeps the first element satisfying [p]. *)
Fixpoint find_first {A} (p : A → bool) (l : list A) : option A :=
  match l with
  | [] => None
  | x :: l' => if p x then Some x else find_first p l'
  end.

Lemma find_first_Some {A} (p : A → bool) (l : list A) (x : A) :
  find_first p l = Some x → x ∈ l ∧ p x = true.
Proof.
  induction l as [|y l IH]; simpl; [done|].
  destruct (p y) eqn:E; intros; simplify_eq.
  - split; [left | done].
  - destruct (IH H). split; [by right | done].
Qed.

Lemma find_first_None {A} (p : A → bool) (l : list A) :
  find_first p l = None ↔ ∀ x, x ∈ l → p x = false.
Proof.
  induction l as [|y l IH]; simpl.
  - split; [intros _ x Hx; by apply elem_of_nil in Hx | done].
  - destruct (p y) eqn:E.
    + split; [done | intros H]. rewrite H in E; [done | left].
    + rewrite IH. split.
      * intros H x [->|Hx]%elem_of_cons; auto.
      * intros H x Hx. apply H. by right.
Qed.

Lemma length_omap_le {A B} (f : A → option B) (l : list A) :
  (length (omap f l) ≤ length l)%nat.
Proof. induction l as [|x l IH]; csimpl; [lia|]. destruct (f x); csimpl; lia. Qed.

(** ** Strings *)

#[global] Arguments String.append : simpl nomatch.

Lemma string_app_nil_r (s : string) : s +:+ "" = s.
Proof. induction s as [|c s IH]; simpl; congruence. Qed.

Lemma string_app_assoc (a b c : string) : (a +:+ b) +:+ c = a +:+ (b +:+ c).
Proof. induction a as [|x a IH]; simpl; congruence. Qed.

Lemma string_app_inj_l (a b c : string) : a +:+ b = a +:+ c → b = c.
Proof. induction a as [|x a IH]; simpl; [done|]. intros. simplify_eq. auto. Qed.

Lemma string_length_app (a b : string) :
  String.length (a +:+ b) = (String.length a + String.length b)%nat.
Proof. induction a as [|x a IH]; simpl; congruence. Qed.

#[export] Hint Rewrite string_app_nil_r string_app_assoc : go.
