(* ===== verification/GoText.v ===== *)
(** * The parts of Go's language and standard library the operator's text handling uses

    A Go [string] is a byte sequence: here a [string] of [ascii] characters, one per byte.  The
    file models

    - [for _, c := range s] (UTF-8 decoding, [runes]) and [strings.TrimSpace];
    - package [strings]: [Split] on a one-byte separator, [Join], [Contains], [HasPrefix],
      [TrimPrefix], [ReplaceAll] of one byte by one byte, [LastIndex] of one byte;
    - package [strconv]: [Itoa], [Atoi], [ParseInt];
    - package [fmt]: the verbs [%s %v %d %q %02x %04d %%] of [Sprintf], and [Sscanf] with the
      format ["%d.%d.%d.%d"], the only one the operator scans with, and [format0], what
      [Errorf] makes of a message that is used as a format;
    - package [encoding/base64]: [StdEncoding.EncodeToString], with a decoder for the round trip. *)

From S2P Require Import Prelude.

(** ** Bytes and runes *)

Definition code (c : ascii) : Z := Z.of_N (N_of_ascii c).
Definition chr (z : Z) : ascii := ascii_of_N (Z.to_N z).

Lemma code_range c : 0 ≤ code c < 256.
Proof. unfold code. pose proof (N_ascii_bounded c). lia. Qed.

Lemma chr_code c : chr (code c) = c.
Proof. unfold chr, code. rewrite N2Z.id. apply ascii_N_embedding. Qed.

Lemma code_chr z : 0 ≤ z < 256 → code (chr z) = z.
Proof.
  intros. unfold chr, code. rewrite N_ascii_embedding by lia. lia.
Qed.

Lemma code_inj c d : code c = code d → c = d.
Proof. intros H. by rewrite <-(chr_code c), <-(chr_code d), H. Qed.

(** The double quote, the newline, and a Go raw string literal.  A raw literal cannot hold a
    backtick, so the templates below are written with backticks where the source has double
    quotes and [raw] puts the double quotes back. *)
Definition dquote : string := String (chr 34) "".
Definition nl : string := String (chr 10) "".

Fixpoint map_bytes (f : ascii → ascii) (s : string) : string :=
  match s with
  | "" => ""
  | String c r => String (f c) (map_bytes f r)
  end.

Definition raw (s : string) : string :=
  map_bytes (λ c, if (code c =? 96)%Z then chr 34 else c) s.

(** An interpreted string literal: as [raw], with the escape of a newline written out as in Go. *)
Fixpoint unescape (s : string) : string :=
  match s with
  | String a (String b r as s') =>
      if (code a =? 92) && (code b =? 110) then String (chr 10) (unescape r)
      else String a (unescape s')
  | _ => s
  end.
Definition interp (s : string) : string := unescape (raw s).

Fixpoint bytes (s : string) : list Z :=
  match s with "" => [] | String c r => code c :: bytes r end.

Fixpoint of_bytes (l : list Z) : string :=
  match l with [] => "" | z :: r => String (chr z) (of_bytes r) end.

Lemma of_bytes_bytes s : of_bytes (bytes s) = s.
Proof. induction s as [|c s IH]; simpl; [done|]. by rewrite chr_code, IH. Qed.

Fixpoint take_bytes (n : nat) (s : string) : string :=
  match n, s with
  | S n', String c r => String c (take_bytes n' r)
  | _, _ => ""
  end.

(** utf8.DecodeRune on a non-empty byte list: the rune and its width.  An ill-formed sequence
    decodes to U+FFFD of width 1. *)
Definition rune_error : Z := 65533.

Definition between (lo hi z : Z) : bool := (lo <=? z) && (z <=? hi).

Definition decode_rune (l : list Z) : Z * nat :=
  match l with
  | [] => (rune_error, 0%nat)
  | b0 :: l1 =>
      if b0 <? 128 then (b0, 1%nat)
      else
        let cont := between 128 191 in
        if between 194 223 b0 then
          match l1 with
          | b1 :: _ => if cont b1 then ((b0 - 192) * 64 + (b1 - 128), 2%nat)
                       else (rune_error, 1%nat)
          | _ => (rune_error, 1%nat)
          end
        else if between 224 239 b0 then
          let lo := if b0 =? 224 then 160 else 128 in
          let hi := if b0 =? 237 then 159 else 191 in
          match l1 with
          | b1 :: b2 :: _ =>
              if between lo hi b1 && cont b2
              then ((b0 - 224) * 4096 + (b1 - 128) * 64 + (b2 - 128), 3%nat)
              else (rune_error, 1%nat)
          | _ => (rune_error, 1%nat)
          end
        else if between 240 244 b0 then
          let lo := if b0 =? 240 then 144 else 128 in
          let hi := if b0 =? 244 then 143 else 191 in
          match l1 with
          | b1 :: b2 :: b3 :: _ =>
              if between lo hi b1 && cont b2 && cont b3
              then ((b0 - 240) * 262144 + (b1 - 128) * 4096 + (b2 - 128) * 64 + (b3 - 128), 4%nat)
              else (rune_error, 1%nat)
          | _ => (rune_error, 1%nat)
          end
        else (rune_error, 1%nat)
  end.

(** The runes of a string with the bytes each was decoded from. *)
Fixpoint chunks (skip : nat) (s : string) : list (Z * string) :=
  match s with
  | "" => []
  | String _ r =>
      match skip with
      | S k => chunks k r
      | O => let '(c, w) := decode_rune (bytes s) in
             (c, take_bytes w s) :: chunks (w - 1) r
      end
  end.

(** What [for _, c := range s] yields. *)
Definition runes (s : string) : list Z := (chunks 0 s).*1.

Definition is_ascii (s : string) : bool := forallb (λ z, z <? 128) (bytes s).

(** On an ASCII string the runes are the bytes. *)
Lemma runes_ascii s : is_ascii s = true → runes s = bytes s.
Proof.
  unfold runes, is_ascii. induction s as [|c s IH]; cbn [bytes chunks forallb]; [done|].
  intros [H1 H2]%andb_prop. unfold decode_rune. rewrite H1.
  cbn [Nat.sub]. rewrite fmap_cons. f_equal. auto.
Qed.

(** ** Package strings *)

(** unicode.IsSpace, which is also the set package fmt skips. *)
Definition is_space (r : Z) : bool :=
  between 9 13 r || (r =? 32) || (r =? 133) || (r =? 160) || (r =? 5760) || between 8192 8202 r
  || (r =? 8232) || (r =? 8233) || (r =? 8239) || (r =? 8287) || (r =? 12288).

Fixpoint drop_while {A} (p : A → bool) (l : list A) : list A :=
  match l with
  | [] => []
  | x :: r => if p x then drop_while p r else l
  end.

Definition concat_strings (l : list string) : string := foldr String.append "" l.

Definition TrimSpace (s : string) : string :=
  let sp := λ c : Z * string, is_space c.1 in
  concat_strings (rev (drop_while sp (rev (drop_while sp (chunks 0 s))))).*2.

Fixpoint HasPrefix (s p : string) : bool :=
  match p, s with
  | "", _ => true
  | String a p', String b s' => if Ascii.eqb a b then HasPrefix s' p' else false
  | String _ _, "" => false
  end.

Fixpoint drop_bytes (n : nat) (s : string) : string :=
  match n, s with
  | S n', String _ r => drop_bytes n' r
  | _, _ => s
  end.

Definition TrimPrefix (s p : string) : string :=
  if HasPrefix s p then drop_bytes (String.length p) s else s.

Fixpoint Contains (s sub : string) : bool :=
  HasPrefix s sub || match s with "" => false | String _ r => Contains r sub end.

(** strings.Split for a one-byte separator: never empty. *)
Fixpoint split_from (sep : ascii) (cur s : string) : list string :=
  match s with
  | "" => [cur]
  | String c r => if Ascii.eqb c sep then cur :: split_from sep "" r
                  else split_from sep (cur +:+ String c "") r
  end.
Definition Split (s : string) (sep : ascii) : list string := split_from sep "" s.

Fixpoint Join (l : list string) (sep : string) : string :=
  match l with
  | [] => ""
  | [x] => x
  | x :: r => x +:+ sep +:+ Join r sep
  end.

(** strings.ReplaceAll of one byte by one byte. *)
Definition ReplaceByte (s : string) (old new : ascii) : string :=
  map_bytes (λ c, if Ascii.eqb c old then new else c) s.

(** strings.LastIndex of one byte; [None] is -1. *)
Fixpoint LastIndex (s : string) (b : ascii) : option nat :=
  match s with
  | "" => None
  | String c r =>
      match LastIndex r b with
      | Some i => Some (S i)
      | None => if Ascii.eqb c b then Some O else None
      end
  end.

(** Character literals of the source. *)
Definition dot : ascii := chr 46.
Definition dash : ascii := chr 45.

(** ** Package strconv *)

Definition max_int64 : Z := 2 ^ 63 - 1.
Definition min_int64 : Z := - 2 ^ 63.

(** The digit characters 0..9a..f. *)
Definition digit_char (d : Z) : ascii := if d <? 10 then chr (48 + d) else chr (87 + d).

(** formatBits: the digits of [n], least significant first, pushed in front of [acc]. *)
Fixpoint fmt_digits (base : Z) (fuel : nat) (n : Z) (acc : string) : string :=
  match fuel with
  | O => acc
  | S f =>
      let acc' := String (digit_char (n mod base)) acc in
      if n / base =? 0 then acc' else fmt_digits base f (n / base) acc'
  end.

(** One digit per bit is enough fuel in every base from 2 up. *)
Definition fmt_fuel (n : Z) : nat := S (Z.to_nat (Z.log2 n)).

Definition format_uint (base n : Z) : string := fmt_digits base (fmt_fuel n) n "".

Definition Itoa (n : Z) : string :=
  if n <? 0 then String dash (format_uint 10 (- n)) else format_uint 10 n.

Definition digit_val (c : Z) : option Z :=
  if between 48 57 c then Some (c - 48)
  else if between 97 122 c then Some (c - 87)
  else if between 65 90 c then Some (c - 55)
  else None.

Inductive num_error := ErrSyntax | ErrRange.

(** ParseUint(s, base, 64)'s accumulation loop: it stops at the first bad digit or overflow. *)
Fixpoint parse_uint (base acc : Z) (s : list Z) : Z * option num_error :=
  match s with
  | [] => (acc, None)
  | c :: r =>
      match digit_val c with
      | Some d =>
          if d <? base then
            let n := acc * base + d in
            if 2 ^ 64 <=? n then (2 ^ 64 - 1, Some ErrRange) else parse_uint base n r
          else (0, Some ErrSyntax)
      | None => (0, Some ErrSyntax)
      end
  end.

(** strconv.ParseInt(s, base, 64) for base 10 and 16: the value and the error.  As in Go the
    value is 0 on a syntax error and the nearest int64 on a range error. *)
Definition ParseInt (s : string) (base : Z) : Z * option num_error :=
  match bytes s with
  | [] => (0, Some ErrSyntax)
  | c :: r =>
      let neg := c =? 45 in
      let digits := if neg || (c =? 43) then r else c :: r in
      match digits with
      | [] => (0, Some ErrSyntax)
      | _ =>
          match parse_uint base 0 digits with
          | (_, Some ErrSyntax) => (0, Some ErrSyntax)
          | (un, _) =>
              if negb neg && (2 ^ 63 <=? un) then (max_int64, Some ErrRange)
              else if neg && (2 ^ 63 <? un) then (min_int64, Some ErrRange)
              else (if neg then - un else un, None)
          end
      end
  end.

Definition Atoi (s : string) : Z * option num_error := ParseInt s 10.

(** ** Package fmt: Sprintf *)

(** An operand of Sprintf.  An [error] operand of [%v] or [%w] is its message. *)
Inductive fmt_arg :=
| FStr (s : string)
| FInt (z : Z).

(** strconv.Quote of an ASCII string, which the operands of [%q] are meant to be (object, interface
    and component names, an IMSI, an address); a byte from 0x80 up is kept, as Go keeps the
    printable runes. *)
Definition quote_byte (c : ascii) : string :=
  let z := code c in
  let esc := λ e, String (chr 92) (String (chr e) "") in
  if z =? 34 then esc 34
  else if z =? 92 then esc 92
  else if z =? 7 then esc 97
  else if z =? 8 then esc 98
  else if z =? 12 then esc 102
  else if z =? 10 then esc 110
  else if z =? 13 then esc 114
  else if z =? 9 then esc 116
  else if z =? 11 then esc 118
  else if (z <? 32) || (z =? 127)
       then esc 120 +:+ String (digit_char (z / 16)) (String (digit_char (z mod 16)) "")
  else String c "".

Fixpoint quote_body (s : string) : string :=
  match s with "" => "" | String c r => quote_byte c +:+ quote_body r end.

Definition Quote (s : string) : string := dquote +:+ quote_body s +:+ dquote.

Fixpoint zeros (n : nat) : string := match n with O => "" | S k => String (chr 48) (zeros k) end.

(** Zero padding to width [w] (of a non-negative number's text). *)
Definition pad0 (w : nat) (s : string) : string := zeros (w - String.length s) +:+ s.

(** One verb applied to an operand; [None] when the verb does not take it. *)
Definition fmt_verb (v : ascii) (width : option nat) (a : fmt_arg) : option string :=
  let pad := match width with Some w => pad0 w | None => id end in
  let z := code v in
  match a with
  | FStr s =>
      if (z =? 115) || (z =? 118) || (z =? 119) then Some s          (* %s %v %w *)
      else if z =? 113 then Some (Quote s)                            (* %q *)
      else None
  | FInt n =>
      if (z =? 100) || (z =? 118) then Some (pad (Itoa n))            (* %d %v *)
      else if z =? 120 then Some (pad (if n <? 0 then String dash (format_uint 16 (- n))
                                       else format_uint 16 n))        (* %x *)
      else None
  end.

(** Text for a format the source never has (a missing or ill-typed operand). *)
Definition bad_format : string := "%!(BADFORMAT)".

Definition emit_verb (v : ascii) (width : option nat) (args : list fmt_arg)
    (k : list fmt_arg → string) : string :=
  match args with
  | a :: args' => match fmt_verb v width a with
                  | Some t => t +:+ k args'
                  | None => bad_format +:+ k args'
                  end
  | [] => bad_format +:+ k []
  end.

(** Sprintf for the verbs above, with an optional [0] flag and a one-digit width. *)
Fixpoint Sprintf (f : string) (args : list fmt_arg) : string :=
  match f with
  | "" => ""
  | String c r =>
      if code c =? 37 then
        match r with
        | String v r1 =>
            if code v =? 37 then String v (Sprintf r1 args)
            else if code v =? 48 then
              match r1 with
              | String w (String v' r3) =>
                  emit_verb v' (Some (Z.to_nat (code w - 48))) args (Sprintf r3)
              | _ => bad_format
              end
            else emit_verb v None args (Sprintf r1)
        | "" => bad_format
        end
      else String c (Sprintf r args)
  end.

(** Evaluates a format against symbolic operands. *)
Ltac eval_sprintf :=
  repeat match goal with
  | |- context [Sprintf ?f ?l] =>
      let v := eval lazy -[Itoa String.append format_uint Quote pad0] in (Sprintf f l) in
      change (Sprintf f l) with v
  end.

Example Sprintf_addr : Sprintf "10.%d.0.0/%s" [FInt 42; FStr "16"] = "10.42.0.0/16".
Proof. reflexivity. Qed.
Example Sprintf_pad : Sprintf "%02x:%04d:%q" [FInt 10; FInt 42; FStr "a"] =
  raw "0a:0042:`a`".
Proof. reflexivity. Qed.

(** ** Package fmt: Sscanf(s, "%d.%d.%d.%d", ...) *)

(** SkipSpace: a newline is an error. *)
Fixpoint skip_space (l : list Z) : option (list Z) :=
  match l with
  | [] => Some []
  | r :: l' => if r =? 10 then None else if is_space r then skip_space l' else Some l
  end.

Definition is_digit (z : Z) : bool := between 48 57 z.

Fixpoint span {A} (p : A → bool) (l : list A) : list A * list A :=
  match l with
  | [] => ([], [])
  | x :: r => if p x then let '(a, b) := span p r in (x :: a, b) else ([], l)
  end.

(** ** Package fmt: a format without operands

    [fmt.Errorf(msg)] treats its text as a format: [format0] is what doPrintf prints when there
    is no operand.  Every verb is reported as missing its operand, a bad index, width or
    precision as such. *)

Definition is_flag (c : Z) : bool :=
  (c =? 35) || (c =? 43) || (c =? 45) || (c =? 32) || (c =? 48).

(** parsenum: a number and the input after it; one above a million swallows the input. *)
Fixpoint parsenum (num : option Z) (l : list Z) : option Z * list Z :=
  match l with
  | c :: r =>
      if is_digit c then
        let n := default 0 num in
        if 1000000 <? n then (None, []) else parsenum (Some (n * 10 + (c - 48))) r
      else (num, l)
  | [] => (num, [])
  end.

(** [l] without its first byte when that byte is [c]. *)
Definition eat (c : Z) (l : list Z) : option (list Z) :=
  match l with x :: r => if x =? c then Some r else None | [] => None end.

(** argNumber when there is no operand: the input after an index, whether it was well formed,
    and whether the verb now has a bad index. *)
Definition arg_number (l : list Z) : list Z * bool * bool :=
  match eat 91 l with
  | Some inner =>
      let '(digits, rest) := span (λ c, negb (c =? 93)) inner in
      match rest with
      | [] => (inner, false, true)
      | _ :: after =>
          if (length l <? 3)%nat then (inner, false, true)
          else
            match parsenum None digits with
            | (Some _, []) => (after, true, true)
            | _ => (after, false, true)
            end
      end
  | None => (l, false, false)
  end.

(** The width: what is printed, the input left, whether an index directly precedes it, and
    whether the index is bad. *)
Definition width0 (l : list Z) (after bad : bool) : string * list Z * bool * bool :=
  match eat 42 l with
  | Some r => ("%!(BADWIDTH)", r, false, bad)
  | None =>
      let '(w, r) := parsenum None l in ("", r, after, bad || (after && bool_decide (is_Some w)))
  end.

Definition precision0 (l : list Z) (after bad : bool) : string * list Z * bool * bool :=
  match eat 46 l with
  | Some r =>
      let '(r, after', bad') := arg_number r in
      let bad := bad || after || bad' in
      match eat 42 r with
      | Some r' => ("%!(BADPREC)", r', false, bad)
      | None => ("", (parsenum None r).2, after', bad)
      end
  | None => ("", l, after, bad)
  end.

(** The verb after a percent sign: what is printed, and the input that follows ([None]: the
    format ended without a verb). *)
Definition verb0 (l : list Z) : string * option (list Z) :=
  let '(l, after, bad) := arg_number (drop_while is_flag l) in
  let '(out1, l, after, bad) := width0 l after bad in
  let '(out2, l, after, bad) := precision0 l after bad in
  let '(l, bad) :=
    if after then (l, bad) else let '(l', _, bad') := arg_number l in (l', bad || bad') in
  match l with
  | [] => (out1 +:+ out2 +:+ "%!(NOVERB)", None)
  | _ =>
      let '(rune, w) := decode_rune l in
      let text := if (rune =? rune_error) && (w =? 1)%nat then of_bytes [239; 191; 189]
                  else of_bytes (take w l) in
      (out1 +:+ out2 +:+ (if rune =? 37 then "%"
                          else if bad then "%!" +:+ text +:+ "(BADINDEX)"
                          else "%!" +:+ text +:+ "(MISSING)"),
       Some (drop w l))
  end.

(** A verb consumes at least one byte, so the length of the format is enough fuel. *)
Fixpoint print0 (fuel : nat) (l : list Z) : string :=
  match fuel, l with
  | S f, c :: r =>
      if c =? 37 then
        let '(out, rest) := verb0 r in
        out +:+ match rest with Some rest => print0 f rest | None => "" end
      else String (chr c) (print0 f r)
  | _, _ => ""
  end.

Definition format0 (s : string) : string := print0 (String.length s) (bytes s).

Example format0_percent : format0 "disk 90% full, 5%d, 100%% %" =
  "disk 90%!f(MISSING)ull, 5%!d(MISSING), 100% %!(NOVERB)".
Proof. reflexivity. Qed.

(** A verb consumes input: no round is lost to the fuel. *)
Lemma drop_while_length {A} (p : A → bool) l : (length (drop_while p l) ≤ length l)%nat.
Proof. induction l as [|x l IH]; cbn; [done|]. destruct (p x); cbn; lia. Qed.

Lemma span_length {A} (p : A → bool) l :
  (length (span p l).1 + length (span p l).2 = length l)%nat.
Proof.
  induction l as [|x l IH]; cbn; [done|]. destruct (p x); [|done].
  destruct (span p l). cbn in *. lia.
Qed.

Lemma parsenum_length l n : (length (parsenum n l).2 ≤ length l)%nat.
Proof.
  revert n. induction l as [|c l IH]; intros n; cbn; [done|].
  destruct (is_digit c); [|done]. destruct (_ <? _); cbn; [lia|]. etransitivity; [apply IH|lia].
Qed.

Lemma eat_length c l : match eat c l with Some r => length l = S (length r) | None => True end.
Proof. destruct l as [|x l]; cbn; [done|]. by destruct (x =? c). Qed.

Lemma arg_number_length l : (length (arg_number l).1.1 ≤ length l)%nat.
Proof.
  unfold arg_number. pose proof (eat_length 91 l) as He. destruct (eat 91 l) as [inner|]; [|done].
  pose proof (span_length (λ c, negb (c =? 93)) inner) as Hs.
  destruct (span _ inner) as [ds rest]. cbn in Hs. destruct rest as [|x after]; cbn in *; [lia|].
  case_match; [cbn; lia|]. destruct (parsenum None ds) as [[|] [|]]; cbn; lia.
Qed.

Lemma width0_length l after bad : (length (width0 l after bad).1.1.2 ≤ length l)%nat.
Proof.
  unfold width0. pose proof (eat_length 42 l) as He. destruct (eat 42 l); [cbn; lia|].
  pose proof (parsenum_length l None). by destruct (parsenum None l).
Qed.

Lemma precision0_length l after bad : (length (precision0 l after bad).1.1.2 ≤ length l)%nat.
Proof.
  unfold precision0. pose proof (eat_length 46 l) as He. destruct (eat 46 l) as [r|]; [|done].
  pose proof (arg_number_length r) as Ha. destruct (arg_number r) as [[r1 a1] b1]. cbn in Ha.
  pose proof (eat_length 42 r1) as He1. destruct (eat 42 r1); cbn; [lia|].
  pose proof (parsenum_length r1 None). lia.
Qed.

Lemma verb0_length l : match (verb0 l).2 with Some r => (length r ≤ length l)%nat | None => True end.
Proof.
  unfold verb0. pose proof (drop_while_length is_flag l) as H0.
  pose proof (arg_number_length (drop_while is_flag l)) as H1.
  destruct (arg_number (drop_while is_flag l)) as [[l1 a1] b1]. cbn in H1.
  pose proof (width0_length l1 a1 b1) as H2. destruct (width0 l1 a1 b1) as [[[o2 l2] a2] b2].
  cbn in H2. pose proof (precision0_length l2 a2 b2) as H3.
  destruct (precision0 l2 a2 b2) as [[[o3 l3] a3] b3]. cbn in H3.
  pose proof (arg_number_length l3) as H4. destruct (arg_number l3) as [[l4 a4] b4]. cbn in H4.
  assert (∀ (m : list Z) w, (length m ≤ length l)%nat → (length (drop w m) ≤ length l)%nat) as Hd
    by (intros; rewrite length_drop; lia).
  destruct a3; [destruct l3 | destruct l4]; try done; destruct (decode_rune _) as [rune w];
    cbn [snd]; apply Hd; lia.
Qed.

Lemma print0_fuel f k : ∀ l, (length l ≤ f)%nat → print0 (f + k) l = print0 f l.
Proof.
  induction f as [|f IH]; intros [|c r] Hl; cbn in Hl; [by destruct k|lia|done|].
  cbn [Nat.add print0]. destruct (c =? 37); [|f_equal; apply IH; lia].
  pose proof (verb0_length r) as Hv. destruct (verb0 r) as [out [rest|]]; [|done].
  f_equal. apply IH. cbn in Hv. lia.
Qed.

(** A text without a percent sign is printed as it is. *)
Lemma format0_plain s : Forall (λ c, c ≠ 37) (bytes s) → format0 s = s.
Proof.
  unfold format0. induction s as [|c s IH]; cbn; [done|]. intros [Hc Hs]%Forall_cons.
  apply Z.eqb_neq in Hc. by rewrite Hc, chr_code, IH.
Qed.

(** scanOne for a [*int] and the verb [%d]: the value and the rest of the input. *)
Definition scan_int (l : list Z) : option (Z * list Z) :=
  match skip_space l with
  | None | Some [] => None
  | Some (c :: r) =>
      let '(sign, l1) := if (c =? 43) || (c =? 45) then ([c], r) else ([], c :: r) in
      match span is_digit l1 with
      | ([], _) => None
      | (ds, rest) =>
          match ParseInt (of_bytes (sign ++ ds)) 10 with
          | (v, None) => Some (v, rest)
          | _ => None
          end
      end
  end.

(** [verbs] more [%d] separated by dots: the values stored before the first mismatch.  The count
    Sscanf returns is the length of the list. *)
Fixpoint scan_dotted (verbs : nat) (l : list Z) : list Z :=
  match verbs with
  | O => []
  | S n =>
      match scan_int l with
      | None => []
      | Some (v, rest) =>
          v :: match n, rest with
               | S _, c :: rest' => if c =? 46 then scan_dotted n rest' else []
               | _, _ => []
               end
      end
  end.

Definition Sscanf4 (s : string) : list Z := scan_dotted 4 (runes s).

Example Sscanf4_ip : Sscanf4 "192.168.4.241/28" = [192; 168; 4; 241].
Proof. reflexivity. Qed.
Example Sscanf4_loose : Sscanf4 " +1.-2.3" = [1; -2; 3].
Proof. reflexivity. Qed.

(** ** Round trips of the decimal printer *)

Lemma digit_char_10 d : 0 ≤ d < 10 → code (digit_char d) = 48 + d.
Proof.
  intros. unfold digit_char. destruct (Z.ltb_spec d 10); [|lia]. apply code_chr. lia.
Qed.

Lemma digit_val_digit_char d : 0 ≤ d < 16 → digit_val (code (digit_char d)) = Some d.
Proof.
  intros Hd. assert (forallb (λ d, bool_decide (digit_val (code (digit_char d)) = Some d))
    (seqZ 0 16) = true) as H by (vm_compute; done).
  rewrite forallb_forall in H. specialize (H d).
  apply (bool_decide_unpack _), Is_true_true, H, list_elem_of_In, elem_of_seqZ. lia.
Qed.

Section base.
Context (base : Z) (Hbase : 2 ≤ base ≤ 16).

Lemma fmt_digits_all (P : ascii → Prop) fuel n acc :
  (∀ d, 0 ≤ d < base → P (digit_char d)) →
  Forall (λ z, ∃ c, code c = z ∧ P c) (bytes acc) →
  Forall (λ z, ∃ c, code c = z ∧ P c) (bytes (fmt_digits base fuel n acc)).
Proof using Hbase.
  intros HP. revert n acc. induction fuel as [|f IH]; intros n acc Hacc; cbn; [done|].
  assert (Forall (λ z, ∃ c, code c = z ∧ P c)
            (bytes (String (digit_char (n mod base)) acc))) as Hacc'.
  { cbn. constructor; [|done]. eexists. split; [done|]. apply HP.
    apply Z.mod_pos_bound. lia. }
  destruct (n / base =? 0); [done | by apply IH].
Qed.

Lemma fmt_digits_nonempty fuel n acc :
  (0 < fuel)%nat → bytes (fmt_digits base fuel n acc) ≠ [].
Proof using Type.
  intros Hf. assert (∀ f m a, bytes a ≠ [] → bytes (fmt_digits base f m a) ≠ []) as H.
  { induction f as [|f IH]; intros m a Ha; cbn; [done|].
    destruct (m / base =? 0); [done | by apply IH]. }
  destruct fuel as [|f]; [lia|]. cbn. destruct (n / base =? 0); [done | by apply H].
Qed.

(** Parsing back what the printer pushed in front of [acc]. *)
Lemma parse_fmt_digits fuel n acc :
  0 ≤ n < 2 ^ 64 → n < base ^ Z.of_nat fuel →
  parse_uint base 0 (bytes (fmt_digits base fuel n acc)) = parse_uint base n (bytes acc).
Proof using Hbase.
  revert n acc. induction fuel as [|f IH]; intros n acc Hn Hf.
  { change (base ^ Z.of_nat 0) with 1 in Hf. by replace n with 0 by lia. }
  assert (0 ≤ n mod base < base) by (apply Z.mod_pos_bound; lia).
  assert (n = base * (n / base) + n mod base) as Hdm by (apply Z.div_mod; lia).
  assert (∀ v, v * base + n mod base = n →
    parse_uint base v (bytes (String (digit_char (n mod base)) acc))
    = parse_uint base n (bytes acc)) as Hstep.
  { intros v Hv. cbn [bytes parse_uint]. rewrite digit_val_digit_char by lia.
    destruct (Z.ltb_spec (n mod base) base); [|lia]. rewrite Hv.
    destruct (Z.leb_spec (2 ^ 64) n); [lia|done]. }
  cbn [fmt_digits]. destruct (Z.eqb_spec (n / base) 0) as [E|E].
  { apply Hstep. lia. }
  assert (0 ≤ n / base) by (apply Z.div_pos; lia).
  rewrite IH.
  - apply Hstep. lia.
  - split; [lia|]. eapply Z.le_lt_trans; [|apply Hn]. apply Z.div_le_upper_bound; [lia|]. nia.
  - rewrite Nat2Z.inj_succ, Z.pow_succ_r in Hf by lia.
    apply Z.div_lt_upper_bound; [lia|]. lia.
Qed.

Lemma fmt_fuel_enough n : 0 ≤ n → n < base ^ Z.of_nat (fmt_fuel n).
Proof using Hbase.
  intros Hn. unfold fmt_fuel. destruct (Z.eq_dec n 0) as [->|]; [cbn; lia|].
  destruct (Z.log2_spec n) as [_ H]; [lia|].
  eapply Z.lt_le_trans; [exact H|].
  rewrite Nat2Z.inj_succ, Z2Nat.id by apply Z.log2_nonneg.
  apply Z.pow_le_mono_l. lia.
Qed.

Lemma parse_format_uint n :
  0 ≤ n < 2 ^ 64 → parse_uint base 0 (bytes (format_uint base n)) = (n, None).
Proof using Hbase.
  intros. unfold format_uint. rewrite parse_fmt_digits; [done|done|].
  apply fmt_fuel_enough. lia.
Qed.

Lemma format_uint_nonempty n : bytes (format_uint base n) ≠ [].
Proof using Type. apply fmt_digits_nonempty. unfold fmt_fuel. lia. Qed.
End base.

Lemma format_uint_digits n : Forall (λ z, is_digit z = true) (bytes (format_uint 10 n)).
Proof.
  eapply Forall_impl.
  - apply (fmt_digits_all 10 ltac:(lia) (λ c, is_digit (code c) = true)); [|constructor].
    intros d Hd. rewrite digit_char_10 by done. unfold is_digit, between.
    apply andb_true_intro. split; apply Z.leb_le; lia.
  - intros z (c & <- & H). exact H.
Qed.

Lemma format_uint_inj n m :
  0 ≤ n < 2 ^ 64 → 0 ≤ m < 2 ^ 64 → format_uint 10 n = format_uint 10 m → n = m.
Proof.
  intros Hn Hm E. pose proof (parse_format_uint 10 ltac:(lia) n Hn) as H.
  rewrite E, parse_format_uint in H by done. congruence.
Qed.

Lemma Itoa_nonneg n : 0 ≤ n → Itoa n = format_uint 10 n.
Proof. intros. unfold Itoa. destruct (Z.ltb_spec n 0); [lia|done]. Qed.

(** ** Round trip of the dotted-quad scanner *)

Lemma bytes_app s t : bytes (s +:+ t) = (bytes s ++ bytes t)%list.
Proof. induction s as [|c s IH]; cbn; [done|]. by rewrite IH. Qed.

Lemma bytes_of_bytes l : Forall (λ z, 0 ≤ z < 256) l → bytes (of_bytes l) = l.
Proof.
  induction 1 as [|z l Hz _ IH]; cbn; [done|]. by rewrite code_chr, IH.
Qed.

Lemma bytes_inj s t : bytes s = bytes t → s = t.
Proof. intros H. by rewrite <-(of_bytes_bytes s), H, of_bytes_bytes. Qed.

Lemma is_digit_range z : is_digit z = true → 48 ≤ z ≤ 57.
Proof. unfold is_digit, between. intros [H1 H2]%andb_prop. lia. Qed.

(** The input does not continue the number that was just scanned. *)
Definition no_digit_head (l : list Z) : Prop :=
  match l with z :: _ => is_digit z = false | [] => True end.

Lemma span_digits ds rest :
  Forall (λ z, is_digit z = true) ds → no_digit_head rest →
  span is_digit (ds ++ rest)%list = (ds, rest).
Proof.
  intros H Hr. induction H as [|z ds Hz _ IH]; simpl.
  - destruct rest as [|z r]; simpl; [done|]. by rewrite Hr.
  - by rewrite Hz, IH.
Qed.

Lemma digit_not_space z : is_digit z = true → (z =? 10) = false ∧ is_space z = false.
Proof.
  intros H%is_digit_range. unfold is_space, between. split; [lia|].
  repeat (apply orb_false_intro); lia.
Qed.

(** Scanning an optional minus sign and digits. *)
Lemma scan_int_digits (neg : bool) un ds rest :
  ds ≠ [] → Forall (λ z, is_digit z = true) ds → no_digit_head rest →
  parse_uint 10 0 ds = (un, None) → (if neg then un <= 2 ^ 63 else un < 2 ^ 63) →
  scan_int ((if neg then [45] else []) ++ ds ++ rest)%list
    = Some (if neg then - un else un, rest).
Proof.
  intros Hne Hds Hrest Hp Hn. destruct ds as [|z ds]; [done|].
  pose proof Hds as Hds'. apply Forall_cons in Hds' as [Hz _].
  destruct (digit_not_space z Hz) as [E1 E2].
  assert (Forall (λ z, 0 ≤ z < 256) (z :: ds)) as Hb.
  { eapply Forall_impl; [exact Hds|]. intros y Hy%is_digit_range. lia. }
  pose proof (is_digit_range z Hz) as Hz'.
  assert ((z =? 43) || (z =? 45) = false) as Es by (apply orb_false_intro; lia).
  assert ((z =? 45) || (z =? 43) = false) as Es' by (apply orb_false_intro; lia).
  assert ((z =? 45) = false) as Ez by lia.
  destruct neg; unfold scan_int.
  - simpl skip_space. cbv beta iota. change ((45 =? 43) || (45 =? 45)) with true. cbv iota.
    change (z :: ds ++ rest)%list with ((z :: ds) ++ rest)%list.
    rewrite span_digits by done. cbv iota. unfold ParseInt.
    rewrite bytes_of_bytes by (constructor; [lia | done]).
    change ((45 =? 45) || (45 =? 43)) with true. simpl app. cbv beta iota zeta.
    change (45 =? 45) with true. change (45 =? 43) with false. simpl orb. cbv beta iota.
    rewrite Hp. simpl negb.
    rewrite andb_false_l, andb_true_l. destruct (Z.ltb_spec (2 ^ 63) un); [lia|done].
  - simpl skip_space. rewrite E1, E2. cbv beta iota. rewrite Es.
    change (z :: ds ++ rest)%list with ((z :: ds) ++ rest)%list.
    rewrite span_digits by done. cbv iota. unfold ParseInt.
    rewrite bytes_of_bytes by done. simpl app. cbv beta iota zeta. rewrite Es'.
    cbv beta iota. rewrite Hp, Ez. simpl negb. rewrite andb_true_l, andb_false_l.
    destruct (Z.leb_spec (2 ^ 63) un); [lia|done].
Qed.

Definition is_int64 (n : Z) : Prop := min_int64 ≤ n ≤ max_int64.

Lemma scan_int_Itoa n rest :
  is_int64 n → no_digit_head rest →
  scan_int (bytes (Itoa n) ++ rest)%list = Some (n, rest).
Proof.
  unfold is_int64, min_int64, max_int64. intros Hn Hr. unfold Itoa.
  destruct (Z.ltb_spec n 0).
  - cbn [bytes]. change (code dash) with 45.
    rewrite <-app_comm_cons. change (45 :: ?l)%list with ([45] ++ l)%list.
    rewrite (scan_int_digits true (- n)); [f_equal; f_equal; lia|..];
      auto using format_uint_nonempty, format_uint_digits; [|lia].
    apply parse_format_uint; lia.
  - apply (scan_int_digits false n); auto using format_uint_nonempty, format_uint_digits;
      [apply parse_format_uint; lia | lia].
Qed.

Lemma is_ascii_app s t : is_ascii (s +:+ t) = is_ascii s && is_ascii t.
Proof. unfold is_ascii. by rewrite bytes_app, forallb_app. Qed.

Lemma is_ascii_format_uint n : is_ascii (format_uint 10 n) = true.
Proof.
  unfold is_ascii. apply forallb_forall.
  intros z Hz. pose proof (format_uint_digits n) as HF. rewrite Forall_forall in HF.
  apply list_elem_of_In, HF, is_digit_range in Hz. lia.
Qed.

Lemma is_ascii_Itoa n : is_ascii (Itoa n) = true.
Proof.
  unfold Itoa. destruct (n <? 0); [|apply is_ascii_format_uint].
  apply (is_ascii_format_uint (- n)).
Qed.

(** The text of an IPv4 address. *)
Definition quad (a b c d : Z) : string :=
  Itoa a +:+ "." +:+ Itoa b +:+ "." +:+ Itoa c +:+ "." +:+ Itoa d.

Lemma Sscanf4_quad a b c d rest :
  is_int64 a → is_int64 b → is_int64 c → is_int64 d →
  is_ascii rest = true → no_digit_head (bytes rest) →
  Sscanf4 (quad a b c d +:+ rest) = [a; b; c; d].
Proof.
  intros Ha Hb Hc Hd Hasc Hr. unfold Sscanf4, quad. rewrite runes_ascii.
  2:{ rewrite !is_ascii_app, !is_ascii_Itoa, Hasc. done. }
  rewrite !bytes_app, <-!app_assoc. change (bytes ".") with [46].
  unfold scan_dotted.
  do 3 (rewrite scan_int_Itoa by done; simpl app; cbv iota; change (46 =? 46) with true;
        cbv iota).
  rewrite scan_int_Itoa by done. by destruct (bytes rest).
Qed.

(** Every value the scanner stores is an int64. *)
Lemma parse_uint_nonneg base acc s : 0 ≤ base → 0 ≤ acc → 0 ≤ (parse_uint base acc s).1.
Proof.
  intros Hb. revert acc. induction s as [|c s IH]; intros acc Ha; cbn [parse_uint]; [done|].
  destruct (digit_val c) as [d|] eqn:E; [|done].
  destruct (d <? base); [|done]. destruct (2 ^ 64 <=? acc * base + d); [done|].
  apply IH. unfold digit_val, between in E.
  repeat case_match; simplify_eq; rewrite andb_true_iff in *; nia.
Qed.

Lemma ParseInt_int64 s n : ParseInt s 10 = (n, None) → is_int64 n.
Proof.
  unfold ParseInt, is_int64, min_int64, max_int64. destruct (bytes s) as [|c r]; [done|].
  set (ds := if (c =? 45) || (c =? 43) then r else c :: r).
  pose proof (parse_uint_nonneg 10 0 ds ltac:(lia) ltac:(lia)) as Hn.
  destruct ds; [done|]. destruct (parse_uint 10 0 _) as [un [[]|]]; [done|..];
    simpl in Hn; destruct (c =? 45); simpl negb;
    rewrite ?andb_true_l, ?andb_false_l; intros H; case_match; simplify_eq; lia.
Qed.

Lemma scan_int_int64 l n rest : scan_int l = Some (n, rest) → is_int64 n.
Proof.
  unfold scan_int. intros H. repeat (case_match; simplify_eq); by eapply ParseInt_int64.
Qed.

Lemma scan_dotted_int64 k l : Forall is_int64 (scan_dotted k l).
Proof.
  revert l. induction k as [|k IH]; intros l; [constructor|]. cbn [scan_dotted].
  destruct (scan_int l) as [[v rest]|] eqn:E; [|constructor].
  constructor; [by eapply scan_int_int64|].
  destruct k; [constructor|]. destruct rest as [|c r]; [constructor|].
  destruct (c =? 46); [apply IH | constructor].
Qed.

(** ** Package encoding/base64: StdEncoding *)

(** The character of a 6-bit value, and its inverse. *)
Definition b64_char (v : Z) : Z :=
  if v <? 26 then 65 + v
  else if v <? 52 then 71 + v
  else if v <? 62 then v - 4
  else if v =? 62 then 43 else 47.

Definition b64_val (c : Z) : option Z :=
  if between 65 90 c then Some (c - 65)
  else if between 97 122 c then Some (c - 71)
  else if between 48 57 c then Some (c + 4)
  else if c =? 43 then Some 62
  else if c =? 47 then Some 63
  else None.

Definition b64_pad : Z := 61.

Fixpoint b64_encode (l : list Z) : list Z :=
  match l with
  | a :: b :: c :: r =>
      b64_char (a / 4) :: b64_char (a mod 4 * 16 + b / 16)
        :: b64_char (b mod 16 * 4 + c / 64) :: b64_char (c mod 64) :: b64_encode r
  | [a; b] => [b64_char (a / 4); b64_char (a mod 4 * 16 + b / 16);
               b64_char (b mod 16 * 4); b64_pad]
  | [a] => [b64_char (a / 4); b64_char (a mod 4 * 16); b64_pad; b64_pad]
  | [] => []
  end.

Definition EncodeToString (s : string) : string := of_bytes (b64_encode (bytes s)).

(** DecodeString on what the encoder produces (the decoder runs in Gitea and in the API server,
    not here: it serves to state the round trip). *)
Fixpoint b64_decode (l : list Z) : option (list Z) :=
  match l with
  | [] => Some []
  | w :: x :: y :: z :: r =>
      match b64_val w, b64_val x with
      | Some w, Some x =>
          let a := w * 4 + x / 16 in
          match b64_val y with
          | Some y =>
              let b := x mod 16 * 16 + y / 4 in
              match b64_val z with
              | Some z => rest ← b64_decode r; Some (a :: b :: (y mod 4 * 64 + z) :: rest)
              | None => if (z =? b64_pad) && bool_decide (r = []) then Some [a; b] else None
              end
          | None => if (y =? b64_pad) && (z =? b64_pad) && bool_decide (r = [])
                    then Some [a] else None
          end
      | _, _ => None
      end
  | _ => None
  end.

Definition DecodeString (s : string) : option string := of_bytes <$> b64_decode (bytes s).

Lemma b64_val_char v : 0 ≤ v < 64 → b64_val (b64_char v) = Some v.
Proof.
  intros Hv.
  assert (∀ k, (k < 64)%nat → b64_val (b64_char (Z.of_nat k)) = Some (Z.of_nat k)) as H.
  { intros k Hk. do 64 (destruct k as [|k]; [reflexivity|]). lia. }
  specialize (H (Z.to_nat v)). rewrite Z2Nat.id in H by lia. apply H. lia.
Qed.

Lemma b64_char_byte v : 0 ≤ v < 64 → 0 ≤ b64_char v < 256.
Proof.
  intros. unfold b64_char. repeat case_match; lia.
Qed.

Definition is_byte (z : Z) : Prop := 0 ≤ z < 256.

Lemma bytes_are_bytes s : Forall is_byte (bytes s).
Proof. induction s; cbn; constructor; [apply code_range | done]. Qed.

(** The list is consumed three bytes at a time. *)
Lemma three_ind (P : list Z → Prop) :
  P [] → (∀ a, P [a]) → (∀ a b, P [a; b]) →
  (∀ a b c r, P r → P (a :: b :: c :: r)) → ∀ l, P l.
Proof.
  intros H0 H1 H2 H3. fix IH 1. intros [|a [|b [|c r]]].
  - exact H0.
  - apply H1.
  - apply H2.
  - apply H3, IH.
Qed.

Ltac b64_arith := unfold is_byte in *; Z.div_mod_to_equations; lia.

Lemma b64_decode_encode l : Forall is_byte l → b64_decode (b64_encode l) = Some l.
Proof.
  induction l as [|a|a b|a b c r IH] using three_ind; intros H;
    repeat (apply Forall_cons in H as [? H]); cbn [b64_encode b64_decode]; [done|..].
  - rewrite !b64_val_char by b64_arith. cbn. do 2 f_equal. b64_arith.
  - rewrite !b64_val_char by b64_arith. cbn.
    f_equal. f_equal; [b64_arith|]. f_equal. b64_arith.
  - rewrite !b64_val_char by b64_arith. rewrite IH by done. cbn.
    f_equal. f_equal; [b64_arith|]. f_equal; [b64_arith|]. f_equal. b64_arith.
Qed.

Lemma b64_encode_bytes l : Forall is_byte l → Forall is_byte (b64_encode l).
Proof.
  induction l as [|a|a b|a b c r IH] using three_ind; intros H;
    repeat (apply Forall_cons in H as [? H]); cbn [b64_encode];
    repeat constructor;
    first [by apply IH | unfold b64_pad; lia
          | apply b64_char_byte; b64_arith].
Qed.

(** Decoding what [EncodeToString] produced gives the text back, for every text. *)
Lemma DecodeString_EncodeToString s : DecodeString (EncodeToString s) = Some s.
Proof.
  unfold DecodeString, EncodeToString.
  rewrite bytes_of_bytes by apply b64_encode_bytes, bytes_are_bytes.
  rewrite b64_decode_encode by apply bytes_are_bytes. cbn. by rewrite of_bytes_bytes.
Qed.

Example EncodeToString_hi : EncodeToString "hi there" = "aGkgdGhlcmU=".
Proof. reflexivity. Qed.

(** ** Substrings and splitting *)

Lemma HasPrefix_app s t : HasPrefix (s +:+ t) s = true.
Proof. induction s as [|c s IH]; simpl; [by destruct t|]. by rewrite Ascii.eqb_refl. Qed.

Lemma HasPrefix_refl s : HasPrefix s s = true.
Proof. rewrite <-(string_app_nil_r s) at 1. apply HasPrefix_app. Qed.

Lemma drop_bytes_app s t : drop_bytes (String.length s) (s +:+ t) = t.
Proof. by induction s as [|c s IH]. Qed.

Lemma Contains_prefix s sub : HasPrefix s sub = true → Contains s sub = true.
Proof. destruct s; simpl; intros ->; done. Qed.

Lemma Contains_cons c s sub : Contains s sub = true → Contains (String c s) sub = true.
Proof. intros H. cbn [Contains]. rewrite H. apply orb_true_r. Qed.

Lemma Contains_app_r s t sub : Contains t sub = true → Contains (s +:+ t) sub = true.
Proof. intros H. induction s as [|c s IH]; cbn [String.append]; [done|]. by apply Contains_cons. Qed.

Lemma HasPrefix_app_l s t sub : HasPrefix s sub = true → HasPrefix (s +:+ t) sub = true.
Proof.
  revert s. induction sub as [|a sub IH]; intros s; [by destruct (s +:+ t)|].
  destruct s as [|b s]; [done|]. simpl. destruct (Ascii.eqb a b); [apply IH|done].
Qed.

Lemma Contains_app_l s t sub : Contains s sub = true → Contains (s +:+ t) sub = true.
Proof.
  induction s as [|c s IH]; intros H.
  - apply Contains_prefix. change (HasPrefix ("" +:+ t) sub = true). apply HasPrefix_app_l.
    cbn in H. by rewrite orb_false_r in H.
  - cbn [Contains] in H. apply orb_true_iff in H as [H|H].
    + apply Contains_prefix. by apply HasPrefix_app_l.
    + cbn [String.append]. by apply Contains_cons, IH.
Qed.

(** Walks along an evaluated template to the searched text. *)
Ltac find_text :=
  repeat first
    [ apply Contains_prefix; first [reflexivity | apply HasPrefix_app | apply HasPrefix_refl]
    | apply Contains_cons | apply Contains_app_r ].

(** A separator that does not occur in [x] is not found there. *)
Lemma split_from_word sep cur x rest :
  Forall (λ z, z ≠ code sep) (bytes x) →
  split_from sep cur (x +:+ String sep rest) = (cur +:+ x) :: split_from sep "" rest.
Proof.
  revert cur. induction x as [|c x IH]; intros cur H; cbn [String.append split_from bytes].
  - by rewrite Ascii.eqb_refl, string_app_nil_r.
  - apply Forall_cons in H as [Hc H]. destruct (Ascii.eqb_spec c sep); [congruence|].
    rewrite IH by done. by rewrite string_app_assoc.
Qed.

Lemma split_from_last sep cur x :
  Forall (λ z, z ≠ code sep) (bytes x) → split_from sep cur x = [cur +:+ x].
Proof.
  revert cur. induction x as [|c x IH]; intros cur H; cbn [String.append split_from bytes].
  - by rewrite string_app_nil_r.
  - apply Forall_cons in H as [Hc H]. destruct (Ascii.eqb_spec c sep); [congruence|].
    rewrite IH by done. by rewrite string_app_assoc.
Qed.

Lemma Itoa_no_dot n : 0 ≤ n → Forall (λ z, z ≠ code dot) (bytes (Itoa n)).
Proof.
  intros Hn. rewrite Itoa_nonneg by done. eapply Forall_impl; [apply format_uint_digits|].
  intros z Hz%is_digit_range. change (code dot) with 46. lia.
Qed.

(** A printed address splits into its four printed octets. *)
Lemma Split_dotted a b c d :
  0 ≤ a → 0 ≤ b → 0 ≤ c → 0 ≤ d →
  Split (Sprintf "%d.%d.%d.%d" [FInt a; FInt b; FInt c; FInt d]) dot
  = [Itoa a; Itoa b; Itoa c; Itoa d].
Proof.
  intros. eval_sprintf. rewrite string_app_nil_r. unfold Split.
  change (String (Ascii.Ascii false true true true false true false false) ?x)
    with (String dot x).
  rewrite !split_from_word, split_from_last by by apply Itoa_no_dot. done.
Qed.

(** The two hexadecimal digits of an octet. *)
Definition hex2 (n : Z) : string := Sprintf "%02x" [FInt n].

Definition hex2_ok (n : Z) : bool :=
  String.eqb (hex2 n) (String (digit_char (n / 16)) (String (digit_char (n mod 16)) "")).

Lemma hex2_digits n :
  0 ≤ n < 256 → hex2 n = String (digit_char (n / 16)) (String (digit_char (n mod 16)) "").
Proof.
  intros Hn. assert (forallb hex2_ok (seqZ 0 256) = true) as H by (vm_compute; done).
  rewrite forallb_forall in H. apply String.eqb_eq, (H n), list_elem_of_In, elem_of_seqZ. lia.
Qed.

Lemma digit_char_inj a b : 0 ≤ a < 16 → 0 ≤ b < 16 → digit_char a = digit_char b → a = b.
Proof.
  unfold digit_char. intros Ha Hb E. apply (f_equal code) in E.
  destruct (Z.ltb_spec a 10), (Z.ltb_spec b 10);
    rewrite !code_chr in E by lia; lia.
Qed.

Lemma hex2_inj a b s t :
  0 ≤ a < 256 → 0 ≤ b < 256 → hex2 a +:+ s = hex2 b +:+ t → a = b ∧ s = t.
Proof.
  intros Ha Hb. rewrite !hex2_digits by done. cbn [String.append]. intros [= E1 E2 E3].
  pose proof (Z.mod_pos_bound a 16 ltac:(lia)). pose proof (Z.mod_pos_bound b 16 ltac:(lia)).
  pose proof (Z.div_mod a 16 ltac:(lia)). pose proof (Z.div_mod b 16 ltac:(lia)).
  apply digit_char_inj in E1; [|lia..]. apply digit_char_inj in E2; [|lia..].
  split; [lia | done].
Qed.

(** ** Hexadecimal numbers *)

Definition is_hex (z : Z) : bool := between 48 57 z || between 97 102 z.

Lemma format_hex_digits n : Forall (λ z, is_hex z = true) (bytes (format_uint 16 n)).
Proof.
  eapply Forall_impl.
  - apply (fmt_digits_all 16 ltac:(lia) (λ c, is_hex (code c) = true)); [|constructor].
    intros d Hd. unfold digit_char, is_hex, between.
    destruct (Z.ltb_spec d 10); rewrite code_chr by lia; lia.
  - intros z (c & <- & H). exact H.
Qed.

(** A printed hexadecimal number carries no 0x prefix and parses back. *)
Lemma ParseInt_hex n :
  0 ≤ n < 2 ^ 63 → ParseInt (TrimPrefix (format_uint 16 n) "0x") 16 = (n, None).
Proof.
  intros Hn. pose proof (format_hex_digits n) as Hh.
  pose proof (format_uint_nonempty 16 n) as Hne.
  pose proof (parse_format_uint 16 ltac:(lia) n ltac:(lia)) as Hp.
  assert (HasPrefix (format_uint 16 n) "0x" = false) as Hx.
  { destruct (format_uint 16 n) as [|a [|b s]]; cbn [HasPrefix]; [done|by destruct (Ascii.eqb _ _)|].
    destruct (Ascii.eqb "0" a); [|done]. destruct (Ascii.eqb_spec "x" b) as [<-|]; [|done].
    apply Forall_cons in Hh as [_ Hh]. apply Forall_cons in Hh as [Hh _]. discriminate. }
  unfold TrimPrefix. rewrite Hx. unfold ParseInt.
  destruct (bytes (format_uint 16 n)) as [|c r]; [done|].
  apply Forall_cons in Hh as [Hc _]. unfold is_hex, between in Hc.
  replace (c =? 45) with false by lia. replace (c =? 43) with false by lia. simpl orb.
  cbv iota. rewrite Hp. simpl negb. rewrite andb_true_l, andb_false_l.
  destruct (Z.leb_spec (2 ^ 63) n); [lia|done].
Qed.
