(* ===== verification/Net.v ===== *)
(** * IPv4 text: the part of package net the operator uses

    [ParseIP4] and [ParseCIDR4] are net.ParseIP and net.ParseCIDR on dotted-quad text; text whose
    first separator is a colon parses to [None] here, IPv6 is the subject of Host.v.  An address
    is its 32-bit value.  [overlap] is the specification-level notion the addressing plan is
    checked against: two prefixes share an address. *)

From S2P Require Import Prelude GoText.

(** One decimal octet: digits, no leading zero, at most 255. *)
Definition parse_octet (s : string) : option Z :=
  match bytes s with
  | [] => None
  | c :: r =>
      if forallb is_digit (c :: r) && (negb (c =? 48) || bool_decide (r = []))
      then match parse_uint 10 0 (c :: r) with
           | (v, None) => if v <=? 255 then Some v else None
           | _ => None
           end
      else None
  end.

Definition addr4 (a b c d : Z) : Z := a * 16777216 + b * 65536 + c * 256 + d.

Definition ParseIP4 (s : string) : option Z :=
  match Split s dot with
  | [a; b; c; d] =>
      a ← parse_octet a; b ← parse_octet b; c ← parse_octet c; d ← parse_octet d;
      Some (addr4 a b c d)
  | _ => None
  end.

(** An address and the length of its prefix. *)
Record prefix4 := Prefix4 { p_addr : Z; p_len : Z }.

#[export] Instance prefix4_eq_dec : EqDecision prefix4.
Proof. solve_decision. Defined.

(** The text before and after the first slash. *)
Fixpoint cut_slash (pre s : string) : option (string * string) :=
  match s with
  | "" => None
  | String c r => if code c =? 47 then Some (pre, r) else cut_slash (pre +:+ String c "") r
  end.

Definition ParseCIDR4 (s : string) : option prefix4 :=
  '(a, m) ← cut_slash "" s;
  ip ← ParseIP4 a;
  match bytes m with
  | [] => None
  | _ =>
      if forallb is_digit (bytes m) then
        match parse_uint 10 0 (bytes m) with
        | (n, None) => if n <=? 32 then Some (Prefix4 ip n) else None
        | _ => None
        end
      else None
  end.

(** ** Prefixes as sets of addresses *)

Definition block (p : prefix4) : Z := 2 ^ (32 - p_len p).
(** The network address: the host bits cleared. *)
Definition network (p : prefix4) : Z := p_addr p - p_addr p mod block p.
Definition in_prefix (p : prefix4) (a : Z) : Prop := network p ≤ a < network p + block p.
Definition overlap (p q : prefix4) : Prop := ∃ a, in_prefix p a ∧ in_prefix q a.

(** Executable test: two aligned blocks meet iff one network address lies in the other. *)
Definition disjointb (p q : prefix4) : bool :=
  (network p + block p <=? network q) || (network q + block q <=? network p).

Lemma disjointb_spec p q : disjointb p q = true → ¬ overlap p q.
Proof.
  unfold disjointb, overlap, in_prefix. intros [H|H]%orb_true_iff (a & H1 & H2); lia.
Qed.

Lemma overlap_refl p : 0 ≤ p_len p ≤ 32 → overlap p p.
Proof.
  intros. exists (network p). unfold in_prefix.
  assert (0 < block p) by (apply Z.pow_pos_nonneg; lia). lia.
Qed.

Example ParseCIDR4_ok : ParseCIDR4 "10.200.7.10/24" = Some (Prefix4 (addr4 10 200 7 10) 24).
Proof. reflexivity. Qed.
Example ParseCIDR4_bad : ParseCIDR4 "10.200.07.10/24" = None.
Proof. reflexivity. Qed.
