(* ===== verification/Host.v ===== *)
(** * The node's side: IP text of both families and the values of the host's network stack

    [ParseIP] and [ParseCIDR] are net.ParseIP and net.ParseCIDR (IPv4 and IPv6 text; Net.v holds
    the IPv4 part), [net_ip] is net.IP up to IP.Equal.  The records are the values the node agent
    exchanges with the kernel (vishvananda/netlink), with a container's exec endpoint and with
    the clock. *)

From S2P Require Import Prelude GoText Net.

(** ** net.IP *)

(** An address up to [IP.Equal]: a 4-byte address and its 16-byte IPv4-mapped form are equal. *)
Inductive net_ip := IPv4 (a : Z) | IPv6 (a : Z).

#[export] Instance net_ip_eq_dec : EqDecision net_ip.
Proof. solve_decision. Defined.

Definition IPv4zero : net_ip := IPv4 0.

(** A 128-bit address as a net.IP. *)
Definition of_16 (a : Z) : net_ip :=
  if Z.shiftr a 32 =? 65535 then IPv4 (Z.land a 4294967295) else IPv6 a.

(** The text of an IPv4 address. *)
Definition string4 (a : Z) : string :=
  Sprintf "%d.%d.%d.%d" [FInt (Z.land (Z.shiftr a 24) 255); FInt (Z.land (Z.shiftr a 16) 255);
                         FInt (Z.land (Z.shiftr a 8) 255); FInt (Z.land a 255)].

Definition hex_digit (c : Z) : option Z :=
  if between 48 57 c then Some (c - 48)
  else if between 97 102 c then Some (c - 87)
  else if between 65 70 c then Some (c - 55)
  else None.

Definition is_hex_digit (c : Z) : bool := bool_decide (is_Some (hex_digit c)).

Definition hex_value (l : list Z) : Z :=
  foldl (λ acc c, acc * 16 + default 0 (hex_digit c)) 0 l.

(** The 16-bit groups read so far, and where among them the ellipsis stands. *)
Definition v6_finish (groups : list Z) (ellipsis : option nat) : option Z :=
  let value := foldl (λ acc g, acc * 65536 + g) 0 in
  match ellipsis with
  | None => if (length groups =? 8)%nat then Some (value groups) else None
  | Some e =>
      if (length groups <? 8)%nat
      then Some (value (take e groups ++ replicate (8 - length groups) 0 ++ drop e groups)%list)
      else None
  end.

(** netip.parseIPv6 after the leading ellipsis; every round reads a group. *)
Fixpoint v6_groups (fuel : nat) (groups : list Z) (ellipsis : option nat) (s : list Z) :
    option Z :=
  match fuel with
  | O => None
  | S f =>
      let '(hex, rest) := span is_hex_digit s in
      if (4 <? length hex)%nat || bool_decide (hex = []) then None
      else
        match rest with
        | [] => v6_finish (groups ++ [hex_value hex])%list ellipsis
        | c :: r =>
            if c =? 46 then
              if (6 <? length groups)%nat
                 || bool_decide (ellipsis = None) && negb (length groups =? 6)%nat
              then None
              else
                a ← ParseIP4 (of_bytes s);
                v6_finish (groups ++ [Z.shiftr a 16; Z.land a 65535])%list ellipsis
            else if negb (c =? 58) then None
            else
              let groups := (groups ++ [hex_value hex])%list in
              match r with
              | [] => None
              | d :: r' =>
                  if d =? 58 then
                    match ellipsis, r' with
                    | Some _, _ => None
                    | None, [] => v6_finish groups (Some (length groups))
                    | None, _ =>
                        if (length groups =? 8)%nat then None
                        else v6_groups f groups (Some (length groups)) r'
                    end
                  else if (length groups =? 8)%nat then None
                  else v6_groups f groups ellipsis r
              end
        end
  end.

Definition ParseIP6 (s : string) : option Z :=
  match bytes s with
  | 58 :: 58 :: [] => Some 0
  | 58 :: 58 :: r => v6_groups 9 [] (Some O) r
  | l => v6_groups 9 [] None l
  end.

(** netip.ParseAddr without a zone, the address with its length in bits: the first separator
    decides the family. *)
Definition ParseAddrBits (s : string) : option (Z * Z) :=
  match find_first (λ c, (c =? 46) || (c =? 58) || (c =? 37)) (bytes s) with
  | Some 46 => a ← ParseIP4 s; Some (a, 32)
  | Some 58 => a ← ParseIP6 s; Some (a, 128)
  | _ => None
  end.

Definition ip_of (ab : Z * Z) : net_ip := if ab.2 =? 32 then IPv4 ab.1 else of_16 ab.1.

Definition ParseIP (s : string) : option net_ip := ip_of <$> ParseAddrBits s.

(** net.IPNet: the network address, the prefix length and the address length in bits. *)
Record ip_net := { net_IP : Z; net_Ones : Z; net_Bits : Z }.

Definition ParseCIDR (s : string) : option (net_ip * ip_net) :=
  '(a, m) ← cut_slash "" s;
  ab ← ParseAddrBits a;
  match bytes m with
  | [] => None
  | ds =>
      if forallb is_digit ds then
        match parse_uint 10 0 ds with
        | (n, None) =>
            if n <=? ab.2
            then Some (ip_of ab,
                       {| net_IP := Z.shiftl (Z.shiftr ab.1 (ab.2 - n)) (ab.2 - n);
                          net_Ones := n; net_Bits := ab.2 |})
            else None
        | _ => None
        end
      else None
  end.

Example ParseIP_v4 : ParseIP "10.201.7.10" = Some (IPv4 (addr4 10 201 7 10)).
Proof. reflexivity. Qed.
Example ParseIP_v6 : ParseIP "fe80::1:2" = Some (IPv6 338288524927261089654018896841347760130).
Proof. vm_compute. reflexivity. Qed.
Example ParseIP_mapped : ParseIP "::ffff:10.0.0.1" = Some (IPv4 (addr4 10 0 0 1)).
Proof. vm_compute. reflexivity. Qed.
Example ParseIP_bad : (ParseIP "1::2::3", ParseIP "10.0.0.01", ParseIP "fe80::1%eth0") =
                      (None, None, None).
Proof. vm_compute. reflexivity. Qed.
Example ParseCIDR_pool : ParseCIDR "172.7.3.0/16" =
  Some (IPv4 (addr4 172 7 3 0), {| net_IP := addr4 172 7 0 0; net_Ones := 16; net_Bits := 32 |}).
Proof. reflexivity. Qed.

(** ** The clock *)

(** The civil date of a number of days since 1970-01-01 (proleptic Gregorian): year, month, day. *)
Definition civil (days : Z) : Z * Z * Z :=
  let z := days + 719468 in
  let era := z / 146097 in
  let doe := z - era * 146097 in
  let yoe := (doe - doe / 1460 + doe / 36524 - doe / 146096) / 365 in
  let doy := doe - (365 * yoe + yoe / 4 - yoe / 100) in
  let mp := (5 * doy + 2) / 153 in
  let d := doy - (153 * mp + 2) / 5 + 1 in
  let m := if mp <? 10 then mp + 3 else mp - 9 in
  let y := yoe + era * 400 + (if m <=? 2 then 1 else 0) in
  (y, m, d).

(** [t.UTC().Format(time.RFC3339)] of an instant in nanoseconds since the epoch. *)
Definition FormatRFC3339 (ns : Z) : string :=
  let sec := ns / 1000000000 in
  let '(y, m, d) := civil (sec / 86400) in
  let r := sec mod 86400 in
  Sprintf "%04d-%02d-%02dT%02d:%02d:%02dZ"
    [FInt y; FInt m; FInt d; FInt (r / 3600); FInt (r mod 3600 / 60); FInt (r mod 60)].

Example FormatRFC3339_ok : FormatRFC3339 1709210096000000000 = "2024-02-29T12:34:56Z".
Proof. vm_compute. reflexivity. Qed.

(** ** Values of the host's network stack *)

Record link := { ln_Name : string; ln_Index : Z }.
Record nl_addr := { ad_IP : net_ip; ad_Ones : Z; ad_Bits : Z }.
(** A route of the kernel: its destination ([None]: no destination) and output interface. *)
Record nl_route := { rt_Dst : option net_ip; rt_LinkIndex : Z }.
(** A route to program; [None] is the nil gateway. *)
Record new_route := { nr_Dst : ip_net; nr_Gw : option net_ip; nr_LinkIndex : Z }.
Record nl_neigh := { nb_LinkIndex : Z; nb_IP : net_ip; nb_State : Z }.
Definition NUD_REACHABLE : Z := 2.

(** ** Exec in a container *)

Record exec_request := { ex_Pod : string; ex_Container : string; ex_Command : list string }.
(** What [exec.StreamWithContext] leaves behind: the output buffers and the error. *)
Record exec_output (E : Type) := { xo_Stdout : string; xo_Stderr : string; xo_Err : option E }.
Arguments xo_Stdout {E} _.
Arguments xo_Stderr {E} _.
Arguments xo_Err {E} _.
