(* ===== verification/AddrText.v ===== *)
(** * The text of an IP address

    [net_String] is net.IP's String method: dotted quad for IPv4 (and IPv4-mapped) addresses, and
    for IPv6 the groups in hexadecimal with the first longest run of two or more zero groups
    elided.  [ParseIP_String] is its round trip: the text of an address parses back to it. *)

From S2P Require Import Prelude GoText Net Host.

(** The lowest [k] 16-bit groups of an address, most significant first. *)
Fixpoint groups (k : nat) (a : Z) : list Z :=
  match k with O => [] | S k' => groups k' (a / 65536) ++ [a mod 65536] end%list.

(** The zero groups at the front. *)
Definition zeros_at (l : list Z) : nat := length (span (λ g, g =? 0) l).1.

(** Start and length of the first longest run of at least two zero groups; the length is 0 when
    there is none. *)
Fixpoint zero_run (i : nat) (l : list Z) (best : nat * nat) : nat * nat :=
  match l with
  | [] => best
  | _ :: r =>
      let n := zeros_at l in
      zero_run (S i) r (if (2 <=? n)%nat && (best.2 <? n)%nat then (i, n) else best)
  end.

Definition hex_group (g : Z) : string := format_uint 16 g.

Definition string6 (a : Z) : string :=
  let gs := groups 8 a in
  let '(s, n) := zero_run 0 gs (0, 0)%nat in
  if (n =? 0)%nat then Join (hex_group <$> gs) ":"
  else Join (hex_group <$> take s gs) ":" +:+ "::" +:+ Join (hex_group <$> drop (s + n) gs) ":".

Definition net_String (ip : net_ip) : string :=
  match ip with IPv4 a => string4 a | IPv6 a => string6 a end.

Example net_String_v6 : net_String (IPv6 42540766411282592856903984951653826561) = "2001:db8::1".
Proof. vm_compute. reflexivity. Qed.
Example net_String_v6_full :
  (net_String (IPv6 0), net_String (IPv6 (2 ^ 127 + 2 ^ 64 + 65536 * 5))) = ("::", "8000::1:0:0:5:0").
Proof. vm_compute. reflexivity. Qed.

(** The addresses a net.IP holds. *)
Definition wf_ip (ip : net_ip) : Prop :=
  match ip with
  | IPv4 a => 0 ≤ a < 2 ^ 32
  | IPv6 a => 0 ≤ a < 2 ^ 128 ∧ a / 2 ^ 32 ≠ 65535
  end.

(** ** Groups *)

Definition group_ok (g : Z) : Prop := 0 ≤ g < 65536.

Definition group_value (gs : list Z) : Z := foldl (λ acc g, acc * 65536 + g) 0 gs.

Lemma groups_length k a : length (groups k a) = k.
Proof. revert a. induction k as [|k IH]; intros a; cbn; [done|]. rewrite length_app, IH. cbn. lia. Qed.

Lemma groups_ok k a : Forall group_ok (groups k a).
Proof.
  revert a. induction k as [|k IH]; intros a; cbn; [constructor|].
  apply Forall_app. split; [apply IH|]. constructor; [|constructor].
  unfold group_ok. pose proof (Z.mod_pos_bound a 65536). lia.
Qed.

Lemma group_value_groups k a : 0 ≤ a < 65536 ^ Z.of_nat k → group_value (groups k a) = a.
Proof.
  revert a. unfold group_value. induction k as [|k IH]; intros a Ha.
  { change (65536 ^ Z.of_nat 0) with 1 in Ha. cbn. lia. }
  cbn [groups]. rewrite foldl_app, IH.
  - cbn. pose proof (Z.div_mod a 65536). lia.
  - rewrite Nat2Z.inj_succ, Z.pow_succ_r in Ha by lia.
    split; [apply Z.div_pos; lia | apply Z.div_lt_upper_bound; lia].
Qed.

(** ** The elided run *)

Lemma zeros_at_spec l : l = (replicate (zeros_at l) 0 ++ drop (zeros_at l) l)%list.
Proof.
  unfold zeros_at. induction l as [|g l IH]; [done|]. cbn [span].
  destruct (Z.eqb_spec g 0) as [->|]; [|done].
  destruct (span (λ g, g =? 0) l) as [a b]. cbn in *. by rewrite <-IH.
Qed.

(** [(s, n)] is a run of [n] zero groups of [gs] at [s]. *)
Definition run_at (gs : list Z) (r : nat * nat) : Prop :=
  gs = (take r.1 gs ++ replicate r.2 0 ++ drop (r.1 + r.2) gs)%list ∧ (r.2 = 0 ∨ 2 ≤ r.2)%nat.

Lemma zero_run_spec gs i best :
  run_at gs best → run_at gs (zero_run i (drop i gs) best).
Proof.
  remember (drop i gs) as l eqn:Hl. revert i best Hl.
  induction l as [|g l IH]; intros i best Hl Hb; [done|]. cbn [zero_run]. apply IH.
  { replace (S i) with (i + 1)%nat by lia. by rewrite <-drop_drop, <-Hl. }
  destruct (_ && _) eqn:E; [|done]. apply andb_true_iff in E as [E%Nat.leb_le _].
  split; [|by right]. cbn [fst snd]. rewrite <-(take_drop i gs) at 1. f_equal.
  rewrite <-drop_drop, <-Hl. apply zeros_at_spec.
Qed.

(** ** Hexadecimal groups *)

Lemma is_hex_digit_hex z : is_hex z = true → is_hex_digit z = true ∧ hex_digit z = digit_val z.
Proof.
  unfold is_hex, is_hex_digit, hex_digit, digit_val, between. intros H.
  destruct (_ && _) eqn:E1; [done|]. cbn [orb] in H. rewrite H.
  replace ((97 <=? z) && (z <=? 122)) with true by lia. done.
Qed.

Lemma hex_value_parse ds acc n :
  Forall (λ z, is_hex z = true) ds → parse_uint 16 acc ds = (n, None) →
  foldl (λ acc c, acc * 16 + default 0 (hex_digit c)) acc ds = n.
Proof.
  intros H. revert acc. induction H as [|z ds Hz _ IH]; intros acc; cbn; [congruence|].
  destruct (is_hex_digit_hex z Hz) as [_ ->]. destruct (digit_val z) as [d|]; [|done]. cbn.
  destruct (d <? 16); [|done]. destruct (2 ^ 64 <=? _); [done|]. apply IH.
Qed.

Lemma fmt_digits_length base fuel n acc k :
  2 ≤ base → (0 < k)%nat → 0 ≤ n < base ^ Z.of_nat k →
  (length (bytes (fmt_digits base fuel n acc)) ≤ k + length (bytes acc))%nat.
Proof.
  intros Hb. revert n acc k. induction fuel as [|f IH]; intros n acc k Hk Hn; cbn; [lia|].
  destruct (Z.eqb_spec (n / base) 0) as [E|E]; cbn; [lia|].
  destruct k as [|k]; [lia|]. rewrite Nat2Z.inj_succ, Z.pow_succ_r in Hn by lia.
  assert (n / base < base ^ Z.of_nat k) by (apply Z.div_lt_upper_bound; lia).
  assert (0 ≤ n / base) by (apply Z.div_pos; lia).
  destruct k as [|k]; [change (base ^ Z.of_nat 0) with 1 in *; lia|].
  etransitivity; [apply (IH _ _ (S k)); lia|]. cbn. lia.
Qed.

Definition hexb (g : Z) : list Z := bytes (hex_group g).

Lemma hexb_value g : group_ok g → hex_value (hexb g) = g.
Proof.
  intros Hg. unfold group_ok in Hg. apply hex_value_parse; [apply format_hex_digits|].
  apply parse_format_uint; lia.
Qed.

Lemma hexb_length g : group_ok g → (length (hexb g) <=? 4)%nat = true.
Proof.
  intros Hg. apply Nat.leb_le. etransitivity; [apply (fmt_digits_length _ _ _ _ 4); [lia..|exact Hg]|].
  cbn. lia.
Qed.

Lemma hexb_head g rest : ∃ z r, (hexb g ++ rest)%list = z :: r ∧ is_hex z = true.
Proof.
  pose proof (format_uint_nonempty 16 g) as Hne. pose proof (format_hex_digits g) as Hh.
  unfold hexb, hex_group. destruct (bytes (format_uint 16 g)) as [|z r]; [done|].
  apply Forall_cons in Hh as [Hz _]. by exists z, (r ++ rest)%list.
Qed.

Lemma hexb_nonempty g : bool_decide (hexb g = []) = false.
Proof.
  apply bool_decide_eq_false. destruct (hexb_head g []) as (z & r & Hz & _).
  rewrite app_nil_r in Hz. congruence.
Qed.

(** The guard of v6_groups accepts a printed group. *)
Lemma hexb_guard g : group_ok g → (4 <? length (hexb g))%nat || bool_decide (hexb g = []) = false.
Proof. intros Hg. by rewrite Nat.ltb_antisym, hexb_length, hexb_nonempty. Qed.

(** The input does not continue a group. *)
Definition no_hex_head (l : list Z) : Prop :=
  match l with z :: _ => is_hex_digit z = false | [] => True end.

Lemma span_hexb g rest : no_hex_head rest → span is_hex_digit (hexb g ++ rest)%list = (hexb g, rest).
Proof.
  intros Hr. unfold hexb, hex_group. pose proof (format_hex_digits g) as Hh.
  induction Hh as [|z ds Hz _ IH]; simpl.
  - destruct rest as [|z r]; simpl; [done|]. by rewrite Hr.
  - destruct (is_hex_digit_hex z Hz) as [-> _]. by rewrite IH.
Qed.

(** ** Parsing the groups back *)

(** The bytes of groups joined by colons. *)
Definition jb (gs : list Z) : list Z := bytes (Join (hex_group <$> gs) ":").

Lemma jb_cons g g' gs : jb (g :: g' :: gs) = (hexb g ++ 58 :: jb (g' :: gs))%list.
Proof. unfold jb. cbn [fmap list_fmap Join]. by rewrite !bytes_app. Qed.

Lemma jb_single g : jb [g] = hexb g.
Proof. done. Qed.

Lemma jb_head g gs rest : ∃ z r, (jb (g :: gs) ++ rest)%list = z :: r ∧ is_hex z = true.
Proof.
  destruct gs as [|g' gs]; [apply hexb_head|]. rewrite jb_cons, <-app_assoc. apply hexb_head.
Qed.

(** One group, and what follows it. *)
Lemma v6_group_last f acc ell g :
  group_ok g → v6_groups (S f) acc ell (hexb g) = v6_finish (acc ++ [g])%list ell.
Proof.
  intros Hg. cbn [v6_groups]. rewrite <-(app_nil_r (hexb g)) at 1. rewrite span_hexb by done.
  by rewrite hexb_guard, hexb_value.
Qed.

Lemma v6_group_colon f acc ell g z r :
  group_ok g → is_hex z = true → (length acc < 7)%nat →
  v6_groups (S f) acc ell (hexb g ++ 58 :: z :: r)%list = v6_groups f (acc ++ [g])%list ell (z :: r).
Proof.
  intros Hg Hz Hl. cbn [v6_groups]. rewrite span_hexb by done.
  rewrite hexb_guard, hexb_value by done.
  cbn -[v6_groups length Nat.eqb app]. rewrite length_app.
  replace (z =? 58) with false by (unfold is_hex, between in Hz; lia).
  replace (length acc + length [g] =? 8)%nat with false; [done|]. symmetry.
  apply Nat.eqb_neq. cbn. lia.
Qed.

Lemma v6_group_ellipsis f acc g rest :
  group_ok g → (length acc < 7)%nat →
  v6_groups (S f) acc None (hexb g ++ 58 :: 58 :: rest)%list =
  match rest with
  | [] => v6_finish (acc ++ [g])%list (Some (S (length acc)))
  | _ => v6_groups f (acc ++ [g])%list (Some (S (length acc))) rest
  end.
Proof.
  intros Hg Hl. cbn [v6_groups]. rewrite span_hexb by done.
  rewrite hexb_guard, hexb_value by done.
  cbn -[v6_groups v6_finish length Nat.eqb app]. rewrite length_app.
  replace (length acc + length [g])%nat with (S (length acc)) by (cbn; lia).
  destruct rest; [done|]. replace (S (length acc) =? 8)%nat with false; [done|]. symmetry.
  apply Nat.eqb_neq. lia.
Qed.

Lemma v6_seq gs : ∀ f acc ell,
  Forall group_ok gs → gs ≠ [] → (length gs ≤ f)%nat → (length acc + length gs ≤ 8)%nat →
  v6_groups f acc ell (jb gs) = v6_finish (acc ++ gs)%list ell.
Proof.
  induction gs as [|g gs IH]; intros f acc ell Hok Hne Hf Hl; [done|].
  apply Forall_cons in Hok as [Hg Hok]. destruct f as [|f]; [cbn in Hf; lia|].
  destruct gs as [|g' gs]; [by apply v6_group_last|]. rewrite jb_cons.
  destruct (jb_head g' gs []) as (z & r & Hz & Hx). rewrite app_nil_r in Hz. rewrite Hz.
  cbn [length] in *. rewrite v6_group_colon by (done || lia). rewrite <-Hz.
  rewrite IH; [|done|done|cbn; lia|rewrite length_app; cbn; lia]. by rewrite <-app_assoc.
Qed.

Lemma v6_seq_ellipsis gs tl : ∀ f acc,
  Forall group_ok gs → Forall group_ok tl → gs ≠ [] →
  (length gs + length tl ≤ f)%nat → (length acc + length gs + length tl < 8)%nat →
  v6_groups f acc None (jb gs ++ 58 :: 58 :: jb tl)%list =
  v6_finish (acc ++ gs ++ tl)%list (Some (length acc + length gs)%nat).
Proof.
  induction gs as [|g gs IH]; intros f acc Hok Htl Hne Hf Hl; [done|].
  apply Forall_cons in Hok as [Hg Hok]. cbn [length] in *. destruct f as [|f]; [lia|].
  destruct gs as [|g' gs].
  - rewrite jb_single, v6_group_ellipsis by (done || lia). cbn [length].
    replace (length acc + 1)%nat with (S (length acc)) by lia.
    destruct tl as [|t tl]; [by rewrite app_nil_r|].
    destruct (jb_head t tl []) as (z & r & Hz & _). rewrite app_nil_r in Hz. rewrite Hz.
    rewrite <-Hz. rewrite v6_seq; [|done|done|cbn in *; lia|rewrite length_app; cbn in *; lia].
    by rewrite <-app_assoc.
  - rewrite jb_cons, <-app_assoc. cbn [app].
    destruct (jb_head g' gs (58 :: 58 :: jb tl)) as (z & r & Hz & Hx). rewrite Hz.
    cbn [length] in *. rewrite v6_group_colon by (done || lia). rewrite <-Hz.
    rewrite IH; [|done|done|done|cbn in *; lia|rewrite length_app; cbn in *; lia].
    rewrite <-app_assoc, length_app. cbn [app length]. f_equal. f_equal. lia.
Qed.

(** No address has more than eight groups: a fuel of nine rounds is never the reason for a failure. *)
Lemma v6_groups_fuel f k : ∀ gs ell s,
  (length gs < 8)%nat → (8 ≤ f + length gs)%nat → v6_groups (f + k) gs ell s = v6_groups f gs ell s.
Proof.
  induction f as [|f IH]; intros gs ell s Hl Hf; [lia|]. cbn [Nat.add v6_groups].
  destruct (span is_hex_digit s) as [hex rest]. destruct (_ || _); [done|].
  destruct rest as [|c r]; [done|]. destruct (c =? 46); [done|]. destruct (negb _); [done|].
  destruct r as [|d r']; [done|].
  assert (length (gs ++ [hex_value hex]) = S (length gs)) as Hs by (rewrite length_app; cbn; lia).
  destruct (d =? 58).
  - destruct ell; [done|]. destruct r'; [done|]. destruct (Nat.eqb_spec (length (gs ++ [hex_value hex])) 8);
      [done|]. apply IH; lia.
  - destruct (Nat.eqb_spec (length (gs ++ [hex_value hex])) 8); [done|]. apply IH; lia.
Qed.

(** ** The round trip *)

Lemma jb_not_colon g gs rest z r : (jb (g :: gs) ++ rest)%list = z :: r → (z =? 58) = false.
Proof.
  destruct (jb_head g gs rest) as (z' & r' & -> & Hz). intros [= <- <-].
  unfold is_hex, between in Hz. lia.
Qed.

Lemma ParseIP6_head s z r :
  bytes s = z :: r → (z =? 58) = false → ParseIP6 s = v6_groups 9 [] None (bytes s).
Proof.
  intros Hs Hz. unfold ParseIP6. rewrite Hs. apply Z.eqb_neq in Hz.
  destruct z as [|p|p]; [done| |done].
  do 6 (destruct p as [p|p|]; try done).
Qed.

Lemma run_at_length gs r : run_at gs r → (r.1 + r.2 ≤ length gs)%nat ∨ r.2 = 0%nat.
Proof.
  intros [Hr _]. apply (f_equal length) in Hr.
  rewrite !length_app, length_take, length_replicate, length_drop in Hr. lia.
Qed.

Lemma v6_finish_full gs : length gs = 8%nat → v6_finish gs None = Some (group_value gs).
Proof. intros H. unfold v6_finish. by rewrite H. Qed.

Lemma v6_finish_run gs s n :
  length gs = 8%nat → run_at gs (s, n) → (2 ≤ n)%nat → (s + n ≤ 8)%nat →
  v6_finish (take s gs ++ drop (s + n) gs)%list (Some s) = Some (group_value gs).
Proof.
  intros Hl [Hr _] Hn Hs. cbn [fst snd] in Hr. unfold v6_finish.
  rewrite length_app, length_take, length_drop, Hl.
  replace (s `min` 8 + (8 - (s + n)))%nat with (8 - n)%nat by lia.
  replace (8 - n <? 8)%nat with true by (symmetry; apply Nat.ltb_lt; lia).
  rewrite take_app_le, take_take, Nat.min_id by (rewrite length_take; lia).
  rewrite drop_app_ge by (rewrite length_take; lia). rewrite length_take, Hl.
  replace (s - s `min` 8)%nat with 0%nat by lia. rewrite drop_0.
  replace (8 - (8 - n))%nat with n by lia. by rewrite <-Hr.
Qed.

Lemma ParseIP6_string6 a : 0 ≤ a < 2 ^ 128 → ParseIP6 (string6 a) = Some a.
Proof.
  intros Ha. pose proof (groups_length 8 a) as Hl. pose proof (groups_ok 8 a) as Hok.
  assert (group_value (groups 8 a) = a) as Hv by (apply group_value_groups; exact Ha).
  unfold string6. set (gs := groups 8 a) in *. clearbody gs.
  assert (run_at gs (zero_run 0 gs (0, 0)%nat)) as Hr.
  { apply (zero_run_spec gs 0). split; [|by left]. done. }
  destruct (zero_run 0 gs (0, 0)%nat) as [s n]. pose proof (run_at_length _ _ Hr) as Hsn.
  cbn [fst snd] in Hsn.
  destruct (Nat.eqb_spec n 0) as [->|Hn].
  - destruct gs as [|g gs]; [done|]. destruct (jb_head g gs []) as (z & r & Hz & Hx).
    rewrite app_nil_r in Hz. rewrite (ParseIP6_head _ z r Hz).
    + rewrite <-Hv, <-v6_finish_full by done. apply v6_seq; [done|done|lia|cbn in *; lia].
    + by eapply (jb_not_colon g gs []); rewrite app_nil_r.
  - assert (2 ≤ n)%nat as Hn2 by (destruct Hr as [_ [?|?]]; cbn in *; lia).
    assert (Forall group_ok (take s gs) ∧ Forall group_ok (drop (s + n) gs)) as [Hh Ht]
      by (split; [by apply Forall_take | by apply Forall_drop]).
    pose proof (v6_finish_run gs s n Hl Hr Hn2 ltac:(lia)) as Hfin. rewrite Hv in Hfin.
    assert (length (take s gs) = s) as Hls by (rewrite length_take; lia).
    assert (length (drop (s + n) gs) = 8 - (s + n))%nat as Hld by (rewrite length_drop; lia).
    destruct (take s gs) as [|g hd] eqn:Eh.
    + cbn [length] in Hls. subst s. cbn [app] in Hfin.
      destruct (drop (0 + n) gs) as [|t tl] eqn:Et; [by vm_compute in Hfin|].
      unfold ParseIP6. change (bytes _) with (58 :: 58 :: jb (t :: tl)). cbv iota.
      destruct (jb_head t tl []) as (z & r & Hz & _). rewrite app_nil_r in Hz.
      rewrite Hz, <-Hz. by rewrite v6_seq by (done || cbn in *; lia).
    + destruct (jb_head g hd (58 :: 58 :: jb (drop (s + n) gs))) as (z & r & Hz & Hx).
      assert (bytes (Join (hex_group <$> g :: hd) ":" +:+ "::" +:+
                     Join (hex_group <$> drop (s + n) gs) ":")
              = (jb (g :: hd) ++ 58 :: 58 :: jb (drop (s + n) gs))%list) as Hb
        by (by rewrite !bytes_app).
      rewrite (ParseIP6_head _ z r); [|by rewrite Hb|by eapply jb_not_colon].
      rewrite Hb, v6_seq_ellipsis by (done || cbn in *; lia). rewrite Hls. exact Hfin.
Qed.

(** ** Addresses of either family *)

Lemma land_255 z : Z.land z 255 = z mod 256.
Proof. change 255 with (Z.ones 8). by rewrite Z.land_ones. Qed.

Lemma octet_parse n : 0 ≤ n < 256 → parse_octet (Itoa n) = Some n.
Proof.
  intros Hn. assert (forallb (λ n, bool_decide (parse_octet (Itoa n) = Some n)) (seqZ 0 256) = true)
    as H by (vm_compute; done).
  rewrite forallb_forall in H. specialize (H n).
  apply (bool_decide_unpack _), Is_true_true, H, list_elem_of_In, elem_of_seqZ. lia.
Qed.

Lemma string4_quad a :
  0 ≤ a → string4 a = Sprintf "%d.%d.%d.%d" [FInt (a / 16777216 mod 256); FInt (a / 65536 mod 256);
                                             FInt (a / 256 mod 256); FInt (a mod 256)].
Proof. intros Ha. unfold string4. by rewrite !land_255, !Z.shiftr_div_pow2 by lia. Qed.

Lemma ParseIP4_string4 a : 0 ≤ a < 2 ^ 32 → ParseIP4 (string4 a) = Some a.
Proof.
  intros Ha. rewrite string4_quad by lia. unfold ParseIP4.
  pose proof (λ z, Z.mod_pos_bound z 256 ltac:(lia)) as Hm.
  rewrite Split_dotted by apply Hm. rewrite !octet_parse by apply Hm. cbn [mbind option_bind].
  f_equal. unfold addr4.
  rewrite (Z.mod_small (a / 16777216)) by
    (split; [apply Z.div_pos; lia | apply Z.div_lt_upper_bound; lia]).
  assert (a / 65536 = a / 256 / 256) as E1 by (rewrite Z.div_div by lia; done).
  assert (a / 16777216 = a / 65536 / 256) as E2 by (rewrite Z.div_div by lia; done).
  pose proof (Z.div_mod a 256 ltac:(lia)). pose proof (Z.div_mod (a / 256) 256 ltac:(lia)).
  pose proof (Z.div_mod (a / 65536) 256 ltac:(lia)). lia.
Qed.

(** The separator that decides the family. *)
Definition separator (c : Z) : bool := (c =? 46) || (c =? 58) || (c =? 37).

Lemma find_first_skip {A} (p : A → bool) l x r :
  Forall (λ y, p y = false) l → p x = true → find_first p (l ++ x :: r)%list = Some x.
Proof. intros Hl Hx. induction Hl as [|y l Hy _ IH]; cbn; [by rewrite Hx | by rewrite Hy]. Qed.

Lemma hexb_no_separator g : Forall (λ z, separator z = false) (hexb g).
Proof.
  eapply Forall_impl; [apply format_hex_digits|]. cbn beta. unfold is_hex, separator, between. lia.
Qed.

Lemma jb_separator g gs rest : find_first separator (jb (g :: gs) ++ 58 :: rest)%list = Some 58.
Proof.
  destruct gs as [|g' gs]; [rewrite jb_single | rewrite jb_cons, <-app_assoc; cbn [app]];
    by apply find_first_skip; [apply hexb_no_separator|].
Qed.

Lemma string6_separator a : find_first separator (bytes (string6 a)) = Some 58.
Proof.
  unfold string6. pose proof (groups_length 8 a) as Hl.
  destruct (groups 8 a) as [|g [|g' gs]] eqn:E; [done..|].
  destruct (zero_run 0 (g :: g' :: gs) (0, 0)%nat) as [s n]. destruct (n =? 0)%nat.
  - change (bytes _) with (jb (g :: g' :: gs)). rewrite jb_cons.
    apply find_first_skip; [apply hexb_no_separator | done].
  - rewrite bytes_app. destruct s as [|s]; [done|]. cbn [take]. apply jb_separator.
Qed.

Lemma string4_separator a : 0 ≤ a → find_first separator (bytes (string4 a)) = Some 46.
Proof.
  intros Ha. rewrite string4_quad by done.
  assert (0 ≤ a / 16777216 mod 256) as H by (apply Z.mod_pos_bound; lia). revert H.
  generalize (a / 16777216 mod 256) (a / 65536 mod 256) (a / 256 mod 256) (a mod 256).
  intros b c d e Hb. eval_sprintf. rewrite bytes_app. cbn [bytes].
  apply find_first_skip; [|done]. rewrite Itoa_nonneg by done.
  eapply Forall_impl; [apply format_uint_digits|]. cbn beta.
  intros z Hz%is_digit_range. unfold separator. lia.
Qed.

Lemma ParseAddrBits_String ip :
  wf_ip ip → ∃ ab, ParseAddrBits (net_String ip) = Some ab ∧ ip_of ab = ip ∧ 32 ≤ ab.2.
Proof.
  unfold ParseAddrBits.
  change (λ c : Z, (c =? 46) || (c =? 58) || (c =? 37)) with separator.
  destruct ip as [a|a]; cbn [wf_ip net_String].
  - intros Ha. exists (a, 32). by rewrite string4_separator, ParseIP4_string4 by lia.
  - intros [Ha Hm]. exists (a, 128). rewrite string6_separator, ParseIP6_string6 by lia.
    split; [done|]. split; [|cbn; lia]. unfold ip_of. cbn. unfold of_16.
    rewrite Z.shiftr_div_pow2 by lia. by destruct (Z.eqb_spec (a / 2 ^ 32) 65535).
Qed.

(** The text of an address parses back to the address. *)
Lemma ParseIP_String ip : wf_ip ip → ParseIP (net_String ip) = Some ip.
Proof.
  intros Hw. destruct (ParseAddrBits_String ip Hw) as (ab & H & E & _). unfold ParseIP.
  rewrite H. cbn. by f_equal.
Qed.

(** What ParseCIDR reads is an address with a text. *)
Lemma ParseIP4_range s a : ParseIP4 s = Some a → 0 ≤ a < 2 ^ 32.
Proof.
  unfold ParseIP4. destruct (Split s dot) as [|w [|x [|y [|z [|]]]]]; try done. cbn. intros H.
  assert (∀ s n, parse_octet s = Some n → 0 ≤ n < 256) as Ho.
  { clear. intros s n. unfold parse_octet. destruct (bytes s) as [|c r]; [done|].
    destruct (_ && _); [|done]. pose proof (parse_uint_nonneg 10 0 (c :: r)) as Hp.
    destruct (parse_uint 10 0 (c :: r)) as [v [|]]; [done|]. cbn in Hp.
    destruct (Z.leb_spec v 255); [|done]. intros [= <-]. lia. }
  destruct (parse_octet w) eqn:E1; [|done]. destruct (parse_octet x) eqn:E2; [|done].
  destruct (parse_octet y) eqn:E3; [|done]. destruct (parse_octet z) eqn:E4; [|done].
  apply Ho in E1, E2, E3, E4. cbn in H. injection H as <-. unfold addr4. lia.
Qed.

Lemma group_value_range gs :
  Forall group_ok gs → 0 ≤ group_value gs < 65536 ^ Z.of_nat (length gs).
Proof.
  unfold group_value. induction gs as [|g gs IH] using rev_ind; [cbn; lia|].
  intros [Hgs Hg]%Forall_app. apply Forall_cons in Hg as [Hg _]. specialize (IH Hgs).
  rewrite foldl_app, length_app. cbn [foldl length].
  rewrite Nat.add_1_r, Nat2Z.inj_succ, Z.pow_succ_r by lia. unfold group_ok in Hg. lia.
Qed.

Lemma v6_finish_range gs ell a :
  Forall group_ok gs → v6_finish gs ell = Some a → 0 ≤ a < 2 ^ 128.
Proof.
  intros Hok. unfold v6_finish. change (2 ^ 128) with (65536 ^ Z.of_nat 8).
  destruct ell as [e|].
  - destruct (Nat.ltb_spec (length gs) 8); [|done]. intros [= <-].
    set (l := (take e gs ++ replicate (8 - length gs) 0 ++ drop e gs)%list).
    assert (length l = 8%nat) as <-.
    { unfold l. rewrite !length_app, length_replicate, length_take, length_drop. lia. }
    apply group_value_range. unfold l. rewrite !Forall_app.
    split; [by apply Forall_take|]. split; [|by apply Forall_drop].
    apply Forall_replicate. unfold group_ok. lia.
  - destruct (Nat.eqb_spec (length gs) 8) as [<-|]; [|done]. intros [= <-].
    by apply group_value_range.
Qed.

Lemma hex_value_ok l :
  Forall (λ z, is_hex_digit z = true) l → (length l ≤ 4)%nat → group_ok (hex_value l).
Proof.
  intros H Hl. unfold group_ok, hex_value.
  assert (∀ acc, 0 ≤ acc → 0 ≤ foldl (λ acc c, acc * 16 + default 0 (hex_digit c)) acc l
                             < (acc + 1) * 16 ^ Z.of_nat (length l)) as Hb.
  { clear Hl. induction H as [|z l Hz _ IH]; intros acc Hacc; [cbn; lia|].
    cbn [foldl length]. rewrite Nat2Z.inj_succ, Z.pow_succ_r by lia.
    assert (0 ≤ default 0 (hex_digit z) < 16) as Hd.
    { unfold is_hex_digit, hex_digit, between in *. destruct (_ && _) eqn:E1; [cbn; lia|].
      destruct ((97 <=? z) && _) eqn:E2; [cbn; lia|].
      destruct ((65 <=? z) && _) eqn:E3; [cbn; lia | done]. }
    specialize (IH (acc * 16 + default 0 (hex_digit z)) ltac:(lia)).
    assert (0 < 16 ^ Z.of_nat (length l)) by (apply Z.pow_pos_nonneg; lia). nia. }
  specialize (Hb 0 ltac:(lia)).
  assert (16 ^ Z.of_nat (length l) ≤ 16 ^ 4) by (apply Z.pow_le_mono_r; lia).
  change (16 ^ 4) with 65536 in *. lia.
Qed.

Lemma span_all {A} (p : A → bool) l : Forall (λ x, p x = true) (span p l).1.
Proof.
  induction l as [|x l IH]; cbn; [constructor|]. destruct (p x) eqn:E; [|constructor].
  destruct (span p l). by constructor.
Qed.

Lemma v6_groups_range fuel : ∀ gs ell s a,
  Forall group_ok gs → v6_groups fuel gs ell s = Some a → 0 ≤ a < 2 ^ 128.
Proof.
  induction fuel as [|f IH]; intros gs ell s a Hok H; [done|]. cbn [v6_groups] in H.
  pose proof (span_all is_hex_digit s) as Hs. destruct (span is_hex_digit s) as [hex rest].
  cbn [fst] in Hs. destruct (Nat.ltb_spec 4 (length hex)) as [|Hl]; [done|].
  destruct (bool_decide _) in H; [done|]. cbn [orb] in H.
  assert (Forall group_ok (gs ++ [hex_value hex])%list) as Hok'
    by (apply Forall_app; split; [done|]; constructor; [by apply hex_value_ok | constructor]).
  destruct rest as [|c r]; [by eapply v6_finish_range|].
  destruct (c =? 46).
  { destruct (_ || _); [done|]. destruct (ParseIP4 _) as [v|] eqn:Ev; [|done]. cbn in H.
    apply ParseIP4_range in Ev. eapply v6_finish_range; [|exact H].
    apply Forall_app. split; [done|]. unfold group_ok.
    change 65535 with (Z.ones 16). rewrite Z.land_ones, Z.shiftr_div_pow2 by lia.
    repeat constructor; [apply Z.div_pos; lia | apply Z.div_lt_upper_bound; lia | | ];
      apply Z.mod_pos_bound; lia. }
  destruct (negb _); [done|]. destruct r as [|d r']; [done|]. destruct (d =? 58).
  - destruct ell, r' as [|]; try done; [by eapply v6_finish_range|].
    destruct (_ =? 8)%nat; [done|]. by eapply IH.
  - destruct (_ =? 8)%nat; [done|]. by eapply IH.
Qed.

Lemma ParseIP6_range s a : ParseIP6 s = Some a → 0 ≤ a < 2 ^ 128.
Proof.
  assert (∀ ell l, v6_groups 9 [] ell l = Some a → 0 ≤ a < 2 ^ 128) as Hg
    by (intros; by eapply v6_groups_range).
  unfold ParseIP6. intros H.
  repeat match type of H with
  | match ?x with _ => _ end = _ => destruct x
  | Some _ = Some _ => injection H as <-; lia
  | _ => by eapply Hg
  end.
Qed.

Lemma ParseAddrBits_wf s ab : ParseAddrBits s = Some ab → wf_ip (ip_of ab).
Proof.
  intros H. assert (Hc : (∃ x, ParseIP4 s = Some x ∧ ab = (x, 32)) ∨
                         (∃ x, ParseIP6 s = Some x ∧ ab = (x, 128))).
  { unfold ParseAddrBits in H. revert H. destruct (find_first _ _) as [z|]; [|done].
    destruct (ParseIP4 s) as [x|], (ParseIP6 s) as [y|]; cbn; intros E;
      repeat match type of E with
      | match ?x with _ => _ end = _ => destruct x; try discriminate E
      end; injection E as <-; eauto. }
  unfold ip_of. destruct Hc as [(x & Hx & ->)|(x & Hx & ->)].
  - exact (ParseIP4_range _ _ Hx).
  - apply ParseIP6_range in Hx. change (snd (x, 128) =? 32) with false. cbv iota. unfold of_16.
    cbn [fst]. rewrite Z.shiftr_div_pow2 by lia. change (2 ^ 32) with 4294967296.
    destruct (Z.eqb_spec (x / 4294967296) 65535) as [Hm|Hm]; cbn [wf_ip].
    + change 4294967295 with (Z.ones 32). rewrite Z.land_ones by lia. apply Z.mod_pos_bound. lia.
    + exact (conj Hx Hm).
Qed.

Lemma ParseCIDR_wf s ip net : ParseCIDR s = Some (ip, net) → wf_ip ip.
Proof.
  unfold ParseCIDR. destruct (cut_slash "" s) as [[a m]|]; [|done]. cbn [mbind option_bind].
  destruct (ParseAddrBits a) as [ab|] eqn:E; [|done]. cbn [mbind option_bind].
  pose proof (ParseAddrBits_wf _ _ E) as Hw. clear E.
  destruct (bytes m) as [|d ds]; [done|]. destruct (forallb is_digit _); [|done].
  destruct (parse_uint _ _ _) as [n [|]]; [done|]. destruct (n <=? ab.2); [|done].
  intros [= <- _]. exact Hw.
Qed.

(** ** A prefix length appended *)

Lemma cut_slash_app pre s m :
  Forall (λ z, z ≠ 47) (bytes s) → cut_slash pre (s +:+ "/" +:+ m) = Some (pre +:+ s, m).
Proof.
  revert pre. induction s as [|c s IH]; intros pre H; cbn; [by rewrite string_app_nil_r|].
  apply Forall_cons in H as [Hc Hs]. apply Z.eqb_neq in Hc. rewrite Hc.
  cbn in IH. rewrite IH by done. by rewrite string_app_assoc.
Qed.

Lemma Join_bytes (P : Z → Prop) l sep :
  Forall P (bytes sep) → Forall (λ s, Forall P (bytes s)) l → Forall P (bytes (Join l sep)).
Proof.
  intros Hsep. induction 1 as [|s l Hs Hl IH]; [constructor|].
  destruct l as [|s' l]; [exact Hs|]. cbn [Join]. rewrite !bytes_app, !Forall_app. done.
Qed.

Lemma net_String_no_slash ip : wf_ip ip → Forall (λ z, z ≠ 47) (bytes (net_String ip)).
Proof.
  destruct ip as [a|a]; cbn [net_String wf_ip].
  - intros Ha. rewrite string4_quad by lia.
    pose proof (λ z, Z.mod_pos_bound z 256 ltac:(lia)) as Hm.
    generalize (Hm (a / 16777216)) (Hm (a / 65536)) (Hm (a / 256)) (Hm a).
    generalize (a / 16777216 mod 256) (a / 65536 mod 256) (a / 256 mod 256) (a mod 256).
    intros b c d e Hb Hc Hd He. eval_sprintf.
    assert (∀ n, 0 ≤ n → Forall (λ z, z ≠ 47) (bytes (Itoa n))) as Hi.
    { intros n Hn. rewrite Itoa_nonneg by done. eapply Forall_impl; [apply format_uint_digits|].
      intros z Hz%is_digit_range. lia. }
    repeat (rewrite bytes_app; apply Forall_app; split; [apply Hi; lia|]; cbn [bytes];
            try (apply Forall_cons; split; [done|])).
    constructor.
  - intros _. unfold string6.
    assert (∀ gs, Forall (λ z, z ≠ 47) (bytes (Join (hex_group <$> gs) ":"))) as Hj.
    { intros gs. apply Join_bytes; [by repeat constructor|]. apply Forall_fmap.
      apply Forall_true. intros g. eapply Forall_impl; [apply format_hex_digits|].
      cbn beta. unfold is_hex, between. lia. }
    destruct (zero_run _ _ _) as [s n]. destruct (n =? 0)%nat; [apply Hj|].
    rewrite !bytes_app, !Forall_app. split; [apply Hj|]. split; [by repeat constructor|apply Hj].
Qed.

(** An address with "/24" appended is the address in CIDR notation. *)
Lemma ParseCIDR_24 ip :
  wf_ip ip → ∃ net, ParseCIDR (net_String ip +:+ "/24") = Some (ip, net) ∧ net_Ones net = 24.
Proof.
  intros Hw. destruct (ParseAddrBits_String ip Hw) as (ab & H & E & Hb).
  unfold ParseCIDR. change "/24" with ("/" +:+ "24").
  rewrite cut_slash_app by by apply net_String_no_slash. cbn [mbind option_bind].
  change ("" +:+ net_String ip) with (net_String ip). rewrite H. cbn [mbind option_bind].
  change (bytes "24") with [50; 52]. cbv iota. change (forallb is_digit [50; 52]) with true.
  change (parse_uint 10 0 [50; 52]) with (24, @None num_error). cbv iota.
  destruct (Z.leb_spec 24 ab.2); [|lia]. rewrite E. by eexists.
Qed.
