(* ===== verification/Prog.v ===== *)
(** * Reconcilers as programs that call their environment

    A reconciler is Go code that calls the API server, Gitea, the webconsole, remote clusters or
    the host's network stack.  None of these is part of the repository, so a call is an uninterpreted
    operation and its answer is whatever the environment returns: [prog S A] is the type of
    programs that issue calls of the signature [S] and return an [A].

    - [act S St A] adds what the Go functions thread by hand: the object under reconciliation
      (Go code mutates it through a pointer) and the [error] result.
    - [always p Q] says that [Q] holds of the call trace and the result of [p] whatever the
      environment answers; [sometimes] that some answers make it so; [spec] is [always] for [act].
    - [run h p w] executes [p] against a handler [h] over a world [w]; [always_run] transfers
      what holds for every environment to each of them. *)

From S2P Require Import Prelude.

(** ** Errors and results *)

(** A Go [error]: its text, and what apierrors.IsNotFound answers for it ([%w] preserves both). *)
Record error := Error { IsNotFound : bool; err_msg : string }.

Definition errorf (msg : string) : error := Error false msg.
(** fmt.Errorf("<prefix>%w", err). *)
Definition wrapf (prefix : string) (e : error) : error :=
  Error (IsNotFound e) (prefix +:+ err_msg e).

Inductive result (A : Type) :=
| Ok (a : A)
| Err (e : error).
Arguments Ok {A} a.
Arguments Err {A} e.

#[export] Instance error_eq_dec : EqDecision error.
Proof. solve_decision. Defined.
#[export] Instance result_eq_dec {A} `{EqDecision A} : EqDecision (result A).
Proof. solve_decision. Defined.

Definition is_ok {A} (r : result A) : bool := match r with Ok _ => true | Err _ => false end.
Definition result_map {A B} (f : A → B) (r : result A) : result B :=
  match r with Ok a => Ok (f a) | Err e => Err e end.

(** ** Programs *)

Record signature := Sig { op : Type; ans : op → Type }.

Inductive prog (S : signature) (A : Type) : Type :=
| Ret (a : A)
| Call (c : op S) (k : ans S c → prog S A).
Arguments Ret {S A} a.
Arguments Call {S A} c k.

(** One call with its answer. *)
Inductive event (S : signature) : Type := Ev (c : op S) (r : ans S c).
Arguments Ev {S} c r.

Definition ev_op {S} (e : event S) : op S := match e with Ev c _ => c end.

Section prog.
Context {S : signature}.

Fixpoint prog_bind {A B} (p : prog S A) (f : A → prog S B) : prog S B :=
  match p with
  | Ret a => f a
  | Call c k => Call c (λ r, prog_bind (k r) f)
  end.

#[export] Instance prog_mret : MRet (prog S) := λ A a, Ret a.
#[export] Instance prog_mbind : MBind (prog S) := λ A B f p, prog_bind p f.

Fixpoint always {A} (p : prog S A) (Q : list (event S) → A → Prop) : Prop :=
  match p with
  | Ret a => Q [] a
  | Call c k => ∀ r, always (k r) (λ t a, Q (Ev c r :: t) a)
  end.

Fixpoint sometimes {A} (p : prog S A) (Q : list (event S) → A → Prop) : Prop :=
  match p with
  | Ret a => Q [] a
  | Call c k => ∃ r, sometimes (k r) (λ t a, Q (Ev c r :: t) a)
  end.

Lemma always_impl {A} (p : prog S A) (Q Q' : list (event S) → A → Prop) :
  (∀ t a, Q t a → Q' t a) → always p Q → always p Q'.
Proof.
  revert Q Q'. induction p as [a|c k IH]; intros Q Q' H; simpl; [auto|].
  intros Hp r. eapply IH; [|apply Hp]. auto.
Qed.

Lemma always_and {A} (p : prog S A) (Q Q' : list (event S) → A → Prop) :
  always p Q → always p Q' → always p (λ t a, Q t a ∧ Q' t a).
Proof. revert Q Q'. induction p as [a|c k IH]; intros Q Q'; simpl; auto. Qed.

Lemma always_true {A} (p : prog S A) : always p (λ _ _, True).
Proof. induction p; simpl; auto. Qed.

Lemma always_bind {A B} (p : prog S A) (f : A → prog S B) (Q : list (event S) → B → Prop) :
  always (p ≫= f) Q ↔ always p (λ t a, always (f a) (λ t' b, Q (t ++ t')%list b)).
Proof.
  unfold mbind, prog_mbind. revert Q.
  induction p as [a|c k IH]; intros Q; simpl; [done|].
  split; intros H r; specialize (H r); by apply (IH r (λ t b, Q (Ev c r :: t) b)).
Qed.

Lemma always_sometimes {A} (p : prog S A) (Q Q' : list (event S) → A → Prop) :
  always p Q → sometimes p Q' → sometimes p (λ t a, Q t a ∧ Q' t a).
Proof.
  revert Q Q'. induction p as [a|c k IH]; intros Q Q'; simpl; [auto|].
  intros HA [r Hr]. exists r. by apply (IH r (λ t a, Q (Ev c r :: t) a)).
Qed.

(** [p] can run along the trace [t] and return [a]. *)
Definition produces {A} (p : prog S A) (t : list (event S)) (a : A) : Prop :=
  sometimes p (λ t' a', t' = t ∧ a' = a).

Lemma sometimes_impl {A} (p : prog S A) (Q Q' : list (event S) → A → Prop) :
  (∀ t a, Q t a → Q' t a) → sometimes p Q → sometimes p Q'.
Proof.
  revert Q Q'. induction p as [a|c k IH]; intros Q Q' H; simpl; [auto|].
  intros [r Hr]. exists r. eapply IH; [|apply Hr]. auto.
Qed.

Lemma always_produces {A} (p : prog S A) : always p (produces p).
Proof.
  unfold produces. induction p as [a|c k IH]; simpl; [done|]. intros r.
  eapply always_impl; [|apply IH]. cbn beta. intros t a H. exists r.
  eapply sometimes_impl; [|exact H]. by intros t' a' [-> ->].
Qed.

(** *** Execution against a handler *)

Definition handler (W : Type) : Type := ∀ c : op S, W → ans S c * W.

Fixpoint run {W A} (h : handler W) (p : prog S A) (w : W) : W * list (event S) * A :=
  match p with
  | Ret a => (w, [], a)
  | Call c k =>
      let '(r, w1) := h c w in
      let '(w2, t, a) := run h (k r) w1 in (w2, Ev c r :: t, a)
  end.

Definition run_world {W A} (h : handler W) (p : prog S A) (w : W) : W := (run h p w).1.1.
Definition run_trace {W A} (h : handler W) (p : prog S A) (w : W) := (run h p w).1.2.
Definition run_value {W A} (h : handler W) (p : prog S A) (w : W) : A := (run h p w).2.

Lemma always_run {W A} (h : handler W) (p : prog S A) (Q : list (event S) → A → Prop) w :
  always p Q → Q (run_trace h p w) (run_value h p w).
Proof.
  unfold run_trace, run_value. revert Q w.
  induction p as [a|c k IH]; intros Q w; simpl; [done|]. intros H.
  destruct (h c w) as [r w1]. specialize (IH r _ w1 (H r)).
  by destruct (run h (k r) w1) as [[w2 t] a].
Qed.

Lemma run_bind {W A B} (h : handler W) (p : prog S A) (f : A → prog S B) w :
  run h (p ≫= f) w =
    let '(w1, t1, a) := run h p w in
    let '(w2, t2, b) := run h (f a) w1 in (w2, (t1 ++ t2)%list, b).
Proof.
  unfold mbind, prog_mbind. revert w. induction p as [a|c k IH]; intros w; simpl.
  - by destruct (run h (f a) w) as [[w2 t2] b].
  - destruct (h c w) as [r w1]. rewrite IH.
    destruct (run h (k r) w1) as [[w2 t2] a].
    by destruct (run h (f a) w2) as [[w3 t3] b].
Qed.

Lemma sometimes_run {W A} (h : handler W) (p : prog S A) (Q : list (event S) → A → Prop) w :
  Q (run_trace h p w) (run_value h p w) → sometimes p Q.
Proof.
  unfold run_trace, run_value. revert Q w.
  induction p as [a|c k IH]; intros Q w; simpl; [done|].
  destruct (h c w) as [r w1] eqn:E. intros H. exists r.
  apply (IH r _ w1). by destruct (run h (k r) w1) as [[w2 t] a].
Qed.

(** The trace [t] is what the handler answers from [w], ending in [w']. *)
Fixpoint replays {W} (h : handler W) (w : W) (t : list (event S)) (w' : W) : Prop :=
  match t with
  | [] => w' = w
  | Ev c r :: t' => (h c w).1 = r ∧ replays h (h c w).2 t' w'
  end.

Lemma run_replays {W A} (h : handler W) (p : prog S A) w :
  replays h w (run_trace h p w) (run_world h p w).
Proof.
  unfold run_trace, run_world. revert w. induction p as [a|c k IH]; intros w; [done|].
  simpl. destruct (h c w) as [r w1] eqn:E. specialize (IH r w1).
  destruct (run h (k r) w1) as [[w2 t] a]. simpl in *. by rewrite E.
Qed.

Lemma replays_app {W} (h : handler W) w t1 t2 w' :
  replays h w (t1 ++ t2)%list w' ↔ ∃ w1, replays h w t1 w1 ∧ replays h w1 t2 w'.
Proof.
  revert w. induction t1 as [|[c r] t1 IH]; intros w; simpl; [naive_solver|].
  rewrite IH. naive_solver.
Qed.

(** What holds for every environment holds of a run, along with what the handler answered. *)
Lemma always_replays {W A} (h : handler W) (p : prog S A) (Q : list (event S) → A → Prop) w :
  always p Q →
  ∃ t, replays h w t (run_world h p w) ∧ Q t (run_value h p w).
Proof. intros H. exists (run_trace h p w). split; [apply run_replays | by apply always_run]. Qed.
End prog.

Arguments handler S W : clear implicits.

(** ** Actions: programs with a mutable object and an error result *)

Definition act (S : signature) (St A : Type) : Type := St → prog S (St * result A).

Section act.
Context {S : signature} {St : Type}.

#[export] Instance act_mret : MRet (act S St) := λ A a s, Ret (s, Ok a).
(** Sequencing: an error ends the enclosing function, as [if err != nil { return err }]. *)
#[export] Instance act_mbind : MBind (act S St) := λ A B f m s,
  prog_bind (m s) (λ '(s', r), match r with Ok a => f a s' | Err e => Ret (s', Err e) end).

Definition throw {A} (e : error) : act S St A := λ s, Ret (s, Err e).
Definition of_result {A} (r : result A) : act S St A := λ s, Ret (s, r).
Definition get : act S St St := λ s, Ret (s, Ok s).
Definition modify (f : St → St) : act S St unit := λ s, Ret (f s, Ok tt).
Definition call (c : op S) : act S St (ans S c) := λ s, Call c (λ r, Ret (s, Ok r)).
Definition lift {A} (p : prog S A) : act S St A := λ s, prog_bind p (λ a, Ret (s, Ok a)).

(** [err := f()] where the caller inspects the error instead of returning it. *)
Definition try {A} (m : act S St A) : act S St (result A) :=
  λ s, prog_bind (m s) (λ '(s', r), Ret (s', Ok r)).

(** [return fmt.Errorf("<prefix>%w", err)] on failure. *)
Definition wrap {A} (prefix : string) (m : act S St A) : act S St A :=
  λ s, prog_bind (m s) (λ '(s', r),
    Ret (s', match r with Ok a => Ok a | Err e => Err (wrapf prefix e) end)).

Definition when (b : bool) (m : act S St unit) : act S St unit := if b then m else mret tt.

(** [for _, x := range l], left by the first error the body returns. *)
Fixpoint for_each {A} (l : list A) (f : A → act S St unit) : act S St unit :=
  match l with
  | [] => mret tt
  | x :: r => _ ← f x; for_each r f
  end.

(** *** Specifications *)

Definition spec {A} (m : act S St A) (s : St)
    (Q : list (event S) → St → result A → Prop) : Prop :=
  always (m s) (λ t x, Q t x.1 x.2).

Lemma spec_impl {A} (m : act S St A) s (Q Q' : list (event S) → St → result A → Prop) :
  (∀ t s' r, Q t s' r → Q' t s' r) → spec m s Q → spec m s Q'.
Proof. intros H. apply always_impl. auto. Qed.

Lemma spec_and {A} (m : act S St A) s (Q Q' : list (event S) → St → result A → Prop) :
  spec m s Q → spec m s Q' → spec m s (λ t s' r, Q t s' r ∧ Q' t s' r).
Proof. apply always_and. Qed.

Lemma spec_bind {A B} (m : act S St A) (f : A → act S St B) s
    (Q : list (event S) → St → result B → Prop) :
  spec (m ≫= f) s Q ↔
  spec m s (λ t s' r, match r with
                      | Ok a => spec (f a) s' (λ t' s'' r', Q (t ++ t')%list s'' r')
                      | Err e => Q t s' (Err e)
                      end).
Proof.
  unfold spec. unfold mbind at 1, act_mbind.
  change (prog_bind (m s) ?k) with (m s ≫= k). rewrite always_bind.
  split; apply always_impl; intros t [s' [a|e]]; simpl; try done;
    rewrite app_nil_r; done.
Qed.

Lemma spec_ret {A} (a : A) s (Q : list (event S) → St → result A → Prop) :
  spec (mret a) s Q ↔ Q [] s (Ok a).
Proof. done. Qed.

Lemma spec_throw {A} (e : error) s (Q : list (event S) → St → result A → Prop) :
  spec (throw e) s Q ↔ Q [] s (Err e).
Proof. done. Qed.

Lemma spec_get s (Q : list (event S) → St → result St → Prop) :
  spec get s Q ↔ Q [] s (Ok s).
Proof. done. Qed.

Lemma spec_modify (f : St → St) s (Q : list (event S) → St → result unit → Prop) :
  spec (modify f) s Q ↔ Q [] (f s) (Ok tt).
Proof. done. Qed.

Lemma spec_call (c : op S) s (Q : list (event S) → St → result (ans S c) → Prop) :
  spec (call c) s Q ↔ ∀ r, Q [Ev c r] s (Ok r).
Proof. done. Qed.

Lemma spec_of_result {A} (r : result A) s (Q : list (event S) → St → result A → Prop) :
  spec (of_result r) s Q ↔ Q [] s r.
Proof. done. Qed.

Lemma spec_lift {A} (p : prog S A) s (Q : list (event S) → St → result A → Prop) :
  spec (lift p) s Q ↔ always p (λ t a, Q t s (Ok a)).
Proof.
  unfold spec, lift. change (prog_bind p ?k) with (p ≫= k). rewrite always_bind.
  split; apply always_impl; intros t a; simpl; by rewrite app_nil_r.
Qed.

Lemma spec_try {A} (m : act S St A) s (Q : list (event S) → St → result (result A) → Prop) :
  spec (try m) s Q ↔ spec m s (λ t s' r, Q t s' (Ok r)).
Proof.
  unfold spec, try. change (prog_bind (m s) ?k) with (m s ≫= k). rewrite always_bind.
  split; apply always_impl; intros t [s' r]; simpl; by rewrite app_nil_r.
Qed.

Lemma spec_wrap {A} p (m : act S St A) s (Q : list (event S) → St → result A → Prop) :
  spec (wrap p m) s Q ↔
  spec m s (λ t s' r, Q t s' (match r with Ok a => Ok a | Err e => Err (wrapf p e) end)).
Proof.
  unfold spec, wrap. change (prog_bind (m s) ?k) with (m s ≫= k). rewrite always_bind.
  split; apply always_impl; intros t [s' r]; simpl; by rewrite app_nil_r.
Qed.
End act.

(** ** The traces of loops

    [in_turn turn l t r] is the trace of a loop over [l] that the first error leaves, [turn]
    describing one pass; [collected turn l t rs] that of a loop that goes on past failures and
    gathers what its passes report. *)

Inductive in_turn {S : signature} {A} (turn : A → list (event S) → result unit → Prop) :
    list A → list (event S) → result unit → Prop :=
| turn_end : in_turn turn [] [] (Ok tt)
| turn_next x l t t' r :
    turn x t (Ok tt) → in_turn turn l t' r → in_turn turn (x :: l) (t ++ t')%list r
| turn_failed x l t e :
    turn x t (Err e) → in_turn turn (x :: l) t (Err e).

Inductive collected {S : signature} {A B} (turn : A → list (event S) → list B → Prop) :
    list A → list (event S) → list B → Prop :=
| collected_end : collected turn [] [] []
| collected_next x l t t' r r' :
    turn x t r → collected turn l t' r' → collected turn (x :: l) (t ++ t')%list (r ++ r')%list.

Section loops.
Context {S : signature} {St A : Type}.

Lemma in_turn_one (turn : A → list (event S) → result unit → Prop) x t r :
  turn x t r → in_turn turn [x] t r.
Proof.
  intros H. destruct r as [[]|e]; [|by apply turn_failed].
  rewrite <-(app_nil_r t). apply turn_next; [done|apply turn_end].
Qed.

Lemma in_turn_app (turn : A → list (event S) → result unit → Prop) l1 l2 t1 t2 r :
  in_turn turn l1 t1 (Ok tt) → in_turn turn l2 t2 r → in_turn turn (l1 ++ l2)%list (t1 ++ t2)%list r.
Proof.
  intros H1 H2. remember (Ok tt) as ok eqn:E. induction H1 as [|x l t t' r' Hx _ IH|]; [done| |done].
  rewrite <-app_assoc. apply turn_next; auto.
Qed.

Lemma in_turn_stopped (turn : A → list (event S) → result unit → Prop) l1 l2 t e :
  in_turn turn l1 t (Err e) → in_turn turn (l1 ++ l2)%list t (Err e).
Proof.
  intros H. remember (Err e) as r eqn:E. induction H as [|x l t t' r' Hx _ IH|]; [done| |].
  - apply turn_next; auto.
  - injection E as <-. by apply turn_failed.
Qed.

(** An action that runs the passes of [l] and then leaves its object as it was, or in [I] after an
    error. *)
Definition performs (I : St → Prop) (turn : A → list (event S) → result unit → Prop)
    (m : act S St unit) (s : St) (l : list A) : Prop :=
  spec m s (λ t s' r, match r with Ok _ => s' = s | Err _ => I s' end ∧ in_turn turn l t r).

Context (I : St → Prop) (turn : A → list (event S) → result unit → Prop).

Lemma performs_ret (s : St) : performs I turn (mret tt) s [].
Proof. split; [done|apply turn_end]. Qed.

Lemma performs_get (f : St → act S St unit) s l :
  performs I turn (f s) s l → performs I turn (x ← get; f x) s l.
Proof. intros H. by apply spec_bind, spec_get. Qed.

Lemma performs_seq (m1 m2 : act S St unit) s l1 l2 :
  performs I turn m1 s l1 → performs I turn m2 s l2 →
  performs I turn (_ ← m1; m2) s (l1 ++ l2)%list.
Proof.
  intros H1 H2. apply spec_bind. eapply spec_impl; [|exact H1]. cbn beta.
  intros t s' [[]|e] [Hs H]; [|split; [done|by apply in_turn_stopped]]. subst s'.
  eapply spec_impl; [|exact H2]. cbn beta. intros t' s' r [Hs' H'].
  split; [done|by apply in_turn_app].
Qed.

Lemma performs_one (m : act S St unit) s x :
  I s → spec m s (λ t s' r, s' = s ∧ turn x t r) → performs I turn m s [x].
Proof.
  intros HI. apply spec_impl. intros t s' r [-> H]. split; [by destruct r|by apply in_turn_one].
Qed.

Lemma performs_when (b : bool) (m : act S St unit) s l :
  performs I turn m s l → performs I turn (when b m) s (if b then l else []).
Proof. intros H. destruct b; [done|apply performs_ret]. Qed.

Lemma performs_for_each {X} (l : list X) (f : X → act S St unit) (g : X → A) s :
  (∀ x, performs I turn (f x) s [g x]) → performs I turn (for_each l f) s (g <$> l).
Proof.
  intros H. induction l as [|x l IH]; [apply performs_ret|]. cbn [for_each fmap list_fmap].
  apply (performs_seq (f x) (for_each l f) s [g x]); [apply H|exact IH].
Qed.
End loops.

(** ** Running a sequence of actions *)

Section run_act.
Context {S : signature} {St W : Type} (h : handler S W).

Lemma run_bind_ok {A B} (m : act S St A) (f : A → act S St B) s w s' a :
  run_value h (m s) w = (s', Ok a) →
  let w1 := run_world h (m s) w in
  run_value h ((m ≫= f) s) w = run_value h (f a s') w1 ∧
  run_world h ((m ≫= f) s) w = run_world h (f a s') w1 ∧
  run_trace h ((m ≫= f) s) w = (run_trace h (m s) w ++ run_trace h (f a s') w1)%list.
Proof.
  unfold run_value, run_world, run_trace. unfold mbind at 1 2 3, act_mbind.
  change (prog_bind (m s) ?k) with (m s ≫= k). rewrite run_bind.
  destruct (run h (m s) w) as [[w1 t1] x]. cbn. intros ->.
  by destruct (run h (f a s') w1) as [[w2 t2] y].
Qed.

Lemma run_wrap_ok {A} p (m : act S St A) s w s' a :
  run_value h (m s) w = (s', Ok a) →
  run_value h (wrap p m s) w = (s', Ok a) ∧
  run_world h (wrap p m s) w = run_world h (m s) w ∧
  run_trace h (wrap p m s) w = run_trace h (m s) w.
Proof.
  unfold run_value, run_world, run_trace, wrap.
  change (prog_bind (m s) ?k) with (m s ≫= k). rewrite run_bind.
  destruct (run h (m s) w) as [[w1 t1] x]. cbn. intros ->. cbn. by rewrite app_nil_r.
Qed.
End run_act.

(** ** Symbolic execution of a specification

    [step_spec] advances a goal [spec m s Q] by one construct of [m]; [walk] repeats it and splits
    on the answers, leaving one goal per path. *)

Ltac step_spec :=
  lazymatch goal with
  | |- spec (mbind _ _) _ _ => apply (proj2 (spec_bind _ _ _ _))
  | |- spec (mret _) _ _ => apply (proj2 (spec_ret _ _ _))
  | |- spec (throw _) _ _ => apply (proj2 (spec_throw _ _ _))
  | |- spec (of_result _) _ _ => apply (proj2 (spec_of_result _ _ _))
  | |- spec get _ _ => apply (proj2 (spec_get _ _))
  | |- spec (modify _) _ _ => apply (proj2 (spec_modify _ _ _))
  | |- spec (@call ?S ?St ?c) ?s ?Q => apply (proj2 (@spec_call S St c s Q)); intros ?
  | |- spec (try _) _ _ => apply (proj2 (spec_try _ _ _))
  | |- spec (wrap _ _) _ _ => apply (proj2 (spec_wrap _ _ _ _))
  | |- spec (when ?b _) _ _ => unfold when
  | |- spec (match ?x with _ => _ end) _ _ => destruct x eqn:?
  | |- match ?x with Ok _ => _ | Err _ => _ end =>
      lazymatch x with
      | match ?y with _ => _ end => destruct y eqn:?
      | _ => destruct x eqn:?
      end
  end.

Ltac walk := repeat (step_spec; cbn beta iota).
