(* ===== verification/Rely.v ===== *)
(** * Assume and guarantee over calls

    A judgement on programs in the style of a type system: when the environment's answers satisfy
    [R], every call the program makes satisfies [G].  [obeys] is the judgement on programs;
    [hoare] on actions, with an assertion on the object before, after and on an error; [keeps] is
    [hoare] for an invariant of the object, which an error may weaken.  Unlike [spec] a call is checked against the answers that
    precede it only, and a rule per construct makes the judgement syntax-directed: [keep_step]
    applies them, lemmas on whole functions come from the hint database [keeps].
    [obeys_always] turns the judgement into a statement about traces. *)

From S2P Require Import Prelude Prog.

Create HintDb keeps discriminated.

Section rely.
Context {S : signature} (G : op S → Prop) (R : ∀ c : op S, ans S c → Prop).

Fixpoint obeys {A} (p : prog S A) (Q : A → Prop) : Prop :=
  match p with
  | Ret a => Q a
  | Call c k => G c ∧ ∀ r, R c r → obeys (k r) Q
  end.

Lemma obeys_impl {A} (p : prog S A) (Q Q' : A → Prop) :
  (∀ a, Q a → Q' a) → obeys p Q → obeys p Q'.
Proof. intros H. induction p as [a|c k IH]; cbn; [auto|]. intros [Hc Hk]. auto. Qed.

Lemma obeys_bind {A B} (p : prog S A) (f : A → prog S B) (Q : B → Prop) :
  obeys p (λ a, obeys (f a) Q) → obeys (prog_bind p f) Q.
Proof. induction p as [a|c k IH]; cbn; [done|]. intros [Hc Hk]. auto. Qed.

(** What the judgement says of a trace. *)
Definition relied (e : event S) : Prop := match e with Ev c r => R c r end.

Lemma always_under {A} (P : Prop) (p : prog S A) (Q : list (event S) → A → Prop) :
  (P → always p Q) → always p (λ t a, P → Q t a).
Proof.
  revert Q. induction p as [a|c k IH]; intros Q H; cbn in *; [done|]. intros r.
  apply (IH r (λ t a, Q (Ev c r :: t) a)). auto.
Qed.

Lemma obeys_always {A} (p : prog S A) (Q : A → Prop) :
  obeys p Q → always p (λ t a, Forall relied t → Forall (λ e, G (ev_op e)) t ∧ Q a).
Proof.
  induction p as [a|c k IH]; cbn; [by split|]. intros [Hc Hk] r.
  eapply always_impl; [|apply (always_under (R c r)); intros Hr; apply IH; auto].
  cbn beta. intros t a H Ht. apply Forall_cons in Ht as [Hr Ht].
  destruct (H Hr Ht) as [Hg Hq]. split; [by constructor | done].
Qed.

(** ** Actions *)

Context {St : Type}.
Implicit Types I J K E : St → Prop.

Definition hoare {A} I (m : act S St A) J E (Q : A → Prop) : Prop :=
  ∀ s, I s → obeys (m s) (λ x, match x.2 with Ok a => J x.1 ∧ Q a | Err _ => E x.1 end).

Definition keeps {A} I E (m : act S St A) (Q : A → Prop) : Prop := hoare I m I E Q.

Lemma hoare_bind {A B} I J K E (m : act S St A) (f : A → act S St B) P Q :
  hoare I m J E P → (∀ a, P a → hoare J (f a) K E Q) → hoare I (m ≫= f) K E Q.
Proof.
  intros Hm Hf s Hs. apply obeys_bind. eapply obeys_impl; [|by apply Hm].
  cbn beta. intros [s' [a|e]]; cbn; [intros [Hs' Ha]; by apply Hf | done].
Qed.

Lemma hoare_modify I J E (f : St → St) :
  (∀ s, I s → J (f s)) → hoare I (modify f) J E (λ _, True).
Proof. intros H s Hs. split; [by apply H | done]. Qed.

Lemma hoare_get I E : hoare I get I E I.
Proof. intros s Hs. by split. Qed.

Lemma hoare_weaken {A} I I' J J' E E' (m : act S St A) (P Q : A → Prop) :
  (∀ s, I s → I' s) → (∀ s, J' s → J s) → (∀ s, E' s → E s) → (∀ a, P a → Q a) →
  hoare I' m J' E' P → hoare I m J E Q.
Proof.
  intros HI HJ HE HQ Hm s Hs. eapply obeys_impl; [|apply Hm; auto].
  cbn beta. intros [s' [a|e]]; cbn; [intros [Hs' Ha]; split; auto | auto].
Qed.

Lemma keeps_bind {A B} I E (m : act S St A) (f : A → act S St B) P Q :
  keeps I E m P → (∀ a, P a → keeps I E (f a) Q) → keeps I E (m ≫= f) Q.
Proof. apply hoare_bind. Qed.

Lemma keeps_post {A} I E (m : act S St A) (P Q : A → Prop) :
  (∀ a, P a → Q a) → keeps I E m P → keeps I E m Q.
Proof. intros H. by apply hoare_weaken. Qed.

Lemma keeps_err {A} I E (m : act S St A) Q :
  (∀ s, I s → E s) → keeps I I m Q → keeps I E m Q.
Proof. intros H. by apply hoare_weaken. Qed.

Lemma keeps_any {A} I E (m : act S St A) P : keeps I E m P → keeps I E m (λ _, True).
Proof. by apply keeps_post. Qed.

Lemma keeps_ret {A} I E (a : A) (Q : A → Prop) : Q a → keeps I E (mret a) Q.
Proof. intros H s Hs. by split. Qed.

Lemma keeps_ret_eq {A} I E (a : A) : keeps I E (mret a) (λ b, b = a).
Proof. by apply keeps_ret. Qed.

Lemma keeps_throw {A} I E e (Q : A → Prop) : (∀ s, I s → E s) → keeps I E (throw e) Q.
Proof. intros H s Hs. by apply H. Qed.

Lemma keeps_of_result {A} I E (r : result A) :
  (∀ s, I s → E s) → keeps I E (of_result r) (λ a, r = Ok a).
Proof. intros H s Hs. destruct r; [by split | by apply H]. Qed.

Lemma keeps_get I E : keeps I E get I.
Proof. apply hoare_get. Qed.

Lemma keeps_modify I E (f : St → St) : (∀ s, I s → I (f s)) → keeps I E (modify f) (λ _, True).
Proof. apply hoare_modify. Qed.

Lemma keeps_call I E (c : op S) : G c → keeps I E (call c) (R c).
Proof. intros Hc s Hs. split; [done|]. by split. Qed.

Lemma keeps_ok {A} I E (m : act S St (result A)) P :
  (∀ s, I s → E s) → keeps I E m P → keeps I E (r ← m; of_result r) (λ a, P (Ok a)).
Proof.
  intros HE H. eapply keeps_bind; [exact H|]. intros r Hr.
  eapply keeps_post; [|by apply keeps_of_result]. by intros a ->.
Qed.

Lemma keeps_try {A} I E (m : act S St A) P :
  keeps I I m P → keeps I E (try m) (λ r, match r with Ok a => P a | Err _ => True end).
Proof.
  intros H s Hs. apply obeys_bind. eapply obeys_impl; [|by apply H].
  by intros [s' [a|e]]; cbn.
Qed.

(** *** Where no error is expected: the assertion on an error is [False] *)

Lemma keeps_of_ok {A} I E (r : result A) :
  (∀ e, r ≠ Err e) → keeps I E (of_result r) (λ a, r = Ok a).
Proof. intros H s Hs. destruct r as [a|e]; [by split | by destruct (H e)]. Qed.

Lemma keeps_no_error {A} I E (m : act S St (result A)) P :
  keeps I E m P → (∀ e, ¬ P (Err e)) → keeps I E (r ← m; of_result r) (λ a, P (Ok a)).
Proof.
  intros H HP. eapply keeps_bind; [exact H|]. intros [a|e] Hr; [by apply keeps_ret | by destruct (HP e)].
Qed.

Lemma keeps_try_ok {A} I E (m : act S St A) P :
  keeps I (λ _, False) m P →
  keeps I E (try m) (λ r, match r with Ok a => P a | Err _ => False end).
Proof.
  intros H s Hs. apply obeys_bind. eapply obeys_impl; [|by apply H]. by intros [s' [a|e]]; cbn.
Qed.

Lemma keeps_wrap {A} I E prefix (m : act S St A) P : keeps I E m P → keeps I E (wrap prefix m) P.
Proof.
  intros H s Hs. apply obeys_bind. eapply obeys_impl; [|by apply H]. by intros [s' [a|e]].
Qed.

Lemma keeps_when I E b (m : act S St unit) :
  (b = true → keeps I E m (λ _, True)) → keeps I E (when b m) (λ _, True).
Proof. intros H. destruct b; [by apply H | by apply keeps_ret]. Qed.

Lemma keeps_for_each {X} I E (l : list X) (f : X → act S St unit) :
  (∀ x, x ∈ l → keeps I E (f x) (λ _, True)) → keeps I E (for_each l f) (λ _, True).
Proof.
  induction l as [|x l IH]; intros H; cbn; [by apply keeps_ret|].
  eapply keeps_bind; [apply H; left|]. intros _ _. apply IH. intros y Hy. apply H. by right.
Qed.
End rely.

(** One construct of the action.  The assertion on the value of a first component is read off its
    shape when it is simple; a compound one only promises [True]. *)
Ltac keep_step :=
  lazymatch goal with
  | |- keeps _ _ _ _ (mbind (λ r, of_result r) _) ?Q =>
      first [is_evar Q; eapply keeps_ok | eapply keeps_post; [|eapply keeps_ok]]
  | |- keeps _ _ _ _ (mbind _ _) ?Q =>
      first [is_evar Q; eapply (keeps_any _ _ _ _ _ (λ _, True)) | idtac];
      eapply keeps_bind; [|intros ? ?]
  | |- keeps _ _ _ _ get ?Q =>
      first [is_evar Q; apply keeps_get | eapply keeps_post; [|apply keeps_get]]
  | |- keeps _ _ _ _ (mret _) ?Q =>
      first [is_evar Q; apply keeps_ret_eq | apply keeps_ret]
  | |- keeps _ _ _ _ (throw _) _ => apply keeps_throw
  | |- keeps _ _ _ _ (of_result _) ?Q =>
      first [is_evar Q; apply keeps_of_result | eapply keeps_post; [|apply keeps_of_result]]
  | |- keeps _ _ _ _ (modify _) ?Q =>
      first [is_evar Q; apply keeps_modify | eapply keeps_post; [|apply keeps_modify]]
  | |- keeps ?G ?R ?I ?E (call ?c) ?Q =>
      first [is_evar Q; apply (keeps_call G R I E c)
            | eapply keeps_post; [|apply (keeps_call G R I E c)]]
  | |- keeps _ _ _ _ (try _) ?Q =>
      first [is_evar Q; eapply keeps_try | eapply keeps_post; [|eapply keeps_try]]
  | |- keeps _ _ _ _ (wrap _ _) _ => apply keeps_wrap
  | |- keeps _ _ _ _ (when _ _) _ => apply keeps_when; intros ?
  | |- keeps _ _ _ _ (for_each _ _) _ => apply keeps_for_each; intros ? ?
  | |- keeps _ _ _ _ (match ?x with _ => _ end) ?Q =>
      first [is_evar Q; eapply (keeps_any _ _ _ _ _ (λ _, True)) | idtac];
      destruct x eqn:?
  end.

Ltac keep := repeat first [progress cbn beta iota zeta | keep_step | solve [eauto with keeps] | done].
