(* ===== verification/Cost.v ===== *)
(** * The number of calls a program makes

    The potential method on programs: [pays p n Q] says that [p] can pay one unit per call out of
    a budget of [n] units, where the answer of a call may bring in [credit] units, and that [Q]
    holds of the value and the budget left.  [pays_always] bounds the length of a trace by the
    budget and the credit of its answers.  [affords] is [pays] for actions; [costs m c] says that
    [m] needs at most [c] units whatever is answered. *)

From S2P Require Import Prelude Prog.

Create HintDb costs discriminated.

Section cost.
Context {S : signature} (credit : ∀ c : op S, ans S c → nat).

Fixpoint pays {A} (p : prog S A) (n : nat) (Q : A → nat → Prop) : Prop :=
  match p with
  | Ret a => Q a n
  | Call c k => (0 < n)%nat ∧ ∀ r, pays (k r) (n - 1 + credit c r) Q
  end.

Lemma pays_impl {A} (p : prog S A) n (Q Q' : A → nat → Prop) :
  (∀ a n', Q a n' → Q' a n') → pays p n Q → pays p n Q'.
Proof.
  intros H. revert n. induction p as [a|c k IH]; intros n; cbn; [auto|]. intros [Hn Hk]. auto.
Qed.

Lemma pays_bind {A B} (p : prog S A) (f : A → prog S B) n (Q : B → nat → Prop) :
  pays p n (λ a n', pays (f a) n' Q) → pays (prog_bind p f) n Q.
Proof. revert n. induction p as [a|c k IH]; intros n; cbn; [done|]. intros [Hn Hk]. auto. Qed.

Definition credits (t : list (event S)) : nat :=
  sum_list_with (λ e, match e with Ev c r => credit c r end) t.

Lemma pays_always {A} (p : prog S A) n (Q : A → nat → Prop) :
  pays p n Q → always p (λ t _, (length t ≤ n + credits t)%nat).
Proof.
  revert n. induction p as [a|c k IH]; intros n; cbn [pays always length]; [lia|].
  intros [Hn Hk] r.
  eapply always_impl; [|apply (IH r _ (Hk r))]. cbn beta. intros t a Ht.
  cbn [length credits sum_list_with]. unfold credits in Ht. lia.
Qed.

Context {St : Type}.

Definition affords {A} (m : act S St A) (s : St) (n : nat) (Q : St → result A → nat → Prop) :
    Prop := pays (m s) n (λ x n', Q x.1 x.2 n').

Lemma affords_impl {A} (m : act S St A) s n (Q Q' : St → result A → nat → Prop) :
  (∀ s' r n', Q s' r n' → Q' s' r n') → affords m s n Q → affords m s n Q'.
Proof. intros H. apply pays_impl. intros [s' r] n'. apply H. Qed.

Lemma affords_bind {A B} (m : act S St A) (f : A → act S St B) s n Q :
  affords m s n (λ s' r n', match r with
                            | Ok a => affords (f a) s' n' Q
                            | Err e => Q s' (Err e) n'
                            end) →
  affords (m ≫= f) s n Q.
Proof.
  intros H. apply pays_bind. eapply pays_impl; [|exact H]. by intros [s' [a|e]] n'; cbn.
Qed.

Lemma affords_ret {A} (a : A) s n (Q : St → result A → nat → Prop) :
  Q s (Ok a) n → affords (mret a) s n Q.
Proof. done. Qed.

Lemma affords_throw {A} e s n (Q : St → result A → nat → Prop) :
  Q s (Err e) n → affords (throw e) s n Q.
Proof. done. Qed.

Lemma affords_of_result {A} (r : result A) s n (Q : St → result A → nat → Prop) :
  Q s r n → affords (of_result r) s n Q.
Proof. done. Qed.

Lemma affords_get s n (Q : St → result St → nat → Prop) : Q s (Ok s) n → affords get s n Q.
Proof. done. Qed.

Lemma affords_modify f s n (Q : St → result unit → nat → Prop) :
  Q (f s) (Ok tt) n → affords (modify f) s n Q.
Proof. done. Qed.

Lemma affords_call (c : op S) s n (Q : St → result (ans S c) → nat → Prop) :
  (0 < n)%nat → (∀ r, Q s (Ok r) (n - 1 + credit c r)%nat) → affords (call c) s n Q.
Proof. by split. Qed.

Lemma affords_try {A} (m : act S St A) s n Q :
  affords m s n (λ s' r n', Q s' (Ok r) n') → affords (try m) s n Q.
Proof. intros H. apply pays_bind. eapply pays_impl; [|exact H]. by intros [s' r] n'. Qed.

Lemma affords_wrap {A} prefix (m : act S St A) s n Q :
  affords m s n (λ s' r n',
    Q s' (match r with Ok a => Ok a | Err e => Err (wrapf prefix e) end) n') →
  affords (wrap prefix m) s n Q.
Proof. intros H. apply pays_bind. eapply pays_impl; [|exact H]. by intros [s' r] n'. Qed.

(** A prefix of a sequence may be treated as one action. *)
Lemma affords_assoc {A B C} (m : act S St A) (f : A → act S St B) (g : B → act S St C) s n Q :
  affords ((x ← m; f x) ≫= g) s n Q → affords (x ← m; f x ≫= g) s n Q.
Proof.
  unfold affords, mbind, act_mbind. revert n.
  induction (m s) as [[s' [a|e]]|c k IH]; intros n; cbn; auto. intros [Hn Hk]. auto.
Qed.

(** ** Bounded actions *)

Definition costs {A} (m : act S St A) (c : nat) : Prop :=
  ∀ s n, (c ≤ n)%nat → affords m s n (λ _ _ n', (n - c ≤ n')%nat).

(** What is left after a bounded action. *)
Lemma costs_use {A} (m : act S St A) c s n (Q : St → result A → nat → Prop) :
  costs m c → (c ≤ n)%nat →
  (∀ s' r n', (n - c ≤ n')%nat → Q s' r n') → affords m s n Q.
Proof. intros Hm Hn HQ. eapply affords_impl; [|by apply Hm]. cbn beta. auto. Qed.

Lemma costs_weaken {A} (m : act S St A) c c' : (c ≤ c')%nat → costs m c → costs m c'.
Proof.
  intros Hc Hm s n Hn. apply (costs_use m c); [done|lia|]. intros _ _ n' Hn'. lia.
Qed.

Lemma costs_for_each {X} (l : list X) (f : X → act S St unit) c :
  (∀ x, x ∈ l → costs (f x) c) → costs (for_each l f) (c * length l).
Proof.
  induction l as [|x l IH]; intros H s n Hn; cbn [for_each length] in *.
  { apply affords_ret. lia. }
  apply affords_bind. apply (costs_use _ c); [apply H; left|lia|].
  intros s' [[]|e] n' Hn'; [|lia].
  apply (costs_use _ (c * length l)); [|lia|].
  - apply IH. intros y Hy. apply H. by right.
  - intros _ _ n'' Hn''. lia.
Qed.

(** A list known only by a bound on its length. *)
Lemma costs_for_each_le {X} (l : list X) (f : X → act S St unit) c k :
  (length l ≤ k)%nat → (∀ x, x ∈ l → costs (f x) c) → costs (for_each l f) (c * k).
Proof.
  intros Hl H. apply (costs_weaken _ (c * length l)); [nia|]. by apply costs_for_each.
Qed.
End cost.

(** [pay] walks through an action; a call or a bounded action must be covered by the budget. *)
Ltac pay_step :=
  lazymatch goal with
  | |- affords _ (mbind _ _) _ _ _ => apply affords_bind
  | |- affords _ (mret _) _ _ _ => apply affords_ret
  | |- affords _ (throw _) _ _ _ => apply affords_throw
  | |- affords _ (of_result _) _ _ _ => apply affords_of_result
  | |- affords _ get _ _ _ => apply affords_get
  | |- affords _ (modify _) _ _ _ => apply affords_modify
  | |- affords ?credit (call ?c) ?s ?n ?Q => apply (affords_call credit c s n Q); [lia | intros ?]
  | |- affords _ (try _) _ _ _ => apply affords_try
  | |- affords _ (wrap _ _) _ _ _ => apply affords_wrap
  | |- affords _ (when _ _) _ _ _ => unfold when
  | |- affords _ (match ?x with _ => _ end) _ _ _ => destruct x eqn:?
  | |- match ?x with Ok _ => _ | Err _ => _ end =>
      lazymatch x with
      | match ?y with _ => _ end => destruct y eqn:?
      | _ => destruct x eqn:?
      end
  | |- affords _ _ _ _ _ =>
      eapply costs_use; [solve [eauto with costs] | try lia | intros ? ? ? ?]
  end.

Ltac pay := repeat (cbn beta iota zeta; pay_step).
