(* ===== verification/Api.v ===== *)
(** * The operator's API objects

    The custom resources of [src/operator/api/v1alpha1], field by field under the Go names with a
    prefix per type ([es_], [ran_], [ml_], ...), and the parts of the Kubernetes types
    ([metav1.ObjectMeta], [corev1.Secret], [corev1.Node], [unstructured.Unstructured]) that the
    controllers read or write.

    An optional pointer is an [option]; a Go map is a [gmap] (a nil map reads as an empty one);
    an [int]/[int64] is a [Z]; a timestamp that is only tested for presence is an [option]. *)

From S2P Require Import Prelude.

(** ** JSON values: the content of an unstructured object or of a request body *)

#[warnings="-register-all"]
Inductive json :=
| JStr (s : string)
| JInt (z : Z)
| JBool (b : bool)
| JArr (l : list json)
| JObj (l : list (string * json)).

(** A Go map literal has distinct keys; their order is not observable. *)
Fixpoint assoc (k : string) (l : list (string * json)) : option json :=
  match l with
  | [] => None
  | (k', v) :: r => if String.eqb k k' then Some v else assoc k r
  end.

(** reflect.DeepEqual on JSON-like values: maps are compared by key, in any order. *)
Fixpoint deep_equal (a b : json) {struct a} : bool :=
  match a, b with
  | JStr x, JStr y => String.eqb x y
  | JInt x, JInt y => Z.eqb x y
  | JBool x, JBool y => Bool.eqb x y
  | JArr xs, JArr ys =>
      (fix go (xs ys : list json) : bool :=
         match xs, ys with
         | [], [] => true
         | x :: xs', y :: ys' => deep_equal x y && go xs' ys'
         | _, _ => false
         end) xs ys
  | JObj xs, JObj ys =>
      Nat.eqb (length xs) (length ys) &&
      (fix go (xs : list (string * json)) : bool :=
         match xs with
         | [] => true
         | (k, v) :: xs' =>
             match assoc k ys with Some v' => deep_equal v v' | None => false end && go xs'
         end) xs
  | _, _ => false
  end.

(** ** Kubernetes types *)

Record OwnerReference := {
  or_APIVersion : string;
  or_Kind : string;
  or_Name : string;
  or_UID : string;
  or_Controller : option bool;
  or_BlockOwnerDeletion : option bool;
}.

Record ObjectMeta := {
  Name : string;
  Namespace : string;
  UID : string;
  ResourceVersion : string;
  Generation : Z;
  Labels : gmap string string;
  Annotations : gmap string string;
  OwnerReferences : list OwnerReference;
  Finalizers : list string;
  DeletionTimestamp : option Z;
}.

(** The metadata of an object literal that sets only its name and namespace. *)
Definition new_meta (ns name : string) : ObjectMeta :=
  {| Name := name; Namespace := ns; UID := ""; ResourceVersion := ""; Generation := 0;
     Labels := ∅; Annotations := ∅; OwnerReferences := []; Finalizers := [];
     DeletionTimestamp := None |}.

Definition set_OwnerReferences (l : list OwnerReference) (m : ObjectMeta) : ObjectMeta :=
  {| Name := Name m; Namespace := Namespace m; UID := UID m;
     ResourceVersion := ResourceVersion m; Generation := Generation m; Labels := Labels m;
     Annotations := Annotations m; OwnerReferences := l; Finalizers := Finalizers m;
     DeletionTimestamp := DeletionTimestamp m |}.

Definition set_ResourceVersion (v : string) (m : ObjectMeta) : ObjectMeta :=
  {| Name := Name m; Namespace := Namespace m; UID := UID m;
     ResourceVersion := v; Generation := Generation m; Labels := Labels m;
     Annotations := Annotations m; OwnerReferences := OwnerReferences m;
     Finalizers := Finalizers m; DeletionTimestamp := DeletionTimestamp m |}.

Definition set_Finalizers (l : list string) (m : ObjectMeta) : ObjectMeta :=
  {| Name := Name m; Namespace := Namespace m; UID := UID m;
     ResourceVersion := ResourceVersion m; Generation := Generation m; Labels := Labels m;
     Annotations := Annotations m; OwnerReferences := OwnerReferences m; Finalizers := l;
     DeletionTimestamp := DeletionTimestamp m |}.

Definition set_Labels (l : gmap string string) (m : ObjectMeta) : ObjectMeta :=
  {| Name := Name m; Namespace := Namespace m; UID := UID m;
     ResourceVersion := ResourceVersion m; Generation := Generation m; Labels := l;
     Annotations := Annotations m; OwnerReferences := OwnerReferences m;
     Finalizers := Finalizers m; DeletionTimestamp := DeletionTimestamp m |}.

Definition set_DeletionTimestamp (d : option Z) (m : ObjectMeta) : ObjectMeta :=
  {| Name := Name m; Namespace := Namespace m; UID := UID m;
     ResourceVersion := ResourceVersion m; Generation := Generation m; Labels := Labels m;
     Annotations := Annotations m; OwnerReferences := OwnerReferences m;
     Finalizers := Finalizers m; DeletionTimestamp := d |}.

Inductive ConditionStatus := ConditionTrue | ConditionFalse.

Record Condition := {
  c_Type : string;
  c_Status : ConditionStatus;
  c_Reason : string;
  c_Message : string;
  c_ObservedGeneration : Z;
}.

Record Secret := { sec_meta : ObjectMeta; sec_Data : gmap string string }.

(** [sec.Data[k]]: the zero value when the key is absent. *)
Definition sec_value (s : Secret) (k : string) : string := default "" (sec_Data s !! k).

Record ContainerStatus := { cs_Name : string; cs_Started : option bool; cs_RestartCount : Z }.
Record PodCondition := { pc_Type : string; pc_Status : string }.
Record Pod := {
  pod_meta : ObjectMeta;
  pod_Created : Z;               (* metadata.creationTimestamp, in nanoseconds *)
  pod_Phase : string;
  pod_PodIP : string;
  pod_Conditions : list PodCondition;
  pod_ContainerStatuses : list ContainerStatus;
  pod_InitContainerStatuses : list ContainerStatus;
}.

Record ServicePort := { sp_Name : string; sp_Protocol : string; sp_Port : Z; sp_TargetPort : Z }.
Record Service := {
  svc_meta : ObjectMeta;
  svc_Selector : gmap string string;
  svc_Ports : list ServicePort;
  svc_IngressIPs : list string;  (* status.loadBalancer.ingress[].ip *)
}.
Record Endpoint := { ep_Addresses : list string; ep_Ready : option bool }.
Record EndpointPort := { epp_Name : string; epp_Protocol : string; epp_Port : Z }.
Record EndpointSlice := {
  eps_meta : ObjectMeta;
  eps_AddressType : string;
  eps_Endpoints : list Endpoint;
  eps_Ports : list EndpointPort;
}.

Record NodeAddress := { na_Type : string; na_Address : string }.
Record Node := { node_meta : ObjectMeta; node_Addresses : list NodeAddress }.

Record GroupVersionKind := { gvk_Group : string; gvk_Version : string; gvk_Kind : string }.

#[export] Instance gvk_eq_dec : EqDecision GroupVersionKind.
Proof. solve_decision. Defined.

(** The part of [unstructured.Unstructured] the controllers fill: kind, metadata and "spec". *)
Record Unstructured := {
  u_gvk : GroupVersionKind;
  u_meta : ObjectMeta;
  u_spec : json;
}.

(** ** EdgeSite and its RAN intent (edgesite_types.go) *)

Record RANCell := {
  cell_Band : string;
  cell_DlArfcn : Z;
  cell_BandwidthMHz : Z;
  cell_CommonScs : Z;
  cell_Pci : Z;
  cell_Antennas : Z;
}.

Record RANOfh := {
  ofh_Interface : string;
  ofh_RuMac : string;
  ofh_DuMac : string;
  ofh_VlanTag : Z;
  ofh_EalArgs : string;
  ofh_PrachPortId : list Z;
  ofh_DlPortId : list Z;
  ofh_UlPortId : list Z;
}.

Record RANSpec := {
  ran_Stack : string;
  ran_Enabled : option bool;
  ran_Split : string;
  ran_Device : string;
  ran_Config : string;
  ran_LdLibraryPath : string;
  ran_Cpuset : string;
  ran_RadioAddr : string;
  ran_RadioNic : string;
  ran_Cell : RANCell;
  ran_Ofh : option RANOfh;
}.

Record EdgeSiteSpec := {
  es_Server : string;
  es_User : string;
  es_Role : string;
  es_ControlPlane : string;
  es_Colocated : bool;
  es_PodCIDR : string;
  es_SliceSD : string;
  es_UEPool : string;
  es_AccessCIDR : string;
  es_CoreCIDR : string;
  es_AccessGw : string;
  es_CoreGw : string;
  es_CoreNextHop : string;
  es_GnbIP : string;
  es_RanSubnet : string;
  es_N2VIP : string;
  es_RanNic : string;
  es_EgressNic : string;
  es_RAN : option RANSpec;
}.

Record EdgeSiteStatus := {
  ess_Phase : string;
  ess_Message : string;
  ess_Cluster : string;
  ess_ObservedGeneration : Z;
  ess_Conditions : list Condition;
}.

Record EdgeSite := {
  es_meta : ObjectMeta;
  es_spec : EdgeSiteSpec;
  es_status : EdgeSiteStatus;
}.

(** ** MeshLink (edgesite_types.go) *)

Record MeshLinkSpec := {
  ml_Edge : string;
  ml_ControlPlane : string;
  ml_UPFName : string;
}.

Record MeshLinkStatus := {
  mls_Phase : string;
  mls_Message : string;
  mls_Conditions : list Condition;
}.

Record MeshLink := {
  ml_meta : ObjectMeta;
  ml_spec : MeshLinkSpec;
  ml_status : MeshLinkStatus;
}.

(** ** Subscriber and NetworkSlice (subscriber_types.go) *)

Record SubscriberSpec := {
  sub_IMSI : string;
  sub_Key : string;
  sub_Opc : string;
  sub_SliceRef : string;
  sub_SequenceNumber : string;
}.

Record SubscriberStatus := {
  subs_Phase : string;
  subs_Message : string;
  subs_Conditions : list Condition;
}.

Record Subscriber := {
  sub_meta : ObjectMeta;
  sub_spec : SubscriberSpec;
  sub_status : SubscriberStatus;
}.

Record PlmnId := {
  plmn_Mcc : string;
  plmn_Mnc : string;
}.

Record GnbRef := {
  gnb_Name : string;
  gnb_Tac : Z;
}.

Record SliceQos := {
  qos_MbrUplink : Z;
  qos_MbrDownlink : Z;
}.

Record NetworkSliceSpec := {
  ns_Sst : string;
  ns_Sd : string;
  ns_Dnn : string;
  ns_UePool : string;
  ns_UpfName : string;
  ns_Plmn : PlmnId;
  ns_Gnbs : list GnbRef;
  ns_Qos : SliceQos;
}.

Record NetworkSliceStatus := {
  nss_Phase : string;
  nss_Message : string;
  nss_Provisioned : string;
  nss_Conditions : list Condition;
}.

Record NetworkSlice := {
  ns_meta : ObjectMeta;
  ns_spec : NetworkSliceSpec;
  ns_status : NetworkSliceStatus;
}.

(** ** UPFDataPath (upfdatapath_types.go) *)

Record UPFDataPathSpec := {
  dp_UEPool : string;
  dp_AccessGateway : string;
  dp_CoreGateway : string;
  dp_CoreNextHop : string;
  dp_AccessBridge : string;
  dp_CoreBridge : string;
  dp_GnbIP : string;
  dp_EgressNic : string;
  dp_UPFLabel : string;
}.

Record UPFDataPathStatus := {
  dps_LastReconcile : string;
  dps_Node : string;
  dps_Conditions : list Condition;
}.

Record UPFDataPath := {
  dp_meta : ObjectMeta;
  dp_spec : UPFDataPathSpec;
  dp_status : UPFDataPathStatus;
}.

(** ** NetworkFabric (networkfabric_types.go) *)

Record FabricPrefix := {
  fp_Prefix : string;
  fp_Labels : gmap string string;
}.

Record NetworkFabricStatus := {
  nfs_LastReconcile : string;
  nfs_Conditions : list Condition;
}.

(** [nf_Prefixes] is [NetworkFabricSpec.Prefixes], the only field of the spec. *)
Record NetworkFabric := {
  nf_meta : ObjectMeta;
  nf_Prefixes : list FabricPrefix;
  nf_status : NetworkFabricStatus;
}.

(** ** SDCoreDeployment (sdcoredeployment_types.go) *)

(** [sdc_Values] is the raw text of the extension; [None] is the nil pointer. *)
Record SDCoreDeploymentSpec := {
  sdc_Component : string;
  sdc_Values : option string;
  sdc_TargetNamespace : string;
}.

Record SDCoreDeploymentStatus := {
  sds_Phase : string;
  sds_Message : string;
  sds_ReleaseRevision : Z;
  sds_ObservedGeneration : Z;
  sds_Conditions : list Condition;
}.

Record SDCoreDeployment := {
  sdc_meta : ObjectMeta;
  sdc_spec : SDCoreDeploymentSpec;
  sdc_status : SDCoreDeploymentStatus;
}.

(** ** NFDeployment (workload.nephio.org/v1alpha1): the fields the operator reads

    A data network is the list of its pools' prefixes. *)

Record IPv4Config := { ip4_Address : string; ip4_Gateway : option string }.
Record InterfaceConfig := { ic_Name : string; ic_IPv4 : option IPv4Config }.
Record NetworkInstance := { ni_Interfaces : list string; ni_DataNetworks : list (list string) }.
Record NFDeploymentSpec := {
  nfd_Provider : string;
  nfd_Interfaces : list InterfaceConfig;
  nfd_NetworkInstances : list NetworkInstance;
}.
Record NFDeployment := {
  nfd_meta : ObjectMeta;
  nfd_spec : NFDeploymentSpec;
  nfd_Conditions : list Condition;
}.

(** ** Fleet (fleet_types.go) *)

Record FleetSite := {
  fs_Server : string;
  fs_User : string;
  fs_Role : string;
  fs_Name : string;
  fs_RAN : option RANSpec;
}.

Record FleetStatus := {
  fls_Sites : Z;
  fls_Message : string;
  fls_Conditions : list Condition;
}.

(** [fl_Sites] is [FleetSpec.Sites], the only field of the spec. *)
Record Fleet := {
  fl_meta : ObjectMeta;
  fl_Sites : list FleetSite;
  fl_status : FleetStatus;
}.
(** ** Field pointers

    deriveAddressing fills fields of the spec through [*string] pointers: a pointer is a reader and
    a writer of one field. *)

Record ptr (S : Type) := Ptr { peek : S → string; poke : string → S → S }.
Arguments Ptr {S}. Arguments peek {S}. Arguments poke {S}.

Definition set_PodCIDR (v : string) (s : EdgeSiteSpec) : EdgeSiteSpec :=
  {| es_Server := es_Server s; es_User := es_User s; es_Role := es_Role s; es_ControlPlane
     := es_ControlPlane s; es_Colocated := es_Colocated s; es_PodCIDR := v; es_SliceSD :=
     es_SliceSD s; es_UEPool := es_UEPool s; es_AccessCIDR := es_AccessCIDR s; es_CoreCIDR
     := es_CoreCIDR s; es_AccessGw := es_AccessGw s; es_CoreGw := es_CoreGw s;
     es_CoreNextHop := es_CoreNextHop s; es_GnbIP := es_GnbIP s; es_RanSubnet :=
     es_RanSubnet s; es_N2VIP := es_N2VIP s; es_RanNic := es_RanNic s; es_EgressNic :=
     es_EgressNic s; es_RAN := es_RAN s |}.

Definition set_UEPool (v : string) (s : EdgeSiteSpec) : EdgeSiteSpec :=
  {| es_Server := es_Server s; es_User := es_User s; es_Role := es_Role s; es_ControlPlane
     := es_ControlPlane s; es_Colocated := es_Colocated s; es_PodCIDR := es_PodCIDR s;
     es_SliceSD := es_SliceSD s; es_UEPool := v; es_AccessCIDR := es_AccessCIDR s;
     es_CoreCIDR := es_CoreCIDR s; es_AccessGw := es_AccessGw s; es_CoreGw := es_CoreGw s;
     es_CoreNextHop := es_CoreNextHop s; es_GnbIP := es_GnbIP s; es_RanSubnet :=
     es_RanSubnet s; es_N2VIP := es_N2VIP s; es_RanNic := es_RanNic s; es_EgressNic :=
     es_EgressNic s; es_RAN := es_RAN s |}.

Definition set_SliceSD (v : string) (s : EdgeSiteSpec) : EdgeSiteSpec :=
  {| es_Server := es_Server s; es_User := es_User s; es_Role := es_Role s; es_ControlPlane
     := es_ControlPlane s; es_Colocated := es_Colocated s; es_PodCIDR := es_PodCIDR s;
     es_SliceSD := v; es_UEPool := es_UEPool s; es_AccessCIDR := es_AccessCIDR s;
     es_CoreCIDR := es_CoreCIDR s; es_AccessGw := es_AccessGw s; es_CoreGw := es_CoreGw s;
     es_CoreNextHop := es_CoreNextHop s; es_GnbIP := es_GnbIP s; es_RanSubnet :=
     es_RanSubnet s; es_N2VIP := es_N2VIP s; es_RanNic := es_RanNic s; es_EgressNic :=
     es_EgressNic s; es_RAN := es_RAN s |}.

Definition set_EgressNic (v : string) (s : EdgeSiteSpec) : EdgeSiteSpec :=
  {| es_Server := es_Server s; es_User := es_User s; es_Role := es_Role s; es_ControlPlane
     := es_ControlPlane s; es_Colocated := es_Colocated s; es_PodCIDR := es_PodCIDR s;
     es_SliceSD := es_SliceSD s; es_UEPool := es_UEPool s; es_AccessCIDR := es_AccessCIDR s;
     es_CoreCIDR := es_CoreCIDR s; es_AccessGw := es_AccessGw s; es_CoreGw := es_CoreGw s;
     es_CoreNextHop := es_CoreNextHop s; es_GnbIP := es_GnbIP s; es_RanSubnet :=
     es_RanSubnet s; es_N2VIP := es_N2VIP s; es_RanNic := es_RanNic s; es_EgressNic := v;
     es_RAN := es_RAN s |}.

Definition set_AccessCIDR (v : string) (s : EdgeSiteSpec) : EdgeSiteSpec :=
  {| es_Server := es_Server s; es_User := es_User s; es_Role := es_Role s; es_ControlPlane
     := es_ControlPlane s; es_Colocated := es_Colocated s; es_PodCIDR := es_PodCIDR s;
     es_SliceSD := es_SliceSD s; es_UEPool := es_UEPool s; es_AccessCIDR := v; es_CoreCIDR
     := es_CoreCIDR s; es_AccessGw := es_AccessGw s; es_CoreGw := es_CoreGw s;
     es_CoreNextHop := es_CoreNextHop s; es_GnbIP := es_GnbIP s; es_RanSubnet :=
     es_RanSubnet s; es_N2VIP := es_N2VIP s; es_RanNic := es_RanNic s; es_EgressNic :=
     es_EgressNic s; es_RAN := es_RAN s |}.

Definition set_CoreCIDR (v : string) (s : EdgeSiteSpec) : EdgeSiteSpec :=
  {| es_Server := es_Server s; es_User := es_User s; es_Role := es_Role s; es_ControlPlane
     := es_ControlPlane s; es_Colocated := es_Colocated s; es_PodCIDR := es_PodCIDR s;
     es_SliceSD := es_SliceSD s; es_UEPool := es_UEPool s; es_AccessCIDR := es_AccessCIDR s;
     es_CoreCIDR := v; es_AccessGw := es_AccessGw s; es_CoreGw := es_CoreGw s;
     es_CoreNextHop := es_CoreNextHop s; es_GnbIP := es_GnbIP s; es_RanSubnet :=
     es_RanSubnet s; es_N2VIP := es_N2VIP s; es_RanNic := es_RanNic s; es_EgressNic :=
     es_EgressNic s; es_RAN := es_RAN s |}.

Definition set_AccessGw (v : string) (s : EdgeSiteSpec) : EdgeSiteSpec :=
  {| es_Server := es_Server s; es_User := es_User s; es_Role := es_Role s; es_ControlPlane
     := es_ControlPlane s; es_Colocated := es_Colocated s; es_PodCIDR := es_PodCIDR s;
     es_SliceSD := es_SliceSD s; es_UEPool := es_UEPool s; es_AccessCIDR := es_AccessCIDR s;
     es_CoreCIDR := es_CoreCIDR s; es_AccessGw := v; es_CoreGw := es_CoreGw s;
     es_CoreNextHop := es_CoreNextHop s; es_GnbIP := es_GnbIP s; es_RanSubnet :=
     es_RanSubnet s; es_N2VIP := es_N2VIP s; es_RanNic := es_RanNic s; es_EgressNic :=
     es_EgressNic s; es_RAN := es_RAN s |}.

Definition set_CoreGw (v : string) (s : EdgeSiteSpec) : EdgeSiteSpec :=
  {| es_Server := es_Server s; es_User := es_User s; es_Role := es_Role s; es_ControlPlane
     := es_ControlPlane s; es_Colocated := es_Colocated s; es_PodCIDR := es_PodCIDR s;
     es_SliceSD := es_SliceSD s; es_UEPool := es_UEPool s; es_AccessCIDR := es_AccessCIDR s;
     es_CoreCIDR := es_CoreCIDR s; es_AccessGw := es_AccessGw s; es_CoreGw := v;
     es_CoreNextHop := es_CoreNextHop s; es_GnbIP := es_GnbIP s; es_RanSubnet :=
     es_RanSubnet s; es_N2VIP := es_N2VIP s; es_RanNic := es_RanNic s; es_EgressNic :=
     es_EgressNic s; es_RAN := es_RAN s |}.

Definition set_CoreNextHop (v : string) (s : EdgeSiteSpec) : EdgeSiteSpec :=
  {| es_Server := es_Server s; es_User := es_User s; es_Role := es_Role s; es_ControlPlane
     := es_ControlPlane s; es_Colocated := es_Colocated s; es_PodCIDR := es_PodCIDR s;
     es_SliceSD := es_SliceSD s; es_UEPool := es_UEPool s; es_AccessCIDR := es_AccessCIDR s;
     es_CoreCIDR := es_CoreCIDR s; es_AccessGw := es_AccessGw s; es_CoreGw := es_CoreGw s;
     es_CoreNextHop := v; es_GnbIP := es_GnbIP s; es_RanSubnet := es_RanSubnet s; es_N2VIP
     := es_N2VIP s; es_RanNic := es_RanNic s; es_EgressNic := es_EgressNic s; es_RAN :=
     es_RAN s |}.

Definition set_GnbIP (v : string) (s : EdgeSiteSpec) : EdgeSiteSpec :=
  {| es_Server := es_Server s; es_User := es_User s; es_Role := es_Role s; es_ControlPlane
     := es_ControlPlane s; es_Colocated := es_Colocated s; es_PodCIDR := es_PodCIDR s;
     es_SliceSD := es_SliceSD s; es_UEPool := es_UEPool s; es_AccessCIDR := es_AccessCIDR s;
     es_CoreCIDR := es_CoreCIDR s; es_AccessGw := es_AccessGw s; es_CoreGw := es_CoreGw s;
     es_CoreNextHop := es_CoreNextHop s; es_GnbIP := v; es_RanSubnet := es_RanSubnet s;
     es_N2VIP := es_N2VIP s; es_RanNic := es_RanNic s; es_EgressNic := es_EgressNic s;
     es_RAN := es_RAN s |}.

Definition set_RanSubnet (v : string) (s : EdgeSiteSpec) : EdgeSiteSpec :=
  {| es_Server := es_Server s; es_User := es_User s; es_Role := es_Role s; es_ControlPlane
     := es_ControlPlane s; es_Colocated := es_Colocated s; es_PodCIDR := es_PodCIDR s;
     es_SliceSD := es_SliceSD s; es_UEPool := es_UEPool s; es_AccessCIDR := es_AccessCIDR s;
     es_CoreCIDR := es_CoreCIDR s; es_AccessGw := es_AccessGw s; es_CoreGw := es_CoreGw s;
     es_CoreNextHop := es_CoreNextHop s; es_GnbIP := es_GnbIP s; es_RanSubnet := v; es_N2VIP
     := es_N2VIP s; es_RanNic := es_RanNic s; es_EgressNic := es_EgressNic s; es_RAN :=
     es_RAN s |}.

Definition set_N2VIP (v : string) (s : EdgeSiteSpec) : EdgeSiteSpec :=
  {| es_Server := es_Server s; es_User := es_User s; es_Role := es_Role s; es_ControlPlane
     := es_ControlPlane s; es_Colocated := es_Colocated s; es_PodCIDR := es_PodCIDR s;
     es_SliceSD := es_SliceSD s; es_UEPool := es_UEPool s; es_AccessCIDR := es_AccessCIDR s;
     es_CoreCIDR := es_CoreCIDR s; es_AccessGw := es_AccessGw s; es_CoreGw := es_CoreGw s;
     es_CoreNextHop := es_CoreNextHop s; es_GnbIP := es_GnbIP s; es_RanSubnet :=
     es_RanSubnet s; es_N2VIP := v; es_RanNic := es_RanNic s; es_EgressNic := es_EgressNic
     s; es_RAN := es_RAN s |}.

Definition set_RanNic (v : string) (s : EdgeSiteSpec) : EdgeSiteSpec :=
  {| es_Server := es_Server s; es_User := es_User s; es_Role := es_Role s; es_ControlPlane
     := es_ControlPlane s; es_Colocated := es_Colocated s; es_PodCIDR := es_PodCIDR s;
     es_SliceSD := es_SliceSD s; es_UEPool := es_UEPool s; es_AccessCIDR := es_AccessCIDR s;
     es_CoreCIDR := es_CoreCIDR s; es_AccessGw := es_AccessGw s; es_CoreGw := es_CoreGw s;
     es_CoreNextHop := es_CoreNextHop s; es_GnbIP := es_GnbIP s; es_RanSubnet :=
     es_RanSubnet s; es_N2VIP := es_N2VIP s; es_RanNic := v; es_EgressNic := es_EgressNic s;
     es_RAN := es_RAN s |}.

Definition set_Server (v : string) (s : EdgeSiteSpec) : EdgeSiteSpec :=
  {| es_Server := v; es_User := es_User s; es_Role := es_Role s; es_ControlPlane :=
     es_ControlPlane s; es_Colocated := es_Colocated s; es_PodCIDR := es_PodCIDR s;
     es_SliceSD := es_SliceSD s; es_UEPool := es_UEPool s; es_AccessCIDR := es_AccessCIDR s;
     es_CoreCIDR := es_CoreCIDR s; es_AccessGw := es_AccessGw s; es_CoreGw := es_CoreGw s;
     es_CoreNextHop := es_CoreNextHop s; es_GnbIP := es_GnbIP s; es_RanSubnet :=
     es_RanSubnet s; es_N2VIP := es_N2VIP s; es_RanNic := es_RanNic s; es_EgressNic :=
     es_EgressNic s; es_RAN := es_RAN s |}.

Definition set_User (v : string) (s : EdgeSiteSpec) : EdgeSiteSpec :=
  {| es_Server := es_Server s; es_User := v; es_Role := es_Role s; es_ControlPlane :=
     es_ControlPlane s; es_Colocated := es_Colocated s; es_PodCIDR := es_PodCIDR s;
     es_SliceSD := es_SliceSD s; es_UEPool := es_UEPool s; es_AccessCIDR := es_AccessCIDR s;
     es_CoreCIDR := es_CoreCIDR s; es_AccessGw := es_AccessGw s; es_CoreGw := es_CoreGw s;
     es_CoreNextHop := es_CoreNextHop s; es_GnbIP := es_GnbIP s; es_RanSubnet :=
     es_RanSubnet s; es_N2VIP := es_N2VIP s; es_RanNic := es_RanNic s; es_EgressNic :=
     es_EgressNic s; es_RAN := es_RAN s |}.

Definition set_Role (v : string) (s : EdgeSiteSpec) : EdgeSiteSpec :=
  {| es_Server := es_Server s; es_User := es_User s; es_Role := v; es_ControlPlane :=
     es_ControlPlane s; es_Colocated := es_Colocated s; es_PodCIDR := es_PodCIDR s;
     es_SliceSD := es_SliceSD s; es_UEPool := es_UEPool s; es_AccessCIDR := es_AccessCIDR s;
     es_CoreCIDR := es_CoreCIDR s; es_AccessGw := es_AccessGw s; es_CoreGw := es_CoreGw s;
     es_CoreNextHop := es_CoreNextHop s; es_GnbIP := es_GnbIP s; es_RanSubnet :=
     es_RanSubnet s; es_N2VIP := es_N2VIP s; es_RanNic := es_RanNic s; es_EgressNic :=
     es_EgressNic s; es_RAN := es_RAN s |}.

Definition set_RAN (v : option RANSpec) (s : EdgeSiteSpec) : EdgeSiteSpec :=
  {| es_Server := es_Server s; es_User := es_User s; es_Role := es_Role s; es_ControlPlane
     := es_ControlPlane s; es_Colocated := es_Colocated s; es_PodCIDR := es_PodCIDR s;
     es_SliceSD := es_SliceSD s; es_UEPool := es_UEPool s; es_AccessCIDR := es_AccessCIDR s;
     es_CoreCIDR := es_CoreCIDR s; es_AccessGw := es_AccessGw s; es_CoreGw := es_CoreGw s;
     es_CoreNextHop := es_CoreNextHop s; es_GnbIP := es_GnbIP s; es_RanSubnet :=
     es_RanSubnet s; es_N2VIP := es_N2VIP s; es_RanNic := es_RanNic s; es_EgressNic :=
     es_EgressNic s; es_RAN := v |}.

Definition p_PodCIDR : ptr EdgeSiteSpec := Ptr es_PodCIDR set_PodCIDR.
Definition p_UEPool : ptr EdgeSiteSpec := Ptr es_UEPool set_UEPool.
Definition p_SliceSD : ptr EdgeSiteSpec := Ptr es_SliceSD set_SliceSD.
Definition p_EgressNic : ptr EdgeSiteSpec := Ptr es_EgressNic set_EgressNic.
Definition p_AccessCIDR : ptr EdgeSiteSpec := Ptr es_AccessCIDR set_AccessCIDR.
Definition p_CoreCIDR : ptr EdgeSiteSpec := Ptr es_CoreCIDR set_CoreCIDR.
Definition p_AccessGw : ptr EdgeSiteSpec := Ptr es_AccessGw set_AccessGw.
Definition p_CoreGw : ptr EdgeSiteSpec := Ptr es_CoreGw set_CoreGw.
Definition p_CoreNextHop : ptr EdgeSiteSpec := Ptr es_CoreNextHop set_CoreNextHop.
Definition p_GnbIP : ptr EdgeSiteSpec := Ptr es_GnbIP set_GnbIP.
Definition p_RanSubnet : ptr EdgeSiteSpec := Ptr es_RanSubnet set_RanSubnet.
Definition p_N2VIP : ptr EdgeSiteSpec := Ptr es_N2VIP set_N2VIP.
Definition p_RanNic : ptr EdgeSiteSpec := Ptr es_RanNic set_RanNic.

(** The spec of an EdgeSite object literal before any field is set. *)
Definition empty_EdgeSiteSpec : EdgeSiteSpec :=
  {| es_Server := ""; es_User := ""; es_Role := ""; es_ControlPlane := ""; es_Colocated := false; 
     es_PodCIDR := ""; es_SliceSD := ""; es_UEPool := ""; es_AccessCIDR := ""; 
     es_CoreCIDR := ""; es_AccessGw := ""; es_CoreGw := ""; es_CoreNextHop := ""; es_GnbIP := ""; 
     es_RanSubnet := ""; es_N2VIP := ""; es_RanNic := ""; es_EgressNic := ""; es_RAN := None |}.
Definition empty_EdgeSiteStatus : EdgeSiteStatus :=
  {| ess_Phase := ""; ess_Message := ""; ess_Cluster := ""; ess_ObservedGeneration := 0;
     ess_Conditions := [] |}.
Definition empty_MeshLinkStatus : MeshLinkStatus :=
  {| mls_Phase := ""; mls_Message := ""; mls_Conditions := [] |}.
Definition empty_NetworkSliceStatus : NetworkSliceStatus :=
  {| nss_Phase := ""; nss_Message := ""; nss_Provisioned := ""; nss_Conditions := [] |}.

Definition set_es_meta (m : ObjectMeta) (o : EdgeSite) : EdgeSite :=
  {| es_meta := m; es_spec := es_spec o; es_status := es_status o |}.
Definition set_es_spec (s : EdgeSiteSpec) (o : EdgeSite) : EdgeSite :=
  {| es_meta := es_meta o; es_spec := s; es_status := es_status o |}.
Definition set_es_status (s : EdgeSiteStatus) (o : EdgeSite) : EdgeSite :=
  {| es_meta := es_meta o; es_spec := es_spec o; es_status := s |}.
Definition set_ml_meta (m : ObjectMeta) (o : MeshLink) : MeshLink :=
  {| ml_meta := m; ml_spec := ml_spec o; ml_status := ml_status o |}.
Definition set_ml_status (s : MeshLinkStatus) (o : MeshLink) : MeshLink :=
  {| ml_meta := ml_meta o; ml_spec := ml_spec o; ml_status := s |}.
Definition set_ns_meta (m : ObjectMeta) (o : NetworkSlice) : NetworkSlice :=
  {| ns_meta := m; ns_spec := ns_spec o; ns_status := ns_status o |}.
Definition set_fl_status (s : FleetStatus) (o : Fleet) : Fleet :=
  {| fl_meta := fl_meta o; fl_Sites := fl_Sites o; fl_status := s |}.
Definition set_u_meta (m : ObjectMeta) (o : Unstructured) : Unstructured :=
  {| u_gvk := u_gvk o; u_meta := m; u_spec := u_spec o |}.

Definition set_sub_status (s : SubscriberStatus) (o : Subscriber) : Subscriber :=
  {| sub_meta := sub_meta o; sub_spec := sub_spec o; sub_status := s |}.
Definition set_ns_status (s : NetworkSliceStatus) (o : NetworkSlice) : NetworkSlice :=
  {| ns_meta := ns_meta o; ns_spec := ns_spec o; ns_status := s |}.
Definition set_dp_status (s : UPFDataPathStatus) (o : UPFDataPath) : UPFDataPath :=
  {| dp_meta := dp_meta o; dp_spec := dp_spec o; dp_status := s |}.
Definition set_nf_status (s : NetworkFabricStatus) (o : NetworkFabric) : NetworkFabric :=
  {| nf_meta := nf_meta o; nf_Prefixes := nf_Prefixes o; nf_status := s |}.
Definition set_sdc_status (s : SDCoreDeploymentStatus) (o : SDCoreDeployment) : SDCoreDeployment :=
  {| sdc_meta := sdc_meta o; sdc_spec := sdc_spec o; sdc_status := s |}.
Definition set_nfd_conditions (c : list Condition) (o : NFDeployment) : NFDeployment :=
  {| nfd_meta := nfd_meta o; nfd_spec := nfd_spec o; nfd_Conditions := c |}.
