(* ===== verification/Effects.v ===== *)
(** * The environment of the controllers

    The signature [Env] lists every call the controllers make outside the repository: the
    controller-runtime client ([KGet] ... [KDelete]), net/http, client-go clientsets of remote
    clusters, exec into pods, the host's network stack (netlink, iptables, sysctl files,
    commands), Helm, environment variables, the logger, the clock and the iteration order of Go
    maps.

    - [Apimachinery] collects the pure third-party functions the controllers call, with their
      documented behaviour in [ApimachineryLaws]; [std_apimachinery] is a concrete instance.
    - [ApiServer] states what a healthy API server promises about [KGet], [KCreate] and
      [KUpdate]; [MemServer] below is a concrete in-memory server with these laws. *)

From S2P Require Import Prelude GoText Net Host Prog Api.

(** ** Kinds of objects on the management cluster *)

Inductive kind :=
| KEdgeSite
| KFleet
| KMeshLink
| KSubscriber
| KNetworkSlice
| KSecret
| KNode
| KPod
| KService
| KUPFDataPath
| KNetworkFabric
| KSDCoreDeployment
| KNFDeployment
| KUnstructured (g : GroupVersionKind).

#[export] Instance kind_eq_dec : EqDecision kind.
Proof. solve_decision. Defined.

Definition obj (k : kind) : Type :=
  match k with
  | KEdgeSite => EdgeSite
  | KFleet => Fleet
  | KMeshLink => MeshLink
  | KSubscriber => Subscriber
  | KNetworkSlice => NetworkSlice
  | KSecret => Secret
  | KNode => Node
  | KPod => Pod
  | KService => Service
  | KUPFDataPath => UPFDataPath
  | KNetworkFabric => NetworkFabric
  | KSDCoreDeployment => SDCoreDeployment
  | KNFDeployment => NFDeployment
  | KUnstructured _ => Unstructured
  end.

Definition meta {k : kind} : obj k → ObjectMeta :=
  match k return obj k → ObjectMeta with
  | KEdgeSite => es_meta
  | KFleet => fl_meta
  | KMeshLink => ml_meta
  | KSubscriber => sub_meta
  | KNetworkSlice => ns_meta
  | KSecret => sec_meta
  | KNode => node_meta
  | KPod => pod_meta
  | KService => svc_meta
  | KUPFDataPath => dp_meta
  | KNetworkFabric => nf_meta
  | KSDCoreDeployment => sdc_meta
  | KNFDeployment => nfd_meta
  | KUnstructured _ => u_meta
  end.

(** An object with its metadata replaced. *)
Definition with_meta {k : kind} : ObjectMeta → obj k → obj k :=
  match k return ObjectMeta → obj k → obj k with
  | KEdgeSite => set_es_meta
  | KFleet => λ m o, {| fl_meta := m; fl_Sites := fl_Sites o; fl_status := fl_status o |}
  | KMeshLink => set_ml_meta
  | KSubscriber => λ m o,
      {| sub_meta := m; sub_spec := sub_spec o; sub_status := sub_status o |}
  | KNetworkSlice => set_ns_meta
  | KSecret => λ m o, {| sec_meta := m; sec_Data := sec_Data o |}
  | KNode => λ m o, {| node_meta := m; node_Addresses := node_Addresses o |}
  | KPod => λ m o,
      {| pod_meta := m; pod_Created := pod_Created o; pod_Phase := pod_Phase o;
         pod_PodIP := pod_PodIP o; pod_Conditions := pod_Conditions o;
         pod_ContainerStatuses := pod_ContainerStatuses o;
         pod_InitContainerStatuses := pod_InitContainerStatuses o |}
  | KService => λ m o,
      {| svc_meta := m; svc_Selector := svc_Selector o; svc_Ports := svc_Ports o;
         svc_IngressIPs := svc_IngressIPs o |}
  | KUPFDataPath => λ m o, {| dp_meta := m; dp_spec := dp_spec o; dp_status := dp_status o |}
  | KNetworkFabric => λ m o,
      {| nf_meta := m; nf_Prefixes := nf_Prefixes o; nf_status := nf_status o |}
  | KSDCoreDeployment => λ m o,
      {| sdc_meta := m; sdc_spec := sdc_spec o; sdc_status := sdc_status o |}
  | KNFDeployment => λ m o,
      {| nfd_meta := m; nfd_spec := nfd_spec o; nfd_Conditions := nfd_Conditions o |}
  | KUnstructured _ => set_u_meta
  end.

(** ** HTTP *)

Record http_request := {
  rq_Method : string;
  rq_URL : string;
  rq_BasicAuth : option (string * string);
  rq_ContentType : option string;
  rq_Body : option json;     (* the value json.Marshal is applied to *)
}.

Record http_response := {
  rs_StatusCode : Z;
  rs_Body : string;          (* the text, for error messages *)
  rs_Sha : string;           (* the "sha" member json.Unmarshal finds in the body, or "" *)
}.

(** Clientsets and REST configurations are handles. *)
Record rest_config := RestConfig { cfg_handle : nat }.
Record clientset := Clientset { cs_handle : nat }.
(** A parsed label selector. *)
Record selector := Selector { sel_handle : nat }.
(** A loaded Helm chart and an initialised action.Configuration. *)
Record chart := Chart { chart_handle : nat }.
Record helm_config := HelmConfig { helm_handle : nat }.
(** The repository's RESTClientGetter (sdcoredeployment_controller.go): what Helm connects with. *)
Record restClientGetter := { rcg_restConfig : rest_config; rcg_namespace : string }.
(** What the history of a release says: it exists, driver.ErrReleaseNotFound, another error. *)
Inductive history := ReleaseFound | ReleaseNotFound | HistoryError (e : error).
(** An install or an upgrade: the fields the controllers set on action.Install and action.Upgrade. *)
Record install_request := { in_ReleaseName : string; in_Namespace : string;
                            in_CreateNamespace : bool; in_Timeout : Z; in_Chart : chart;
                            in_Values : json }.
Record upgrade_request := { up_Release : string; up_Namespace : string; up_Timeout : Z;
                            up_Chart : chart; up_Values : json }.

(** ** Calls *)

Inductive call_op :=
(* controller-runtime client *)
| KGet (k : kind) (ns name : string)
| KList (k : kind) (ns : option string) (labels : list (string * string))
| KCreate (k : kind) (o : obj k)
| KUpdate (k : kind) (o : obj k)
| KStatusUpdate (k : kind) (o : obj k)
| KDelete (k : kind) (o : obj k)
(* net/http *)
| NewRequest (method url : string)
| HttpDo (rq : http_request)
(* remote clusters *)
| GetConfig
| ConfigFromKubeConfig (kubeconfig : string)
| NewForConfig (cfg : rest_config)
| RGetSecret (cs : clientset) (ns name : string)
| RGetService (cs : clientset) (name : string)
| RCreateService (cs : clientset) (s : Service)
| RUpdateService (cs : clientset) (s : Service)
| RDeleteService (cs : clientset) (name : string)
| RGetEndpointSlice (cs : clientset) (name : string)
| RCreateEndpointSlice (cs : clientset) (s : EndpointSlice)
| RUpdateEndpointSlice (cs : clientset) (s : EndpointSlice)
| RDeleteEndpointSlice (cs : clientset) (name : string)
| RListPods (cs : clientset) (selector : string)
| RGetPodLogs (cs : clientset) (ns pod container : string) (tail : Z)
(* exec in a container of the cluster *)
| NewExecutor (cfg : rest_config) (cs : clientset) (rq : exec_request)
| ExecStream (rq : exec_request)
(* label selectors *)
| LabelsParse (s : string)
| KSelect (k : kind) (ns : option string) (sel : selector)
(* the host's network stack: netlink, iptables, sysctl, ethtool *)
| LinkByName (name : string)
| LinkByIndex (index : Z)
| LinkAddBridge (name : string)
| LinkSetUp (l : link)
| RouteGet (dst : net_ip)
| RouteList
| RouteReplace (r : new_route)
| AddrList (l : link)
| AddrAdd (l : link) (a : nl_addr)
| AddrReplace (l : link) (a : nl_addr)
| AddrDel (l : link) (a : nl_addr)
| NeighList (index : Z)
| NeighDel (n : nl_neigh)
| WriteFile (path content : string)
| RunCommand (args : list string)
| NewIPTables (backend : string)
| IptDeleteIfExists (backend table chain : string) (rule : list string)
| IptInsert (backend table chain : string) (pos : Z) (rule : list string)
| IptAppendUnique (backend table chain : string) (rule : list string)
| IptChainExists (backend table chain : string)
(* Helm *)
| HelmInit (getter : restClientGetter) (ns driver : string)
| HelmHistory (cfg : helm_config) (max : Z) (release : string)
| HelmInstall (cfg : helm_config) (rq : install_request)
| HelmUpgrade (cfg : helm_config) (rq : upgrade_request)
(* process *)
| Getenv (key : string)
| Now
| LogInfo (msg : string) (kv : list (string * string))
| LogError (e : error) (msg : string) (kv : list (string * string))
| MapOrder (size : nat).

Definition answer (c : call_op) : Type :=
  match c with
  | KGet k _ _ => result (obj k)
  | KList k _ _ => result (list (obj k))
  | KCreate k _ | KUpdate k _ | KStatusUpdate k _ => result (obj k)
  | KDelete _ _ => result unit
  | NewRequest _ _ => result unit
  | HttpDo _ => result http_response
  | GetConfig | ConfigFromKubeConfig _ => result rest_config
  | NewForConfig _ => result clientset
  | RGetSecret _ _ _ => result Secret
  | RGetService _ _ | RCreateService _ _ | RUpdateService _ _ => result Service
  | RDeleteService _ _ | RDeleteEndpointSlice _ _ => result unit
  | RGetEndpointSlice _ _ | RCreateEndpointSlice _ _ | RUpdateEndpointSlice _ _ =>
      result EndpointSlice
  | RListPods _ _ => result (list Pod)
  | RGetPodLogs _ _ _ _ _ => result string
  | NewExecutor _ _ _ => result unit
  | ExecStream _ => exec_output error
  | LabelsParse _ => result selector
  | KSelect k _ _ => result (list (obj k))
  | LinkByName _ | LinkByIndex _ | LinkAddBridge _ => result link
  | LinkSetUp _ => result unit
  | RouteGet _ | RouteList => result (list nl_route)
  | RouteReplace _ => result unit
  | AddrList _ => result (list nl_addr)
  | AddrAdd _ _ | AddrReplace _ _ | AddrDel _ _ => result unit
  | NeighList _ => result (list nl_neigh)
  | NeighDel _ => result unit
  | WriteFile _ _ | RunCommand _ => result unit
  | NewIPTables _ => result unit
  | IptDeleteIfExists _ _ _ _ | IptInsert _ _ _ _ _ | IptAppendUnique _ _ _ _ => result unit
  | IptChainExists _ _ _ => result bool
  | HelmInit _ _ _ => result helm_config
  | HelmHistory _ _ _ => history
  | HelmInstall _ _ | HelmUpgrade _ _ => result Z
  | Getenv _ => string
  | Now => Z
  | LogInfo _ _ | LogError _ _ _ => unit
  | MapOrder _ => list nat
  end.

Definition Env : signature := Sig call_op answer.

(** What a call is answered where nothing is reachable. *)
Definition refusal (c : call_op) : answer c :=
  let e := errorf "unreachable" in
  match c return answer c with
  | ExecStream _ => {| xo_Stdout := ""; xo_Stderr := ""; xo_Err := Some e |}
  | HelmInit _ _ _ | HelmInstall _ _ | HelmUpgrade _ _ => Err e
  | HelmHistory _ _ _ => HistoryError e
  | Getenv _ => ""
  | Now => 0
  | LogInfo _ _ | LogError _ _ _ => tt
  | MapOrder _ => []
  | KGet _ _ _ | KList _ _ _ | KCreate _ _ | KUpdate _ _ | KStatusUpdate _ _ | KDelete _ _ => Err e
  | NewRequest _ _ | HttpDo _ | GetConfig | ConfigFromKubeConfig _ | NewForConfig _ => Err e
  | RGetSecret _ _ _ | RGetService _ _ | RCreateService _ _ | RUpdateService _ _ => Err e
  | RDeleteService _ _ | RDeleteEndpointSlice _ _ | RGetEndpointSlice _ _ => Err e
  | RCreateEndpointSlice _ _ | RUpdateEndpointSlice _ _ | RListPods _ _ => Err e
  | RGetPodLogs _ _ _ _ _ | NewExecutor _ _ _ | LabelsParse _ | KSelect _ _ _ => Err e
  | LinkByName _ | LinkByIndex _ | LinkAddBridge _ | LinkSetUp _ | RouteGet _ | RouteList => Err e
  | RouteReplace _ | AddrList _ | AddrAdd _ _ | AddrReplace _ _ | AddrDel _ _ => Err e
  | NeighList _ | NeighDel _ | WriteFile _ _ | RunCommand _ | NewIPTables _ => Err e
  | IptDeleteIfExists _ _ _ _ | IptInsert _ _ _ _ _ | IptAppendUnique _ _ _ _ => Err e
  | IptChainExists _ _ _ => Err e
  end.

(** A call as an action; its answer has the type [answer] gives. *)
Definition env {St} (c : call_op) : act Env St (answer c) := @call Env St c.

(** A fallible call whose error the caller returns. *)
Definition env_ok {St A} (m : act Env St (result A)) : act Env St A := r ← m; of_result r.

(** The answers of the logger carry nothing. *)
Ltac drop_logs :=
  repeat match goal with
         | u : ans Env (LogInfo _ _) |- _ => destruct u
         | u : ans Env (LogError _ _ _) |- _ => destruct u
         end; subst.

(** ** Map iteration

    Go iterates a map in an unspecified order: [shuffle] arranges the entries in the order the
    environment's answer to [MapOrder] selects. *)

Fixpoint remove_nth {A} (i : nat) (l : list A) : list A :=
  match l, i with
  | [], _ => []
  | _ :: r, O => r
  | x :: r, S i' => x :: remove_nth i' r
  end.

Fixpoint shuffle {A} (fuel : nat) (order : list nat) (l : list A) : list A :=
  match fuel, l with
  | S f, x :: _ =>
      let i := Nat.modulo (hd O order) (length l) in
      nth i l x :: shuffle f (tl order) (remove_nth i l)
  | _, _ => []
  end.

Definition range_map {St A} (l : list A) : act Env St (list A) :=
  order ← env (MapOrder (length l)); mret (shuffle (length l) order l).

Lemma remove_nth_perm {A} (i : nat) (l : list A) (d : A) :
  (i < length l)%nat → nth i l d :: remove_nth i l ≡ₚ l.
Proof.
  revert i. induction l as [|x l IH]; intros [|i] H; simpl in *; try lia; [done|].
  rewrite Permutation_swap. constructor. apply IH. lia.
Qed.

Lemma remove_nth_length {A} (i : nat) (l : list A) :
  (i < length l)%nat → length (remove_nth i l) = (length l - 1)%nat.
Proof.
  revert i. induction l as [|x l IH]; intros [|i] H; simpl in *; try lia.
  rewrite IH by lia. lia.
Qed.

(** Whatever the environment answers, every entry is visited exactly once. *)
Lemma shuffle_perm {A} (order : list nat) (l : list A) :
  shuffle (length l) order l ≡ₚ l.
Proof.
  remember (length l) as n eqn:Hn. revert order l Hn.
  induction n as [|n IH]; intros order [|x l] Hn; try discriminate Hn; [done|].
  cbn [shuffle]. set (i := Nat.modulo (hd O order) (length (x :: l))).
  assert (i < length (x :: l))%nat as Hi by (apply Nat.mod_upper_bound; simpl; lia).
  rewrite IH.
  - by apply remove_nth_perm.
  - rewrite remove_nth_length by done. simpl in *. lia.
Qed.

(** ** Writes: the calls that change something outside the process *)

Definition is_write (c : call_op) : bool :=
  match c with
  | KCreate _ _ | KUpdate _ _ | KStatusUpdate _ _ | KDelete _ _ => true
  | HttpDo rq => negb (String.eqb (rq_Method rq) "GET")
  | RCreateService _ _ | RUpdateService _ _ | RDeleteService _ _ => true
  | RCreateEndpointSlice _ _ | RUpdateEndpointSlice _ _ | RDeleteEndpointSlice _ _ => true
  | ExecStream _ => true
  | HelmInstall _ _ | HelmUpgrade _ _ => true
  | LinkAddBridge _ | LinkSetUp _ | RouteReplace _ | NeighDel _ => true
  | AddrAdd _ _ | AddrReplace _ _ | AddrDel _ _ => true
  | WriteFile _ _ | RunCommand _ => true
  | IptDeleteIfExists _ _ _ _ | IptInsert _ _ _ _ _ | IptAppendUnique _ _ _ _ => true
  | _ => false
  end.

Definition writes (t : list (event Env)) : list (event Env) :=
  List.filter (λ e : event Env, is_write (ev_op e)) t.

Lemma writes_app t1 t2 : writes (t1 ++ t2)%list = (writes t1 ++ writes t2)%list.
Proof. apply List.filter_app. Qed.

#[export] Hint Rewrite writes_app : go.

(** The status updates of a trace. *)
Definition status_of (e : event Env) : option (sigT obj) :=
  match e with
  | Ev (KStatusUpdate k o) _ => Some (existT k o)
  | _ => None
  end.

Definition statuses (t : list (event Env)) : list (sigT obj) := omap status_of t.

Lemma statuses_app t1 t2 : statuses (t1 ++ t2)%list = (statuses t1 ++ statuses t2)%list.
Proof. apply omap_app. Qed.

(** ** Pure third-party functions *)

(** controller-runtime's [client.IgnoreNotFound] and [controllerutil] finalizer helpers, and
    apimachinery's [meta.SetStatusCondition]. *)
Class Apimachinery := {
  IgnoreNotFound : error → option error;
  SetStatusCondition : list Condition → Condition → list Condition;
  ContainsFinalizer : list string → string → bool;
  AddFinalizer : list string → string → list string * bool;
  RemoveFinalizer : list string → string → list string;
}.

(** [meta.FindStatusCondition]: the condition of a type. *)
Definition find_condition (t : string) (cs : list Condition) : option Condition :=
  find_first (λ c, String.eqb (c_Type c) t) cs.

(** Their documented behaviour. *)
Class ApimachineryLaws `{Apimachinery} : Prop := {
  ignore_not_found e : IgnoreNotFound e = if IsNotFound e then None else Some e;
  set_condition_this cs c : find_condition (c_Type c) (SetStatusCondition cs c) = Some c;
  set_condition_other cs c t :
    t ≠ c_Type c → find_condition t (SetStatusCondition cs c) = find_condition t cs;
  set_condition_types cs c :
    c_Type <$> SetStatusCondition cs c =
    if decide (c_Type c ∈ c_Type <$> cs) then c_Type <$> cs
    else ((c_Type <$> cs) ++ [c_Type c])%list;
  set_condition_from cs c d : d ∈ SetStatusCondition cs c → d = c ∨ d ∈ cs;
  contains_finalizer l f : ContainsFinalizer l f = true ↔ f ∈ l;
  add_finalizer_new l f : f ∉ l → AddFinalizer l f = ((l ++ [f])%list, true);
  add_finalizer_present l f : f ∈ l → AddFinalizer l f = (l, false);
  remove_finalizer l f g : g ∈ RemoveFinalizer l f ↔ g ∈ l ∧ g ≠ f;
}.

(** A concrete instance. *)
Fixpoint set_condition (cs : list Condition) (c : Condition) : list Condition :=
  match cs with
  | [] => [c]
  | d :: r => if String.eqb (c_Type d) (c_Type c) then c :: r else d :: set_condition r c
  end.

#[export] Instance std_apimachinery : Apimachinery := {|
  IgnoreNotFound e := if IsNotFound e then None else Some e;
  SetStatusCondition := set_condition;
  ContainsFinalizer l f := bool_decide (f ∈ l);
  AddFinalizer l f := if decide (f ∈ l) then (l, false) else ((l ++ [f])%list, true);
  RemoveFinalizer l f := filter (λ g, g ≠ f) l;
|}.

Lemma set_condition_find cs c t :
  find_condition t (set_condition cs c) =
  if String.eqb (c_Type c) t then Some c else find_condition t cs.
Proof.
  unfold find_condition. induction cs as [|d cs IH]; simpl; [done|].
  destruct (String.eqb_spec (c_Type d) (c_Type c)) as [E|E]; simpl.
  - rewrite E. by destruct (String.eqb (c_Type c) t).
  - rewrite IH. destruct (String.eqb_spec (c_Type d) t) as [<-|]; [|done].
    by destruct (String.eqb_spec (c_Type c) (c_Type d)).
Qed.

Lemma set_condition_types_std cs c :
  c_Type <$> set_condition cs c =
  if decide (c_Type c ∈ c_Type <$> cs) then c_Type <$> cs else ((c_Type <$> cs) ++ [c_Type c])%list.
Proof.
  induction cs as [|d cs IH]; [done|]. cbn [set_condition].
  destruct (String.eqb_spec (c_Type d) (c_Type c)) as [E|E]; rewrite !fmap_cons.
  - rewrite E, decide_True by (left; done). done.
  - rewrite IH. destruct (decide (c_Type c ∈ c_Type <$> cs)) as [H|H].
    + by rewrite decide_True by (right; done).
    + rewrite decide_False; [done|]. intros [|]%elem_of_cons; congruence.
Qed.

Lemma set_condition_from_std cs c d : d ∈ set_condition cs c → d = c ∨ d ∈ cs.
Proof.
  induction cs as [|x cs IH]; cbn; [intros ?%list_elem_of_singleton; auto|].
  destruct (String.eqb (c_Type x) (c_Type c)); rewrite !elem_of_cons; [tauto|].
  intros [->|H%IH]; tauto.
Qed.

#[export] Instance std_apimachinery_laws : ApimachineryLaws.
Proof.
  split; simpl.
  - done.
  - intros. by rewrite set_condition_find, String.eqb_refl.
  - intros. rewrite set_condition_find. by destruct (String.eqb_spec (c_Type c) t).
  - apply set_condition_types_std.
  - apply set_condition_from_std.
  - intros. apply bool_decide_eq_true.
  - intros. by rewrite decide_False.
  - intros. by rewrite decide_True.
  - intros. rewrite list_elem_of_filter. tauto.
Qed.

(** ** A healthy API server *)

Definition spec_of (k : kind) : Type :=
  match k with
  | KEdgeSite => EdgeSiteSpec
  | KFleet => list FleetSite
  | KMeshLink => MeshLinkSpec
  | KSubscriber => SubscriberSpec
  | KNetworkSlice => NetworkSliceSpec
  | KSecret => gmap string string
  | KNode => unit
  | KPod => unit
  | KService => gmap string string * list ServicePort
  | KUPFDataPath => UPFDataPathSpec
  | KNetworkFabric => list FabricPrefix
  | KSDCoreDeployment => SDCoreDeploymentSpec
  | KNFDeployment => NFDeploymentSpec
  | KUnstructured _ => json
  end.

Definition spec_part {k : kind} : obj k → spec_of k :=
  match k return obj k → spec_of k with
  | KEdgeSite => es_spec
  | KFleet => fl_Sites
  | KMeshLink => ml_spec
  | KSubscriber => sub_spec
  | KNetworkSlice => ns_spec
  | KSecret => sec_Data
  | KNode => λ _, tt
  | KPod => λ _, tt
  | KService => λ o, (svc_Selector o, svc_Ports o)
  | KUPFDataPath => dp_spec
  | KNetworkFabric => nf_Prefixes
  | KSDCoreDeployment => sdc_spec
  | KNFDeployment => nfd_spec
  | KUnstructured _ => u_spec
  end.

(** The server stored what the client submitted: its spec and the metadata a client owns. *)
Definition accepted {k : kind} (submitted stored : obj k) : Prop :=
  spec_part stored = spec_part submitted ∧
  Name (meta stored) = Name (meta submitted) ∧
  Namespace (meta stored) = Namespace (meta submitted) ∧
  Labels (meta stored) = Labels (meta submitted) ∧
  OwnerReferences (meta stored) = OwnerReferences (meta submitted) ∧
  Finalizers (meta stored) = Finalizers (meta submitted) ∧
  DeletionTimestamp (meta stored) = None.

(** The content of a server, and one object of it replaced. *)
Definition store : Type := ∀ k : kind, string → string → option (obj k).

Definition put_at (st st' : store) {k : kind} (ns name : string) (o : obj k) : Prop :=
  st' k ns name = Some o ∧
  ∀ k' ns' name', (k', ns', name') ≠ (k, ns, name) → st' k' ns' name' = st k' ns' name'.

(** What the controllers rely on.  [stored w k ns name] is the object in the world [w]; the laws
    concern a server that is reachable, an object that is not being deleted, and a spec in which
    the schema has no default to fill in. *)
Class ApiServer {W : Type} (h : handler Env W) := {
  stored : W → store;
  get_found w k ns name o :
    stored w k ns name = Some o → h (KGet k ns name) w = (Ok o, w);
  get_missing w k ns name :
    stored w k ns name = None →
    ∃ e, h (KGet k ns name) w = (Err e, w) ∧ IsNotFound e = true;
  create_stores w k (o : obj k) :
    stored w k (Namespace (meta o)) (Name (meta o)) = None →
    ∃ o' w', h (KCreate k o) w = (Ok o', w') ∧ accepted o o' ∧
      put_at (stored w) (stored w') (Namespace (meta o)) (Name (meta o)) o';
  update_stores w k (o cur : obj k) :
    stored w k (Namespace (meta o)) (Name (meta o)) = Some cur →
    DeletionTimestamp (meta cur) = None →
    ResourceVersion (meta o) = ResourceVersion (meta cur) →
    ∃ o' w', h (KUpdate k o) w = (Ok o', w') ∧ accepted o o' ∧
      put_at (stored w) (stored w') (Namespace (meta o)) (Name (meta o)) o';
  log_info_silent w m kv : h (LogInfo m kv) w = (tt, w);
}.

(** ** An in-memory API server

    It assigns a fresh resource version on every write, refuses to create an object that exists
    and to update one that does not or whose resource version is stale, and answers every call
    outside the API server with an error. *)
Module MemServer.

Record world := World { objects : ∀ k : kind, gmap (string * string) (obj k); clock : Z }.

Definition empty : world := World (λ _, ∅) 1.

(** The objects of one kind replaced, on a new tick of the clock. *)
Definition with_objects (w : world) (k : kind) (m : gmap (string * string) (obj k)) : world :=
  World
    (λ k', match decide (k = k') with
           | left E => eq_rect k (λ k, gmap (string * string) (obj k)) m k' E
           | right _ => objects w k'
           end)
    (clock w + 1).

Definition put (w : world) (k : kind) (key : string * string) (o : obj k) : world :=
  with_objects w k (<[key := o]> (objects w k)).

Definition remove (w : world) (k : kind) (key : string * string) : world :=
  with_objects w k (delete key (objects w k)).

Definition key_of {k : kind} (o : obj k) : string * string :=
  (Namespace (meta o), Name (meta o)).

(** The object as stored: a fresh resource version, and not marked as being deleted. *)
Definition stamp (w : world) {k : kind} (o : obj k) : obj k :=
  with_meta {| Name := Name (meta o); Namespace := Namespace (meta o); UID := UID (meta o);
               ResourceVersion := Itoa (clock w); Generation := Generation (meta o);
               Labels := Labels (meta o); Annotations := Annotations (meta o);
               OwnerReferences := OwnerReferences (meta o);
               Finalizers := Finalizers (meta o); DeletionTimestamp := None |} o.

Definition not_found : error := Error true "not found".

Definition write (w : world) {k : kind} (o : obj k) : result (obj k) * world :=
  (Ok (stamp w o), put w k (key_of o) (stamp w o)).

Definition handle : handler Env world := λ c,
  match c return world → answer c * world with
  | KGet k ns name => λ w,
      (match objects w k !! (ns, name) with Some o => Ok o | None => Err not_found end, w)
  | KList k _ _ => λ w, (Ok ((map_to_list (objects w k)).*2), w)
  | KCreate k o => λ w,
      match objects w k !! key_of o with
      | Some _ => (Err (errorf "already exists"), w)
      | None => write w o
      end
  | KUpdate k o => λ w,
      match objects w k !! key_of o with
      | None => (Err not_found, w)
      | Some cur =>
          if String.eqb (ResourceVersion (meta o)) (ResourceVersion (meta cur))
          then write w o else (Err (errorf "conflict"), w)
      end
  | KStatusUpdate k o => λ w, (Ok o, w)
  | KDelete k o => λ w,
      match objects w k !! key_of o with
      | Some _ => (Ok tt, remove w k (key_of o))
      | None => (Err not_found, w)
      end
  | NewRequest _ _ => λ w, (Ok tt, w)
  | LogInfo _ _ | LogError _ _ _ => λ w, (tt, w)
  | MapOrder _ => λ w, ([], w)
  | Now => λ w, (clock w * 1000000000, w)
  | KSelect k _ _ => λ w, (Ok ((map_to_list (objects w k)).*2), w)
  | LabelsParse _ => λ w, (Ok (Selector 0), w)
  | c => λ w, (refusal c, w)
  end.

Lemma handle_update w k (o cur : obj k) :
  objects w k !! key_of o = Some cur →
  ResourceVersion (meta o) = ResourceVersion (meta cur) →
  handle (KUpdate k o) w = write w o.
Proof. intros H E. cbn [handle]. by rewrite H, E, String.eqb_refl. Qed.

Lemma handle_create w k (o : obj k) :
  objects w k !! key_of o = None → handle (KCreate k o) w = write w o.
Proof. intros H. cbn [handle]. by rewrite H. Qed.

Lemma handle_get w k ns name :
  handle (KGet k ns name) w =
  (match objects w k !! (ns, name) with Some o => Ok o | None => Err not_found end, w).
Proof. done. Qed.

Definition lookup (w : world) : store := λ k ns name, objects w k !! (ns, name).

Lemma with_objects_same w k m : objects (with_objects w k m) k = m.
Proof.
  unfold with_objects. cbn [objects]. destruct (decide (k = k)) as [E|]; [|done].
  by rewrite (proof_irrel E eq_refl).
Qed.

Lemma put_at_put w k (o : obj k) ns name :
  put_at (lookup w) (lookup (put w k (ns, name) o)) ns name o.
Proof.
  unfold put_at, lookup, put. split; [rewrite with_objects_same; apply lookup_insert_eq|].
  cbn [with_objects objects]. intros k' ns' name' Hne. destruct (decide (k = k')) as [<-|]; [|done].
  apply lookup_insert_ne. congruence.
Qed.

Lemma stamp_accepted w k (o : obj k) : accepted o (stamp w o).
Proof. destruct k; done. Qed.

#[export, program] Instance api_server : ApiServer handle := {| stored := lookup |}.
Next Obligation. intros w k ns name o H. simpl. unfold lookup in H. by rewrite H. Qed.
Next Obligation.
  intros w k ns name H. exists not_found. simpl. unfold lookup in H. by rewrite H.
Qed.
Next Obligation.
  intros w k o H. exists (stamp w o), (put w k (key_of o) (stamp w o)). simpl.
  unfold lookup in H. unfold key_of. rewrite H.
  split; [done|]. split; [apply stamp_accepted | apply put_at_put].
Qed.
Next Obligation.
  intros w k o cur H _ HRV. exists (stamp w o), (put w k (key_of o) (stamp w o)). simpl.
  unfold lookup in H. unfold key_of. rewrite H, HRV, String.eqb_refl.
  split; [done|]. split; [apply stamp_accepted | apply put_at_put].
Qed.
Next Obligation. done. Qed.
End MemServer.
