(* ===== verification/Helpers.v ===== *)
(** * Shared helpers

    The small functions several controllers use: [orDefault], [orInt] and [indent] of
    upfdatapath_controller.go, [setCondition] and the constants of mesh_helpers.go, [atoiOr] of
    edgesite_controller.go, and the result type of a reconcile. *)

From S2P Require Import Prelude GoText Prog Api Effects.

(** [ctrl.Result]: the delay after which the object is reconciled again, in nanoseconds (0: no
    requeue). *)
Record Result := { RequeueAfter : Z }.
Definition no_requeue : Result := {| RequeueAfter := 0 |}.
Definition Second : Z := 1000000000.
Definition requeueMesh : Z := 20 * Second.

Definition intstr38412 : Z := 38412.
Definition intstr8805 : Z := 8805.

(** An unset or literal "null" field takes its default. *)
Definition orDefault (v d : string) : string :=
  if String.eqb v "" || String.eqb v "null" then d else v.

Definition orInt (v d : Z) : Z := if v =? 0 then d else v.

(** [n & 0xff] of a parsed number, or the default when it does not parse. *)
Definition atoiOr (s : string) (d : Z) : Z :=
  match Atoi s with
  | (n, None) => Z.land n 255
  | _ => d
  end.

(** Every non-empty line prefixed with [pad], every line ended with a newline. *)
Definition indent (s pad : string) : string :=
  concat_strings
    ((λ line, if String.eqb line "" then nl else pad +:+ line +:+ nl) <$> Split s (chr 10)).

Section conditions.
Context {AM : Apimachinery}.

Definition setCondition (conds : list Condition) (condType : string)
    (status : ConditionStatus) (reason message : string) (generation : Z) : list Condition :=
  SetStatusCondition conds
    {| c_Type := condType; c_Status := status; c_Reason := reason; c_Message := message;
       c_ObservedGeneration := generation |}.

(** The condition just set is the one a reader finds. *)
Lemma setCondition_find {AML : ApimachineryLaws} conds t st r m g :
  find_condition t (setCondition conds t st r m g) =
  Some {| c_Type := t; c_Status := st; c_Reason := r; c_Message := m;
          c_ObservedGeneration := g |}.
Proof. unfold setCondition. apply (set_condition_this conds {| c_Type := t |}). Qed.
End conditions.

Lemma orDefault_set v d : v ≠ "" → v ≠ "null" → orDefault v d = v.
Proof.
  intros H1 H2. unfold orDefault. apply String.eqb_neq in H1, H2. by rewrite H1, H2.
Qed.

Lemma orDefault_nonempty v d : d ≠ "" → orDefault v d ≠ "".
Proof.
  intros Hd. unfold orDefault. destruct (String.eqb_spec v ""); [done|]. simpl.
  by destruct (String.eqb v "null").
Qed.

Lemma orInt_nonzero v d : d ≠ 0 → orInt v d ≠ 0.
Proof. intros. unfold orInt. destruct (Z.eqb_spec v 0); lia. Qed.

(** An octet, whatever the text is, when the default is one. *)
Lemma atoiOr_octet s d : 0 ≤ d < 256 → 0 ≤ atoiOr s d < 256.
Proof.
  intros Hd. unfold atoiOr. destruct (Atoi s) as [n [e|]]; [done|].
  replace 255 with (Z.ones 8) by done. rewrite Z.land_ones by lia.
  apply Z.mod_pos_bound. lia.
Qed.

Lemma atoiOr_Itoa n d : 0 ≤ n < 256 → atoiOr (Itoa n) d = n.
Proof.
  intros Hn. unfold atoiOr, Atoi, ParseInt.
  pose proof (parse_format_uint 10 ltac:(lia) n ltac:(lia)) as Hp.
  pose proof (format_uint_digits n) as Hd. rewrite Itoa_nonneg by lia.
  assert (bytes (format_uint 10 n) ≠ []) as Hne
    by apply format_uint_nonempty.
  destruct (bytes (format_uint 10 n)) as [|c r]; [done|].
  apply Forall_cons in Hd as [Hc%is_digit_range _].
  replace (c =? 45) with false by lia. replace (c =? 43) with false by lia. simpl orb.
  cbv iota. rewrite Hp. simpl negb. rewrite andb_true_l, andb_false_l.
  destruct (Z.leb_spec (2 ^ 63) n); [lia|].
  replace 255 with (Z.ones 8) by done. rewrite Z.land_ones by lia. apply Z.mod_small. lia.
Qed.
