(* ===== verification/Pattern.v ===== *)
(** * Patterns of the CRD schemas

    Regular expressions as the [pattern] keyword of a CustomResourceDefinition uses them, matched
    by derivatives; a schema's pattern is anchored at both ends. *)

From S2P Require Import Prelude GoText.

Inductive regexp :=
| RNone
| REmpty
| RClass (p : Z → bool)
| RSeq (a b : regexp)
| RAlt (a b : regexp)
| RStar (a : regexp).

Fixpoint nullable (r : regexp) : bool :=
  match r with
  | RNone | RClass _ => false
  | REmpty | RStar _ => true
  | RSeq a b => nullable a && nullable b
  | RAlt a b => nullable a || nullable b
  end.

Fixpoint derive (c : Z) (r : regexp) : regexp :=
  match r with
  | RNone | REmpty => RNone
  | RClass p => if p c then REmpty else RNone
  | RSeq a b => if nullable a then RAlt (RSeq (derive c a) b) (derive c b)
                else RSeq (derive c a) b
  | RAlt a b => RAlt (derive c a) (derive c b)
  | RStar a => RSeq (derive c a) (RStar a)
  end.

Definition matches (r : regexp) (l : list Z) : bool := nullable (foldl (λ r c, derive c r) r l).

(** The language of an expression, and that [matches] decides it. *)
Inductive accepts : regexp → list Z → Prop :=
| accepts_empty : accepts REmpty []
| accepts_class p c : p c = true → accepts (RClass p) [c]
| accepts_seq a b l1 l2 : accepts a l1 → accepts b l2 → accepts (RSeq a b) (l1 ++ l2)%list
| accepts_left a b l : accepts a l → accepts (RAlt a b) l
| accepts_right a b l : accepts b l → accepts (RAlt a b) l
| accepts_nil a : accepts (RStar a) []
| accepts_star a l1 l2 : accepts a l1 → accepts (RStar a) l2 → accepts (RStar a) (l1 ++ l2)%list.

Lemma nullable_accepts r : nullable r = true ↔ accepts r [].
Proof.
  split.
  - induction r; cbn; try done; intros H; try (by constructor).
    + apply andb_true_iff in H as [H1 H2]. apply (accepts_seq _ _ [] []); auto.
    + apply orb_true_iff in H as [H|H]; [apply accepts_left | apply accepts_right]; auto.
  - remember (@nil Z) as l eqn:Hl. intros H.
    induction H; cbn; subst; try done; try (by apply orb_true_iff; auto).
    apply app_nil in Hl as [-> ->]. apply andb_true_iff. auto.
Qed.

Lemma derive_sound c r l : accepts (derive c r) l → accepts r (c :: l).
Proof.
  revert l. induction r as [| |p|a IHa b IHb|a IHa b IHb|a IHa]; cbn; intros l H;
    try by inversion H.
  - destruct (p c) eqn:E; inversion H; subst. by constructor.
  - destruct (nullable a) eqn:E; [inversion H as [| | |? ? ? H1|? ? ? H1| |]; subst|].
    + inversion H1; subst. apply (accepts_seq a b (c :: l1) l2); auto.
    + apply (accepts_seq a b [] (c :: l)); [by apply nullable_accepts | auto].
    + inversion H; subst. apply (accepts_seq a b (c :: l1) l2); auto.
  - inversion H; subst; [apply accepts_left | apply accepts_right]; auto.
  - inversion H; subst. apply (accepts_star a (c :: l1) l2); auto.
Qed.

Lemma derive_complete c r l : accepts r (c :: l) → accepts (derive c r) l.
Proof.
  remember (c :: l) as m eqn:Hm. intros H. revert l Hm.
  induction H as [|p x Hp|a b l1 l2 H1 IH1 H2 IH2|a b m H IH|a b m H IH|a|a l1 l2 H1 IH1 H2 IH2];
    intros l Hm; cbn; try done.
  - injection Hm as -> <-. rewrite Hp. constructor.
  - destruct l1 as [|x l1]; cbn in Hm.
    + apply nullable_accepts in H1. rewrite H1. apply accepts_right. auto.
    + injection Hm as -> <-. destruct (nullable a);
        [apply accepts_left|]; constructor; auto.
  - apply accepts_left. auto.
  - apply accepts_right. auto.
  - destruct l1 as [|x l1]; cbn in Hm; [auto|]. injection Hm as -> <-. constructor; auto.
Qed.

Lemma matches_accepts r l : matches r l = true ↔ accepts r l.
Proof.
  unfold matches. revert r. induction l as [|c l IH]; intros r; cbn; [apply nullable_accepts|].
  rewrite IH. split; [apply derive_sound | apply derive_complete].
Qed.

(** ** Notations of the schemas' patterns *)

Definition is_lower (c : Z) : bool := (97 <=? c) && (c <=? 122).
Definition is_letter (c : Z) : bool := is_lower c || ((65 <=? c) && (c <=? 90)).
Definition is_alnum (c : Z) : bool := is_letter c || is_digit c.
Definition one_of (s : string) (c : Z) : bool := existsb (Z.eqb c) (bytes s).

Definition RChar (c : ascii) : regexp := RClass (Z.eqb (code c)).
Definition ROpt (r : regexp) : regexp := RAlt r REmpty.

(** [^[A-Za-z]([A-Za-z0-9_,:]*[A-Za-z0-9_])?$]: the reason of a condition. *)
Definition reason_pattern : regexp :=
  RSeq (RClass is_letter)
    (ROpt (RSeq (RStar (RClass (λ c, is_alnum c || one_of "_,:" c)))
                (RClass (λ c, is_alnum c || one_of "_" c)))).

(** A DNS label: [[a-z0-9]([-a-z0-9]*[a-z0-9])?]. *)
Definition label_pattern : regexp :=
  let edge := RClass (λ c, is_lower c || is_digit c) in
  RSeq edge (ROpt (RSeq (RStar (RClass (λ c, is_lower c || is_digit c || one_of "-" c))) edge)).

(** The type of a condition: a name, after an optional domain and a slash. *)
Definition type_pattern : regexp :=
  RSeq (ROpt (RSeq label_pattern
               (RSeq (RStar (RSeq (RClass (one_of ".")) label_pattern)) (RClass (one_of "/")))))
    (RSeq (ROpt (RSeq (RClass is_alnum)
                      (RStar (RClass (λ c, is_alnum c || one_of "-_." c)))))
       (RClass is_alnum)).

Example reason_accepts : matches reason_pattern (bytes "PartialFailure") = true.
Proof. reflexivity. Qed.
Example reason_rejects_space : matches reason_pattern (bytes "edge clientFailed") = false.
Proof. reflexivity. Qed.
Example type_accepts : matches type_pattern (bytes "foo.example.com/Camel-Case") = true.
Proof. vm_compute. reflexivity. Qed.
