(* ===== verification/Crd.v ===== *)
(** * The schemas of the unstructured children

    The operator writes PackageVariants, IPClaims, NetworkInstances and VLANIndexes as unstructured
    objects; their CustomResourceDefinitions are installed by platform/mgmt-bootstrap.  [schema] is
    the part of OpenAPI v3 these definitions use, [valid] its meaning on a JSON value, and
    [schema_of] gives the [spec] schema of each kind: types, required members, enumerations and
    patterns.  A member a schema does not name is pruned by the server, not refused. *)

From S2P Require Import Prelude GoText Prog Api Pattern.

#[warnings="-register-all"]
Inductive schema :=
| SString
| SEnum (values : list string)
| SPattern (r : regexp)
| SInteger
| SBoolean
| SArray (items : schema)
| SMap (values : schema)                                 (* additionalProperties *)
| SObject (properties : list (string * schema)) (required : list string).

Definition present (l : list (string * json)) (k : string) : bool :=
  match assoc k l with Some _ => true | None => false end.

(** A pattern is searched for: it is anchored only where it says so. *)
Definition anything : regexp := RStar (RClass (λ _, true)).
Definition contains (r : regexp) (s : string) : bool :=
  matches (RSeq anything (RSeq r anything)) (bytes s).

Fixpoint valid (s : schema) (j : json) {struct s} : bool :=
  match s, j with
  | SString, JStr _ => true
  | SEnum values, JStr v => bool_decide (v ∈ values)
  | SPattern r, JStr v => contains r v
  | SInteger, JInt _ => true
  | SBoolean, JBool _ => true
  | SArray items, JArr l => forallb (valid items) l
  | SMap values, JObj l => forallb (λ kv, valid values kv.2) l
  | SObject properties required, JObj l =>
      forallb (present l) required &&
      (fix go (ps : list (string * schema)) : bool :=
         match ps with
         | [] => true
         | (k, p) :: r => match assoc k l with Some v => valid p v | None => true end && go r
         end) properties
  | _, _ => false
  end.

(** ** The pattern of a prefix *)

Definition RAlts (l : list regexp) : regexp := foldr RAlt RNone l.
Definition RSeqs (l : list regexp) : regexp := foldr RSeq REmpty l.
Definition RTimes (n : nat) (r : regexp) : regexp := RSeqs (replicate n r).
(** [r{0,n}]. *)
Fixpoint RUpTo (n : nat) (r : regexp) : regexp :=
  match n with O => REmpty | S n' => ROpt (RSeq r (RUpTo n' r)) end.

Definition RDigit : regexp := RClass is_digit.
Definition RRange (a b : ascii) : regexp := RClass (λ c, (code a <=? c) && (c <=? code b)).
Definition RHex : regexp :=
  RClass (λ c, is_digit c || ((97 <=? c) && (c <=? 102)) || ((65 <=? c) && (c <=? 70))).

(** [[0-9]|[1-9][0-9]|1[0-9][0-9]|2[0-4][0-9]|25[0-5]]. *)
Definition octet_pattern : regexp :=
  RAlts [RDigit; RSeq (RRange "1" "9") RDigit; RSeqs [RChar "1"; RDigit; RDigit];
         RSeqs [RChar "2"; RRange "0" "4"; RDigit]; RSeqs [RChar "2"; RChar "5"; RRange "0" "5"]].

(** [([0-9])|([1-2][0-9])|(3[0-2])]. *)
Definition length4_pattern : regexp :=
  RAlts [RDigit; RSeq (RRange "1" "2") RDigit; RSeq (RChar "3") (RRange "0" "2")].

Definition cidr4_pattern : regexp :=
  RSeqs [RTimes 3 (RSeq octet_pattern (RChar ".")); octet_pattern; RChar "/"; length4_pattern].

(** [H{0,4}] and [:|H{0,4}] for the hexadecimal digits H. *)
Definition group_pattern : regexp := RUpTo 4 RHex.
Definition group_or_colon : regexp := RAlt (RChar ":") group_pattern.

(** [25[0-5]|2[0-4][0-9]|[01]?[0-9]?[0-9]]. *)
Definition tail_octet : regexp :=
  RAlts [RSeqs [RChar "2"; RChar "5"; RRange "0" "5"]; RSeqs [RChar "2"; RRange "0" "4"; RDigit];
         RSeqs [ROpt (RRange "0" "1"); ROpt RDigit; RDigit]].

(** [([0-9])|([0-9]{2})|(1[0-1][0-9])|(12[0-8])]. *)
Definition length6_pattern : regexp :=
  RAlts [RDigit; RTimes 2 RDigit; RSeqs [RChar "1"; RRange "0" "1"; RDigit];
         RSeqs [RChar "1"; RChar "2"; RRange "0" "8"]].

Definition cidr6_pattern : regexp :=
  RSeqs [group_or_colon; RChar ":"; RUpTo 5 (RSeq group_pattern (RChar ":"));
         RAlt (RSeq (ROpt (RSeq group_pattern (RChar ":"))) group_or_colon)
              (RSeq (RTimes 3 (RSeq tail_octet (RChar "."))) tail_octet);
         RChar "/"; length6_pattern].

Definition prefix_pattern : regexp := RAlt cidr4_pattern cidr6_pattern.

(** A text in which the pattern finds a CIDR. *)
Definition cidr_text (s : string) : bool := contains prefix_pattern s.

(** ** The kinds *)

Definition labels_schema : schema := SMap SString.

(** The members of [pipeline], which the operator never writes, are left out. *)
Definition packagevariant_schema : schema :=
  SObject
    [("adoptionPolicy", SString); ("annotations", labels_schema); ("deletionPolicy", SString);
     ("downstream", SObject [("package", SString); ("repo", SString)] []);
     ("injectors", SArray (SObject [("group", SString); ("kind", SString); ("name", SString);
                                    ("version", SString)] ["name"]));
     ("labels", labels_schema);
     ("packageContext", SObject [("data", labels_schema); ("removeKeys", SArray SString)] []);
     ("pipeline", SObject [] []);
     ("upstream", SObject [("package", SString); ("repo", SString); ("revision", SInteger);
                           ("workspaceName", SString)] [])] [].

Definition selector_schema : schema :=
  SObject
    [("matchExpressions", SArray (SObject [("key", SString); ("operator", SString);
                                           ("values", SArray SString)] ["key"; "operator"]));
     ("matchLabels", labels_schema)] [].

Definition reference_schema : schema :=
  SObject [("apiVersion", SString); ("fieldPath", SString); ("kind", SString); ("name", SString);
           ("namespace", SString); ("resourceVersion", SString); ("uid", SString)] [].

Definition ipclaim_schema : schema :=
  SObject
    [("addressFamily", SEnum ["ipv4"; "ipv6"]); ("createPrefix", SBoolean); ("index", SInteger);
     ("kind", SEnum ["network"; "loopback"; "pool"; "aggregate"]); ("labels", labels_schema);
     ("networkInstance", reference_schema); ("prefix", SPattern prefix_pattern);
     ("prefixLength", SInteger); ("selector", selector_schema)]
    ["kind"; "networkInstance"].

Definition networkinstance_schema : schema :=
  SObject
    [("prefixes", SArray (SObject [("labels", labels_schema); ("prefix", SPattern prefix_pattern)]
                            ["prefix"]))]
    ["prefixes"].

Definition vlanindex_schema : schema := SObject [("labels", labels_schema)] [].

(** The [spec] schema of the kinds the operator writes as unstructured objects. *)
Definition schema_of (g : GroupVersionKind) : option schema :=
  let named group kind := String.eqb (gvk_Group g) group && String.eqb (gvk_Version g) "v1alpha1"
                       && String.eqb (gvk_Kind g) kind in
  if named "config.porch.kpt.dev" "PackageVariant" then Some packagevariant_schema
  else if named "ipam.resource.nephio.org" "IPClaim" then Some ipclaim_schema
  else if named "ipam.resource.nephio.org" "NetworkInstance" then Some networkinstance_schema
  else if named "vlan.resource.nephio.org" "VLANIndex" then Some vlanindex_schema
  else None.

Example cidr4 : cidr_text "10.202.0.0/24" = true.
Proof. vm_compute. reflexivity. Qed.
Example cidr6 : cidr_text "2001:db8::/48" = true.
Proof. vm_compute. reflexivity. Qed.
Example no_length : cidr_text "10.202.0.0" = false.
Proof. vm_compute. reflexivity. Qed.
Example no_cidr : cidr_text "n3-pool" = false.
Proof. vm_compute. reflexivity. Qed.
