(* ===== verification/Schema.v ===== *)
(** * The schemas of the custom resources

    What the CustomResourceDefinitions require of an object.  For the kinds of api/v1alpha1
    (config/crd/bases): the enumerations of its spec, and of its status' conditions that type and
    reason match their patterns, that no text is too long and, where the list is marked
    [listType=map], that the types are keys.  For the unstructured children: the schemas of Crd.v.
    [enforced] is what an API server that enforces the schemas answers. *)

From S2P Require Import Prelude GoText Prog Api Effects Helpers Rely Pattern Crd.

(** ** Conditions *)

#[export] Instance ConditionStatus_eq_dec : EqDecision ConditionStatus.
Proof. solve_decision. Defined.

Definition short (n : Z) (s : string) : bool := Z.of_nat (length (runes s)) <=? n.

Definition reason_ok (s : string) : bool := short 1024 s && matches reason_pattern (bytes s).
Definition type_ok (s : string) : bool := short 316 s && matches type_pattern (bytes s).

Definition condition_ok (c : Condition) : bool :=
  type_ok (c_Type c) && reason_ok (c_Reason c) && (0 <=? c_ObservedGeneration c)
  && short 32768 (c_Message c).

(** The list is a map keyed by type. *)
Definition keyed (cs : list Condition) : bool := bool_decide (NoDup (c_Type <$> cs)).

(** ** Specs

    An empty field that is omitted when empty gets its default; the enumeration applies to
    what is present. *)

Definition omitted_or (values : list string) (s : string) : bool :=
  String.eqb s "" || bool_decide (s ∈ values).

Definition roles : list string := ["cp+upf"; "upf-only"].
Definition stacks : list string := ["ocudu"].
Definition splits : list string := ["8"; "7.2"].
Definition devices : list string := ["zmq"; "n310"; "b210"; "x310"].
Definition components : list string := ["controlplane"; "upf"; "ransim"; "subscribers"].

Definition ran_ok (r : option RANSpec) : bool :=
  match r with
  | None => true
  | Some r => omitted_or stacks (ran_Stack r) && omitted_or splits (ran_Split r)
              && omitted_or devices (ran_Device r)
  end.

(** [role] of an EdgeSite and [component] are always present. *)
Definition edge_site_ok (s : EdgeSiteSpec) : bool :=
  bool_decide (es_Role s ∈ roles) && ran_ok (es_RAN s).

Definition fleet_site_ok (s : FleetSite) : bool :=
  omitted_or roles (fs_Role s) && ran_ok (fs_RAN s).

(** Secrets, Nodes, Pods and Services have no schema here, and the spec of an NFDeployment, which
    the operator reads and never writes, is not checked; the conditions of an NFDeployment are
    metav1.Conditions like the others.  The specs of the remaining kinds of api/v1alpha1 have no
    constraint but their types and members that are always present. *)
Definition spec_ok {k : kind} : obj k → bool :=
  match k return obj k → bool with
  | KEdgeSite => λ o, edge_site_ok (es_spec o)
  | KFleet => λ o, forallb fleet_site_ok (fl_Sites o)
  | KSDCoreDeployment => λ o, bool_decide (sdc_Component (sdc_spec o) ∈ components)
  | KUnstructured g => λ o,
      match schema_of g with Some s => valid s (u_spec o) | None => true end
  | _ => λ _, true
  end.

Definition conditions {k : kind} : obj k → list Condition :=
  match k return obj k → list Condition with
  | KEdgeSite => λ o, ess_Conditions (es_status o)
  | KFleet => λ o, fls_Conditions (fl_status o)
  | KMeshLink => λ o, mls_Conditions (ml_status o)
  | KSubscriber => λ o, subs_Conditions (sub_status o)
  | KNetworkSlice => λ o, nss_Conditions (ns_status o)
  | KUPFDataPath => λ o, dps_Conditions (dp_status o)
  | KNetworkFabric => λ o, nfs_Conditions (nf_status o)
  | KSDCoreDeployment => λ o, sds_Conditions (sdc_status o)
  | KNFDeployment => λ o, nfd_Conditions o
  | _ => λ _, []
  end.

(** The kinds whose conditions are marked [listType=map] with key [type]. *)
Definition conditions_keyed (k : kind) : bool :=
  match k with
  | KEdgeSite | KMeshLink | KSubscriber | KNetworkSlice => true
  | KUPFDataPath | KNetworkFabric | KSDCoreDeployment => true
  | _ => false
  end.

(** [ok] is what is required of each condition. *)
Definition object_ok (ok : Condition → bool) {k : kind} (o : obj k) : bool :=
  (0 <=? Generation (meta o)) && spec_ok o &&
  (negb (conditions_keyed k) || keyed (conditions o)) && forallb ok (conditions o).

(** The object satisfies the schema of its kind. *)
Definition schema_ok {k : kind} (o : obj k) : bool := object_ok condition_ok o.

(** ** What the operator reports

    The status and reason of the condition each controller maintains. *)

Definition step_names : list string :=
  ["DeriveAddressing"; "ClusterPackageVariant"; "IPClaim/pod"; "IPClaim/access"; "IPClaim/core";
   "IPClaim/uepool"; "ControlPlanePackageVariant"; "N2Expose"; "CoreSliceAndSubscriber"; "RANgNB";
   "MultusPackageVariant"; "UPFPackageVariant"; "DatapathActuatorPackageVariant"; "MeshLink";
   "EdgeNetworkSlice"].

Definition wire_steps : list string :=
  ["edge client"; "control-plane client"; "clustermesh"; "amf-cp export"; "amf-cp consume";
   "N4 endpoint"].

Definition failed_step (name : string) : ConditionStatus * string :=
  (ConditionFalse, name +:+ "Failed").

Definition reports (k : kind) : list (ConditionStatus * string) :=
  match k with
  | KEdgeSite => (ConditionTrue, "Emitted") :: (failed_step <$> step_names)
  | KFleet => [(ConditionTrue, "Reconciled"); (ConditionFalse, "PartialFailure");
               (ConditionFalse, "Failed")]
  | KMeshLink => (ConditionTrue, "Wired") :: (failed_step <$> wire_steps)
  | KSubscriber | KNetworkSlice =>
      [(ConditionTrue, "Provisioned"); (ConditionFalse, "ProvisionFailed")]
  | KUPFDataPath => [(ConditionTrue, "Reconciled"); (ConditionFalse, "StepsFailed")]
  | KNetworkFabric => [(ConditionTrue, "Reconciled"); (ConditionFalse, "ReconcileFailed")]
  | KSDCoreDeployment => [(ConditionTrue, "Deployed"); (ConditionFalse, "Error")]
  | KNFDeployment => [(ConditionTrue, "Deployed")]
  | _ => []
  end.

Definition condition_type (k : kind) : string :=
  match k with KSDCoreDeployment => "Available" | _ => "Ready" end.

(** The reasons of [reports] the pattern of the schema refuses. *)
Definition refused_reasons (k : kind) : list string :=
  List.filter (λ r, negb (reason_ok r)) (reports k).*2.

Example refused_edge_site : refused_reasons KEdgeSite =
  ["IPClaim/podFailed"; "IPClaim/accessFailed"; "IPClaim/coreFailed"; "IPClaim/uepoolFailed"].
Proof. vm_compute. reflexivity. Qed.

Example refused_mesh_link : refused_reasons KMeshLink =
  ["edge clientFailed"; "control-plane clientFailed"; "amf-cp exportFailed";
   "amf-cp consumeFailed"; "N4 endpointFailed"].
Proof. vm_compute. reflexivity. Qed.

(** A condition the schema accepts, or the operator's own but for such a reason or the length of
    its message, which quotes errors of the environment. *)
Definition tolerated (k : kind) (c : Condition) : bool :=
  condition_ok c ||
  String.eqb (c_Type c) (condition_type k) && (0 <=? c_ObservedGeneration c) &&
  (reason_ok (c_Reason c) || bool_decide (c_Reason c ∈ refused_reasons k)).

(** [o] satisfies its schema, but for a refused reason or a long message of the operator's. *)
Definition nearly_ok {k : kind} (o : obj k) : bool := object_ok (tolerated k) o.

(** The operator's condition says one of the things the operator says. *)
Definition reported (k : kind) (o : obj k) : bool :=
  match find_condition (condition_type k) (conditions o) with
  | Some c => bool_decide ((c_Status c, c_Reason c) ∈ reports k)
  | None => false
  end.

(** ** Calls and answers *)

Definition returns_ok {k : kind} (r : result (obj k)) : Prop :=
  match r with Ok o => schema_ok o = true | Err _ => True end.

(** What is stored satisfies its schema, and a status is accepted only if it does. *)
Definition enforced (c : op Env) : ans Env c → Prop :=
  match c as c return answer c → Prop with
  | KGet k _ _ | KCreate k _ | KUpdate k _ => returns_ok
  | KStatusUpdate k o => λ r,
      returns_ok r ∧ (is_ok r = true → forallb condition_ok (conditions o) = true)
  | KList k _ _ | KSelect k _ _ => λ r,
      match r with Ok l => ∀ o, o ∈ l → schema_ok o = true | Err _ => True end
  | _ => λ _, True
  end.

(** ** Lemmas *)

Lemma object_ok_unfold ok {k : kind} (o : obj k) :
  object_ok ok o = true ↔
  0 ≤ Generation (meta o) ∧ spec_ok o = true ∧
  (conditions_keyed k = true → NoDup (c_Type <$> conditions o)) ∧
  ∀ c, c ∈ conditions o → ok c = true.
Proof.
  unfold object_ok, keyed. rewrite !andb_true_iff, Z.leb_le, forallb_forall.
  setoid_rewrite list_elem_of_In.
  destruct (conditions_keyed k); cbn; rewrite ?bool_decide_eq_true; naive_solver.
Qed.

Lemma condition_tolerated k c : condition_ok c = true → tolerated k c = true.
Proof. intros H. unfold tolerated. by rewrite H. Qed.

Lemma schema_nearly_ok {k : kind} (o : obj k) : schema_ok o = true → nearly_ok o = true.
Proof.
  unfold schema_ok, nearly_ok. rewrite !object_ok_unfold.
  intros (Hg & Hs & Hn & Hc). repeat (split; [done|]).
  intros c Hin. by apply condition_tolerated, Hc.
Qed.

(** An object whose metadata, spec and conditions are those of an accepted one. *)
Lemma object_ok_same ok {k : kind} (o o' : obj k) :
  Generation (meta o') = Generation (meta o) → spec_ok o' = spec_ok o →
  conditions o' = conditions o → object_ok ok o = true → object_ok ok o' = true.
Proof. unfold object_ok. by intros -> -> ->. Qed.

Section conditions.
Context {AM : Apimachinery} {AML : ApimachineryLaws}.

Lemma keyed_set cs c : NoDup (c_Type <$> cs) → NoDup (c_Type <$> SetStatusCondition cs c).
Proof.
  intros H. rewrite set_condition_types. destruct (decide _) as [|Hn]; [done|].
  apply NoDup_app. split; [done|]. split; [|apply NoDup_singleton].
  intros x Hx ->%list_elem_of_singleton. done.
Qed.

(** Setting a tolerated condition in an accepted object: what every status write does. *)
Lemma set_condition_nearly {k : kind} (o o' : obj k) c :
  schema_ok o = true →
  Generation (meta o') = Generation (meta o) → spec_ok o' = spec_ok o →
  conditions o' = SetStatusCondition (conditions o) c →
  c_Type c = condition_type k → (c_Status c, c_Reason c) ∈ reports k →
  0 ≤ c_ObservedGeneration c →
  nearly_ok o' = true ∧ reported k o' = true.
Proof.
  intros Ho Hg Hs Hc Ht Hr Hn. apply object_ok_unfold in Ho as (G & S & N & C). split.
  - apply object_ok_unfold. rewrite Hg, Hs, Hc. split; [done|]. split; [done|].
    split; [auto using keyed_set|]. intros d [->|Hd]%set_condition_from;
      [|by apply condition_tolerated, C].
    unfold tolerated. rewrite Ht, String.eqb_refl, (proj2 (Z.leb_le _ _)) by done.
    apply orb_true_iff. right. cbn [andb].
    destruct (reason_ok (c_Reason c)) eqn:E; [done|]. cbn [orb].
    apply bool_decide_eq_true. unfold refused_reasons.
    apply list_elem_of_In, filter_In. rewrite E. split; [|done].
    apply list_elem_of_In, list_elem_of_fmap. by exists (c_Status c, c_Reason c).
  - unfold reported. rewrite Hc, <- Ht, set_condition_this. by apply bool_decide_eq_true.
Qed.

(** An accepted status says something the schema does not refuse. *)
Lemma accepted_report {k : kind} (o : obj k) :
  reported k o = true → forallb condition_ok (conditions o) = true →
  ∃ c, find_condition (condition_type k) (conditions o) = Some c ∧
    (c_Status c, c_Reason c) ∈ reports k ∧ reason_ok (c_Reason c) = true.
Proof.
  unfold reported. destruct (find_condition _ _) as [c|] eqn:E; [|done].
  intros Hr%bool_decide_eq_true Hc. exists c. repeat (split; [done|]).
  apply find_first_Some in E as [Hin _].
  rewrite forallb_forall in Hc. specialize (Hc c (proj1 (list_elem_of_In _ _) Hin)).
  unfold condition_ok in Hc. by apply andb_true_iff in Hc as [[[_ ?]%andb_true_iff _]%andb_true_iff _].
Qed.
End conditions.
