(* ===== verification/Upsert.v ===== *)
(** * Create-or-update of a child object

    EdgeSiteReconciler.applyOwned and NetworkReconciler.ensure share one hand-written pattern:
    read the object, create it when it is missing, leave an unstructured object alone whose spec
    is the wanted one already, update it otherwise.  [upsert] is that pattern; [upsert_run] says
    what it does against a healthy API server and [upsert_settles] that an unstructured child,
    once accepted, is not written again. *)

From S2P Require Import Prelude GoText Prog Api Effects.

(** The live object needs no update: only decided for unstructured children. *)
Definition unchanged {k : kind} : obj k → obj k → bool :=
  match k return obj k → obj k → bool with
  | KUnstructured _ => λ want have, deep_equal (u_spec want) (u_spec have)
  | _ => λ _ _, false
  end.

Definition upsert {St} {k : kind} (o : obj k) : act Env St unit :=
  cur ← env (KGet k (Namespace (meta o)) (Name (meta o)));
  match cur with
  | Err e =>
      if IsNotFound e then _ ← env_ok (env (KCreate k o)); mret tt else throw e
  | Ok cur =>
      if unchanged o cur then mret tt
      else
        _ ← env_ok (env (KUpdate k
               (with_meta (set_ResourceVersion (ResourceVersion (meta cur)) (meta o)) o)));
        mret tt
  end.

(** What an upsert does, in full: the live object is read; a read that fails otherwise than with
    "not found" ends it; a missing object is created, one with the wanted spec left alone, any
    other updated at the version read; the error of the write is the error of the upsert. *)
Definition written {A} (answer : result A) : result unit := result_map (λ _, tt) answer.

Definition read_of {k : kind} (o : obj k) (r : result (obj k)) : event Env :=
  @Ev Env (KGet k (Namespace (meta o)) (Name (meta o))) r.

Inductive upserted {k : kind} (o : obj k) : list (event Env) → result unit → Prop :=
| upserted_unread e :
    IsNotFound e = false → upserted o [read_of o (Err e)] (Err e)
| upserted_create e (a : result (obj k)) :
    IsNotFound e = true →
    upserted o [read_of o (Err e); @Ev Env (KCreate k o) a] (written a)
| upserted_keep cur :
    unchanged o cur = true → upserted o [read_of o (Ok cur)] (Ok tt)
| upserted_update cur (a : result (obj k)) :
    unchanged o cur = false →
    upserted o [read_of o (Ok cur);
                @Ev Env (KUpdate k (with_meta (set_ResourceVersion (ResourceVersion (meta cur))
                                                 (meta o)) o)) a] (written a).

Lemma upsert_upserted {St} {k : kind} (o : obj k) (s : St) :
  spec (upsert o) s (λ t s' r, s' = s ∧ upserted o t r).
Proof.
  unfold upsert, env_ok, env. step_spec. step_spec. cbn beta iota.
  match goal with r : ans Env _ |- _ => destruct r as [cur|e] end.
  - destruct (unchanged o cur) eqn:U; [by split; [|apply upserted_keep]|].
    walk; (split; [done|]).
    + by apply (upserted_update o cur (Ok _)).
    + by apply (upserted_update o cur (Err _)).
  - destruct (IsNotFound e) eqn:N; walk; (split; [done|]).
    + by apply (upserted_create o e (Ok _)).
    + by apply (upserted_create o e (Err _)).
    + by apply upserted_unread.
Qed.

(** An unstructured object of a kind, with its namespace, name and spec set. *)
Definition new_unstructured (gvk : GroupVersionKind) (ns name : string) (spec : json) :
    Unstructured :=
  {| u_gvk := gvk; u_meta := new_meta ns name; u_spec := spec |}.

(** ** Structural equality *)

(** No object has two members of one name. *)
Fixpoint wf_json (j : json) : Prop :=
  match j with
  | JArr l => (fix all l := match l with [] => True | x :: r => wf_json x ∧ all r end) l
  | JObj l =>
      NoDup l.*1 ∧
      (fix all (l : list (string * json)) :=
         match l with [] => True | (_, x) :: r => wf_json x ∧ all r end) l
  | _ => True
  end.

Lemma assoc_here l k v : NoDup l.*1 → (k, v) ∈ l → assoc k l = Some v.
Proof.
  induction l as [|[k' v'] l IH]; intros Hd Hin; [by apply elem_of_nil in Hin|].
  apply NoDup_cons in Hd as [Hk Hd]. cbn [assoc].
  apply elem_of_cons in Hin as [[= -> ->]|Hin]; [by rewrite String.eqb_refl|].
  destruct (String.eqb_spec k k') as [->|]; [|by apply IH].
  exfalso. apply Hk. apply list_elem_of_fmap. by exists (k', v).
Qed.

Lemma json_nested_ind (P : json → Prop) :
  (∀ s, P (JStr s)) → (∀ z, P (JInt z)) → (∀ b, P (JBool b)) →
  (∀ l, Forall P l → P (JArr l)) → (∀ l, Forall (λ kv, P kv.2) l → P (JObj l)) →
  ∀ j, P j.
Proof.
  intros Hs Hz Hb Ha Ho. fix IH 1. intros [s|z|b|l|l]; [apply Hs|apply Hz|apply Hb| |].
  - apply Ha. induction l as [|x l IHl]; constructor; [apply IH | exact IHl].
  - apply Ho. induction l as [|[k x] l IHl]; constructor; [apply IH | exact IHl].
Qed.

Lemma deep_equal_refl j : wf_json j → deep_equal j j = true.
Proof.
  induction j as [s|z|b|l IH|l IH] using json_nested_ind; intros H; cbn [deep_equal].
  - apply String.eqb_refl.
  - apply Z.eqb_refl.
  - by destruct b.
  - induction IH as [|x l Hx _ IHl]; [done|]. destruct H as [H1 H2].
    by rewrite Hx, IHl.
  - destruct H as [Hd H]. rewrite Nat.eqb_refl. cbn [andb].
    assert (∀ kv, kv ∈ l → assoc kv.1 l = Some kv.2) as Hin.
    { intros [k v] Hkv. by apply assoc_here. }
    clear Hd. revert H Hin. generalize l at 3 4 as full. intros full.
    induction IH as [|[k x] l Hx _ IHl]; intros H Hin; [done|]. destruct H as [H1 H2].
    pose proof (Hin (k, x) ltac:(left)) as E. cbn in E. rewrite E. cbn in Hx. rewrite Hx by done.
    apply IHl; [done|]. intros kv Hkv. apply Hin. by right.
Qed.

(** ** upsert against a healthy API server *)

Lemma meta_with_meta {k : kind} m (o : obj k) : meta (with_meta m o) = m.
Proof. by destruct k. Qed.

Lemma spec_with_meta {k : kind} m (o : obj k) : spec_part (with_meta m o) = spec_part o.
Proof. by destruct k. Qed.

(** The resource version is the server's to assign: it plays no part in acceptance. *)
Lemma accepted_resource_version {k : kind} v (o o' : obj k) :
  accepted (with_meta (set_ResourceVersion v (meta o)) o) o' → accepted o o'.
Proof.
  unfold accepted. rewrite meta_with_meta, spec_with_meta. cbn. done.
Qed.

Section healthy.
Context {W : Type} (h : handler Env W) {server : ApiServer h} {St : Type}.
Implicit Types (s : St) (w : W).

(** The object at the key of [o], in a world. *)
Definition live {k : kind} (w : W) (o : obj k) : option (obj k) :=
  stored w k (Namespace (meta o)) (Name (meta o)).

(** The server stored [o]: its contents, labels and owner. *)
Definition stored_anew {k : kind} (o : obj k) (w' : W) : Prop :=
  ∃ o', live w' o = Some o' ∧ accepted o o'.

(** [o] is in place: what the server held is there still when it had the wanted spec, and
    otherwise [o] was stored. *)
Definition in_place {k : kind} (o : obj k) (w w' : W) : Prop :=
  match live w o with
  | Some cur => if unchanged o cur then live w' o = Some cur else stored_anew o w'
  | None => stored_anew o w'
  end.

Definition others_kept {k : kind} (o : obj k) (w w' : W) : Prop :=
  ∀ k' ns name, (k', ns, name) ≠ (k, Namespace (meta o), Name (meta o)) →
    stored w' k' ns name = stored w k' ns name.

(** No object that is being deleted is in the way. *)
Definition free_of_deletion {k : kind} (o : obj k) (w : W) : Prop :=
  ∀ cur, live w o = Some cur → DeletionTimestamp (meta cur) = None.

(** The cases of a run, by what is stored. *)
Lemma upsert_run {k : kind} (o : obj k) s w :
  free_of_deletion o w →
  let p := upsert o s in
  run_value h p w = (s, Ok tt) ∧
  match live w o with
  | Some cur =>
      if unchanged o cur
      then run_world h p w = w ∧ writes (run_trace h p w) = []
      else stored_anew o (run_world h p w) ∧ others_kept o w (run_world h p w)
  | None => stored_anew o (run_world h p w) ∧ others_kept o w (run_world h p w)
  end.
Proof.
  intros Hdel. unfold free_of_deletion, stored_anew, live in *.
  unfold run_value, run_world, run_trace, upsert, env_ok, env, call, of_result, mbind,
    act_mbind, mret, act_mret, throw.
  cbn -[unchanged meta].
  destruct (stored w k (Namespace (meta o)) (Name (meta o))) as [cur|] eqn:E.
  - rewrite (get_found w _ _ _ _ E). cbn -[unchanged meta].
    destruct (unchanged o cur) eqn:U; cbn -[unchanged meta]; [done|].
    set (o2 := with_meta (set_ResourceVersion (ResourceVersion (meta cur)) (meta o)) o).
    assert (meta o2 = set_ResourceVersion (ResourceVersion (meta cur)) (meta o))
      as Em by apply meta_with_meta.
    destruct (update_stores w k o2 cur) as (o' & w' & Ho & Hacc & Hput).
    { by rewrite Em. }
    { by apply Hdel. }
    { by rewrite Em. }
    rewrite Ho. cbn -[unchanged meta]. rewrite Em in Hput. cbn in Hput.
    destruct Hput as [Hput Hkept].
    split; [done|]. split; [|done]. exists o'. split; [done|].
    by eapply accepted_resource_version.
  - destruct (get_missing w _ _ _ E) as (e & He & Hnf). rewrite He. cbn -[unchanged meta].
    rewrite Hnf. cbn -[unchanged meta].
    destruct (create_stores w k o) as (o' & w' & Ho & Hacc & Hput); [done|].
    rewrite Ho. cbn -[unchanged meta].
    destruct Hput as [Hput Hkept]. split; [done|]. split; [|done]. by exists o'.
Qed.

(** In every case the object ends up in place, and nothing else moves. *)
Lemma upsert_places {k : kind} (o : obj k) s w :
  free_of_deletion o w →
  let p := upsert o s in
  run_value h p w = (s, Ok tt) ∧
  in_place o w (run_world h p w) ∧ others_kept o w (run_world h p w).
Proof.
  intros Hdel p. destruct (upsert_run o s w Hdel) as [Hv Hw]. fold p in Hv, Hw.
  split; [done|]. unfold in_place. destruct (live w o) as [cur|] eqn:E; [|done].
  destruct (unchanged o cur) eqn:U; [|done]. by destruct Hw as [-> _].
Qed.

Lemma in_place_same {k : kind} (o : obj k) w w1 w2 :
  live w2 o = live w1 o → in_place o w w1 → in_place o w w2.
Proof. intros E. unfold in_place, stored_anew. by rewrite E. Qed.

(** What is in place is not being deleted. *)
Lemma in_place_alive {k : kind} (o : obj k) w w' :
  free_of_deletion o w → in_place o w w' → free_of_deletion o w'.
Proof.
  intros Hd Hp o' Ho'. unfold in_place in Hp.
  assert (stored_anew o w' → DeletionTimestamp (meta o') = None) as Hs.
  { intros (o2 & E & Ha). simplify_eq. apply Ha. }
  destruct (live w o) as [cur|] eqn:E; [|by apply Hs].
  destruct (unchanged o cur); [|by apply Hs]. simplify_eq. by apply Hd.
Qed.

(** An unstructured child that was accepted is recognised. *)
Lemma accepted_recognised gvk (o o' : obj (KUnstructured gvk)) :
  wf_json (u_spec o) → accepted o o' →
  unchanged o o' = true ∧ DeletionTimestamp (meta o') = None.
Proof.
  intros Hwf Hacc. split; [|apply Hacc]. destruct Hacc as [Hs _]. cbn in Hs |- *. rewrite Hs.
  by apply deep_equal_refl.
Qed.

Lemma in_place_recognised gvk (o : obj (KUnstructured gvk)) w w' :
  wf_json (u_spec o) → free_of_deletion o w → in_place o w w' →
  ∃ cur, live w' o = Some cur ∧ unchanged o cur = true ∧ DeletionTimestamp (meta cur) = None.
Proof.
  intros Hwf Hdel Hp.
  enough (∃ cur, live w' o = Some cur ∧ unchanged o cur = true) as (cur & Hl & Hu).
  { exists cur. repeat split; [done|done|]. exact (in_place_alive o w w' Hdel Hp cur Hl). }
  assert (stored_anew o w' → ∃ cur, live w' o = Some cur ∧ unchanged o cur = true) as Hs.
  { intros (o' & E & Ha). exists o'. split; [done|]. by apply accepted_recognised. }
  unfold in_place in Hp. destruct (live w o) as [cur|]; [|by apply Hs].
  destruct (unchanged o cur) eqn:U; [|by apply Hs]. by exists cur.
Qed.

(** A child in place is left alone. *)
Lemma upsert_idle {k : kind} (o cur : obj k) s w :
  live w o = Some cur → unchanged o cur = true → DeletionTimestamp (meta cur) = None →
  let p := upsert o s in
  run_value h p w = (s, Ok tt) ∧ run_world h p w = w ∧ writes (run_trace h p w) = [].
Proof.
  intros Hl U Hd p. destruct (upsert_run o s w) as [Hv Hw].
  { intros c Hc. by simplify_eq. }
  fold p in Hv, Hw. rewrite Hl, U in Hw. by destruct Hw.
Qed.

Lemma upsert_settles gvk (o : obj (KUnstructured gvk)) s w :
  wf_json (u_spec o) → free_of_deletion o w →
  let p := upsert o s in
  let w1 := run_world h p w in
  run_value h p w = (s, Ok tt) ∧ run_value h p w1 = (s, Ok tt) ∧
  run_world h p w1 = w1 ∧ writes (run_trace h p w1) = [].
Proof.
  intros Hwf Hdel p w1. destruct (upsert_places o s w Hdel) as (Hv & Hp & _).
  destruct (in_place_recognised gvk o w w1 Hwf Hdel Hp) as (cur & Hl & U & Hd).
  destruct (upsert_idle o cur s w1 Hl U Hd) as (? & ? & ?). done.
Qed.
End healthy.
