(* ===== verification/Charts.v ===== *)
(** * Charts and Helm releases

    What SDCoreDeploymentReconciler and NFDeploymentReconciler share
    (sdcoredeployment_controller.go): the charts embedded in the binary, loadChart, which walks
    the directory of a component and hands its files to Helm, and the requests a release is
    installed or upgraded with. *)

From S2P Require Import Prelude GoText Net Host Prog Api Effects Helpers.

(** A tree of the embedded file system; ReadDir returns the entries in this order. *)
#[warnings="-register-all"]
Inductive dirent :=
| File (data : string)
| Dir (entries : list (string * dirent)).

(** The content of the embed.FS and the two third-party functions the controllers call. *)
Class Helm := {
  chartsFS : dirent;
  LoadFiles : list (string * string) → result chart;
  YamlUnmarshal : string → result json;
}.

(** ** Paths *)

Definition find_entry (name : string) (es : list (string * dirent)) : option dirent :=
  snd <$> find_first (λ e, String.eqb e.1 name) es.

Fixpoint stat (d : dirent) (path : list string) : option dirent :=
  match path with
  | [] => Some d
  | n :: rest =>
      match d with
      | File _ => None
      | Dir es => match find_entry n es with Some e => stat e rest | None => None end
      end
  end.

(** The files fs.WalkDir visits below [path], in order, each with its content. *)
Fixpoint walk_dir (path : string) (d : dirent) : list (string * string) :=
  match d with
  | File data => [(path, data)]
  | Dir es =>
      (fix go (es : list (string * dirent)) : list (string * string) :=
         match es with
         | [] => []
         | (n, e) :: r => (walk_dir (path +:+ "/" +:+ n) e ++ go r)%list
         end) es
  end.

(** [filepath.Rel(dir, path)] for a path at or below [dir]. *)
Definition rel (dir path : string) : string :=
  if String.eqb path dir then "." else TrimPrefix path (dir +:+ "/").

(** ** loadChart *)

Definition componentToChart : gmap string string :=
  list_to_map [("controlplane", "charts/controlplane"); ("upf", "charts/upf");
               ("ransim", "charts/ransim"); ("subscribers", "charts/subscribers")].

(** The files of a chart, named relative to its root. *)
Definition chart_files (dir : string) (d : dirent) : list (string * string) :=
  (λ f, (rel dir f.1, f.2)) <$> walk_dir dir d.

Section load.
Context {H : Helm}.

Definition loadChart (component : string) : result chart :=
  match componentToChart !! component with
  | None => Err (errorf (Sprintf "unknown component %q" [FStr component]))
  | Some dir =>
      match stat chartsFS (Split dir (chr 47)) with
      | None => Err (errorf ("open " +:+ dir +:+ ": file does not exist"))
      | Some d =>
          let files := chart_files dir d in
          if bool_decide (files = []) then
            Err (errorf (Sprintf "no files found under %q (chart not embedded?)" [FStr dir]))
          else LoadFiles files
      end
  end.
End load.

(** ** Releases *)

Definition newRESTClientGetter (cfg : rest_config) (ns : string) : restClientGetter :=
  {| rcg_restConfig := cfg; rcg_namespace := ns |}.

(** What the getter's call-backs build: client-go's discovery client, its cache in memory, the
    mapper over it and the kubeconfig loader, none of which connects before it is used. *)
Class ClientGo := {
  DiscoveryClient : Type;
  CachedDiscovery : Type;
  RESTMapper : Type;
  ClientConfig : Type;
  NewDiscoveryClientForConfig : rest_config → result DiscoveryClient;
  NewMemCacheClient : DiscoveryClient → CachedDiscovery;
  NewDeferredDiscoveryRESTMapper : CachedDiscovery → RESTMapper;
  NewDefaultClientConfig : string → ClientConfig;   (* an empty kubeconfig, this namespace *)
}.

Section getter.
Context {CG : ClientGo}.

Definition ToRESTConfig (g : restClientGetter) : result rest_config := Ok (rcg_restConfig g).

Definition ToDiscoveryClient (g : restClientGetter) : result CachedDiscovery :=
  match NewDiscoveryClientForConfig (rcg_restConfig g) with
  | Ok dc => Ok (NewMemCacheClient dc)
  | Err e => Err e
  end.

Definition ToRESTMapper (g : restClientGetter) : result RESTMapper :=
  match ToDiscoveryClient g with
  | Ok dc => Ok (NewDeferredDiscoveryRESTMapper dc)
  | Err e => Err e
  end.

Definition ToRawKubeConfigLoader (g : restClientGetter) : ClientConfig :=
  NewDefaultClientConfig (rcg_namespace g).

(** Helm's four views of one getter agree on the cluster and the namespace it was made for. *)
Theorem getter_views cfg ns :
  let g := newRESTClientGetter cfg ns in
  ToRESTConfig g = Ok cfg ∧ ToRawKubeConfigLoader g = NewDefaultClientConfig ns ∧
  match NewDiscoveryClientForConfig cfg with
  | Ok dc => ToDiscoveryClient g = Ok (NewMemCacheClient dc) ∧
             ToRESTMapper g = Ok (NewDeferredDiscoveryRESTMapper (NewMemCacheClient dc))
  | Err e => ToDiscoveryClient g = Err e ∧ ToRESTMapper g = Err e
  end.
Proof.
  cbv zeta. split; [done|]. split; [done|]. unfold ToRESTMapper, ToDiscoveryClient. cbn.
  by destruct (NewDiscoveryClientForConfig cfg).
Qed.
End getter.

Definition install_timeout : Z := 5 * 60 * Second.

Definition install_of (release ns : string) (ch : chart) (values : json) : install_request :=
  {| in_ReleaseName := release; in_Namespace := ns; in_CreateNamespace := true;
     in_Timeout := install_timeout; in_Chart := ch; in_Values := values |}.

Definition upgrade_of (release ns : string) (ch : chart) (values : json) : upgrade_request :=
  {| up_Release := release; up_Namespace := ns; up_Timeout := install_timeout; up_Chart := ch;
     up_Values := values |}.

(** ** What a trace did to the releases *)

Inductive release_act :=
| Installed (rq : install_request)
| Upgraded (rq : upgrade_request).

(** A release action with its answer: the revision or the error. *)
Definition release_of (e : event Env) : option (release_act * result Z) :=
  match e with
  | Ev c r =>
      match c return answer c → option (release_act * result Z) with
      | HelmInstall _ rq => λ r, Some (Installed rq, r)
      | HelmUpgrade _ rq => λ r, Some (Upgraded rq, r)
      | _ => λ _, None
      end r
  end.
Definition releases (t : list (event Env)) := omap release_of t.

Definition history_of (e : event Env) : option history :=
  match e with
  | Ev c r =>
      match c return answer c → option history with
      | HelmHistory _ _ _ => λ r, Some r
      | _ => λ _, None
      end r
  end.
Definition histories (t : list (event Env)) := omap history_of t.

Lemma releases_app t1 t2 : releases (t1 ++ t2)%list = (releases t1 ++ releases t2)%list.
Proof. apply omap_app. Qed.
Lemma histories_app t1 t2 : histories (t1 ++ t2)%list = (histories t1 ++ histories t2)%list.
Proof. apply omap_app. Qed.

(** ** Properties of loadChart *)

(** The tree holds a file with this content at this path. *)
Inductive file_at : dirent → list string → string → Prop :=
| file_here data : file_at (File data) [] data
| file_below es n e path data :
    (n, e) ∈ es → file_at e path data → file_at (Dir es) (n :: path) data.

(** A path relative to the root of the walk, as the walk names it. *)
Definition below (root : string) (path : list string) : string :=
  foldl (λ p n, p +:+ "/" +:+ n) root path.

Lemma below_cons root n path : below root (n :: path) = root +:+ "/" +:+ Join (n :: path) "/".
Proof.
  revert root n. induction path as [|m path IH]; intros root n; [done|].
  change (below root (n :: m :: path)) with (below (root +:+ "/" +:+ n) (m :: path)).
  rewrite IH. cbn [Join]. by rewrite !string_app_assoc.
Qed.

Lemma dirent_nested_ind (P : dirent → Prop) :
  (∀ data, P (File data)) → (∀ es, Forall (λ e, P e.2) es → P (Dir es)) → ∀ d, P d.
Proof.
  intros HF HD. fix IH 1. intros [data|es]; [apply HF|]. apply HD.
  induction es as [|[n e] es IHl]; constructor; [apply IH | apply IHl].
Qed.

Lemma walk_dir_entries root es :
  walk_dir root (Dir es) = mjoin ((λ e, walk_dir (root +:+ "/" +:+ e.1) e.2) <$> es).
Proof. induction es as [|[n e] es IH]; [done|]. cbn. f_equal. exact IH. Qed.

(** The walk finds exactly the files of the tree. *)
Lemma walk_dir_spec d : ∀ root name data,
  (name, data) ∈ walk_dir root d ↔ ∃ path, file_at d path data ∧ name = below root path.
Proof.
  induction d as [data'|es IH] using dirent_nested_ind; intros root name data.
  - cbn. rewrite list_elem_of_singleton. split.
    + intros [= -> ->]. exists []. split; [constructor | done].
    + intros (path & Hf & ->). by inversion Hf; subst.
  - rewrite walk_dir_entries, list_elem_of_join. setoid_rewrite list_elem_of_fmap. split.
    + intros (l & Hin & ([n e] & -> & He)). rewrite Forall_forall in IH.
      apply (IH _ He) in Hin as (path & Hf & ->). exists (n :: path).
      split; [by econstructor | done].
    + intros (path & Hf & ->). inversion Hf as [|es' n e path' data' He Hf']; subst.
      eexists. split; [|by exists (n, e)]. rewrite Forall_forall in IH.
      apply (IH _ He). by exists path'.
Qed.

Lemma rel_below dir path :
  rel dir (below dir path) = match path with [] => "." | _ => Join path "/" end.
Proof.
  destruct path as [|n path]; [unfold rel; cbn; by rewrite String.eqb_refl|].
  rewrite below_cons. unfold rel. destruct (String.eqb_spec (dir +:+ "/" +:+ Join (n :: path) "/") dir) as [E|_].
  - apply (f_equal String.length) in E. rewrite string_length_app in E. cbn in E. lia.
  - unfold TrimPrefix. rewrite <-string_app_assoc, HasPrefix_app. apply drop_bytes_app.
Qed.

Section loaded.
Context {H : Helm}.

(** C37: A chart is loaded from exactly its own files.  What loadChart hands to Helm are the files of
    the embedded directory of the component, each under its path relative to the chart's root and
    with its content; a component outside the table, a missing
    directory and an empty one are errors. *)
Theorem loadChart_exact component ch :
  loadChart component = Ok ch →
  ∃ dir d files,
    componentToChart !! component = Some dir ∧ stat chartsFS (Split dir (chr 47)) = Some d ∧
    LoadFiles files = Ok ch ∧ files ≠ [] ∧
    ∀ name data, (name, data) ∈ files ↔
      ∃ path, file_at d path data ∧ name = match path with [] => "." | _ => Join path "/" end.
Proof.
  unfold loadChart. destruct (componentToChart !! component) as [dir|]; [|done].
  destruct (stat chartsFS _) as [d|] eqn:Es; [|done]. case_bool_decide as Hf; [done|]. intros Hl.
  exists dir, d, (chart_files dir d). do 4 (split; [done|]). intros name data.
  unfold chart_files. rewrite list_elem_of_fmap. split.
  - intros ([p x] & [= -> ->] & Hin). cbn. apply walk_dir_spec in Hin as (path & Hp & ->).
    exists path. split; [done|]. apply rel_below.
  - intros (path & Hp & ->). exists (below dir path, data). cbn. rewrite rel_below.
    split; [done|]. apply walk_dir_spec. exists path. done.
Qed.
End loaded.

(** ** A concrete binary *)

(** Two charts of one and two files; Helm rejects a chart without a Chart.yaml. *)
Definition lab_charts : Helm :=
  {| chartsFS :=
       Dir [("charts",
         Dir [("controlplane", Dir [("values.yaml", File "mongo: true")]);
              ("upf", Dir [("Chart.yaml", File "name: upf");
                           ("templates", Dir [("service.yaml", File "kind: Service")])])])];
     LoadFiles files :=
       if existsb (λ f, String.eqb f.1 "Chart.yaml") files then Ok (Chart (length files))
       else Err (errorf "Chart.yaml file is missing");
     YamlUnmarshal s :=
       if String.eqb s "" then Err (errorf "yaml") else Ok (JObj [("raw", JStr s)]) |}.

Lemma loadChart_exact_witness :
  loadChart (H := lab_charts) "upf" = Ok (Chart 2) ∧
  ∃ dir d files,
    componentToChart !! "upf" = Some dir ∧
    stat (chartsFS (Helm := lab_charts)) (Split dir (chr 47)) = Some d ∧
    LoadFiles (Helm := lab_charts) files = Ok (Chart 2) ∧ files ≠ [] ∧
    ∀ name data, (name, data) ∈ files ↔
      ∃ path, file_at d path data ∧ name = match path with [] => "." | _ => Join path "/" end.
Proof.
  assert (loadChart (H := lab_charts) "upf" = Ok (Chart 2)) as E by reflexivity.
  split; [exact E | exact (loadChart_exact (H := lab_charts) "upf" (Chart 2) E)].
Defined.
