(* ===== verification/SDCore.v ===== *)
(** * SDCoreDeployment: a chart per custom resource

    SDCoreDeploymentReconciler (sdcoredeployment_controller.go) installs or upgrades the Helm
    release of one component.  [deploy_release] is Reconcile up to the success report, its errors
    carry the message the code hands to fail; [reconcile_sdcore] is Reconcile after the object
    was read.  The debug lines Helm prints through its callback are not part of the model. *)

From S2P Require Import Prelude GoText Net Host Prog Api Effects Helpers Charts.

Definition target_namespace (cr : SDCoreDeployment) : string :=
  if String.eqb (sdc_TargetNamespace (sdc_spec cr)) "" then Namespace (sdc_meta cr)
  else sdc_TargetNamespace (sdc_spec cr).

Section sdcore.
Context {AM : Apimachinery} {H : Helm}.

(** The Helm values: nothing, or the YAML of the extension. *)
Definition chart_values (s : SDCoreDeploymentSpec) : result json :=
  match sdc_Values s with
  | Some raw => if String.eqb raw "" then Ok (JObj []) else YamlUnmarshal raw
  | None => Ok (JObj [])
  end.

Definition deploy_release (cfg : rest_config) : act Env SDCoreDeployment Z :=
  cr ← get;
  let ns := target_namespace cr in
  let relName := Name (sdc_meta cr) in
  ch ← wrap "load chart: " (of_result (loadChart (sdc_Component (sdc_spec cr))));
  vals ← wrap "parse values: " (of_result (chart_values (sdc_spec cr)));
  hc ← wrap "helm init: " (env_ok (env (HelmInit (newRESTClientGetter cfg ns) ns "secret")));
  hist ← env (HelmHistory hc 1 relName);
  match hist with
  | ReleaseNotFound =>
      rev ← wrap "helm install: " (env_ok (env (HelmInstall hc (install_of relName ns ch vals))));
      _ ← env (LogInfo "installed release" [("name", relName); ("revision", Itoa rev)]);
      mret rev
  | HistoryError e => throw (wrapf "helm history: " e)
  | ReleaseFound =>
      rev ← wrap "helm upgrade: " (env_ok (env (HelmUpgrade hc (upgrade_of relName ns ch vals))));
      _ ← env (LogInfo "upgraded release" [("name", relName); ("revision", Itoa rev)]);
      mret rev
  end.

Definition failed_sdcore (msg : string) (cr : SDCoreDeployment) : SDCoreDeployment :=
  set_sdc_status
    {| sds_Phase := "Failed"; sds_Message := msg;
       sds_ReleaseRevision := sds_ReleaseRevision (sdc_status cr);
       sds_ObservedGeneration := Generation (sdc_meta cr);
       sds_Conditions := SetStatusCondition (sds_Conditions (sdc_status cr))
         {| c_Type := "Available"; c_Status := ConditionFalse; c_Reason := "Error";
            c_Message := msg; c_ObservedGeneration := 0 |} |} cr.

(** The log line gets [fmt.Errorf(msg)]: the message as a format. *)
Definition sdcore_fail (msg : string) : act Env SDCoreDeployment Result :=
  _ ← env (LogError (errorf (format0 msg)) "reconcile failed" []);
  _ ← modify (failed_sdcore msg);
  cr ← get;
  r ← env (KStatusUpdate KSDCoreDeployment cr);
  _ ← match r with Ok cr' => modify (λ _, cr') | Err _ => mret tt end;
  mret {| RequeueAfter := 30 * Second |}.

Definition deployed_message (revision : Z) (cr : SDCoreDeployment) : string :=
  Sprintf "helm release %q revision %d applied to %q"
    [FStr (Name (sdc_meta cr)); FInt revision; FStr (target_namespace cr)].

Definition deployed_sdcore (revision : Z) (cr : SDCoreDeployment) : SDCoreDeployment :=
  set_sdc_status
    {| sds_Phase := "Deployed"; sds_Message := deployed_message revision cr;
       sds_ReleaseRevision := revision;
       sds_ObservedGeneration := Generation (sdc_meta cr);
       sds_Conditions := SetStatusCondition (sds_Conditions (sdc_status cr))
         {| c_Type := "Available"; c_Status := ConditionTrue; c_Reason := "Deployed";
            c_Message := deployed_message revision cr; c_ObservedGeneration := 0 |} |} cr.

Definition sdcore_done (revision : Z) : act Env SDCoreDeployment Result :=
  _ ← modify (deployed_sdcore revision);
  cr ← get;
  cr' ← env_ok (env (KStatusUpdate KSDCoreDeployment cr));
  _ ← modify (λ _, cr');
  mret no_requeue.

Definition reconcile_sdcore (cfg : rest_config) : act Env SDCoreDeployment Result :=
  r ← try (deploy_release cfg);
  match r with
  | Ok rev => sdcore_done rev
  | Err e => sdcore_fail (err_msg e)
  end.

Definition Reconcile (cfg : rest_config) (ns name : string) : prog Env (result Result) :=
  Call (S := Env) (KGet KSDCoreDeployment ns name) (λ ans,
    match ans with
    | Err e => Ret (match IgnoreNotFound e with None => Ok no_requeue | Some e => Err e end)
    | Ok cr => x ← reconcile_sdcore cfg cr; mret x.2
    end).

(** ** Properties *)

(** The chart and the values of a release. *)
Definition release_plan (cr : SDCoreDeployment) (hist : history) (a : release_act) : Prop :=
  ∃ ch vals,
    loadChart (sdc_Component (sdc_spec cr)) = Ok ch ∧ chart_values (sdc_spec cr) = Ok vals ∧
    match hist with
    | ReleaseNotFound => a = Installed (install_of (Name (sdc_meta cr)) (target_namespace cr) ch vals)
    | ReleaseFound => a = Upgraded (upgrade_of (Name (sdc_meta cr)) (target_namespace cr) ch vals)
    | HistoryError _ => False
    end.

(** Why nothing was asked of Helm: no chart, no values, no connection, or no history. *)
Definition undeployed (cfg : rest_config) (cr : SDCoreDeployment) (t : list (event Env))
    (e : error) : Prop :=
  let getter := newRESTClientGetter cfg (target_namespace cr) in
  match histories t with
  | [] =>
      (∃ e', loadChart (sdc_Component (sdc_spec cr)) = Err e' ∧ e = wrapf "load chart: " e') ∨
      (∃ e', chart_values (sdc_spec cr) = Err e' ∧ e = wrapf "parse values: " e') ∨
      ∃ e', @Ev Env (HelmInit getter (target_namespace cr) "secret") (Err e') ∈ t ∧
            e = wrapf "helm init: " e'
  | h => ∃ e', h = [HistoryError e'] ∧ e = wrapf "helm history: " e'
  end.

(** The prefix of the error of a release that Helm refused. *)
Definition release_prefix (a : release_act) : string :=
  match a with Installed _ => "helm install: " | Upgraded _ => "helm upgrade: " end.

Lemma deploy_release_spec cfg cr :
  spec (deploy_release cfg) cr (λ t cr' r,
    cr' = cr ∧ statuses t = [] ∧
    match r with
    | Ok rev => ∃ hist a, histories t = [hist] ∧ releases t = [(a, Ok rev)] ∧ release_plan cr hist a
    | Err e =>
        (releases t = [] ∧ undeployed cfg cr t e) ∨
        ∃ hist a e', histories t = [hist] ∧ releases t = [(a, Err e')] ∧
          release_plan cr hist a ∧ e = wrapf (release_prefix a) e'
    end).
Proof.
  unfold deploy_release, env_ok, env. apply spec_bind, spec_get. cbn beta zeta.
  apply spec_bind, spec_wrap, spec_of_result. destruct (loadChart _) as [ch|e] eqn:Hch.
  2: { split_and!; try done. left. split; [done|]. left. by exists e. }
  apply spec_bind, spec_wrap, spec_of_result. destruct (chart_values _) as [vals|e] eqn:Hv.
  2: { split_and!; try done. left. split; [done|]. right. left. by exists e. }
  assert (∀ hist a, match hist with
    | ReleaseNotFound => a = Installed (install_of (Name (sdc_meta cr)) (target_namespace cr) ch vals)
    | ReleaseFound => a = Upgraded (upgrade_of (Name (sdc_meta cr)) (target_namespace cr) ch vals)
    | HistoryError _ => False
    end → release_plan cr hist a) as Hplan by (intros hist a Ha; exists ch, vals; done).
  walk; (split; [done|]; split; [done|]);
    cbn [releases histories omap list_omap release_of history_of app].
  - do 2 eexists. split; [done|]. split; [done|]. by apply Hplan.
  - right. do 3 eexists. split; [done|]. split; [done|]. split; [by apply Hplan|done].
  - do 2 eexists. split; [done|]. split; [done|]. by apply Hplan.
  - right. do 3 eexists. split; [done|]. split; [done|]. split; [by apply Hplan|done].
  - left. split; [done|]. by eexists.
  - left. split; [done|]. right. right. subst. eexists. split; [left|done].
Qed.

(** The failure path: a log line and the status, whatever becomes of it. *)
Lemma sdcore_fail_reports msg cr :
  spec (sdcore_fail msg) cr (λ t _ res, ∃ a,
    t = [@Ev Env (LogError (errorf (format0 msg)) "reconcile failed" []) tt;
         @Ev Env (KStatusUpdate KSDCoreDeployment (failed_sdcore msg cr)) a] ∧
    res = Ok {| RequeueAfter := 30 * Second |}).
Proof. unfold sdcore_fail, env. walk; drop_logs; by eexists. Qed.

Lemma sdcore_done_reports rev cr :
  spec (sdcore_done rev) cr (λ t _ res, ∃ a : result SDCoreDeployment,
    t = [@Ev Env (KStatusUpdate KSDCoreDeployment (deployed_sdcore rev cr)) a] ∧
    res = result_map (λ _, no_requeue) a).
Proof. unfold sdcore_done, env_ok, env. walk; subst; [by eexists (Ok _)|by eexists (Err _)]. Qed.

(** C12: A release is reported as it went.  The last call writes the only status.  Helm is asked
    at most once, to install when the history knows no such release and to upgrade when it does,
    with the loaded chart and the parsed values.  When Helm acknowledged, the status is Deployed
    with the release's revision, and the reconcile returns an error exactly when that status was
    refused, namely that refusal.  When Helm refused, the status is Failed with Helm's error; when
    nothing was asked of Helm it is Failed with the error of the chart, the values, Helm's
    initialisation or the history, whichever failed; and the reconcile asks, without an error, to
    be run again after thirty seconds. *)
Theorem sdcore_reported cfg cr :
  spec (reconcile_sdcore cfg) cr (λ t _ res, ∃ t' st (answer : result SDCoreDeployment),
    t = (t' ++ [@Ev Env (KStatusUpdate KSDCoreDeployment st) answer])%list ∧ statuses t' = [] ∧
    match releases t with
    | [] => ∃ e, undeployed cfg cr t' e ∧ st = failed_sdcore (err_msg e) cr ∧
                 res = Ok {| RequeueAfter := 30 * Second |}
    | [(a, acknowledged)] =>
        (∃ hist, histories t = [hist] ∧ release_plan cr hist a) ∧
        match acknowledged with
        | Ok rev => st = deployed_sdcore rev cr ∧ res = result_map (λ _, no_requeue) answer
        | Err e => st = failed_sdcore (release_prefix a +:+ err_msg e) cr ∧
                   res = Ok {| RequeueAfter := 30 * Second |}
        end
    | _ => False
    end).
Proof.
  unfold reconcile_sdcore. apply spec_bind, spec_try.
  eapply spec_impl; [|apply deploy_release_spec]. cbn beta.
  intros t cr' [rev|e] (-> & Hs & H1).
  - destruct H1 as (hist & a & Hh & Hr & Hp).
    eapply spec_impl; [|apply sdcore_done_reports]. cbn beta. intros t2 cr' res (ans & -> & ->).
    exists t, (deployed_sdcore rev cr), ans. rewrite releases_app, histories_app, Hr, Hh.
    split; [done|]. split; [done|]. split; [by exists hist|done].
  - eapply spec_impl; [|apply sdcore_fail_reports]. cbn beta. intros t2 cr' res (ans & -> & ->).
    set (log := @Ev Env (LogError _ _ _) tt).
    exists (t ++ [log])%list, (failed_sdcore (err_msg e) cr), ans.
    rewrite releases_app, histories_app, statuses_app, Hs, <-app_assoc.
    split; [done|]. split; [done|].
    destruct H1 as [[Hr Hu]|(hist & a & e' & Hh & Hr & Hp & ->)]; rewrite Hr.
    + exists e. split; [|done]. unfold undeployed in *. rewrite histories_app.
      replace (histories [log]) with (@nil history) by done. rewrite app_nil_r.
      destruct (histories t); [|done]. setoid_rewrite elem_of_app. naive_solver.
    + rewrite Hh. split; [by exists hist|done].
Qed.
End sdcore.

(** The message fail writes to the status is exact; the line it logs is not: a percent sign in
    it, as in an answer of Helm that quotes a URL, is taken for a verb. *)
Example fail_log_garbled :
  format0 "helm upgrade: Get http://reg/x%2Fchart: refused" =
  "helm upgrade: Get http://reg/x%!F(MISSING)chart: refused".
Proof. reflexivity. Qed.
