(* ===== verification/NFDeploy.v ===== *)
(** * NFDeployment: charts wired from specialised interfaces

    NFDeploymentReconciler (nfdeployment_controller.go) renders the chart of an SD-Core network
    function with the interface addresses Nephio allocated.  [reconcile_nf] is Reconcile after
    the object was read; the release requests are those of Charts.v. *)

From S2P Require Import Prelude GoText Net Host AddrText Prog Api Effects Helpers Charts.

(** ** The component of a provider *)

Definition providerToComponent (provider : string) : option string :=
  if HasPrefix provider "upf." then Some "upf"
  else if HasPrefix provider "smf." || HasPrefix provider "amf."
          || HasPrefix provider "controlplane." then Some "controlplane"
  else None.

(** ** Interfaces and pools *)

(** The first interface of the name that has an IPv4 configuration decides. *)
Fixpoint firstIfaceIPv4 (ifaces : list InterfaceConfig) (name : string) : result string :=
  match ifaces with
  | [] => Err (errorf (Sprintf "interface %q not found" [FStr name]))
  | ic :: rest =>
      match String.eqb (ic_Name ic) name, ic_IPv4 ic with
      | true, Some c =>
          match ParseCIDR (ip4_Address c) with
          | None => Err (errorf ("invalid CIDR address: " +:+ ip4_Address c))
          | Some (ip, _) => Ok (net_String ip)
          end
      | _, _ => firstIfaceIPv4 rest name
      end
  end.

Fixpoint firstIfaceGateway (ifaces : list InterfaceConfig) (name : string) : string :=
  match ifaces with
  | [] => ""
  | ic :: rest =>
      match String.eqb (ic_Name ic) name, ic_IPv4 ic with
      | true, Some {| ip4_Gateway := Some gw |} => gw
      | _, _ => firstIfaceGateway rest name
      end
  end.

(** The first pool of the first network instance attached to the interface that has one. *)
Fixpoint firstPool (nis : list NetworkInstance) (ifaceName : string) : string :=
  match nis with
  | [] => ""
  | ni :: rest =>
      let attached := existsb (String.eqb ifaceName) (ni_Interfaces ni) in
      match attached, mjoin (ni_DataNetworks ni) with
      | true, p :: _ => p
      | _, _ => firstPool rest ifaceName
      end
  end.

(** ** Chart values *)

Definition data_iface (cniPlugin ip iface gateway : string) : json :=
  JObj [("cniPlugin", JStr cniPlugin); ("ipam", JStr "static"); ("ip", JStr (ip +:+ "/24"));
        ("iface", JStr iface); ("gateway", JStr gateway)].

Definition upf_values (cniPlugin accessMaster coreMaster n3 n6 n3gw n6gw pool : string) : json :=
  JObj [("config", JObj [("upf", JObj (
    [("privileged", JBool true);
     ("hugepage", JObj [("enabled", JBool false)]);
     ("sriov", JObj [("enabled", JBool false)]);
     ("access", data_iface cniPlugin n3 accessMaster n3gw);
     ("core", data_iface cniPlugin n6 coreMaster n6gw);
     ("cfgFiles", JObj [("upf.jsonc", JObj [("mode", JStr "af_packet")])])]
    ++ (if String.eqb pool "" then [] else [("enb", JObj [("subnet", JStr pool)])]))%list)])].

Definition controlplane_values (n4 : string) : json :=
  JObj [("config", JObj [("smf", JObj [("n4", JObj [("ip", JStr n4)])])])].

Definition env_or (key d : string) : act Env NFDeployment string :=
  v ← env (Getenv key); mret (if String.eqb v "" then d else v).

Definition buildValuesFromNFDeployment (component : string) (s : NFDeploymentSpec) :
    act Env NFDeployment json :=
  if String.eqb component "upf" then
    n3 ← wrap "n3: " (of_result (firstIfaceIPv4 (nfd_Interfaces s) "n3"));
    n6 ← wrap "n6: " (of_result (firstIfaceIPv4 (nfd_Interfaces s) "n6"));
    accessMaster ← env_or "UPF_ACCESS_MASTER" "eth0";
    coreMaster ← env_or "UPF_CORE_MASTER" "eth0";
    cniPlugin ← env_or "UPF_CNI_PLUGIN" "bridge";
    mret (upf_values cniPlugin accessMaster coreMaster n3 n6
            (firstIfaceGateway (nfd_Interfaces s) "n3") (firstIfaceGateway (nfd_Interfaces s) "n6")
            (firstPool (nfd_NetworkInstances s) "n6"))
  else if String.eqb component "controlplane" then
    mret (controlplane_values
            (match firstIfaceIPv4 (nfd_Interfaces s) "n4" with Ok n4 => n4 | Err _ => "" end))
  else mret (JObj []).

(** ** Reconcile *)

Definition nf_retry : Result := {| RequeueAfter := 30 * Second |}.

Section nf.
Context {AM : Apimachinery} {H : Helm}.

Definition wired_nf (component : string) (nfd : NFDeployment) : NFDeployment :=
  set_nfd_conditions
    (SetStatusCondition (nfd_Conditions nfd)
       {| c_Type := "Ready"; c_Status := ConditionTrue; c_Reason := "Deployed";
          c_Message := Sprintf "SD-Core %s wired from specialized interfaces" [FStr component];
          c_ObservedGeneration := 0 |}) nfd.

Definition nf_done (component : string) : act Env NFDeployment Result :=
  _ ← modify (wired_nf component);
  nfd ← get;
  r ← env (KStatusUpdate KNFDeployment nfd);
  _ ← match r with Ok nfd' => modify (λ _, nfd') | Err _ => mret tt end;
  mret no_requeue.

(** Install when the history knows no such release, upgrade in every other case: an error of
    the history included.  A failure is logged and the result is [None]. *)
Definition nf_release (hc : helm_config) (ns relName : string) (ch : chart) (vals : json) :
    act Env NFDeployment (option Z) :=
  hist ← env (HelmHistory hc 1 relName);
  match hist with
  | ReleaseNotFound =>
      r ← env (HelmInstall hc (install_of relName ns ch vals));
      match r with
      | Ok rev => mret (Some rev)
      | Err e => _ ← env (LogError e "helm install" []); mret None
      end
  | _ =>
      r ← env (HelmUpgrade hc (upgrade_of relName ns ch vals));
      match r with
      | Ok rev => mret (Some rev)
      | Err e => _ ← env (LogError e "helm upgrade" []); mret None
      end
  end.

Definition reconcile_nf (cfg : rest_config) : act Env NFDeployment Result :=
  nfd ← get;
  match providerToComponent (nfd_Provider (nfd_spec nfd)) with
  | None => mret no_requeue
  | Some component =>
      vals ← try (buildValuesFromNFDeployment component (nfd_spec nfd));
      match vals with
      | Err e => _ ← env (LogError e "building values from NFDeployment" []); mret nf_retry
      | Ok vals =>
          match loadChart component with
          | Err _ => mret nf_retry
          | Ok ch =>
              let ns := Namespace (nfd_meta nfd) in
              hc ← env (HelmInit (newRESTClientGetter cfg ns) ns "secret");
              match hc with
              | Err _ => mret nf_retry
              | Ok hc =>
                  rev ← nf_release hc ns (Name (nfd_meta nfd)) ch vals;
                  match rev with
                  | Some _ => nf_done component
                  | None => mret nf_retry
                  end
              end
          end
      end
  end.

Definition Reconcile (cfg : rest_config) (ns name : string) : prog Env (result Result) :=
  Call (S := Env) (KGet KNFDeployment ns name) (λ ans,
    match ans with
    | Err e => Ret (match IgnoreNotFound e with None => Ok no_requeue | Some e => Err e end)
    | Ok nfd => x ← reconcile_nf cfg nfd; mret x.2
    end).

(** ** Properties *)

(** An interface that firstIfaceIPv4 and its siblings pass over. *)
Definition not_candidate (name : string) (ic : InterfaceConfig) : Prop :=
  ic_Name ic ≠ name ∨ ic_IPv4 ic = None.

(** C36: The address of a specialised interface survives the rendering.  When firstIfaceIPv4 answers,
    the text it returns is that of the address of the first interface of the name with an IPv4
    configuration: it parses back to the allocated address, and with the "/24" the charts append
    it is that address in CIDR notation. *)
Theorem iface_address_roundtrip ifaces name s :
  firstIfaceIPv4 ifaces name = Ok s →
  ∃ pre ic post c ip net,
    ifaces = (pre ++ ic :: post)%list ∧ Forall (not_candidate name) pre ∧
    ic_Name ic = name ∧ ic_IPv4 ic = Some c ∧
    ParseCIDR (ip4_Address c) = Some (ip, net) ∧
    ParseIP s = Some ip ∧
    ∃ net24, ParseCIDR (s +:+ "/24") = Some (ip, net24) ∧ net_Ones net24 = 24.
Proof.
  induction ifaces as [|ic rest IH]; [done|]. cbn [firstIfaceIPv4]. intros Hs.
  assert (firstIfaceIPv4 rest name = Ok s → not_candidate name ic →
    ∃ pre ic' post c ip net, (ic :: rest = pre ++ ic' :: post)%list ∧
      Forall (not_candidate name) pre ∧ ic_Name ic' = name ∧ ic_IPv4 ic' = Some c ∧
      ParseCIDR (ip4_Address c) = Some (ip, net) ∧ ParseIP s = Some ip ∧
      ∃ net24, ParseCIDR (s +:+ "/24") = Some (ip, net24) ∧ net_Ones net24 = 24) as Hskip.
  { intros Hr Hn. destruct (IH Hr) as (pre & ic' & post & c & ip & net & -> & Hp & Hr2).
    exists (ic :: pre), ic', post, c, ip, net. split; [done|]. split; [by constructor | done]. }
  destruct (String.eqb_spec (ic_Name ic) name) as [En|En]; [|by apply Hskip; [|left]].
  destruct (ic_IPv4 ic) as [c|] eqn:Ec; [|by apply Hskip; [|right]].
  destruct (ParseCIDR (ip4_Address c)) as [[ip net]|] eqn:Ep; [|done].
  injection Hs as <-. pose proof (ParseCIDR_wf _ _ _ Ep) as Hw.
  exists [], ic, rest, c, ip, net. split_and!; try done.
  - by apply ParseIP_String.
  - by apply ParseCIDR_24.
Qed.

(** What the values of a component may be: the addresses of the interfaces, and for the host's
    NICs whatever the operator's environment says or the defaults. *)
Definition values_for (component : string) (s : NFDeploymentSpec) (vals : json) : Prop :=
  let ifaces := nfd_Interfaces s in
  (component = "upf" ∧ ∃ n3 n6 accessMaster coreMaster cniPlugin,
     firstIfaceIPv4 ifaces "n3" = Ok n3 ∧ firstIfaceIPv4 ifaces "n6" = Ok n6 ∧
     accessMaster ≠ "" ∧ coreMaster ≠ "" ∧ cniPlugin ≠ "" ∧
     vals = upf_values cniPlugin accessMaster coreMaster n3 n6 (firstIfaceGateway ifaces "n3")
              (firstIfaceGateway ifaces "n6") (firstPool (nfd_NetworkInstances s) "n6")) ∨
  (component = "controlplane" ∧ ∃ n4,
     (firstIfaceIPv4 ifaces "n4" = Ok n4 ∨ n4 = "" ∧ is_ok (firstIfaceIPv4 ifaces "n4") = false) ∧
     vals = controlplane_values n4).

Lemma provider_component provider component :
  providerToComponent provider = Some component → component = "upf" ∨ component = "controlplane".
Proof.
  unfold providerToComponent. destruct (HasPrefix _ _); [intros [= <-]; by left|].
  destruct (_ || _); [intros [= <-]; by right | done].
Qed.

Lemma env_or_spec key d nfd :
  d ≠ "" →
  spec (env_or key d) nfd (λ t nfd' r, nfd' = nfd ∧ ∃ v a, r = Ok v ∧ v ≠ "" ∧ t = [@Ev Env (Getenv key) a]).
Proof.
  intros Hd. unfold env_or, env. walk. split; [done|].
  destruct (String.eqb_spec r "") as [->|Hne]; eexists _, _; done.
Qed.

Lemma buildValues_spec component s nfd :
  component = "upf" ∨ component = "controlplane" →
  spec (buildValuesFromNFDeployment component s) nfd (λ t nfd' r,
    nfd' = nfd ∧ statuses t = [] ∧ releases t = [] ∧ histories t = [] ∧
    match r with Ok vals => values_for component s vals | Err _ => True end).
Proof.
  intros [->| ->]; unfold buildValuesFromNFDeployment.
  - change (String.eqb "upf" "upf") with true. cbv iota.
    apply spec_bind, spec_wrap, spec_of_result.
    destruct (firstIfaceIPv4 _ "n3") as [n3|] eqn:E3; [|done].
    apply spec_bind, spec_wrap, spec_of_result.
    destruct (firstIfaceIPv4 _ "n6") as [n6|] eqn:E6; [|done].
    apply spec_bind. eapply spec_impl; [|by apply env_or_spec]. cbn beta.
    intros ? ? ? (-> & am & ? & -> & Ham & ->).
    apply spec_bind. eapply spec_impl; [|by apply env_or_spec]. cbn beta.
    intros ? ? ? (-> & cm & ? & -> & Hcm & ->).
    apply spec_bind. eapply spec_impl; [|by apply env_or_spec]. cbn beta.
    intros ? ? ? (-> & cni & ? & -> & Hcni & ->).
    apply spec_ret. split_and!; try done. left. split; [done|].
    by exists n3, n6, am, cm, cni.
  - change (String.eqb "controlplane" "upf") with false.
    change (String.eqb "controlplane" "controlplane") with true. cbv iota.
    apply spec_ret. split_and!; try done. right. split; [done|]. eexists. split; [|done].
    destruct (firstIfaceIPv4 _ "n4"); [by left | by right].
Qed.

(** The release a history calls for: everything but a missing release is upgraded. *)
Definition nf_act (nfd : NFDeployment) (ch : chart) (vals : json) (hist : history) : release_act :=
  let ns := Namespace (nfd_meta nfd) in
  match hist with
  | ReleaseNotFound => Installed (install_of (Name (nfd_meta nfd)) ns ch vals)
  | _ => Upgraded (upgrade_of (Name (nfd_meta nfd)) ns ch vals)
  end.

Lemma nf_release_spec hc nfd ch vals :
  spec (nf_release hc (Namespace (nfd_meta nfd)) (Name (nfd_meta nfd)) ch vals) nfd (λ t nfd' r,
    nfd' = nfd ∧ statuses t = [] ∧ ∃ hist answer,
      histories t = [hist] ∧ releases t = [(nf_act nfd ch vals hist, answer)] ∧
      r = Ok (match answer with Ok rev => Some rev | Err _ => None end)).
Proof.
  unfold nf_release, env. walk; (split; [done|]; split; [done|]);
    do 2 eexists; (split; [reflexivity|]); (split; [reflexivity|]); done.
Qed.

(** C23: A network function is reported wired exactly when Helm acknowledged its chart.  Objects of
    other providers are left alone.  Otherwise Helm is asked at most once, for the component's
    chart with the values of the specialised interfaces, to install when the history knows no
    such release and to upgrade in every other case; the Ready condition is written once when
    Helm acknowledged, nothing is written when it did not, and whatever failed is retried after
    thirty seconds.  No error is returned. *)
Theorem nf_reported cfg nfd :
  spec (reconcile_nf cfg) nfd (λ t _ res,
    match providerToComponent (nfd_Provider (nfd_spec nfd)) with
    | None => t = [] ∧ res = Ok no_requeue
    | Some component =>
        match releases t with
        | [] => histories t = [] ∧ statuses t = [] ∧ res = Ok nf_retry
        | [(a, answer)] =>
            (∃ ch vals hist, loadChart component = Ok ch ∧ values_for component (nfd_spec nfd) vals ∧
               histories t = [hist] ∧ a = nf_act nfd ch vals hist) ∧
            match answer with
            | Ok _ => statuses t = [existT KNFDeployment (wired_nf component nfd)] ∧ res = Ok no_requeue
            | Err _ => statuses t = [] ∧ res = Ok nf_retry
            end
        | _ => False
        end
    end).
Proof.
  unfold reconcile_nf. apply spec_bind, spec_get. cbn beta.
  destruct (providerToComponent _) as [component|] eqn:Ec; [|done].
  apply spec_bind, spec_try. eapply spec_impl; [|apply buildValues_spec, (provider_component _ _ Ec)].
  cbn beta. intros t0 nfd' [vals|e] (-> & Hs & Hr & Hh & Hv).
  2: { unfold env. walk. by rewrite !releases_app, !histories_app, !statuses_app, Hr, Hs, Hh. }
  destruct (loadChart component) as [ch|e] eqn:Hch.
  2: { apply spec_ret. by rewrite app_nil_l, app_nil_r, Hr. }
  unfold env. apply spec_bind. step_spec. destruct r as [hc|e].
  2: { apply spec_ret. rewrite !releases_app, Hr. cbn. by rewrite !histories_app, !statuses_app, Hs, Hh. }
  apply spec_bind. eapply spec_impl; [|apply nf_release_spec]. cbn beta.
  intros t1 nfd' res (-> & Hs1 & hist & answer & Hh1 & Hr1 & ->).
  assert (∃ ch' vals' hist', Ok ch = Ok ch' ∧ values_for component (nfd_spec nfd) vals' ∧
    [hist] = [hist'] ∧ nf_act nfd ch vals hist = nf_act nfd ch' vals' hist') as Hplan
    by (by exists ch, vals, hist).
  destruct answer as [rev|e].
  - unfold nf_done, env. walk; rewrite !releases_app, !histories_app, !statuses_app, Hr, Hr1;
      cbn; rewrite Hh, Hh1, Hs, Hs1; done.
  - apply spec_ret. rewrite !releases_app, !histories_app, !statuses_app, Hr, Hr1; cbn;
      rewrite Hh, Hh1, Hs, Hs1; done.
Qed.
End nf.

(** ** Witness *)

Definition lab_ifaces : list InterfaceConfig :=
  [{| ic_Name := "n3"; ic_IPv4 := None |};
   {| ic_Name := "n3"; ic_IPv4 := Some {| ip4_Address := "10.202.0.7/16"; ip4_Gateway := Some "10.202.0.1" |} |};
   {| ic_Name := "n6"; ic_IPv4 := Some {| ip4_Address := "10.203.0.7/24"; ip4_Gateway := None |} |}].

(** The prefix length of the allocation is not kept: a /16 is rendered as a /24. *)
Example prefix_length_dropped :
  firstIfaceIPv4 lab_ifaces "n3" = Ok "10.202.0.7" ∧
  (net_Ones ∘ snd <$> ParseCIDR "10.202.0.7/16", net_Ones ∘ snd <$> ParseCIDR ("10.202.0.7" +:+ "/24"))
  = (Some 16, Some 24).
Proof. split; reflexivity. Qed.

Lemma iface_address_roundtrip_witness :
  firstIfaceIPv4 lab_ifaces "n3" = Ok "10.202.0.7" ∧
  ∃ ip net24, ParseIP "10.202.0.7" = Some ip ∧
    ParseCIDR ("10.202.0.7" +:+ "/24") = Some (ip, net24) ∧ net_Ones net24 = 24.
Proof.
  assert (firstIfaceIPv4 lab_ifaces "n3" = Ok "10.202.0.7") as E by reflexivity.
  split; [exact E|].
  destruct (iface_address_roundtrip lab_ifaces "n3" "10.202.0.7" E)
    as (pre & ic & post & c & ip & net & _ & _ & _ & _ & _ & Hp & net24 & H24).
  exists ip, net24. exact (conj Hp H24).
Defined.

(** A control plane without an N4 interface is wired to the empty address. *)
Example n4_missing nfd :
  spec (buildValuesFromNFDeployment "controlplane"
          {| nfd_Provider := "smf.sdcore"; nfd_Interfaces := []; nfd_NetworkInstances := [] |}) nfd
    (λ _ _ r, r = Ok (controlplane_values "")).
Proof. by apply spec_ret. Qed.
