(* ===== verification/Fabric.v ===== *)
(** * The network fabric: the pools of the resource back end

    NetworkReconciler (network_controller.go) expands a NetworkFabric into an ipam NetworkInstance
    and a vlan VLANIndex.  [reconcile_fabric] is Reconcile after the object was read and the
    namespace defaulted; [ensure] is [Upsert.upsert]. *)

From S2P Require Import Prelude GoText Net Host Prog Api Effects Helpers Upsert.

Definition networkInstanceGVK : GroupVersionKind :=
  {| gvk_Group := "ipam.resource.nephio.org"; gvk_Version := "v1alpha1";
     gvk_Kind := "NetworkInstance" |}.
Definition vlanIndexGVK : GroupVersionKind :=
  {| gvk_Group := "vlan.resource.nephio.org"; gvk_Version := "v1alpha1"; gvk_Kind := "VLANIndex" |}.

Definition fabric_namespace (nf : NetworkFabric) : string :=
  if String.eqb (Namespace (nf_meta nf)) "" then "default" else Namespace (nf_meta nf).

(** One pool; a prefix without labels has no "labels" member. *)
Definition prefix_entry (p : FabricPrefix) : json :=
  JObj (("prefix", JStr (fp_Prefix p)) ::
        (if bool_decide (fp_Labels p = ∅) then []
         else [("labels", JObj (prod_map id JStr <$> map_to_list (fp_Labels p)))])).

Definition network_instance (nf : NetworkFabric) : Unstructured :=
  new_unstructured networkInstanceGVK (fabric_namespace nf) (Name (nf_meta nf))
    (JObj [("prefixes", JArr (prefix_entry <$> nf_Prefixes nf))]).

Definition vlan_index (nf : NetworkFabric) : Unstructured :=
  new_unstructured vlanIndexGVK (fabric_namespace nf) (Name (nf_meta nf)) (JObj []).

Definition ensure {gvk} (o : obj (KUnstructured gvk)) : act Env NetworkFabric unit :=
  upsert (k := KUnstructured gvk) o.

Section fabric.
Context {AM : Apimachinery}.

Definition fabric_status (last : string) (st : ConditionStatus) (reason message : string)
    (nf : NetworkFabric) : NetworkFabric :=
  set_nf_status
    {| nfs_LastReconcile := last;
       nfs_Conditions := setCondition (nfs_Conditions (nf_status nf)) "Ready" st reason message
                           (Generation (nf_meta nf)) |} nf.

Definition failed_fabric (e : error) (nf : NetworkFabric) : NetworkFabric :=
  fabric_status (nfs_LastReconcile (nf_status nf)) ConditionFalse "ReconcileFailed" (err_msg e) nf.

Definition ready_fabric (now : Z) (nf : NetworkFabric) : NetworkFabric :=
  fabric_status (FormatRFC3339 now) ConditionTrue "Reconciled"
    (Sprintf "backend NetworkInstance + VLANIndex '%s' ready (%d prefixes)"
       [FStr (Name (nf_meta nf)); FInt (Z.of_nat (length (nf_Prefixes nf)))]) nf.

(** [r.Status().Update(ctx, &nf)]: the answer overwrites the object. *)
Definition update_fabric_status : act Env NetworkFabric (result unit) :=
  nf ← get;
  r ← env (KStatusUpdate KNetworkFabric nf);
  match r with
  | Ok nf' => _ ← modify (λ _, nf'); mret (Ok tt)
  | Err e => mret (Err e)
  end.

Definition fabric_fail (e : error) : act Env NetworkFabric Result :=
  _ ← modify (failed_fabric e);
  _ ← update_fabric_status;
  mret {| RequeueAfter := 15 * Second |}.

(** The two back-end objects; an error goes to fail. *)
Definition expand : act Env NetworkFabric unit :=
  nf ← get;
  let name := Name (nf_meta nf) in
  _ ← wrap ("reconcile NetworkInstance " +:+ name +:+ ": ")
        (ensure (gvk := networkInstanceGVK) (network_instance nf));
  wrap ("reconcile VLANIndex " +:+ name +:+ ": ")
    (ensure (gvk := vlanIndexGVK) (vlan_index nf)).

Definition fabric_done : act Env NetworkFabric Result :=
  nf0 ← get;
  now ← env Now;
  _ ← modify (ready_fabric now);
  r ← update_fabric_status;
  nf ← get;
  _ ← match r with
      | Ok _ => mret tt
      | Err e => env (LogError e "NetworkFabric status update" [("fabric", Name (nf_meta nf))])
      end;
  _ ← env (LogInfo "reconciled network fabric into backend"
             [("fabric", Name (nf_meta nf)); ("namespace", fabric_namespace nf0)]);
  mret no_requeue.

Definition reconcile_fabric : act Env NetworkFabric Result :=
  r ← try expand;
  match r with
  | Ok _ => fabric_done
  | Err e => fabric_fail e
  end.

Definition Reconcile (ns name : string) : prog Env (result Result) :=
  Call (S := Env) (KGet KNetworkFabric ns name) (λ ans,
    match ans with
    | Err e => Ret (match IgnoreNotFound e with None => Ok no_requeue | Some e => Err e end)
    | Ok nf => x ← reconcile_fabric nf; mret x.2
    end).
End fabric.

(** ** Properties *)

(** The pools as the specializer reads them back from the NetworkInstance. *)
Definition pool_of (j : json) : option (string * list (string * json)) :=
  match j with
  | JObj l =>
      match assoc "prefix" l, assoc "labels" l with
      | Some (JStr p), Some (JObj labels) => Some (p, labels)
      | Some (JStr p), None => Some (p, [])
      | _, _ => None
      end
  | _ => None
  end.

Lemma labels_wf (m : gmap string string) : wf_json (JObj (prod_map id JStr <$> map_to_list m)).
Proof.
  cbn. split.
  - rewrite <-list_fmap_compose. change (fst ∘ prod_map id JStr) with (@fst string string).
    apply NoDup_fst_map_to_list.
  - induction (map_to_list m) as [|[k v] l IH]; [done|]. by split.
Qed.

Lemma network_instance_wf nf : wf_json (u_spec (network_instance nf)).
Proof.
  cbn. split; [apply NoDup_singleton|]. split; [|done].
  induction (nf_Prefixes nf) as [|p l IH]; [done|]. split; [|exact IH].
  unfold prefix_entry. destruct (bool_decide _).
  - cbn. split; [apply NoDup_singleton | done].
  - split; [|split; [done|]; split; [apply labels_wf | done]].
    repeat constructor; rewrite ?elem_of_cons, ?elem_of_nil; naive_solver.
Qed.

(** The NetworkInstance loses nothing of the intent: its entries are the fabric's prefixes, in
    order, each with exactly its labels. *)
Lemma prefix_entry_pool p :
  pool_of (prefix_entry p) = Some (fp_Prefix p, prod_map id JStr <$> map_to_list (fp_Labels p)).
Proof.
  unfold prefix_entry. case_bool_decide as E; [|done]. by rewrite E, map_to_list_empty.
Qed.

Section healthy.
Context {W : Type} (h : handler Env W) {server : ApiServer h}.

(** One run of the expansion: the NetworkInstance, then the VLANIndex in the world it leaves. *)
Lemma expand_run nf w :
  let ni := upsert (St := NetworkFabric) (k := KUnstructured networkInstanceGVK)
              (network_instance nf) nf in
  let vi := upsert (St := NetworkFabric) (k := KUnstructured vlanIndexGVK) (vlan_index nf) nf in
  let wn := run_world h ni w in
  run_value h ni w = (nf, Ok tt) → run_value h vi wn = (nf, Ok tt) →
  run_value h (expand nf) w = (nf, Ok tt) ∧
  run_world h (expand nf) w = run_world h vi wn ∧
  run_trace h (expand nf) w = (run_trace h ni w ++ run_trace h vi wn)%list.
Proof.
  intros ni vi wn Hn Hv. set (name := Name (nf_meta nf)).
  destruct (run_wrap_ok h ("reconcile NetworkInstance " +:+ name +:+ ": ")
    (ensure (gvk := networkInstanceGVK) (network_instance nf)) nf w nf tt Hn) as (Wv & Ww & Wt).
  destruct (run_bind_ok h _ (λ _, wrap ("reconcile VLANIndex " +:+ name +:+ ": ")
    (ensure (gvk := vlanIndexGVK) (vlan_index nf))) nf w nf tt Wv) as (Bv & Bw & Bt).
  rewrite Ww in Bv, Bw, Bt.
  destruct (run_wrap_ok h ("reconcile VLANIndex " +:+ name +:+ ": ")
    (ensure (gvk := vlanIndexGVK) (vlan_index nf)) nf wn nf tt Hv) as (Vv & Vw & Vt).
  split; [exact (eq_trans Bv Vv)|]. split; [exact (eq_trans Bw Vw)|].
  refine (eq_trans Bt _). rewrite Wt. f_equal. exact Vt.
Qed.

(** C35: A fabric is expanded once.  Against a healthy API server that is deleting neither of the
    two children, one expansion puts the NetworkInstance - with exactly the fabric's prefixes and
    labels - and the VLANIndex in place; reconciling the unchanged fabric again writes nothing to
    either and changes nothing. *)
Theorem fabric_settles nf w :
  free_of_deletion h (k := KUnstructured networkInstanceGVK) (network_instance nf) w →
  free_of_deletion h (k := KUnstructured vlanIndexGVK) (vlan_index nf) w →
  let w1 := run_world h (expand nf) w in
  run_value h (expand nf) w = (nf, Ok tt) ∧
  in_place h (k := KUnstructured networkInstanceGVK) (network_instance nf) w w1 ∧
  (∃ l, u_spec (network_instance nf) = JObj [("prefixes", JArr l)] ∧
     pool_of <$> l =
       (λ p, Some (fp_Prefix p, prod_map id JStr <$> map_to_list (fp_Labels p))) <$>
         nf_Prefixes nf) ∧
  (∃ vi, live h (k := KUnstructured vlanIndexGVK) w1 (vlan_index nf) = Some vi) ∧
  run_value h (expand nf) w1 = (nf, Ok tt) ∧ run_world h (expand nf) w1 = w1 ∧
  writes (run_trace h (expand nf) w1) = [].
Proof.
  intros Hdn Hdv.
  destruct (upsert_places h (network_instance nf : obj (KUnstructured networkInstanceGVK)) nf w
    Hdn) as (Hn & Pn & On).
  set (wn := run_world h (upsert (k := KUnstructured networkInstanceGVK) (network_instance nf) nf) w)
    in *.
  assert (free_of_deletion h (k := KUnstructured vlanIndexGVK) (vlan_index nf) wn) as Hdv'.
  { intros cur Hc. apply Hdv. rewrite <-Hc. symmetry. apply On. intros E. discriminate E. }
  destruct (upsert_places h (vlan_index nf : obj (KUnstructured vlanIndexGVK)) nf wn Hdv')
    as (Hv & Pv & Ov).
  destruct (expand_run nf w Hn Hv) as (Ev & Ew & _).
  set (w1 := run_world h (upsert (k := KUnstructured vlanIndexGVK) (vlan_index nf) nf) wn) in *.
  cbn zeta. rewrite Ew.
  assert (live h (k := KUnstructured networkInstanceGVK) w1 (network_instance nf) =
          live h (k := KUnstructured networkInstanceGVK) wn (network_instance nf)) as Hsame.
  { apply Ov. intros E. discriminate E. }
  destruct (in_place_recognised h _ _ w wn (network_instance_wf nf) Hdn Pn) as (cn & Ln & Un & Dn).
  destruct (in_place_recognised h vlanIndexGVK (vlan_index nf) wn w1) as (cv & Lv & Uv & Dv);
    [split; constructor | done | done|].
  rewrite <-Hsame in Ln.
  destruct (upsert_idle h (network_instance nf : obj (KUnstructured networkInstanceGVK)) cn nf w1
    Ln Un Dn) as (Iv & Iw & It).
  destruct (upsert_idle h (vlan_index nf : obj (KUnstructured vlanIndexGVK)) cv nf w1 Lv Uv Dv)
    as (Jv & Jw & Jt).
  destruct (expand_run nf w1) as (Fv & Fw & Ft); [done|by rewrite Iw|].
  split; [done|]. split; [exact (in_place_same h _ w wn w1 Hsame Pn)|].
  split; [eexists; split; [reflexivity|]; rewrite <-list_fmap_compose; apply list_fmap_ext;
          intros; apply prefix_entry_pool|].
  split; [by exists cv|]. split; [done|]. rewrite Iw in Fw, Ft.
  split; [exact (eq_trans Fw Jw)|]. fold w1. change (writes (run_trace h (expand nf) w1) = []).
  by rewrite Ft, writes_app, It, Jt.
Qed.
End healthy.

(** The fabric of the lab: one labelled N3 pool. *)
Definition lab_fabric : NetworkFabric :=
  {| nf_meta := new_meta "default" "sdcore-vpc";
     nf_Prefixes := [{| fp_Prefix := "10.202.0.0/24";
                        fp_Labels := <["nephio.org/network-name" := "n3"]> ∅ |}];
     nf_status := {| nfs_LastReconcile := ""; nfs_Conditions := [] |} |}.

Lemma fabric_settles_witness :
  let w1 := run_world MemServer.handle (expand lab_fabric) MemServer.empty in
  writes (run_trace MemServer.handle (expand lab_fabric) w1) = [] ∧
  MemServer.lookup w1 (KUnstructured networkInstanceGVK) "default" "sdcore-vpc" ≠ None.
Proof.
  split; [|by vm_compute].
  refine (proj2 (proj2 (proj2 (proj2 (proj2 (proj2 (fabric_settles MemServer.handle
    (server := MemServer.api_server) lab_fabric MemServer.empty _ _)))))));
    intros cur Hc; vm_compute in Hc; discriminate Hc.
Defined.
