(* ===== verification/GitOps.v ===== *)
(** * Delivery through Git (mesh_gitops.go)

    [gitPut] upserts one file of a Gitea deploy repository and [removeFromGit] deletes one; Config
    Sync makes the repository's content running reality.  Every HTTP exchange is a call of the
    environment.  [secretYAML] renders a Secret manifest, its data in map order. *)

From S2P Require Import Prelude GoText Prog Api Effects Helpers.

Definition giteaBase : string := "http://gitea-http.gitea.svc.cluster.local:3000".

Definition deployRepoFor (cluster : string) : string :=
  if String.eqb cluster "" || String.eqb cluster "mgmt" then "mgmt"
  else "cluster-" +:+ cluster.

(** ** The HTTP client *)

Definition StatusOK : Z := 200.
Definition StatusNotFound : Z := 404.

Definition is_2xx (code : Z) : bool := negb ((code <? 200) || (300 <=? code)).

Definition contents_url (user repo path : string) : string :=
  Sprintf "%s/api/v1/repos/%s/%s/contents/%s"
    [FStr giteaBase; FStr user; FStr repo; FStr path].

(** [fmt.Errorf("<VERB> %s -> HTTP %d: %s", path, status, first bytes of the body)]. *)
Definition http_status_error (verb path : string) (limit : nat) (rs : http_response) : error :=
  errorf (verb +:+ Sprintf " %s -> HTTP %d: %s"
    [FStr path; FInt (rs_StatusCode rs); FStr (take_bytes limit (rs_Body rs))]).

Section gitops.
Context {St : Type}.
Implicit Types (repo path : string).

(** The gitea-auth secret's username and password. *)
Definition gitea_auth : act Env St (string * string) :=
  sec ← wrap "read gitea-auth: " (env_ok (env (KGet KSecret "default" "gitea-auth")));
  mret (sec_value sec "username", sec_value sec "password").

Definition get_request (auth : string * string) (url : string) : http_request :=
  {| rq_Method := "GET"; rq_URL := url; rq_BasicAuth := Some auth; rq_ContentType := None;
     rq_Body := None |}.

Definition json_request (method : string) (auth : string * string) (url : string)
    (body : json) : http_request :=
  {| rq_Method := method; rq_URL := url; rq_BasicAuth := Some auth;
     rq_ContentType := Some "application/json"; rq_Body := Some body |}.

(** gitPut's lookup of the current file: its SHA, or "" when it is absent or cannot be read. *)
Definition lookup_sha (auth : string * string) (api : string) : act Env St string :=
  req ← env (NewRequest "GET" (api +:+ "?ref=main"));
  match req with
  | Err _ => mret ""
  | Ok _ =>
      resp ← env (HttpDo (get_request auth (api +:+ "?ref=main")));
      mret (match resp with
            | Ok rs => if rs_StatusCode rs =? StatusOK then rs_Sha rs else ""
            | Err _ => ""
            end)
  end.

Definition put_body (path yaml sha : string) : json :=
  JObj ([("message", JStr ("meshlink: reconcile clustermesh KRM " +:+ path));
         ("content", JStr (EncodeToString yaml));
         ("branch", JStr "main")] ++
        (if String.eqb sha "" then [] else [("sha", JStr sha)]))%list.

Definition gitPut (repo path yaml : string) : act Env St unit :=
  auth ← gitea_auth;
  let api := contents_url auth.1 repo path in
  sha ← lookup_sha auth api;
  _ ← env_ok (env (NewRequest "PUT" api));
  resp ← env (HttpDo (json_request "PUT" auth api (put_body path yaml sha)));
  match resp with
  | Err e => throw (wrapf ("PUT " +:+ path +:+ ": ") e)
  | Ok rs =>
      if is_2xx (rs_StatusCode rs) then mret tt
      else throw (http_status_error "PUT" path 400 rs)
  end.

Definition deliverViaGit (repo path yaml : string) : act Env St unit := gitPut repo path yaml.

Definition delete_body (path sha : string) : json :=
  JObj [("message", JStr ("meshlink: retire " +:+ path +:+ " (owned by the cilium chart now)"));
        ("sha", JStr sha); ("branch", JStr "main")].

(** What removeFromGit's lookup decides: the file is absent, or this is its SHA. *)
Inductive lookup_outcome := Absent | FileSha (sha : string).

Definition lookup_result (resp : result http_response) : lookup_outcome :=
  match resp with
  | Ok rs => if rs_StatusCode rs =? StatusNotFound then Absent
             else if rs_StatusCode rs =? StatusOK then FileSha (rs_Sha rs)
             else FileSha ""
  | Err _ => FileSha ""
  end.

(** A request that cannot be built is a nil pointer dereference here.  The model returns the panic as
    an error, which a caller may handle; in the process it unwinds the whole reconcile, up to the
    recover of controller-runtime. *)
Definition lookup_for_removal (auth : string * string) (api : string) :
    act Env St lookup_outcome :=
  req ← env (NewRequest "GET" (api +:+ "?ref=main"));
  match req with
  | Err _ => throw (errorf "panic: nil pointer dereference")
  | Ok _ =>
      resp ← env (HttpDo (get_request auth (api +:+ "?ref=main")));
      mret (lookup_result resp)
  end.

Definition removeFromGit (repo path : string) : act Env St unit :=
  auth ← gitea_auth;
  let api := contents_url auth.1 repo path in
  found ← lookup_for_removal auth api;
  match found with
  | Absent => mret tt
  | FileSha sha =>
      if String.eqb sha "" then mret tt
      else
        _ ← env_ok (env (NewRequest "DELETE" api));
        resp ← env (HttpDo (json_request "DELETE" auth api (delete_body path sha)));
        match resp with
        | Err e => throw (wrapf ("DELETE " +:+ path +:+ ": ") e)
        | Ok rs =>
            if (rs_StatusCode rs <? 200)
               || (300 <=? rs_StatusCode rs) && negb (rs_StatusCode rs =? StatusNotFound)
            then throw (http_status_error "DELETE" path 400 rs)
            else mret tt
        end
  end.

(** ** Secret manifests *)

Definition secret_header (name namespace : string) : string :=
  Sprintf
    (interp "apiVersion: v1\nkind: Secret\nmetadata:\n  name: %s\n  namespace: %s\ntype: Opaque\ndata:\n")
    [FStr name; FStr namespace].

Definition secret_entry (kv : string * string) : string :=
  Sprintf (interp "  %s: %s\n") [FStr kv.1; FStr (EncodeToString kv.2)].

Definition secretYAML (name namespace : string) (data : gmap string string) :
    act Env St string :=
  entries ← range_map (map_to_list data);
  mret (secret_header name namespace +:+ concat_strings (secret_entry <$> entries)).
End gitops.

(** ** What was exchanged over HTTP *)

Definition http_of (e : event Env) : option (http_request * result http_response) :=
  match e with
  | Ev c r =>
      match c return answer c → option (http_request * result http_response) with
      | HttpDo rq => λ r, Some (rq, r)
      | _ => λ _, None
      end r
  end.

Definition exchanges (t : list (event Env)) : list (http_request * result http_response) :=
  omap http_of t.

(** The requests of a method that were sent. *)
Definition sent (method : string) (t : list (event Env)) : list (http_request * result http_response) :=
  List.filter (λ x, String.eqb (rq_Method x.1) method) (exchanges t).

Lemma exchanges_app t1 t2 : exchanges (t1 ++ t2)%list = (exchanges t1 ++ exchanges t2)%list.
Proof. apply omap_app. Qed.

Lemma sent_app m t1 t2 : sent m (t1 ++ t2)%list = (sent m t1 ++ sent m t2)%list.
Proof. unfold sent. by rewrite exchanges_app, List.filter_app. Qed.

(** A PUT of [yaml] to [path] of [repo] that Gitea acknowledged. *)
Definition acknowledged_put (repo path yaml : string)
    (x : http_request * result http_response) : Prop :=
  ∃ auth sha rs,
    x = (json_request "PUT" auth (contents_url auth.1 repo path) (put_body path yaml sha), Ok rs)
    ∧ is_2xx (rs_StatusCode rs) = true.

(** The PUTs of a trace that were acknowledged. *)
Definition acked (t : list (event Env)) : list (http_request * result http_response) :=
  List.filter (λ x, match x.2 with Ok rs => is_2xx (rs_StatusCode rs) | Err _ => false end)
    (sent "PUT" t).

Lemma acked_app t1 t2 : acked (t1 ++ t2)%list = (acked t1 ++ acked t2)%list.
Proof. unfold acked. by rewrite sent_app, List.filter_app. Qed.

(** A run of gitPut in full.  The credentials are read; the current SHA is looked up, a look-up
    that fails counting as an absent file; the PUT is built and sent with that SHA, and its answer
    decides the result. *)
Definition sha_of (resp : result http_response) : string :=
  match resp with
  | Ok rs => if rs_StatusCode rs =? StatusOK then rs_Sha rs else ""
  | Err _ => ""
  end.

Inductive looked_up (auth : string * string) (api : string) : list (event Env) → string → Prop :=
| lookup_unbuilt e :
    looked_up auth api [@Ev Env (NewRequest "GET" (api +:+ "?ref=main")) (Err e)] ""
| lookup_asked resp :
    looked_up auth api
      [@Ev Env (NewRequest "GET" (api +:+ "?ref=main")) (Ok tt);
       @Ev Env (HttpDo (get_request auth (api +:+ "?ref=main"))) resp] (sha_of resp).

Definition put_result (path : string) (resp : result http_response) : result unit :=
  match resp with
  | Err e => Err (wrapf ("PUT " +:+ path +:+ ": ") e)
  | Ok rs => if is_2xx (rs_StatusCode rs) then Ok tt else Err (http_status_error "PUT" path 400 rs)
  end.

Definition auth_read (r : result Secret) : event Env := @Ev Env (KGet KSecret "default" "gitea-auth") r.

Definition credentials (sec : Secret) : string * string :=
  (sec_value sec "username", sec_value sec "password").

Inductive filed (repo path yaml : string) : list (event Env) → result unit → Prop :=
| filed_unauthorised e :
    filed repo path yaml [auth_read (Err e)] (Err (wrapf "read gitea-auth: " e))
| filed_unbuilt sec t sha e :
    let api := contents_url (credentials sec).1 repo path in
    looked_up (credentials sec) api t sha →
    filed repo path yaml (auth_read (Ok sec) :: t ++ [@Ev Env (NewRequest "PUT" api) (Err e)])%list
      (Err e)
| filed_put sec t sha resp :
    let api := contents_url (credentials sec).1 repo path in
    looked_up (credentials sec) api t sha →
    filed repo path yaml
      (auth_read (Ok sec) :: t ++
       [@Ev Env (NewRequest "PUT" api) (Ok tt);
        @Ev Env (HttpDo (json_request "PUT" (credentials sec) api (put_body path yaml sha))) resp])%list
      (put_result path resp).

(** A run of removeFromGit in full: nothing is deleted when the look-up finds no SHA. *)
Definition delete_result (path : string) (resp : result http_response) : result unit :=
  match resp with
  | Err e => Err (wrapf ("DELETE " +:+ path +:+ ": ") e)
  | Ok rs =>
      if (rs_StatusCode rs <? 200)
         || (300 <=? rs_StatusCode rs) && negb (rs_StatusCode rs =? StatusNotFound)
      then Err (http_status_error "DELETE" path 400 rs) else Ok tt
  end.

Inductive retired (repo path : string) : list (event Env) → result unit → Prop :=
| retired_unauthorised e :
    retired repo path [auth_read (Err e)] (Err (wrapf "read gitea-auth: " e))
| retired_panic sec e :
    let api := contents_url (credentials sec).1 repo path in
    retired repo path
      [auth_read (Ok sec); @Ev Env (NewRequest "GET" (api +:+ "?ref=main")) (Err e)]
      (Err (errorf "panic: nil pointer dereference"))
| retired_absent sec resp :
    let api := contents_url (credentials sec).1 repo path in
    lookup_result resp = Absent ∨ lookup_result resp = FileSha "" →
    retired repo path
      [auth_read (Ok sec); @Ev Env (NewRequest "GET" (api +:+ "?ref=main")) (Ok tt);
       @Ev Env (HttpDo (get_request (credentials sec) (api +:+ "?ref=main"))) resp] (Ok tt)
| retired_unbuilt sec resp sha e :
    let api := contents_url (credentials sec).1 repo path in
    lookup_result resp = FileSha sha → sha ≠ "" →
    retired repo path
      [auth_read (Ok sec); @Ev Env (NewRequest "GET" (api +:+ "?ref=main")) (Ok tt);
       @Ev Env (HttpDo (get_request (credentials sec) (api +:+ "?ref=main"))) resp;
       @Ev Env (NewRequest "DELETE" api) (Err e)] (Err e)
| retired_sent sec resp sha answer :
    let api := contents_url (credentials sec).1 repo path in
    lookup_result resp = FileSha sha → sha ≠ "" →
    retired repo path
      [auth_read (Ok sec); @Ev Env (NewRequest "GET" (api +:+ "?ref=main")) (Ok tt);
       @Ev Env (HttpDo (get_request (credentials sec) (api +:+ "?ref=main"))) resp;
       @Ev Env (NewRequest "DELETE" api) (Ok tt);
       @Ev Env (HttpDo (json_request "DELETE" (credentials sec) api (delete_body path sha))) answer]
      (delete_result path answer).

(** The manifests [files], in order, were delivered to [repo] up to the first failure: the result
    is nil exactly when all of them were acknowledged. *)
Definition delivered {A} (repo : string) (files : list (string * string)) (t : list (event Env))
    (r : result A) : Prop :=
  ∃ sent_files rest, files = (sent_files ++ rest)%list ∧
    Forall2 (λ f x, acknowledged_put repo f.1 f.2 x) sent_files (acked t) ∧
    (is_ok r = true ↔ rest = []).

#[local] Opaque contents_url put_body delete_body.

(** Deliveries compose: the second one runs only after the first has succeeded. *)
Lemma delivered_app {A B} repo f1 f2 t1 t2 (r1 : result A) (r2 : result B) :
  delivered repo f1 t1 r1 → is_ok r1 = true → delivered repo f2 t2 r2 →
  delivered repo (f1 ++ f2)%list (t1 ++ t2)%list r2.
Proof.
  intros (d1 & rest1 & -> & H1 & E1) Hok (d2 & rest2 & -> & H2 & E2).
  apply E1 in Hok as ->. exists (d1 ++ d2)%list, rest2. rewrite acked_app, app_nil_r, app_assoc.
  split; [done|]. split; [by apply Forall2_app | done].
Qed.

Lemma delivered_fail {A B} repo f1 f2 t (e : error) :
  delivered repo f1 t (Err e : result A) → delivered repo (f1 ++ f2)%list t (Err e : result B).
Proof.
  intros (d & rest & -> & H & E). exists d, (rest ++ f2)%list. rewrite app_assoc.
  split; [done|]. split; [done|]. destruct E as [_ E]. split; [done|].
  intros [-> _]%app_eq_nil. by specialize (E eq_refl).
Qed.

Section gitops_properties.
Context {St : Type} (s : St).

(** One PUT at most; it is acknowledged exactly when the result is nil. *)
Lemma gitPut_sends repo path yaml :
  spec (gitPut repo path yaml) s (λ t s' r,
    s' = s ∧ (length (sent "PUT" t) ≤ 1)%nat ∧ sent "DELETE" t = [] ∧
    match r with
    | Ok _ => ∃ x, sent "PUT" t = [x] ∧ acked t = [x] ∧ acknowledged_put repo path yaml x
    | Err _ => acked t = []
    end).
Proof.
  unfold gitPut, gitea_auth, lookup_sha, env_ok, env. walk.
  all: split; [done|]; subst.
  all: unfold acked, sent, exchanges; cbn -[contents_url put_body is_2xx is_ok].
  all: repeat (split; [lia || done|]).
  all: try match goal with H : is_2xx _ = _ |- _ => rewrite H end; try reflexivity.
  all: eexists; split; [reflexivity|]; split; [reflexivity|];
    eexists (_, _), _, _; split; [reflexivity | eassumption].
Qed.

Lemma lookup_sha_looks auth api :
  spec (lookup_sha auth api) s (λ t s' r, s' = s ∧ ∃ sha, r = Ok sha ∧ looked_up auth api t sha).
Proof.
  unfold lookup_sha, env. walk; (split; [done|]); eexists; (split; [reflexivity|]).
  - destruct a. apply (lookup_asked auth api).
  - apply lookup_unbuilt.
Qed.

Lemma gitPut_filed repo path yaml :
  spec (gitPut repo path yaml) s (λ t s' r, s' = s ∧ filed repo path yaml t r).
Proof.
  unfold gitPut, gitea_auth, env_ok, env. walk; [|split; [done|apply filed_unauthorised]].
  fold (credentials a). eapply spec_impl; [|apply lookup_sha_looks]. cbn beta.
  intros t s0 r0 (-> & sha & -> & Hl). step_spec. step_spec. step_spec. step_spec. cbn beta.
  match goal with u : ans Env (NewRequest _ _) |- _ => destruct u as [[]|e] end.
  2: { split; [done|]. exact (filed_unbuilt repo path yaml a t sha e Hl). }
  do 2 step_spec. cbn beta iota.
  match goal with u : ans Env (HttpDo _) |- _ => rename u into resp end.
  pose proof (filed_put repo path yaml a t sha resp Hl) as H. unfold put_result in H.
  destruct resp as [rs|e]; [destruct (is_2xx (rs_StatusCode rs))|]; walk; by split.
Qed.

Lemma removeFromGit_retires repo path :
  spec (removeFromGit repo path) s (λ t s' r, s' = s ∧ retired repo path t r).
Proof.
  unfold removeFromGit, gitea_auth, lookup_for_removal, env_ok, env.
  walk; (split; [done|]).
  all: repeat match goal with u : unit |- _ => destruct u end; subst.
  all: try match goal with H : String.eqb _ _ = false |- _ => apply String.eqb_neq in H end.
  all: try match goal with H : String.eqb _ _ = true |- _ => apply String.eqb_eq in H as -> end.
  - apply (retired_absent repo path a r1). by left.
  - apply (retired_absent repo path a r1). by right.
  - pose proof (retired_sent repo path a r1 sha (Ok a2)) as H. unfold delete_result in H.
    rewrite Heqb0 in H. by apply H.
  - pose proof (retired_sent repo path a r1 sha (Ok a2)) as H. unfold delete_result in H.
    rewrite Heqb0 in H. by apply H.
  - by apply (retired_sent repo path a r1 sha (Err e)).
  - by apply (retired_unbuilt repo path a r1 sha e).
  - apply (retired_panic repo path a e).
  - apply (retired_unauthorised repo path).
Qed.

Lemma gitPut_delivers repo path yaml :
  spec (gitPut repo path yaml) s (λ t s' r, s' = s ∧ delivered repo [(path, yaml)] t r).
Proof.
  eapply spec_impl; [|apply gitPut_sends]. cbn beta. intros t s' [[]|e] (-> & _ & _ & H).
  - destruct H as (x & _ & E & Hx). split; [done|].
    exists [(path, yaml)], []. rewrite E. split; [done|]. split; [by repeat constructor | done].
  - split; [done|]. exists [], [(path, yaml)]. rewrite H. split; [done|].
    split; [constructor | by split].
Qed.

(** C8: gitPut leaves the object under reconciliation alone, sends at most one PUT and no DELETE,
    and returns nil exactly when its PUT carried the file's content to the file's path and was
    acknowledged with a 2xx status; after an error no PUT was acknowledged. *)
Theorem gitPut_spec repo path yaml :
  spec (gitPut repo path yaml) s (λ t s' r,
    s' = s ∧ (length (sent "PUT" t) ≤ 1)%nat ∧ sent "DELETE" t = [] ∧
    match r with
    | Ok _ => ∃ x, sent "PUT" t = [x] ∧ acked t = [x] ∧ acknowledged_put repo path yaml x
    | Err _ => acked t = []
    end).
Proof. apply gitPut_sends. Qed.

(** C38: removeFromGit's outcome.  A nil result: the lookup reported the file absent or gave no SHA
    and nothing was deleted, or exactly one DELETE of the SHA found was sent and answered with a
    2xx status or 404.  An error never follows a DELETE answered that way. *)
Theorem removeFromGit_spec repo path :
  spec (removeFromGit repo path) s (λ t s' r,
    s' = s ∧
    match r with
    | Ok _ => ∃ rq rs, sent "GET" t = [(rq, rs)] ∧
        match lookup_result rs with
        | Absent | FileSha "" => sent "DELETE" t = []
        | FileSha sha => ∃ auth drs,
            sent "DELETE" t = [(json_request "DELETE" auth (contents_url auth.1 repo path)
                                  (delete_body path sha), Ok drs)] ∧
            (is_2xx (rs_StatusCode drs) = true ∨ rs_StatusCode drs = StatusNotFound)
        end
    | Err _ => ∀ rq drs, (rq, Ok drs) ∈ sent "DELETE" t →
        is_2xx (rs_StatusCode drs) = false ∧ rs_StatusCode drs ≠ StatusNotFound
    end).
Proof.
  unfold removeFromGit, gitea_auth, lookup_for_removal, env_ok, env. walk.
  all: split; [done|]; subst; cbn -[contents_url delete_body lookup_result].
  all: try match goal with
       | H : lookup_result _ = _ |- _ => eexists _, _; split; [reflexivity|]; rewrite H
       end.
  all: try done.
  all: try match goal with
       | |- match ?sha with _ => _ end => destruct sha as [|c sha]; try done;
           eexists (_, _), _; split; [reflexivity|]
       end.
  all: try (intros ? ? Hin; repeat apply elem_of_cons in Hin as [[= -> ->]|Hin];
            by apply elem_of_nil in Hin).
  - by apply String.eqb_eq in Heqb as ->.
  - intros rq drs Hin. apply elem_of_cons in Hin as [[= -> ->]|Hin];
      [|by apply elem_of_nil in Hin].
    unfold is_2xx. split; [|intros E; rewrite E in Heqb0; done].
    apply negb_false_iff. apply orb_true_iff in Heqb0 as [->|[-> _]%andb_true_iff]; [done|].
    apply orb_true_r.
  - apply orb_false_iff in Heqb0 as [H1 H2]. unfold is_2xx. rewrite H1.
    destruct (300 <=? rs_StatusCode a2); simpl in *; [right|by left].
    apply negb_false_iff, Z.eqb_eq in H2. done.
Qed.

(** secretYAML renders every entry of the Secret exactly once, whatever the map order, and each
    rendered value decodes to the entry's bytes. *)
Theorem secretYAML_complete name namespace data :
  spec (secretYAML name namespace data) s (λ t s' r,
    s' = s ∧ ∃ entries,
      entries ≡ₚ map_to_list data ∧
      r = Ok (secret_header name namespace +:+ concat_strings (secret_entry <$> entries)) ∧
      ∀ k v, (k, v) ∈ entries ↔ data !! k = Some v).
Proof.
  unfold secretYAML, range_map, env. walk. split; [done|].
  eexists. split; [apply shuffle_perm|]. split; [done|].
  intros k v. rewrite shuffle_perm. apply elem_of_map_to_list.
Qed.
End gitops_properties.

(** The value of a rendered entry is recovered by decoding it. *)
Lemma secret_entry_value k v :
  secret_entry (k, v) = "  " +:+ k +:+ ": " +:+ EncodeToString v +:+ nl ∧
  DecodeString (EncodeToString v) = Some v.
Proof. split; [reflexivity | apply DecodeString_EncodeToString]. Qed.
