(* ===== verification/Subscribers.v ===== *)
(** * Subscribers: per-SIM provisioning through the webconsole

    [webuiPost] is the upsert of subscriber_controller.go that the Subscriber and the NetworkSlice
    reconcilers share; [reconcile_subscriber] is SubscriberReconciler.Reconcile after the object
    was read.  [provisioned] lists what the webconsole and the core's database have acknowledged
    in a trace; the theorems say that a Subscriber is reported provisioned exactly when its SIM
    was acknowledged. *)

From S2P Require Import Prelude GoText Net Host Prog Api Effects Helpers GitOps.

Definition webuiBase : string := "http://webui.default.svc.cluster.local:5000".
Definition StatusConflict : Z := 409.
Definition Minute : Z := 60 * Second.

(** ** The webconsole *)

(** An existing object (409) counts as success: the POST is an upsert by intent. *)
Definition accepted_code (code : Z) : bool := (code =? StatusConflict) || is_2xx code.

Definition webui_request (path : string) (body : json) : http_request :=
  {| rq_Method := "POST"; rq_URL := webuiBase +:+ path; rq_BasicAuth := None;
     rq_ContentType := Some "application/json"; rq_Body := Some body |}.

(** json.Marshal cannot fail on the maps the controllers pass. *)
Definition webuiPost {St} (path : string) (body : json) : act Env St unit :=
  _ ← wrap ("build request " +:+ path +:+ ": ")
        (env_ok (env (NewRequest "POST" (webuiBase +:+ path))));
  resp ← env (HttpDo (webui_request path body));
  match resp with
  | Err e => throw (wrapf ("POST " +:+ path +:+ " (is the webui reachable?): ") e)
  | Ok rs =>
      if accepted_code (rs_StatusCode rs) then mret tt
      else throw (http_status_error "POST" path 512 rs)
  end.

(** ** What was provisioned *)

Inductive provision_act :=
| Posted (rq : http_request)
| Executed (rq : exec_request).

(** The call an event acknowledges, if it does. *)
Definition provision_of (e : event Env) : option provision_act :=
  match e with
  | Ev c r =>
      match c return answer c → option provision_act with
      | HttpDo rq => λ r,
          match r with
          | Ok rs => if accepted_code (rs_StatusCode rs) then Some (Posted rq) else None
          | Err _ => None
          end
      | ExecStream rq => λ r,
          match xo_Err r with None => Some (Executed rq) | Some _ => None end
      | _ => λ _, None
      end r
  end.

Definition provisioned (t : list (event Env)) : list provision_act := omap provision_of t.

Lemma provisioned_app t1 t2 : provisioned (t1 ++ t2)%list = (provisioned t1 ++ provisioned t2)%list.
Proof. apply omap_app. Qed.

(** [m] provisions the list in order: all of it when it succeeds, a proper prefix when it fails;
    it touches neither the object nor its status. *)
Definition provisions {St A} (m : act Env St A) (s : St) (plan : list provision_act) : Prop :=
  spec m s (λ t s' r,
    s' = s ∧ statuses t = [] ∧
    match r with
    | Ok _ => provisioned t = plan
    | Err _ => ∃ rest, rest ≠ [] ∧ plan = (provisioned t ++ rest)%list
    end).

Lemma provisions_seq {St A B} (m1 : act Env St A) (m2 : act Env St B) s p1 p2 :
  provisions m1 s p1 → provisions m2 s p2 → provisions (_ ← m1; m2) s (p1 ++ p2)%list.
Proof.
  unfold provisions. intros H1 H2. apply spec_bind. eapply spec_impl; [|exact H1].
  cbn beta. intros t1 s1 [a|e] (-> & Hs & Hp).
  - eapply spec_impl; [|exact H2]. cbn beta. intros t2 s2 r (-> & Hs2 & Hp2).
    rewrite statuses_app, provisioned_app, Hs, Hs2, Hp. split; [done|]. split; [done|].
    destruct r; [by rewrite Hp2|]. destruct Hp2 as (rest & Hne & ->).
    exists rest. split; [done|]. by rewrite app_assoc.
  - split; [done|]. split; [done|]. destruct Hp as (rest & Hne & ->).
    exists (rest ++ p2)%list. split; [by destruct rest|]. by rewrite app_assoc.
Qed.

Lemma provisions_ret {St A} (a : A) (s : St) : provisions (mret a) s [].
Proof. by apply spec_ret. Qed.

Lemma provisions_for_each {St A} (l : list A) (f : A → act Env St unit) (s : St) plan :
  (∀ x, provisions (f x) s (plan x)) → provisions (for_each l f) s (mjoin (plan <$> l)).
Proof.
  intros H. induction l as [|x l IH]; [apply provisions_ret|].
  by apply (provisions_seq (f x) (for_each l f) s (plan x)).
Qed.

Lemma webuiPost_provisions {St} path body (s : St) :
  provisions (webuiPost path body) s [Posted (webui_request path body)].
Proof.
  unfold provisions, webuiPost, env_ok, env. walk.
  all: split; [done|]; split; [done|].
  all: cbn; repeat match goal with
    | H : accepted_code _ = _ |- _ => rewrite H; clear H
    end; try done; by exists [Posted (webui_request path body)].
Qed.

(** ** Subscriber *)

Definition too_short (s : SubscriberSpec) : bool := (String.length (sub_IMSI s) <? 5)%nat.

Definition sequence_number (s : SubscriberSpec) : string :=
  if String.eqb (sub_SequenceNumber s) "" then "16f3b3f70fc2" else sub_SequenceNumber s.

Definition subscriber_body (s : SubscriberSpec) : json :=
  JObj [("plmnID", JStr (take_bytes 5 (sub_IMSI s)));
        ("opc", JStr (sub_Opc s));
        ("key", JStr (sub_Key s));
        ("sequenceNumber", JStr (sequence_number s))].

Definition subscriber_path (s : SubscriberSpec) : string :=
  "/api/subscriber/imsi-" +:+ sub_IMSI s.

Section subscriber.
Context {AM : Apimachinery}.

Definition with_sub_status (phase message : string) (st : ConditionStatus) (reason : string)
    (sub : Subscriber) : Subscriber :=
  set_sub_status
    {| subs_Phase := phase; subs_Message := message;
       subs_Conditions := setCondition (subs_Conditions (sub_status sub)) "Ready" st reason
                            message (Generation (sub_meta sub)) |} sub.

Definition failed_subscriber (e : error) (sub : Subscriber) : Subscriber :=
  with_sub_status "Failed" (err_msg e) ConditionFalse "ProvisionFailed" sub.

Definition provisioned_subscriber (sub : Subscriber) : Subscriber :=
  with_sub_status "Provisioned"
    (Sprintf "subscriber imsi-%s provisioned into UDR (slice %s)"
       [FStr (sub_IMSI (sub_spec sub)); FStr (sub_SliceRef (sub_spec sub))])
    ConditionTrue "Provisioned" sub.

(** [r.Status().Update(ctx, &sub)], its error logged. *)
Definition write_sub_status (on_error : string) : act Env Subscriber unit :=
  sub ← get;
  r ← env (KStatusUpdate KSubscriber sub);
  match r with
  | Ok sub' => modify (λ _, sub')
  | Err e => env (LogError e on_error [("imsi", sub_IMSI (sub_spec sub))])
  end.

Definition subFail (e : error) : act Env Subscriber Result :=
  sub ← get;
  _ ← env (LogError e "Subscriber provisioning FAILED" [("imsi", sub_IMSI (sub_spec sub))]);
  _ ← modify (failed_subscriber e);
  _ ← write_sub_status "Subscriber: also failed status update";
  mret {| RequeueAfter := 20 * Second |}.

Definition provision_subscriber : act Env Subscriber unit :=
  sub ← get;
  let s := sub_spec sub in
  if too_short s then
    throw (errorf (Sprintf "imsi %q too short (need >=5 digits for the PLMN)" [FStr (sub_IMSI s)]))
  else webuiPost (subscriber_path s) (subscriber_body s).

Definition subscriber_done : act Env Subscriber Result :=
  _ ← modify provisioned_subscriber;
  _ ← write_sub_status "Subscriber: status update";
  sub ← get;
  _ ← env (LogInfo "Subscriber provisioned"
             [("imsi", sub_IMSI (sub_spec sub)); ("slice", sub_SliceRef (sub_spec sub))]);
  mret {| RequeueAfter := 2 * Minute |}.

Definition reconcile_subscriber : act Env Subscriber Result :=
  r ← try provision_subscriber;
  match r with
  | Ok _ => subscriber_done
  | Err e => subFail e
  end.

Definition Reconcile (ns name : string) : prog Env (result Result) :=
  Call (S := Env) (KGet KSubscriber ns name) (λ ans,
    match ans with
    | Err e => Ret (match IgnoreNotFound e with None => Ok no_requeue | Some e => Err e end)
    | Ok sub => x ← reconcile_subscriber sub; mret x.2
    end).

(** *** Properties *)

(** A Subscriber is reported provisioned exactly when the webconsole acknowledged its SIM, and
    failed otherwise: one status is written, after the request, the reconcile returns no error
    and always asks to be run again - after two minutes, to repair a wiped database, or after
    twenty seconds when it failed.  An IMSI shorter than a PLMN is never sent. *)
Theorem subscriber_reported sub :
  let s := sub_spec sub in
  spec reconcile_subscriber sub (λ t _ res,
    (too_short s = false ∧
     provisioned t = [Posted (webui_request (subscriber_path s) (subscriber_body s))] ∧
     statuses t = [existT KSubscriber (provisioned_subscriber sub)] ∧
     res = Ok {| RequeueAfter := 2 * Minute |})
    ∨
    (provisioned t = [] ∧ (too_short s = true → exchanges t = []) ∧
     (∃ e, statuses t = [existT KSubscriber (failed_subscriber e sub)]) ∧
     res = Ok {| RequeueAfter := 20 * Second |})).
Proof.
  cbn beta zeta. unfold reconcile_subscriber. apply spec_bind, spec_try.
  unfold provision_subscriber. apply spec_bind, spec_get. destruct (too_short (sub_spec sub)) eqn:E.
  - apply spec_throw. unfold subFail, write_sub_status, env. walk; right; split_and!; try done; by eexists.
  - eapply spec_impl; [|apply webuiPost_provisions]. cbn beta. intros t sub' [[]|e] (-> & Hs & Hp).
    + unfold subscriber_done, write_sub_status, env.
      walk; left; rewrite !statuses_app, !provisioned_app, Hs, Hp; done.
    + destruct Hp as (rest & Hne & Hp).
      assert (provisioned t = []) as Ht by (destruct (provisioned t) as [|? []]; naive_solver).
      unfold subFail, write_sub_status, env.
      walk; right; rewrite !statuses_app, !provisioned_app, Hs, Ht;
        split_and!; try done; try (by eexists); congruence.
Qed.
End subscriber.
