(* ===== verification/Slices.v ===== *)
(** * Network slices: provisioning a slice into the webconsole and the core's database

    [reconcile_slice] is NetworkSliceReconciler.Reconcile after the object was read: the device
    group (the IMSIs of the slice's Subscribers, its UE pool), the network slice (PLMN, gNBs with
    their TAC, UPF), then the two repairs of mongo_helpers.go, executed in the mongodb-0 pod.
    [slice_plan] is the specification: the list of acts a fully provisioned slice consists of. *)

From S2P Require Import Prelude GoText Net Host Prog Api Effects Helpers GitOps Subscribers.

(** ** The database (mongo_helpers.go) *)

Definition mongo_request (js : string) : exec_request :=
  {| ex_Pod := "mongodb-0"; ex_Container := "mongodb";
     ex_Command := ["mongosh"; "aether"; "--quiet"; "--eval"; js] |}.

Definition mongoExec {St} (cfg : rest_config) (cs : clientset) (js : string) : act Env St unit :=
  _ ← wrap "build mongo exec: " (env_ok (env (NewExecutor cfg cs (mongo_request js))));
  out ← env (ExecStream (mongo_request js));
  match xo_Err out with
  | Some e => throw (wrapf ("mongo exec (" +:+ xo_Stderr out +:+ "): ") e)
  | None => mret tt
  end.

Definition dnn_script (dg dnn pool : string) (mbrUp mbrDn : Z) : string :=
  Sprintf (raw "db.getCollection('webconsoleData.snapshots.devGroupData').updateOne({'group-name':'%s'},{$set:{'ip-domains':[{'dnn':'%s','ue-ip-pool':'%s','dns-primary':'8.8.8.8','mtu':1400,'ue-dnn-qos':{'dnn-mbr-downlink':%d,'bitrate-unit':'bps','traffic-class':{'qci':9,'arp':1,'pdb':300,'pelr':6,'name':'platinum'},'dnn-mbr-uplink':%d}}]}})")
    [FStr dg; FStr dnn; FStr pool; FInt mbrDn; FInt mbrUp].

Definition ensureDnnConfig {St} (cfg : rest_config) (cs : clientset) (dg dnn pool : string)
    (mbrUp mbrDn : Z) : act Env St unit :=
  mongoExec cfg cs (dnn_script dg dnn pool mbrUp mbrDn).

Definition collections : list string :=
  ["subscriptionData.provisionedData.amData";
   "subscriptionData.provisionedData.smData";
   "subscriptionData.provisionedData.smfSelectionSubscriptionData";
   "policyData.ues.amData";
   "policyData.ues.smData"].

Definition clone_script (imsi sd c : string) : string :=
  Sprintf (raw "var c=db.getCollection('%s'); if(c.countDocuments({ueId:/%s/})==0){var t=c.findOne({ueId:{$exists:true}}); if(t){var o=JSON.parse(JSON.stringify(t).replace(/`sd`:`[0-9a-fA-F]{6}`/g,'`sd`:`%s`').replace(new RegExp(t.ueId.replace('imsi-',''),'g'),'%s')); o.ueId='imsi-%s'; delete o._id; c.insertOne(o);}}")
    [FStr c; FStr imsi; FStr sd; FStr imsi; FStr imsi].

Definition ensureProvisionedData {St} (cfg : rest_config) (cs : clientset) (imsi sd : string) :
    act Env St unit :=
  for_each collections (λ c,
    wrap ("clone " +:+ c +:+ " for " +:+ imsi +:+ ": ")
      (mongoExec cfg cs (clone_script imsi sd c))).

(** ** What the webconsole is sent *)

Definition or_empty (v d : string) : string := if String.eqb v "" then d else v.

(** The spec with its defaults. *)
Definition slice_defaults (s : NetworkSliceSpec) : NetworkSliceSpec :=
  {| ns_Sst := or_empty (ns_Sst s) "1";
     ns_Sd := ns_Sd s;
     ns_Dnn := or_empty (ns_Dnn s) "internet";
     ns_UePool := ns_UePool s;
     ns_UpfName := or_empty (ns_UpfName s) "upf";
     ns_Plmn := {| plmn_Mcc := or_empty (plmn_Mcc (ns_Plmn s)) "001";
                   plmn_Mnc := or_empty (plmn_Mnc (ns_Plmn s)) "01" |};
     ns_Gnbs := ns_Gnbs s;
     ns_Qos := ns_Qos s |}.

Definition mbr (v : Z) : Z := if v =? 0 then 1000000000 else v.

(** The IMSIs of the Subscribers that reference the slice, in listing order. *)
Definition slice_imsis (name : string) (subs : list Subscriber) : list string :=
  (λ sub, sub_IMSI (sub_spec sub)) <$>
    List.filter (λ sub, String.eqb (sub_SliceRef (sub_spec sub)) name) subs.

Definition group_name (name : string) : string := "dg-" +:+ name.

Definition device_group (name : string) (s : NetworkSliceSpec) (imsis : list string) : json :=
  JObj [("imsis", JArr (JStr <$> imsis));
        ("site-info", JStr name);
        ("ip-domain-name", JStr ("pool-" +:+ name));
        ("ip-domain-expanded",
         JObj [("dnn", JStr (ns_Dnn s));
               ("ue-ip-pool", JStr (ns_UePool s));
               ("dns-primary", JStr "8.8.8.8");
               ("mtu", JInt 1400);
               ("ue-dnn-qos",
                JObj [("dnn-mbr-uplink", JInt (mbr (qos_MbrUplink (ns_Qos s))));
                      ("dnn-mbr-downlink", JInt (mbr (qos_MbrDownlink (ns_Qos s))));
                      ("traffic-class",
                       JObj [("name", JStr "platinum"); ("qci", JInt 9); ("arp", JInt 1);
                             ("pdb", JInt 300); ("pelr", JInt 6)])])])].

Definition gnb_json (g : GnbRef) : json :=
  JObj [("name", JStr (gnb_Name g)); ("tac", JInt (if gnb_Tac g =? 0 then 1 else gnb_Tac g))].

Definition network_slice (name : string) (s : NetworkSliceSpec) : json :=
  JObj [("slice-id", JObj [("sst", JStr (ns_Sst s)); ("sd", JStr (ns_Sd s))]);
        ("site-device-group", JArr [JStr (group_name name)]);
        ("site-info",
         JObj [("site-name", JStr name);
               ("plmn", JObj [("mcc", JStr (plmn_Mcc (ns_Plmn s)));
                              ("mnc", JStr (plmn_Mnc (ns_Plmn s)))]);
               ("gNodeBs", JArr (gnb_json <$> ns_Gnbs s));
               ("upf", JObj [("upf-name", JStr (ns_UpfName s)); ("upf-port", JStr "8805")])])].

Definition group_path (name : string) : string :=
  "/config/v1/device-group/" +:+ group_name name.
Definition slice_path (name : string) : string := "/config/v1/network-slice/" +:+ name.

(** ** NetworkSliceReconciler *)

(** [clientset] is nil until SetupWithManager ran. *)
Record NetworkSliceReconciler := { nsr_Config : rest_config; nsr_clientset : option clientset }.

(** The two repairs of the database. *)
Definition repair (r : NetworkSliceReconciler) (name : string) (s : NetworkSliceSpec)
    (imsis : list string) : act Env NetworkSlice unit :=
  match nsr_clientset r with
  | None => mret tt
  | Some cs =>
      _ ← ensureDnnConfig (nsr_Config r) cs (group_name name) (ns_Dnn s) (ns_UePool s)
            (mbr (qos_MbrUplink (ns_Qos s))) (mbr (qos_MbrDownlink (ns_Qos s)));
      for_each imsis (λ imsi, ensureProvisionedData (nsr_Config r) cs imsi (ns_Sd s))
  end.

(** The part of Reconcile whose errors go to sliceFail; the IMSIs are its result. *)
Definition provision_slice (r : NetworkSliceReconciler) : act Env NetworkSlice (list string) :=
  ns ← get;
  let name := Name (ns_meta ns) in
  let s := slice_defaults (ns_spec ns) in
  subs ← wrap "list subscribers: " (env_ok (env (KList KSubscriber None [])));
  let imsis := slice_imsis name subs in
  _ ← webuiPost (group_path name) (device_group name s imsis);
  _ ← webuiPost (slice_path name) (network_slice name s);
  _ ← repair r name s imsis;
  mret imsis.

Section slice.
Context {AM : Apimachinery}.

Definition failed_slice (e : error) (ns : NetworkSlice) : NetworkSlice :=
  set_ns_status
    {| nss_Phase := "Failed"; nss_Message := err_msg e;
       nss_Provisioned := nss_Provisioned (ns_status ns);
       nss_Conditions := setCondition (nss_Conditions (ns_status ns)) "Ready" ConditionFalse
                           "ProvisionFailed" (err_msg e) (Generation (ns_meta ns)) |} ns.

Definition slice_message (ns : NetworkSlice) (imsis : list string) : string :=
  let s := slice_defaults (ns_spec ns) in
  Sprintf "slice %s (sst=%s sd=%s) provisioned: %d gNB(s), %d subscriber(s), upf=%s"
    [FStr (Name (ns_meta ns)); FStr (ns_Sst s); FStr (ns_Sd s);
     FInt (Z.of_nat (length (ns_Gnbs s))); FInt (Z.of_nat (length imsis)); FStr (ns_UpfName s)].

Definition provisioned_slice (now : Z) (imsis : list string) (ns : NetworkSlice) : NetworkSlice :=
  set_ns_status
    {| nss_Phase := "Provisioned"; nss_Message := slice_message ns imsis;
       nss_Provisioned := FormatRFC3339 now;
       nss_Conditions := setCondition (nss_Conditions (ns_status ns)) "Ready" ConditionTrue
                           "Provisioned" (slice_message ns imsis) (Generation (ns_meta ns)) |} ns.

(** [r.Status().Update(ctx, &ns)], its error logged. *)
Definition write_slice_status (on_error : string) : act Env NetworkSlice unit :=
  ns ← get;
  r ← env (KStatusUpdate KNetworkSlice ns);
  match r with
  | Ok ns' => modify (λ _, ns')
  | Err e => env (LogError e on_error [("slice", Name (ns_meta ns))])
  end.

Definition sliceFail (e : error) : act Env NetworkSlice Result :=
  ns ← get;
  _ ← env (LogError e "NetworkSlice provisioning FAILED" [("slice", Name (ns_meta ns))]);
  _ ← modify (failed_slice e);
  _ ← write_slice_status "NetworkSlice: also failed status update";
  mret {| RequeueAfter := 20 * Second |}.

Definition slice_done (imsis : list string) : act Env NetworkSlice Result :=
  ns0 ← get;
  let s := slice_defaults (ns_spec ns0) in
  now ← env Now;
  _ ← modify (provisioned_slice now imsis);
  _ ← write_slice_status "NetworkSlice: status update";
  ns ← get;
  _ ← env (LogInfo "NetworkSlice provisioned"
             [("slice", Name (ns_meta ns)); ("sd", ns_Sd s);
              ("gnbs", Itoa (Z.of_nat (length (ns_Gnbs s))));
              ("imsis", Itoa (Z.of_nat (length imsis)))]);
  mret {| RequeueAfter := 30 * Second |}.

Definition reconcile_slice (r : NetworkSliceReconciler) : act Env NetworkSlice Result :=
  x ← try (provision_slice r);
  match x with
  | Ok imsis => slice_done imsis
  | Err e => sliceFail e
  end.

Definition Reconcile (r : NetworkSliceReconciler) (ns name : string) : prog Env (result Result) :=
  Call (S := Env) (KGet KNetworkSlice ns name) (λ ans,
    match ans with
    | Err e => Ret (match IgnoreNotFound e with None => Ok no_requeue | Some e => Err e end)
    | Ok o => x ← reconcile_slice r o; mret x.2
    end).
End slice.

(** ** The Subscriber watch (SetupWithManager): the slices a changed Subscriber re-queues *)

Definition slice_requests (sub : Subscriber) : list (string * string) :=
  if String.eqb (sub_SliceRef (sub_spec sub)) "" then []
  else [(Namespace (sub_meta sub), sub_SliceRef (sub_spec sub))].

(** ** Properties *)

(** Everything a provisioned slice consists of, in order. *)
Definition slice_plan (r : NetworkSliceReconciler) (ns : NetworkSlice) (subs : list Subscriber) :
    list provision_act :=
  let name := Name (ns_meta ns) in
  let s := slice_defaults (ns_spec ns) in
  let imsis := slice_imsis name subs in
  Posted (webui_request (group_path name) (device_group name s imsis))
  :: Posted (webui_request (slice_path name) (network_slice name s))
  :: match nsr_clientset r with
     | None => []
     | Some _ =>
         Executed (mongo_request (dnn_script (group_name name) (ns_Dnn s) (ns_UePool s)
                                    (mbr (qos_MbrUplink (ns_Qos s)))
                                    (mbr (qos_MbrDownlink (ns_Qos s)))))
         :: (imsi ← imsis; c ← collections;
             [Executed (mongo_request (clone_script imsi (ns_Sd s) c))])
     end.

Lemma mongoExec_provisions {St} cfg cs js (s : St) :
  provisions (mongoExec cfg cs js) s [Executed (mongo_request js)].
Proof.
  unfold provisions, mongoExec, env_ok, env. walk.
  all: split; [done|]; split; [done|].
  all: cbn; repeat match goal with H : xo_Err _ = _ |- _ => rewrite H; clear H end;
    try done; by exists [Executed (mongo_request js)].
Qed.

Lemma provisions_wrap {St A} p (m : act Env St A) (s : St) plan :
  provisions m s plan → provisions (wrap p m) s plan.
Proof.
  unfold provisions. intros H. apply spec_wrap. eapply spec_impl; [|exact H].
  intros t s' [a|e]; done.
Qed.

(** The loops of the plan, with one act per round. *)
Lemma bind_singletons {A B} (l : list A) (f : A → B) : (x ← l; [f x]) = mjoin ((λ x, [f x]) <$> l).
Proof. induction l as [|x l IH]; [done|]. simpl. f_equal. exact IH. Qed.

Lemma bind_join {A B} (l : list A) (f : A → list B) : (l ≫= f) = mjoin (f <$> l).
Proof. induction l as [|x l IH]; [done|]. simpl. f_equal. exact IH. Qed.

Lemma ensureProvisionedData_provisions {St} cfg cs imsi sd (s : St) :
  provisions (ensureProvisionedData cfg cs imsi sd) s
    (c ← collections; [Executed (mongo_request (clone_script imsi sd c))]).
Proof.
  rewrite bind_singletons. apply provisions_for_each. intros c.
  apply provisions_wrap, mongoExec_provisions.
Qed.

Lemma repair_provisions r name s imsis ns :
  provisions (repair r name s imsis) ns
    match nsr_clientset r with
    | None => []
    | Some _ =>
        Executed (mongo_request (dnn_script (group_name name) (ns_Dnn s) (ns_UePool s)
                                   (mbr (qos_MbrUplink (ns_Qos s)))
                                   (mbr (qos_MbrDownlink (ns_Qos s)))))
        :: (imsi ← imsis; c ← collections;
            [Executed (mongo_request (clone_script imsi (ns_Sd s) c))])
    end.
Proof.
  unfold repair. destruct (nsr_clientset r) as [cs|]; [|apply provisions_ret].
  apply (provisions_seq _ _ ns [_]); [apply mongoExec_provisions|].
  rewrite bind_join. apply provisions_for_each. intros imsi. apply ensureProvisionedData_provisions.
Qed.

(** The value of a sequence is that of its last action. *)
Definition yields {St A} (m : act Env St A) (a : A) : Prop :=
  ∀ s, spec m s (λ _ _ r, ∀ b, r = Ok b → b = a).

Lemma yields_ret {St A} (a : A) : yields (mret a : act Env St A) a.
Proof. intros s. apply spec_ret. congruence. Qed.

Lemma yields_seq {St A B} (m1 : act Env St A) (m2 : act Env St B) b :
  yields m2 b → yields (_ ← m1; m2) b.
Proof.
  intros H s. apply spec_bind. eapply (always_impl _ (λ _ _, True)); [|apply always_true].
  intros t [s' [a|e]] _; [|done]. apply H.
Qed.

(** Success or failure after the provisioning, as one written status. *)
Section reports.
Context {AM : Apimachinery}.

Lemma sliceFail_reports e ns :
  spec (sliceFail e) ns (λ t _ res,
    provisioned t = [] ∧ statuses t = [existT KNetworkSlice (failed_slice e ns)] ∧
    res = Ok {| RequeueAfter := 20 * Second |}).
Proof. unfold sliceFail, write_slice_status, env. walk; done. Qed.

Lemma slice_done_reports imsis ns :
  spec (slice_done imsis) ns (λ t _ res,
    provisioned t = [] ∧
    (∃ now, statuses t = [existT KNetworkSlice (provisioned_slice now imsis ns)]) ∧
    res = Ok {| RequeueAfter := 30 * Second |}).
Proof. unfold slice_done, write_slice_status, env. walk; split_and!; try done; by eexists. Qed.

Lemma provision_slice_plan r ns :
  spec (provision_slice r) ns (λ t ns' res, ns' = ns ∧ statuses t = [] ∧
    ∃ listing t', t = @Ev Env (KList KSubscriber None []) listing :: t' ∧
      match listing with
      | Err e => t' = [] ∧ res = Err (wrapf "list subscribers: " e)
      | Ok subs =>
          match res with
          | Ok imsis => imsis = slice_imsis (Name (ns_meta ns)) subs ∧
                        provisioned t = slice_plan r ns subs
          | Err _ => ∃ rest, rest ≠ [] ∧ slice_plan r ns subs = (provisioned t ++ rest)%list
          end
      end).
Proof.
  unfold provision_slice. apply spec_bind, spec_get. cbn beta zeta.
  unfold env_ok, env. do 4 step_spec. cbn beta iota. rename r0 into listing.
  apply spec_of_result. destruct listing as [subs|e]; cbn beta iota.
  - set (name := Name (ns_meta ns)). set (s := slice_defaults (ns_spec ns)).
    set (imsis := slice_imsis name subs).
    assert (provisions (_ ← webuiPost (group_path name) (device_group name s imsis);
                        _ ← webuiPost (slice_path name) (network_slice name s);
                        _ ← repair r name s imsis; mret imsis) ns
              (slice_plan r ns subs ++ [])%list) as H.
    { apply (provisions_seq _ _ ns [_] (_ ++ [])), (provisions_seq _ _ ns [_] (_ ++ []));
        [apply webuiPost_provisions..|].
      apply provisions_seq; [apply repair_provisions | apply provisions_ret]. }
    rewrite app_nil_r in H. eapply spec_impl; [|apply (spec_and _ _ _ _ H (yields_seq _ _ _
      (yields_seq _ _ _ (yields_seq _ _ _ (yields_ret imsis))) ns))].
    cbn beta. intros t ns' res [(-> & Hs & Hp) Hy]. split; [done|].
    split; [exact Hs|]. exists (Ok subs), t. split; [done|].
    destruct res as [x|e]; [|done]. split; [by apply Hy | done].
  - split; [done|]. split; [done|]. by exists (Err e), [].
Qed.

(** C11: A slice is reported provisioned exactly when every act of its plan was acknowledged.  The
    reconcile lists the Subscribers first; then the device group with the IMSIs of the
    Subscribers that reference the slice, the network slice and the database repairs are sent in
    order, each acknowledged before the next.  The one status written says Provisioned when all
    of them were; otherwise it says Failed, only a proper prefix of the plan was acknowledged,
    and the slice is retried after twenty seconds.  No error is ever returned. *)
Theorem slice_reported r ns :
  spec (reconcile_slice r) ns (λ t _ res, ∃ listing t',
    t = @Ev Env (KList KSubscriber None []) listing :: t' ∧
    match listing with
    | Err e => provisioned t = [] ∧ res = Ok {| RequeueAfter := 20 * Second |} ∧
        statuses t = [existT KNetworkSlice (failed_slice (wrapf "list subscribers: " e) ns)]
    | Ok subs =>
        let imsis := slice_imsis (Name (ns_meta ns)) subs in
        (∃ now, provisioned t = slice_plan r ns subs ∧
           statuses t = [existT KNetworkSlice (provisioned_slice now imsis ns)] ∧
           res = Ok {| RequeueAfter := 30 * Second |})
        ∨ (∃ e rest, rest ≠ [] ∧ slice_plan r ns subs = (provisioned t ++ rest)%list ∧
           statuses t = [existT KNetworkSlice (failed_slice e ns)] ∧
           res = Ok {| RequeueAfter := 20 * Second |})
    end).
Proof.
  unfold reconcile_slice. apply spec_bind, spec_try.
  eapply spec_impl; [|apply provision_slice_plan]. cbn beta.
  intros t1 ns' x (-> & Hs1 & listing & t' & -> & Hl).
  destruct x as [imsis|e];
    (eapply spec_impl; [|first [apply slice_done_reports | apply sliceFail_reports]]);
    cbn beta; intros t2 ns2 res (Hp2 & Hs2 & ->);
    exists listing, (t' ++ t2)%list; (split; [done|]);
    rewrite provisioned_app, statuses_app, Hs1, Hp2, app_nil_r.
  - destruct listing as [subs|]; [|by destruct Hl]. destruct Hl as [-> Hp]. left.
    destruct Hs2 as [now Hs2]. by exists now.
  - destruct listing as [subs|el].
    + destruct Hl as (rest & Hne & Hp). right. by exists e, rest.
    + destruct Hl as [-> [= ->]]. done.
Qed.
End reports.

(** The watch re-queues a slice for exactly the member Subscribers of the slice's namespace:
    slice_imsis counts the Subscribers of every namespace, but a change of one outside the
    slice's namespace waits for the periodic requeue. *)
Theorem watch_covers_namespace ns sub :
  sub_SliceRef (sub_spec sub) = Name (ns_meta ns) → Name (ns_meta ns) ≠ "" →
  sub_IMSI (sub_spec sub) ∈ slice_imsis (Name (ns_meta ns)) [sub] ∧
  ((Namespace (ns_meta ns), Name (ns_meta ns)) ∈ slice_requests sub ↔
   Namespace (sub_meta sub) = Namespace (ns_meta ns)).
Proof.
  intros Href Hne. unfold slice_imsis, slice_requests. cbn [List.filter].
  rewrite Href, String.eqb_refl. apply String.eqb_neq in Hne. rewrite Hne.
  split; [left|]. rewrite list_elem_of_singleton.
  split; [by intros [= ->] | by intros ->].
Qed.

