(* ===== verification/Datapath.v ===== *)
(** * The UPF data path: the node agent

    UPFDataPathReconciler (upfdatapath_controller.go) drives the host's network stack and the
    BESS pipeline of a UPF.  One definition per step function; [datapath_steps] is the table of
    steps and [reconcile_datapath] Reconcile after the object was read.  The kernel, iptables,
    the pods and the clock are the environment. *)

From S2P Require Import Prelude GoText Net Host Prog Api Effects Helpers.

(** netlink.ParseAddr (a third-party package): an address with its prefix from CIDR text. *)
Class Netlink := { ParseAddr : string → result nl_addr }.

Record UPFDataPathReconciler :=
  { dpr_Config : rest_config; dpr_NodeName : string; dpr_clientset : option clientset }.

(** ** The egress NIC *)

(** [l.Attrs().Name] of the first usable route: an output interface the kernel knows. *)
Fixpoint first_link (usable : nl_route → bool) (routes : list nl_route) :
    act Env UPFDataPath (option string) :=
  match routes with
  | [] => mret None
  | rt :: rest =>
      if usable rt && (0 <? rt_LinkIndex rt) then
        l ← env (LinkByIndex (rt_LinkIndex rt));
        match l with
        | Ok l => mret (Some (ln_Name l))
        | Err _ => first_link usable rest
        end
      else first_link usable rest
  end.

Definition route_link (usable : nl_route → bool) (routes : result (list nl_route)) :
    act Env UPFDataPath (option string) :=
  match routes with
  | Ok routes => first_link usable routes
  | Err _ => mret None
  end.

Definition is_default (rt : nl_route) : bool :=
  match rt_Dst rt with None => true | Some ip => bool_decide (ip = IPv4zero) end.

(** The configured NIC, if this node has it. *)
Definition preferred_nic (preferred : string) : act Env UPFDataPath (option string) :=
  if String.eqb preferred "" then mret None
  else
    l ← env (LinkByName preferred);
    mret (match l with Ok _ => Some preferred | Err _ => None end).

Definition hostEgressNic (preferred : string) : act Env UPFDataPath string :=
  nic ← preferred_nic preferred;
  match nic with
  | Some nic => mret nic
  | None =>
      routes ← env (RouteGet (IPv4 (addr4 8 8 8 8)));
      nic ← route_link (λ _, true) routes;
      match nic with
      | Some nic => mret nic
      | None =>
          routes ← env RouteList;
          nic ← route_link is_default routes;
          mret (default "" nic)
      end
  end.

(** ** Bridges, addresses, forwarding and routes *)

Definition unset (s : string) : bool := String.eqb s "" || String.eqb s "null".

Definition ensure_bridge (n : string) : act Env UPFDataPath unit :=
  if unset n then mret tt
  else
    l ← env (LinkByName n);
    l ← match l with
        | Ok l => mret l
        | Err _ => wrap ("add bridge " +:+ n +:+ ": ") (env_ok (env (LinkAddBridge n)))
        end;
    wrap ("set up " +:+ n +:+ ": ") (env_ok (env (LinkSetUp l))).

Definition ensureBridge (names : list string) : act Env UPFDataPath unit :=
  for_each names ensure_bridge.

Definition or_nil {A} (r : result (list A)) : list A :=
  match r with Ok l => l | Err _ => [] end.

Section netlink.
Context {NL : Netlink}.

Definition ensure_addr (brgw : string * string) : act Env UPFDataPath unit :=
  let '(br, gw) := brgw in
  if unset gw then mret tt
  else
    l ← wrap ("link " +:+ br +:+ ": ") (env_ok (env (LinkByName br)));
    addr ← wrap ("parse " +:+ gw +:+ ": ") (of_result (ParseAddr (gw +:+ "/24")));
    existing ← env (AddrList l);
    if existsb (λ a, bool_decide (ad_IP a = ad_IP addr)) (or_nil existing) then mret tt
    else
      r ← env (AddrAdd l addr);
      match r with
      | Ok _ => mret tt
      | Err e =>
          if Contains (err_msg e) "exists" then mret tt
          else throw (wrapf ("addr add " +:+ gw +:+ " on " +:+ br +:+ ": ") e)
      end.

Definition ensureBridgeAddr (brToGw : gmap string string) : act Env UPFDataPath unit :=
  entries ← range_map (map_to_list brToGw);
  for_each entries ensure_addr.

Definition ensureForwarding (brs : list string) : act Env UPFDataPath unit :=
  _ ← wrap "ip_forward: " (env_ok (env (WriteFile "/proc/sys/net/ipv4/ip_forward" "1")));
  _ ← for_each ("all" :: brs) (λ k,
        _ ← env (WriteFile ("/proc/sys/net/ipv4/conf/" +:+ k +:+ "/rp_filter") "0"); mret tt);
  for_each brs (λ br,
    _ ← env (RunCommand ["ethtool"; "-K"; br; "tx"; "off"; "rx"; "off"; "tso"; "off";
                         "gso"; "off"; "gro"; "off"]); mret tt).

Definition ensureRoute (uePool coreNH coreBr : string) : act Env UPFDataPath unit :=
  if unset coreNH then mret tt
  else
    match ParseCIDR uePool with
    | None => throw (errorf ("uePool " +:+ uePool +:+ ": invalid CIDR address: " +:+ uePool))
    | Some (_, dst) =>
        l ← wrap ("link " +:+ coreBr +:+ ": ") (env_ok (env (LinkByName coreBr)));
        env_ok (env (RouteReplace {| nr_Dst := dst; nr_Gw := ParseIP coreNH;
                                     nr_LinkIndex := ln_Index l |}))
    end.

(** ** N6 NAT *)

Definition masquerade (uePool nic : string) : list string :=
  ["-s"; uePool; "-o"; nic; "-j"; "MASQUERADE"].

(** Delete-first insertion at the top of a chain, errors ignored. *)
Definition ins (backend table chain : string) (rule : list string) : act Env UPFDataPath unit :=
  _ ← env (IptDeleteIfExists backend table chain rule);
  _ ← env (IptInsert backend table chain 1 rule); mret tt.

Definition clamp (direction uePool : string) : list string :=
  ["-p"; "tcp"; direction; uePool; "--tcp-flags"; "SYN,RST"; "SYN"; "-j"; "TCPMSS";
   "--set-mss"; "1360"].

(** The rules of one backend; the answer is that of the MASQUERADE insertion, [None] when the
    backend is not installed. *)
Definition nat_backend (uePool nic accBr backend : string) :
    act Env UPFDataPath (option (result unit)) :=
  ipt ← env (NewIPTables backend);
  match ipt with
  | Err _ => mret None
  | Ok _ =>
      _ ← env (IptDeleteIfExists backend "nat" "POSTROUTING" (masquerade uePool nic));
      nat ← env (IptInsert backend "nat" "POSTROUTING" 1 (masquerade uePool nic));
      _ ← ins backend "filter" "FORWARD" ["-s"; uePool; "-j"; "ACCEPT"];
      _ ← ins backend "filter" "FORWARD" ["-d"; uePool; "-j"; "ACCEPT"];
      _ ← env (IptAppendUnique backend "filter" "FORWARD" ["-i"; accBr; "-o"; accBr; "-j"; "ACCEPT"]);
      docker ← env (IptChainExists backend "filter" "DOCKER-USER");
      _ ← when (match docker with Ok b => b | Err _ => false end)
            (_ ← ins backend "filter" "DOCKER-USER" ["-s"; uePool; "-j"; "ACCEPT"];
             ins backend "filter" "DOCKER-USER" ["-d"; uePool; "-j"; "ACCEPT"]);
      _ ← env (IptAppendUnique backend "mangle" "FORWARD" (clamp "-s" uePool));
      _ ← env (IptAppendUnique backend "mangle" "FORWARD" (clamp "-d" uePool));
      mret (Some nat)
  end.

(** A loop that keeps every result. *)
Fixpoint for_all {A B} (l : list A) (f : A → act Env UPFDataPath B) : act Env UPFDataPath (list B) :=
  match l with
  | [] => mret []
  | x :: r => b ← f x; rest ← for_all r f; mret (b :: rest)
  end.

Definition backends : list string := ["iptables"; "iptables-legacy"].

Definition nat_errors (results : list (string * option (result unit))) : list string :=
  omap (λ '(backend, r),
    match r with
    | Some (Err e) => Some (Sprintf "%s nat: %v" [FStr backend; FStr (err_msg e)])
    | _ => None
    end) results.

Definition nat_applied (results : list (string * option (result unit))) : bool :=
  existsb (λ '(_, r), match r with Some (Ok _) => true | _ => false end) results.

Definition ensureN6Nat (uePool nic accBr : string) : act Env UPFDataPath unit :=
  if String.eqb nic "" then
    throw (errorf "no egress NIC detected (auto-detect failed and spec.egressNic unset/invalid) — refusing to program N6 NAT on a guessed link; set spec.egressNic to the internet-facing interface")
  else
    results ← for_all backends (λ b, r ← nat_backend uePool nic accBr b; mret (b, r));
    if negb (nat_applied results) && bool_decide (nat_errors results ≠ []) then
      throw (errorf (Sprintf "n6 UE-pool MASQUERADE not applied in any backend: %s"
                       [FStr (Join (nat_errors results) "; ")]))
    else mret tt.

(** ** Neighbours *)

Definition refresh_neigh (ipdev : string * string) : act Env UPFDataPath unit :=
  let '(ip, dev) := ipdev in
  if unset ip then mret tt
  else
    l ← env (LinkByName dev);
    match l with
    | Err _ => mret tt
    | Ok l =>
        neighs ← env (NeighList (ln_Index l));
        for_each (or_nil neighs) (λ n,
          when (bool_decide (Some (nb_IP n) = ParseIP ip) && negb (nb_State n =? NUD_REACHABLE))
            (_ ← env (NeighDel n); mret tt))
    end.

Definition refreshNeigh (ipToDev : gmap string string) : act Env UPFDataPath unit :=
  entries ← range_map (map_to_list ipToDev);
  for_each entries refresh_neigh.

(** ** The UPF's pods *)

Definition PodRunning : string := "Running".

Definition bessd_started (p : Pod) : bool :=
  existsb (λ cs, String.eqb (cs_Name cs) "bessd" && bool_decide (cs_Started cs = Some true))
    (pod_ContainerStatuses p).

Definition serving (p : Pod) : bool := String.eqb (pod_Phase p) PodRunning && bessd_started p.

Definition exec_in (pod container : string) (cmd : list string) : exec_request :=
  {| ex_Pod := pod; ex_Container := container; ex_Command := cmd |}.

Definition podExec (r : UPFDataPathReconciler) (cs : clientset) (pod container : string)
    (cmd : list string) : act Env UPFDataPath unit :=
  _ ← env_ok (env (NewExecutor (dpr_Config r) cs (exec_in pod container cmd)));
  out ← env (ExecStream (exec_in pod container cmd));
  match xo_Err out with Some e => throw e | None => mret tt end.

(** The pods a selector lists; an error counts as none. *)
Definition upf_pods (cs : clientset) (upfLabel : string) : act Env UPFDataPath (list Pod) :=
  pods ← env (RListPods cs upfLabel); mret (or_nil pods).

(** The name of the first serving pod, "" when there is none. *)
Fixpoint exec_target (pods : list Pod) : string :=
  match pods with
  | [] => ""
  | p :: rest =>
      if serving p && negb (String.eqb (Name (pod_meta p)) "") then Name (pod_meta p)
      else exec_target rest
  end.

Definition route_arg (gnbIP : string) : string :=
  Sprintf (raw "{`prefix`:`%s`,`prefix_len`:32,`gate`:0}") [FStr gnbIP].

Definition stamp_script (gnbIP : string) : string :=
  Sprintf (raw "import re,subprocess
from pybess.bess import BESS
def sh(c): return subprocess.run(c,shell=True,capture_output=True,text=True)
gnb=%q
am=re.search(r'(\d+\.\d+\.\d+\.\d+)/\d+',sh(`ip -o -4 addr show dev access`).stdout)
gw=re.sub(r'\.\d+$','.1',am.group(1)) if am else ``
if sh(`ip route get `+gnb).returncode!=0 and gw:
    sh(`ip route replace `+gnb+`/32 via `+gw+` dev access`)
m=re.search(r'via (\d+\.\d+\.\d+\.\d+)',sh(`ip route get `+gnb).stdout)
nh=m.group(1) if m else gnb
sh(`ping -c1 -W1 `+nh)
mm=re.search(r'(([0-9a-f]{2}:){5}[0-9a-f]{2})',sh(`ip neigh show `+nh+` dev access`).stdout)
if not mm:
    print(`no-neigh-mac-yet`,nh); raise SystemExit(0)
val=int(mm.group(1).replace(`:`,``),16)
b=BESS(); b.connect(grpc_url=`localhost:10514`); b.pause_all()
try:
    info=b.get_module_info(`accessRoutes`)
    dst=None
    for g in info.ogates:
        if g.ogate==0: dst=g.name
    if dst:
        try: b.run_module_command(dst,`clear`,`EmptyArg`,{})
        except Exception: pass
        b.run_module_command(dst,`add`,`UpdateArg`,{`fields`:[{`offset`:0,`size`:6,`value`:val}]})
        print(`dstmac-set`,dst,mm.group(1))
finally:
    b.resume_all()
") [FStr gnbIP].

Definition ensureBessAccessRoute (r : UPFDataPathReconciler) (gnbIP upfLabel : string) :
    act Env UPFDataPath unit :=
  match dpr_clientset r with
  | None => mret tt
  | Some cs =>
      if unset gnbIP then mret tt
      else
        pods ← upf_pods cs upfLabel;
        let target := exec_target pods in
        if String.eqb target "" then mret tt
        else
          _ ← podExec r cs target "bessd"
                ["bessctl"; "command"; "module"; "accessRoutes"; "add"; "IPLookupCommandAddArg";
                 route_arg gnbIP];
          _ ← try (podExec r cs target "routectl" ["python3"; "-c"; stamp_script gnbIP]);
          mret tt
  end.

Definition hardening_script : string := raw "echo 0 > /proc/sys/net/ipv4/ip_forward 2>/dev/null || sysctl -w net.ipv4.ip_forward=0 >/dev/null 2>&1 || true
for i in access core; do ethtool -K `$i` tx off rx off tso off gso off gro off >/dev/null 2>&1 || true; done".

Definition ensureUpfPodHardening (r : UPFDataPathReconciler) (upfLabel : string) :
    act Env UPFDataPath unit :=
  match dpr_clientset r with
  | None => mret tt
  | Some cs =>
      pods ← upf_pods cs upfLabel;
      match find_first serving pods with
      | Some p =>
          _ ← try (podExec r cs (Name (pod_meta p)) "bessd" ["sh"; "-c"; hardening_script]);
          mret tt
      | None => mret tt
      end
  end.

Definition heal_pfcp (r : UPFDataPathReconciler) (cs : clientset) (p : Pod) :
    act Env UPFDataPath unit :=
  if negb (String.eqb (pod_Phase p) PodRunning) then mret tt
  else
    log ← env (RGetPodLogs cs (Namespace (pod_meta p)) (Name (pod_meta p)) "pfcp-agent" 20);
    match log with
    | Err _ => mret tt
    | Ok text =>
        when (Contains text "datapath down")
          (_ ← try (podExec r cs (Name (pod_meta p)) "pfcp-agent" ["pkill"; "-TERM"; "pfcpiface"]);
           mret tt)
    end.

Definition ensurePfcpHealthy (r : UPFDataPathReconciler) (upfLabel : string) :
    act Env UPFDataPath unit :=
  match dpr_clientset r with
  | None => mret tt
  | Some cs => pods ← upf_pods cs upfLabel; for_each pods (heal_pfcp r cs)
  end.

(** ** The N2 VIP *)

Definition isRanVIPCandidate (ip : string) : bool :=
  match Sscanf4 ip with
  | [_; _; _; d] => (240 <=? d) && (d <=? 254)
  | _ => false
  end.

(** The VIPs the exposed Services hold. *)
Definition wanted_vips (svcs : list Service) : gset string :=
  list_to_set (List.filter (λ ip, negb (String.eqb ip "")) (svcs ≫= svc_IngressIPs)).

Definition announce (l : link) (nic ip : string) : act Env UPFDataPath unit :=
  match ParseAddr (ip +:+ "/32") with
  | Err _ => mret tt
  | Ok addr => wrap ("n2-vip " +:+ ip +:+ " on " +:+ nic +:+ ": ") (env_ok (env (AddrReplace l addr)))
  end.

(** A /32 of the pool that no exposed Service holds (AddrList lists IPv4 addresses). *)
Definition stale_vip (want : gset string) (a : nl_addr) : bool :=
  (ad_Ones a =? 32) && (ad_Bits a =? 32) &&
  match ad_IP a with
  | IPv4 z => negb (bool_decide (string4 z ∈ want)) && isRanVIPCandidate (string4 z)
  | IPv6 _ => false
  end.

Definition ensureN2VIP (nic : string) : act Env UPFDataPath unit :=
  if String.eqb nic "" then mret tt
  else
    svcs ← env (KList KService None [("sdcore.nephio.io/expose", "n2")]);
    match svcs with
    | Err _ => mret tt
    | Ok svcs =>
        let want := wanted_vips svcs in
        l ← env (LinkByName nic);
        match l with
        | Err e =>
            if bool_decide (want = ∅) then mret tt
            else throw (wrapf ("n2-vip link " +:+ nic +:+ ": ") e)
        | Ok l =>
            ips ← range_map (elements want);
            _ ← for_each ips (announce l nic);
            existing ← env (AddrList l);
            for_each (or_nil existing) (λ a,
              when (stale_vip want a) (_ ← env (AddrDel l a); mret tt))
        end
    end.

(** ** Healing the UPF *)

Definition podReady (p : Pod) : bool :=
  match find_first (λ c, String.eqb (pc_Type c) "Ready") (pod_Conditions p) with
  | Some c => String.eqb (pc_Status c) "True"
  | None => false
  end.

Definition hasSecondaryNets (p : Pod) (names : list string) : bool :=
  let status := default "" (Annotations (pod_meta p) !! "k8s.v1.cni.cncf.io/network-status") in
  forallb (λ n, Contains status (raw "`interface`:`" +:+ n +:+ dquote)
                || Contains status (raw "`interface`: `" +:+ n +:+ dquote)) names.

(** Two's-complement wrap-around of an int32. *)
Definition wrap32 (z : Z) : Z := (z + 2 ^ 31) mod 2 ^ 32 - 2 ^ 31.

(** The sum of the init containers' restart counts, in int32. *)
Definition restarts (p : Pod) : Z :=
  foldl (λ acc cs, wrap32 (acc + cs_RestartCount cs)) 0 (pod_InitContainerStatuses p).

Definition crash_loop (p : Pod) : bool := 3 <=? restarts p.
Definition net_missing (now : Z) (p : Pod) : bool :=
  (45 * Second <? now - pod_Created p) && negb (hasSecondaryNets p ["access"; "core"]).

Definition being_deleted (p : Pod) : bool := bool_decide (is_Some (DeletionTimestamp (pod_meta p))).

Definition heal_upf (p : Pod) : act Env UPFDataPath unit :=
  if being_deleted p || podReady p then mret tt
  else
    now ← env Now;
    when (crash_loop p || net_missing now p) (_ ← env (KDelete KPod p); mret tt).

Definition ensureUpfHealthy (upfLabel : string) : act Env UPFDataPath unit :=
  sel ← env (LabelsParse upfLabel);
  match sel with
  | Err _ => mret tt
  | Ok sel =>
      pods ← env (KSelect KPod (Some "default") sel);
      for_each (or_nil pods) heal_upf
  end.

(** ** Reconcile *)

(** The steps, in order, with the names errors are reported under. *)
Definition datapath_steps (r : UPFDataPathReconciler) (s : UPFDataPathSpec) (nic : string) :
    list (string * act Env UPFDataPath unit) :=
  let accBr := orDefault (dp_AccessBridge s) "sdcore-access" in
  let coreBr := orDefault (dp_CoreBridge s) "sdcore-core" in
  let label := orDefault (dp_UPFLabel s) "app=upf" in
  [("bridges", ensureBridge [accBr; coreBr]);
   ("gateways", ensureBridgeAddr (<[accBr := dp_AccessGateway s]> (<[coreBr := dp_CoreGateway s]> ∅)));
   ("forwarding", ensureForwarding [coreBr; accBr]);
   ("n6-route", ensureRoute (dp_UEPool s) (dp_CoreNextHop s) coreBr);
   ("n6-nat", ensureN6Nat (dp_UEPool s) nic accBr);
   ("n2-vip", ensureN2VIP nic);
   ("upf-heal", ensureUpfHealthy label);
   ("upf-harden", ensureUpfPodHardening r label);
   ("access-route", ensureBessAccessRoute r (dp_GnbIP s) label);
   ("pfcp-heal", ensurePfcpHealthy r label);
   ("arp", refreshNeigh (<[dp_CoreNextHop s := coreBr]> (<[dp_GnbIP s := accBr]> ∅)))].

(** Every step runs; the errors are kept. *)
Definition run_step (r : UPFDataPathReconciler) (st : string * act Env UPFDataPath unit) :
    act Env UPFDataPath (option string) :=
  x ← try st.2;
  match x with
  | Ok _ => mret None
  | Err e =>
      dp ← get;
      _ ← env (LogError e "UPFDataPath step failed"
                 [("datapath", Name (dp_meta dp)); ("node", dpr_NodeName r); ("step", st.1)]);
      mret (Some (Sprintf "%s: %v" [FStr st.1; FStr (err_msg e)]))
  end.

Section status.
Context {AM : Apimachinery}.

Definition datapath_status (r : UPFDataPathReconciler) (last : string) (st : ConditionStatus)
    (reason message : string) (dp : UPFDataPath) : UPFDataPath :=
  set_dp_status
    {| dps_LastReconcile := last; dps_Node := dpr_NodeName r;
       dps_Conditions := setCondition (dps_Conditions (dp_status dp)) "Ready" st reason message
                           (Generation (dp_meta dp)) |} dp.

Definition failed_datapath (r : UPFDataPathReconciler) (failed : list string) (dp : UPFDataPath) :
    UPFDataPath :=
  datapath_status r (dps_LastReconcile (dp_status dp)) ConditionFalse "StepsFailed"
    (Join failed "; ") dp.

Definition ready_datapath (r : UPFDataPathReconciler) (now : Z) (dp : UPFDataPath) : UPFDataPath :=
  datapath_status r (FormatRFC3339 now) ConditionTrue "Reconciled"
    (Sprintf "host+BESS datapath programmed (uePool=%s gnb=%s) on %s"
       [FStr (dp_UEPool (dp_spec dp)); FStr (dp_GnbIP (dp_spec dp)); FStr (dpr_NodeName r)]) dp.

Definition report_datapath (r : UPFDataPathReconciler) (failed : list string) :
    act Env UPFDataPath Result :=
  if bool_decide (failed ≠ []) then
    _ ← modify (failed_datapath r failed);
    dp ← get;
    a ← env (KStatusUpdate KUPFDataPath dp);
    _ ← match a with Ok dp' => modify (λ _, dp') | Err _ => mret tt end;
    mret {| RequeueAfter := 15 * Second |}
  else
    now ← env Now;
    _ ← modify (ready_datapath r now);
    dp ← get;
    a ← env (KStatusUpdate KUPFDataPath dp);
    _ ← match a with
        | Ok dp' => modify (λ _, dp')
        | Err e => env (LogError e "UPFDataPath status update" [("datapath", Name (dp_meta dp))])
        end;
    mret {| RequeueAfter := 15 * Second |}.

Definition reconcile_datapath (r : UPFDataPathReconciler) : act Env UPFDataPath Result :=
  dp ← get;
  let s := dp_spec dp in
  if String.eqb (dp_UEPool s) "" then mret no_requeue
  else
    nic ← hostEgressNic (dp_EgressNic s);
    outcomes ← for_all (datapath_steps r s nic) (run_step r);
    report_datapath r (omap id outcomes).

Definition Reconcile (r : UPFDataPathReconciler) (ns name : string) : prog Env (result Result) :=
  Call (S := Env) (KGet KUPFDataPath ns name) (λ ans,
    match ans with
    | Err e => Ret (match IgnoreNotFound e with None => Ok no_requeue | Some e => Err e end)
    | Ok dp => x ← reconcile_datapath r dp; mret x.2
    end).
End status.
End netlink.

(** ** Properties of the reconcile *)

(** What a step may leave behind: a trace and its error, if any. *)
Definition step_outcome (dp : UPFDataPath) (st : string * act Env UPFDataPath unit)
    (o : list (event Env) * option string) : Prop :=
  ∃ t log r, produces (st.2 dp) t (dp, r) ∧ o.1 = (t ++ log)%list ∧
    match r with
    | Ok _ => log = [] ∧ o.2 = None
    | Err e => (∃ kv, log = [@Ev Env (LogError e "UPFDataPath step failed" kv) tt]) ∧
               o.2 = Some (Sprintf "%s: %v" [FStr st.1; FStr (err_msg e)])
    end.

(** Actions that leave the object under reconciliation alone. *)
Definition pure_on {A} (m : act Env UPFDataPath A) : Prop :=
  ∀ dp, spec m dp (λ _ dp' _, dp' = dp).

Lemma pure_ret {A} (a : A) : pure_on (mret a).
Proof. intros dp. by apply spec_ret. Qed.
Lemma pure_env c : pure_on (env c).
Proof. intros dp. unfold env. by step_spec. Qed.
Lemma pure_of_result {A} (r : result A) : pure_on (of_result r).
Proof. intros dp. by apply spec_of_result. Qed.
Lemma pure_throw {A} e : pure_on (throw e : act Env UPFDataPath A).
Proof. intros dp. by apply spec_throw. Qed.
Lemma pure_bind {A B} (m : act Env UPFDataPath A) (f : A → act Env UPFDataPath B) :
  pure_on m → (∀ a, pure_on (f a)) → pure_on (m ≫= f).
Proof.
  intros Hm Hf dp. apply spec_bind. eapply spec_impl; [|apply Hm]. cbn beta.
  intros t dp' [a|e] ->; [|done]. eapply spec_impl; [|apply Hf]. done.
Qed.
Lemma pure_wrap {A} p (m : act Env UPFDataPath A) : pure_on m → pure_on (wrap p m).
Proof. intros H dp. apply spec_wrap. eapply spec_impl; [|apply H]. done. Qed.
Lemma pure_try {A} (m : act Env UPFDataPath A) : pure_on m → pure_on (try m).
Proof. intros H dp. apply spec_try. eapply spec_impl; [|apply H]. done. Qed.
Lemma pure_for_each {A} (l : list A) f : (∀ x, pure_on (f x)) → pure_on (for_each l f).
Proof.
  intros H. induction l as [|x l IH]; [apply pure_ret|]. by apply pure_bind; [apply H|].
Qed.
Lemma pure_for_all {A B} (l : list A) (f : A → act Env UPFDataPath B) :
  (∀ x, pure_on (f x)) → pure_on (for_all l f).
Proof.
  intros H. induction l as [|x l IH]; [apply pure_ret|]. apply pure_bind; [apply H|]. intros b.
  apply pure_bind; [exact IH|]. intros. apply pure_ret.
Qed.

(** Actions that return a value, whatever the environment answers. *)
Definition total_on {A} (m : act Env UPFDataPath A) : Prop :=
  ∀ dp, spec m dp (λ _ dp' r, dp' = dp ∧ ∃ a, r = Ok a).

Lemma total_ret {A} (a : A) : total_on (mret a).
Proof. intros dp. apply spec_ret. by split; [|eexists]. Qed.
Lemma total_env c : total_on (env c).
Proof. intros dp. unfold env. step_spec. by split; [|eexists]. Qed.
Lemma total_bind {A B} (m : act Env UPFDataPath A) (f : A → act Env UPFDataPath B) :
  total_on m → (∀ a, total_on (f a)) → total_on (m ≫= f).
Proof.
  intros Hm Hf dp. apply spec_bind. eapply spec_impl; [|apply Hm]. cbn beta.
  intros t dp' res (-> & a & ->). eapply spec_impl; [|apply Hf]. done.
Qed.
Lemma total_for_each {A} (l : list A) f : (∀ x, total_on (f x)) → total_on (for_each l f).
Proof.
  intros H. induction l as [|x l IH]; [apply total_ret|]. by apply total_bind; [apply H|].
Qed.
Lemma total_try {A} (m : act Env UPFDataPath A) : pure_on m → total_on (try m).
Proof.
  intros H dp. apply spec_try. eapply spec_impl; [|apply H]. intros t dp' r ->.
  by split; [|eexists].
Qed.

Lemma hostEgressNic_total nic : total_on (hostEgressNic nic).
Proof.
  assert (∀ usable routes, total_on (first_link usable routes)) as Hf.
  { intros usable. induction routes as [|rt rest IH]; [apply total_ret|]. cbn [first_link].
    destruct (usable rt && _); [|exact IH]. apply total_bind; [apply total_env|].
    intros [l|e]; [apply total_ret | exact IH]. }
  assert (∀ usable routes, total_on (route_link usable routes)) as Hr.
  { intros usable [routes|e]; [apply Hf | apply total_ret]. }
  unfold hostEgressNic, preferred_nic. apply total_bind.
  { destruct (String.eqb _ _); [apply total_ret|]. apply total_bind; [apply total_env|].
    intros. apply total_ret. }
  intros [n|]; [apply total_ret|]. apply total_bind; [apply total_env|]. intros routes.
  apply total_bind; [apply Hr|]. intros [n|]; [apply total_ret|].
  apply total_bind; [apply total_env|]. intros routes'. apply total_bind; [apply Hr|].
  intros. apply total_ret.
Qed.

Ltac purely :=
  repeat (first
    [ apply pure_ret | apply pure_env | apply pure_of_result | apply pure_throw
    | apply pure_wrap | apply pure_try
    | apply pure_for_each; intros ? | apply pure_for_all; intros ?
    | apply pure_bind; [|intros ?]
    | match goal with
      | |- pure_on (match ?x with _ => _ end) => destruct x
      | |- pure_on (when ?b _) => unfold when; destruct b
      | |- pure_on (let '_ := ?x in _) => destruct x
      end ]).

Section steps.
Context {NL : Netlink}.

Lemma steps_pure r s nic : Forall (λ st, pure_on st.2) (datapath_steps r s nic).
Proof.
  unfold datapath_steps, ensureBridge, ensure_bridge, ensureBridgeAddr, ensure_addr,
    ensureForwarding, ensureRoute, ensureN6Nat, nat_backend, ins, ensureN2VIP, announce,
    ensureUpfHealthy, heal_upf, ensureUpfPodHardening, ensureBessAccessRoute, upf_pods, podExec,
    ensurePfcpHealthy, heal_pfcp, refreshNeigh, refresh_neigh, range_map, env_ok.
  repeat constructor; cbn [snd]; purely.
Qed.

Lemma run_step_outcome r st dp :
  pure_on st.2 →
  spec (run_step r st) dp (λ t dp' res,
    dp' = dp ∧ ∃ o, step_outcome dp st (t, o) ∧ res = Ok o).
Proof.
  intros Hpure. unfold run_step. apply spec_bind, spec_try.
  eapply always_impl; [|apply always_and; [apply Hpure | apply always_produces]].
  cbn beta. intros t [dp' x] [Hd Hp]. cbn [fst snd] in *. subst dp'. destruct x as [[]|e].
  - apply spec_ret. rewrite app_nil_r. split; [done|]. exists None. split; [|done].
    exists t, [], (Ok tt). rewrite app_nil_r. done.
  - unfold env. walk. split; [done|]. eexists. split; [|reflexivity].
    eexists t, _, (Err e). split; [done|]. split; [reflexivity|]. cbn. split; [|done].
    destruct r0. by eexists.
Qed.

Lemma run_all_outcomes r steps dp :
  Forall (λ st, pure_on st.2) steps →
  spec (for_all steps (run_step r)) dp (λ t dp' res,
    dp' = dp ∧ ∃ outs, Forall2 (step_outcome dp) steps outs ∧
      t = concat outs.*1 ∧ res = Ok outs.*2).
Proof.
  induction 1 as [|st steps Hst _ IH].
  - apply spec_ret. split; [done|]. by exists [].
  - cbn [for_all]. apply spec_bind. eapply spec_impl; [|by apply run_step_outcome].
    cbn beta. intros t dp' res (-> & o & Ho & ->). apply spec_bind.
    eapply spec_impl; [|exact IH]. cbn beta. intros t2 dp2 res (-> & outs & Hf & -> & ->).
    apply spec_ret. split; [done|]. exists ((t, o) :: outs). cbn. rewrite app_nil_r.
    split; [by constructor | done].
Qed.
End steps.

Section report.
Context {AM : Apimachinery} {NL : Netlink}.

Lemma report_outcome r failed dp :
  spec (report_datapath r failed) dp (λ t _ res,
    res = Ok {| RequeueAfter := 15 * Second |} ∧
    match failed with
    | [] => ∃ now, statuses t = [existT KUPFDataPath (ready_datapath r now dp)]
    | _ => statuses t = [existT KUPFDataPath (failed_datapath r failed dp)]
    end).
Proof.
  unfold report_datapath, env. destruct failed; case_bool_decide; try congruence; walk;
    (split; [done|]); try done; by eexists.
Qed.

(** C5: No step starves another.  A reconcile of a data path with a UE pool resolves the NIC and then
    runs all eleven steps in order, each on its own outcome, whatever the steps before it did;
    the errors of the failed ones are collected in order.  One status is written, last: Ready
    with the time when no step failed, the joined errors otherwise; the reconcile returns no
    error and asks to be run again after fifteen seconds. *)
Theorem reconcile_runs_every_step r dp :
  dp_UEPool (dp_spec dp) ≠ "" →
  spec (reconcile_datapath r) dp (λ t _ res, ∃ nic t0 outs tl,
    produces (hostEgressNic (dp_EgressNic (dp_spec dp)) dp) t0 (dp, Ok nic) ∧
    Forall2 (step_outcome dp) (datapath_steps r (dp_spec dp) nic) outs ∧
    t = (t0 ++ concat outs.*1 ++ tl)%list ∧
    res = Ok {| RequeueAfter := 15 * Second |} ∧
    let failed := omap id outs.*2 in
    match failed with
    | [] => ∃ now, statuses tl = [existT KUPFDataPath (ready_datapath r now dp)]
    | _ => statuses tl = [existT KUPFDataPath (failed_datapath r failed dp)]
    end).
Proof.
  intros Hue. unfold reconcile_datapath. apply spec_bind, spec_get. cbn beta zeta.
  apply String.eqb_neq in Hue. rewrite Hue. apply spec_bind.
  eapply always_impl; [|apply always_and; [apply hostEgressNic_total | apply always_produces]].
  cbn beta. intros t0 [dp0 x] [[Hd [nic Hx]] Hp]. cbn [fst snd] in *. subst dp0 x.
  apply spec_bind. eapply spec_impl; [|apply run_all_outcomes, steps_pure].
  cbn beta. intros t1 dp1 res (-> & outs & Hf & -> & ->).
  eapply spec_impl; [|apply report_outcome]. cbn beta. intros tl dp2 res (-> & Hs).
  by exists nic, t0, outs, tl.
Qed.
End report.

(** ** A concrete netlink *)

(** netlink.ParseAddr of an address without label or scope is net.ParseCIDR. *)
#[export] Instance std_netlink : Netlink :=
  {| ParseAddr s :=
       match ParseCIDR s with
       | Some (ip, n) => Ok {| ad_IP := ip; ad_Ones := net_Ones n; ad_Bits := net_Bits n |}
       | None => Err (errorf ("invalid CIDR address: " +:+ s))
       end |}.

(** The data path of the lab's edge. *)
Definition lab_datapath : UPFDataPath :=
  {| dp_meta := new_meta "default" "edge1-datapath";
     dp_spec := {| dp_UEPool := "172.7.0.0/16"; dp_AccessGateway := "10.101.7.1";
                   dp_CoreGateway := "10.102.7.1"; dp_CoreNextHop := "10.102.7.3";
                   dp_AccessBridge := ""; dp_CoreBridge := ""; dp_GnbIP := "10.101.7.10";
                   dp_EgressNic := "eno1"; dp_UPFLabel := "" |};
     dp_status := {| dps_LastReconcile := ""; dps_Node := ""; dps_Conditions := [] |} |}.

Definition lab_agent : UPFDataPathReconciler :=
  {| dpr_Config := RestConfig 0; dpr_NodeName := "edge1"; dpr_clientset := Some (Clientset 0) |}.

Lemma reconcile_runs_every_step_witness :
  dp_UEPool (dp_spec lab_datapath) ≠ "" ∧
  spec (reconcile_datapath lab_agent) lab_datapath
    (λ _ _ res, res = Ok {| RequeueAfter := 15 * Second |}).
Proof.
  assert (dp_UEPool (dp_spec lab_datapath) ≠ "") as H by discriminate.
  split; [exact H|]. eapply spec_impl; [|exact (reconcile_runs_every_step lab_agent lab_datapath H)].
  cbn beta. intros t dp' res (nic & t0 & outs & tl & _ & _ & _ & Hr & _). exact Hr.
Defined.
