(* ===== verification/DatapathSafety.v ===== *)
(** * What the node agent does to its host

    The theorems about the single steps of Datapath.v: the egress NIC is found, never guessed; N6
    NAT is reported only when it was programmed or cannot be; the N2 VIPs of this node are
    announced before stale ones - and only stale ones - are withdrawn; only a broken UPF pod is
    deleted. *)

From S2P Require Import Prelude GoText Net Host Prog Api Effects Helpers Datapath.

(** ** Loops *)

(** A loop whose rounds always succeed leaves one trace per element. *)
Lemma for_each_total {A} (l : list A) f (P : A → list (event Env) → Prop) (dp : UPFDataPath) :
  (∀ x, spec (f x) dp (λ t dp' r, dp' = dp ∧ r = Ok tt ∧ P x t)) →
  spec (for_each l f) dp (λ t dp' r, dp' = dp ∧ r = Ok tt ∧
    ∃ ts, Forall2 P l ts ∧ t = concat ts).
Proof.
  intros H. induction l as [|x l IH].
  - apply spec_ret. split; [done|]. split; [done|]. by exists [].
  - apply spec_bind. eapply spec_impl; [|apply H]. cbn beta. intros t dp' r (-> & -> & Hp).
    eapply spec_impl; [|exact IH]. cbn beta. intros t' dp' r (-> & -> & ts & Hf & ->).
    split; [done|]. split; [done|]. exists (t :: ts). by split; [constructor|].
Qed.

(** A loop left by its first error: the rounds before it satisfy [P], all of it satisfies [R]. *)
Lemma for_each_until {A} (l : list A) f (P : A → list (event Env) → Prop)
    (R : list (event Env) → Prop) (dp : UPFDataPath) :
  (∀ x t, P x t → R t) → (∀ t1 t2, R t1 → R t2 → R (t1 ++ t2)%list) →
  (∀ x, spec (f x) dp (λ t dp' r, dp' = dp ∧ match r with Ok _ => P x t | Err _ => R t end)) →
  spec (for_each l f) dp (λ t dp' r, dp' = dp ∧
    match r with Ok _ => ∃ ts, Forall2 P l ts ∧ t = concat ts | Err _ => R t end).
Proof.
  intros HP HR H. induction l as [|x l IH].
  - apply spec_ret. split; [done|]. by exists [].
  - apply spec_bind. eapply spec_impl; [|apply H]. cbn beta. intros t dp' [[]|e] (-> & Hp); [|done].
    eapply spec_impl; [|exact IH]. cbn beta. intros t' dp' [[]|e] (-> & Ht); (split; [done|]).
    + destruct Ht as (ts & Hf & ->). exists (t :: ts). by split; [constructor|].
    + by eapply HR; [eapply HP|].
Qed.

Lemma Forall2_concat_in {A B} (P : A → list B → Prop) l ts (y : B) :
  Forall2 P l ts → y ∈ concat ts → ∃ x t, x ∈ l ∧ P x t ∧ y ∈ t ∧ t ⊆ concat ts.
Proof.
  induction 1 as [|x t l ts Hx _ IH]; cbn; [by intros ?%elem_of_nil|].
  intros [Hy|Hy]%elem_of_app.
  - exists x, t. split; [left|]. split; [done|]. split; [done|]. set_solver.
  - destruct (IH Hy) as (x' & t' & ? & ? & ? & ?). exists x', t'. split; [by right|].
    split; [done|]. split; [done|]. set_solver.
Qed.

Lemma Forall2_in_concat {A B} (P : A → list B → Prop) l ts x :
  Forall2 P l ts → x ∈ l → ∃ t, P x t ∧ ∀ y, y ∈ t → y ∈ concat ts.
Proof.
  induction 1 as [|x' t l ts Hx _ IH]; [by intros ?%elem_of_nil|].
  intros [->|Hin]%elem_of_cons; cbn.
  - exists t. split; [done|]. intros y Hy. apply elem_of_app. by left.
  - destruct (IH Hin) as (t' & ? & Hsub). exists t'. split; [done|].
    intros y Hy. apply elem_of_app. right. by apply Hsub.
Qed.

(** ** The egress NIC *)

(** The kernel named this interface: it exists under this name, or a route leaves through it. *)
Definition seen_nic (preferred nic : string) (t : list (event Env)) : Prop :=
  (nic = preferred ∧ nic ≠ "" ∧ ∃ l, @Ev Env (LinkByName nic) (Ok l) ∈ t) ∨
  (∃ i l, 0 < i ∧ @Ev Env (LinkByIndex i) (Ok l) ∈ t ∧ nic = ln_Name l).

Lemma seen_nic_mono p nic t1 t t2 : seen_nic p nic t → seen_nic p nic (t1 ++ t ++ t2)%list.
Proof.
  intros [(? & ? & l & Hl)|(i & l & ? & Hl & ?)]; [left|right].
  - split; [done|]. split; [done|]. exists l. rewrite !elem_of_app. by auto.
  - exists i, l. split; [done|]. split; [|done]. rewrite !elem_of_app. by auto.
Qed.

Lemma first_link_seen p usable routes dp :
  spec (first_link usable routes) dp (λ t _ r,
    match r with Ok (Some nic) => seen_nic p nic t | Ok None => True | Err _ => False end).
Proof.
  induction routes as [|rt rest IH]; [done|]. cbn [first_link].
  destruct (usable rt && (0 <? rt_LinkIndex rt)) eqn:E; [|exact IH].
  apply andb_true_iff in E as [_ Hi%Z.ltb_lt].
  unfold env. apply spec_bind. step_spec. destruct r as [l|e].
  - apply spec_ret. right. exists (rt_LinkIndex rt), l. split; [done|]. split; [left|done].
  - eapply spec_impl; [|exact IH]. cbn beta. intros t dp' [[nic|]|]; [|done|done].
    intros H. rewrite <-(app_nil_r (_ ++ _)), <-app_assoc. by apply seen_nic_mono.
Qed.

Lemma route_link_seen p usable routes dp :
  spec (route_link usable routes) dp (λ t _ r,
    match r with Ok (Some nic) => seen_nic p nic t | Ok None => True | Err _ => False end).
Proof. destruct routes; [apply first_link_seen | done]. Qed.

(** The search among the kernel's routes. *)
Definition search_routes : act Env UPFDataPath string :=
  routes ← env (RouteGet (IPv4 (addr4 8 8 8 8)));
  nic ← route_link (λ _, true) routes;
  match nic with
  | Some nic => mret nic
  | None => routes ← env RouteList; nic ← route_link is_default routes; mret (default "" nic)
  end.

Lemma search_routes_seen p dp :
  spec search_routes dp (λ t _ r, ∃ nic, r = Ok nic ∧ (nic = "" ∨ seen_nic p nic t)).
Proof.
  unfold search_routes, env. do 2 step_spec. apply spec_bind.
  eapply spec_impl; [|apply (route_link_seen p)]. cbn beta.
  intros t1 dp1 [[nic|]|] Hn; [| |done].
  - apply spec_ret. exists nic. split; [done|]. right. by apply seen_nic_mono.
  - do 2 step_spec. apply spec_bind. eapply spec_impl; [|apply (route_link_seen p)].
    cbn beta. intros t2 dp2 [[nic|]|] Hn2; [| |done]; apply spec_ret; eexists; (split; [done|]).
    + right. rewrite !app_assoc. rewrite <-(app_assoc _ t2). by apply seen_nic_mono.
    + by left.
Qed.

(** The NIC is found, never guessed: hostEgressNic returns the configured interface whenever this
    node has it, otherwise one the kernel named as the output of a route, or nothing at all; it
    never fails. *)
Theorem egress_nic_never_guessed preferred dp :
  spec (hostEgressNic preferred) dp (λ t _ r, ∃ nic, r = Ok nic ∧
    (nic = "" ∨ seen_nic preferred nic t) ∧
    (preferred ≠ "" → ∃ a t', t = @Ev Env (LinkByName preferred) a :: t' ∧
                               (is_ok a = true → nic = preferred))).
Proof.
  unfold hostEgressNic, preferred_nic, env. apply spec_bind.
  destruct (String.eqb_spec preferred "") as [->|Hne].
  - apply spec_ret. eapply spec_impl; [|apply (search_routes_seen "")]. cbn beta.
    intros t dp' r (nic & -> & Hn). exists nic. by split_and!.
  - do 2 step_spec. apply spec_ret. destruct r as [l|e].
    + apply spec_ret. exists preferred. split; [done|]. split; [|intros _; by eexists _, _].
      right. left. split; [done|]. split; [done|]. exists l. left.
    + eapply spec_impl; [|apply (search_routes_seen preferred)]. cbn beta.
      intros t dp' r (nic & -> & Hn). exists nic. split; [done|]. split.
      * destruct Hn as [Hn|Hn]; [by left|]. right.
        rewrite <-(app_nil_r (_ ++ t)), <-app_assoc. by apply seen_nic_mono.
      * intros _. eexists (Err e), _. by split.
Qed.

(** ** N6 NAT *)

(** The insertions into nat/POSTROUTING of a trace, with their answers. *)
Definition nat_insert (e : event Env) : option (string * list string * result unit) :=
  match e with
  | Ev c a =>
      match c return answer c → option (string * list string * result unit) with
      | IptInsert b table chain _ rule => λ a,
          if String.eqb table "nat" && String.eqb chain "POSTROUTING" then Some (b, rule, a)
          else None
      | _ => λ _, None
      end a
  end.
Definition nat_inserts (t : list (event Env)) := omap nat_insert t.

(** The iptables backends probed, and whether they are installed. *)
Definition probe (e : event Env) : option (string * bool) :=
  match e with
  | Ev c a =>
      match c return answer c → option (string * bool) with
      | NewIPTables b => λ a, Some (b, is_ok a)
      | _ => λ _, None
      end a
  end.
Definition probes (t : list (event Env)) := omap probe t.

Lemma nat_backend_outcome uePool nic accBr b dp :
  spec (nat_backend uePool nic accBr b) dp (λ t dp' r, dp' = dp ∧
    match r with
    | Ok None => probes t = [(b, false)] ∧ nat_inserts t = []
    | Ok (Some a) => probes t = [(b, true)] ∧ nat_inserts t = [(b, masquerade uePool nic, a)]
    | Err _ => False
    end).
Proof. unfold nat_backend, ins, env. walk; done. Qed.

Definition installed (a : option (result unit)) : bool :=
  match a with Some _ => true | None => false end.

Lemma nat_backends_outcome uePool nic accBr l dp :
  spec (for_all l (λ b, r ← nat_backend uePool nic accBr b; mret (b, r))) dp (λ t dp' r,
    dp' = dp ∧ ∃ results, r = Ok results ∧
      probes t = prod_map id installed <$> results ∧ results.*1 = l ∧
      nat_inserts t = omap (λ '(b, a), (λ a, (b, masquerade uePool nic, a)) <$> a) results).
Proof.
  induction l as [|b l IH].
  - apply spec_ret. split; [done|]. by exists [].
  - cbn [for_all]. apply spec_bind, spec_bind. eapply spec_impl; [|apply nat_backend_outcome].
    cbn beta. intros t dp' [a|] (-> & Ha); [|done]. apply spec_ret, spec_bind.
    eapply spec_impl; [|exact IH]. cbn beta. intros t2 dp' r (-> & results & -> & Hp & Hl & Hi).
    apply spec_ret. split; [done|]. exists ((b, a) :: results).
    unfold probes, nat_inserts in *. rewrite app_nil_r, !omap_app.
    destruct a as [a|]; destruct Ha as [-> ->]; rewrite Hp, Hi, <-Hl; cbn; by rewrite !app_nil_r.
Qed.

(** The insertions a list of results stands for. *)
Definition inserted (rule : list string) (results : list (string * option (result unit))) :=
  omap (λ '(b, a), (λ a, (b, rule, a)) <$> a) results.

Lemma inserted_in rule results b rule' a :
  (b, rule', a) ∈ inserted rule results ↔ (b, Some a) ∈ results ∧ rule' = rule.
Proof.
  unfold inserted. rewrite list_elem_of_omap. split.
  - intros ([b' [a'|]] & Hin & [= <- <- <-]). done.
  - intros [Hin ->]. by exists (b, Some a).
Qed.

Lemma installed_in (results : list (string * option (result unit))) b :
  (b, true) ∈ prod_map id installed <$> results ↔ ∃ a, (b, Some a) ∈ results.
Proof.
  rewrite list_elem_of_fmap. split.
  - intros ([b' [a|]] & [= <-] & Hin). by exists a.
  - intros [a Hin]. by exists (b, Some a).
Qed.

Lemma refused_all rule results :
  nat_applied results = false ↔ Forall (λ x, is_ok x.2 = false) (inserted rule results).
Proof.
  induction results as [|[b [[[]|e]|]] l IH]; cbn; [by split; [constructor|]| | |exact IH].
  - split; [done|]. by intros [? _]%Forall_cons.
  - rewrite Forall_cons. cbn. tauto.
Qed.

Lemma refused_some rule results :
  nat_applied results = false → nat_errors results ≠ [] ↔ inserted rule results ≠ [].
Proof.
  induction results as [|[b [[[]|e]|]] l IH]; cbn; [done|done|done|exact IH].
Qed.

(** C21: N6 NAT is reported faithfully.  Without an egress NIC nothing is touched and the step fails.
    Otherwise both backends are probed, and in each installed one the UE pool's MASQUERADE out of
    that NIC is inserted; the step fails exactly when a backend is installed and none accepted
    the rule. *)
Theorem n6_nat_outcome uePool nic accBr dp :
  spec (ensureN6Nat uePool nic accBr) dp (λ t _ r,
    if String.eqb nic "" then t = [] ∧ is_ok r = false
    else (probes t).*1 = backends ∧
      (∀ b rule, (∃ a, (b, rule, a) ∈ nat_inserts t) ↔
                 (b, true) ∈ probes t ∧ rule = masquerade uePool nic) ∧
      (is_ok r = false ↔ nat_inserts t ≠ [] ∧ Forall (λ x, is_ok x.2 = false) (nat_inserts t))).
Proof.
  unfold ensureN6Nat. destruct (String.eqb nic ""); [by apply spec_throw|].
  apply spec_bind. eapply spec_impl; [|apply nat_backends_outcome]. cbn beta.
  intros t dp' r (-> & results & -> & Hp & Hl & Hi).
  assert (∀ (t' : list (event Env)), t' = [] → probes (t ++ t')%list = probes t ∧
    nat_inserts (t ++ t')%list = nat_inserts t) as Hnil by (intros ? ->; by rewrite app_nil_r).
  eapply (spec_impl _ _ (λ t' _ r', t' = [] ∧
    (is_ok r' = false ↔ nat_applied results = false ∧ nat_errors results ≠ []))).
  - intros t' _ r' [Ht' Hr']. destruct (Hnil t' Ht') as [-> ->].
    split; [rewrite Hp, <-Hl, <-list_fmap_compose; by apply list_fmap_ext|].
    rewrite Hp, Hi. split; [|rewrite Hr'].
    + intros b rule. fold (inserted (masquerade uePool nic) results).
      rewrite installed_in. setoid_rewrite inserted_in. naive_solver.
    + fold (inserted (masquerade uePool nic) results). rewrite <-refused_all.
      split; intros [H1 H2]; split; try done; by eapply refused_some.
  - destruct (nat_applied results) eqn:Ea; cbn [negb andb].
    + apply spec_ret. split; [done|]. cbn. split; [done | by intros [? _]].
    + case_bool_decide as Eb; [apply spec_throw | apply spec_ret]; (split; [done|]); cbn; naive_solver.
Qed.

(** ** The N2 VIPs *)

(** The addresses the kernel accepted, and those it was asked to drop. *)
Definition announcement (e : event Env) : option (link * nl_addr) :=
  match e with
  | Ev c r =>
      match c return answer c → option (link * nl_addr) with
      | AddrReplace l a => λ r, if is_ok r then Some (l, a) else None
      | _ => λ _, None
      end r
  end.
Definition announced (t : list (event Env)) := omap announcement t.

Definition withdrawal (e : event Env) : option (link * nl_addr) :=
  match e with Ev (AddrDel l a) _ => Some (l, a) | _ => None end.
Definition withdrawn (t : list (event Env)) := omap withdrawal t.

Lemma announced_app t1 t2 : announced (t1 ++ t2)%list = (announced t1 ++ announced t2)%list.
Proof. apply omap_app. Qed.
Lemma withdrawn_app t1 t2 : withdrawn (t1 ++ t2)%list = (withdrawn t1 ++ withdrawn t2)%list.
Proof. apply omap_app. Qed.

(** A per-element reading of a concatenation of traces. *)
Lemma omap_concat {A B C} (g : A → option B) (f : C → option B) l ts :
  Forall2 (λ x t, omap g t = option_list (f x)) l ts → omap g (concat ts) = omap f l.
Proof.
  induction 1 as [|x t l ts Hx _ IH]; [done|]. cbn. rewrite omap_app, Hx, IH.
  by destruct (f x).
Qed.

Section vip.
Context {NL : Netlink}.

Definition vip_addr (ip : string) : option nl_addr :=
  match ParseAddr (ip +:+ "/32") with Ok a => Some a | Err _ => None end.

Lemma announce_outcome l nic ips dp :
  spec (for_each ips (announce l nic)) dp (λ t dp' r, dp' = dp ∧ withdrawn t = [] ∧
    match r with Ok _ => announced t = omap (λ ip, pair l <$> vip_addr ip) ips | Err _ => True end).
Proof.
  eapply spec_impl; [|apply (for_each_until _ _
    (λ ip t, omap announcement t = option_list (pair l <$> vip_addr ip) ∧ withdrawn t = [])
    (λ t, withdrawn t = []))].
  - cbn beta. intros t dp' [[]|e] (-> & H); [|done]. destruct H as (ts & Hf & ->).
    split; [done|]. split.
    + clear -Hf. induction Hf as [|x t l' ts [_ Hx] _ IH]; [done|]. cbn.
      by rewrite withdrawn_app, Hx, IH.
    + apply omap_concat. eapply Forall2_impl; [exact Hf|]. by intros ? ? [? _].
  - by intros ? ? [_ ?].
  - intros t1 t2 H1 H2. by rewrite withdrawn_app, H1, H2.
  - intros ip. unfold announce, vip_addr. destruct (ParseAddr _) as [a|e];
      [unfold env_ok, env; walk; destruct r | walk]; done.
Qed.

Lemma withdraw_outcome l want existing (dp : UPFDataPath) :
  spec (for_each existing (λ a, when (stale_vip want a) (_ ← env (AddrDel l a); mret tt))) dp
    (λ t dp' r, dp' = dp ∧ r = Ok tt ∧ announced t = [] ∧
       withdrawn t = pair l <$> List.filter (stale_vip want) existing).
Proof.
  eapply spec_impl; [|apply (for_each_total _ _
    (λ a t, omap withdrawal t = option_list (if stale_vip want a then Some (l, a) else None) ∧
            announced t = []))].
  - cbn beta. intros t dp' r (-> & -> & ts & Hf & ->). split; [done|]. split; [done|]. split.
    + clear -Hf. induction Hf as [|x t l' ts [_ Hx] _ IH]; [done|]. cbn.
      by rewrite announced_app, Hx, IH.
    + unfold withdrawn. rewrite (omap_concat _ (λ a, if stale_vip want a then Some (l, a) else None) existing).
      * clear. induction existing as [|a r IH]; [done|]. cbn. destruct (stale_vip want a); cbn; by rewrite IH.
      * eapply Forall2_impl; [exact Hf|]. by intros ? ? [? _].
  - intros a. unfold env. destruct (stale_vip want a); walk; done.
Qed.

(** Why the step may have nothing to do. *)
Definition nothing_to_announce (nic : string) (t : list (event Env)) : Prop :=
  let listing := KList KService None [("sdcore.nephio.io/expose", "n2")] in
  nic = "" ∨ (∃ e, @Ev Env listing (Err e) ∈ t) ∨
  (∃ svcs e, @Ev Env listing (Ok svcs) ∈ t ∧ wanted_vips svcs = ∅ ∧
             @Ev Env (LinkByName nic) (Err e) ∈ t).

(** C20: The node owns exactly its N2 VIPs.  When ensureN2VIP succeeds and there was something to do,
    every address the exposed Services hold was announced on the NIC as a /32, and then every
    stale one was withdrawn: the /32s of the VIP range that no Service holds, and no other
    address of the NIC.  When it fails nothing was withdrawn. *)
Theorem n2_vip_outcome nic dp :
  spec (ensureN2VIP nic) dp (λ t _ r,
    match r with
    | Err _ => withdrawn t = []
    | Ok _ =>
        (nothing_to_announce nic t ∧ writes t = []) ∨
        ∃ svcs l existing ta td,
          @Ev Env (KList KService None [("sdcore.nephio.io/expose", "n2")]) (Ok svcs) ∈ ta ∧
          @Ev Env (LinkByName nic) (Ok l) ∈ ta ∧
          t = (ta ++ @Ev Env (AddrList l) existing :: td)%list ∧
          announced ta ≡ₚ omap (λ ip, pair l <$> vip_addr ip) (elements (wanted_vips svcs)) ∧
          withdrawn ta = [] ∧ announced td = [] ∧
          withdrawn td = pair l <$> List.filter (stale_vip (wanted_vips svcs)) (or_nil existing)
    end).
Proof.
  unfold ensureN2VIP. destruct (String.eqb_spec nic "") as [->|Hne].
  { apply spec_ret. left. split; [by left | done]. }
  unfold env. apply spec_bind. step_spec. rename r into listing.
  destruct listing as [svcs|e]; [|apply spec_ret; left; split; [right; left; exists e; left|done]].
  apply spec_bind. step_spec. destruct r as [l|e].
  - unfold range_map, env. apply spec_bind, spec_bind. step_spec. apply spec_ret. apply spec_bind.
    eapply spec_impl; [|apply announce_outcome]. cbn beta. intros ta dp' [[]|e] (-> & Hw & Ha).
    + apply spec_bind. step_spec. rename r0 into existing.
      eapply spec_impl; [|apply withdraw_outcome]. cbn beta. intros td dp' res (-> & -> & Hta & Htd).
      right. exists svcs, l, existing.
      exists (@Ev Env (KList KService None [("sdcore.nephio.io/expose", "n2")]) (Ok svcs)
        :: @Ev Env (LinkByName nic) (Ok l) :: @Ev Env (MapOrder (length (elements (wanted_vips svcs)))) r
        :: ta)%list, td.
      split; [left|]. split; [right; left|]. split; [done|].
      split; [|done]. change (announced (?a :: ?b :: ?c :: ta)) with (announced ta). rewrite Ha.
      by rewrite shuffle_perm.
    + exact Hw.
  - case_bool_decide as Hw; [apply spec_ret | by apply spec_throw]. left. split; [|done].
    right; right. exists svcs, e. split; [left|]. split; [done|]. right; left.
Qed.
End vip.

(** ** Healing *)

(** The pods the trace asked to delete. *)
Definition deletion (e : event Env) : option Pod :=
  match e with
  | Ev (KDelete k o) _ =>
      match k return obj k → option Pod with KPod => λ p, Some p | _ => λ _, None end o
  | _ => None
  end.
Definition deleted (t : list (event Env)) : list Pod := omap deletion t.

Lemma deleted_in p t : p ∈ deleted t ↔ ∃ a, @Ev Env (KDelete KPod p) a ∈ t.
Proof.
  unfold deleted. rewrite list_elem_of_omap. split.
  - intros ([c a] & Hin & He). destruct c; try done. destruct k; try done.
    injection He as ->. by exists a.
  - intros [a Hin]. by exists (@Ev Env (KDelete KPod p) a).
Qed.

Definition broken (now : Z) (p : Pod) : bool := crash_loop p || net_missing now p.

(** What one round of the loop leaves behind. *)
Definition heal_round (p : Pod) (t : list (event Env)) : Prop :=
  if being_deleted p || podReady p then t = []
  else ∃ now, if broken now p
              then ∃ a, t = [@Ev Env Now now; @Ev Env (KDelete KPod p) a]
              else t = [@Ev Env Now now].

Lemma heal_upf_outcome p (dp : UPFDataPath) :
  spec (heal_upf p) dp (λ t dp' r, dp' = dp ∧ r = Ok tt ∧ heal_round p t).
Proof.
  unfold heal_upf, heal_round, env. destruct (being_deleted p || podReady p); [done|].
  step_spec. step_spec. cbn beta. rename r into now. fold (broken now p).
  destruct (broken now p) eqn:E; unfold when; walk; split_and!; try done; exists now; rewrite E;
    [by eexists | done].
Qed.

Definition pod_listing (sel : selector) (pods : list Pod) : event Env :=
  @Ev Env (KSelect KPod (Some "default") sel) (Ok pods).

Lemma heal_rounds_listing pods ts sel l :
  Forall2 heal_round pods ts → pod_listing sel l ∉ concat ts.
Proof.
  intros Hf Hin. destruct (Forall2_concat_in _ _ _ _ Hf Hin) as (p & t & _ & Hr & Ht & _).
  unfold heal_round, pod_listing in *. destruct (_ || _); [subst; by apply elem_of_nil in Ht|].
  destruct Hr as [now Hr]. destruct (broken now p); [destruct Hr as [a ->] | subst];
    repeat (apply elem_of_cons in Ht as [Ht|Ht]; [discriminate Ht|]); by apply elem_of_nil in Ht.
Qed.

Lemma heal_rounds_sound pods ts p :
  Forall2 heal_round pods ts → p ∈ deleted (concat ts) →
  p ∈ pods ∧ being_deleted p || podReady p = false ∧
  ∃ now, @Ev Env Now now ∈ concat ts ∧ broken now p = true.
Proof.
  intros Hf [a Hin]%deleted_in.
  destruct (Forall2_concat_in _ _ _ _ Hf Hin) as (p' & t & Hp' & Hr & Ht & Hsub).
  unfold heal_round in Hr. destruct (_ || _) eqn:Eg; [subst; by apply elem_of_nil in Ht|].
  destruct Hr as [now Hr]. destruct (broken now p') eqn:Eb.
  - destruct Hr as [a' ->]. apply elem_of_cons in Ht as [Ht|Ht]; [discriminate Ht|].
    apply list_elem_of_singleton in Ht. apply (f_equal deletion) in Ht as [= ->]. split; [done|]. split; [done|].
    exists now. split; [apply Hsub; left | done].
  - subst. apply list_elem_of_singleton in Ht. discriminate Ht.
Qed.

Lemma heal_rounds_complete pods ts p :
  Forall2 heal_round pods ts → p ∈ pods → being_deleted p || podReady p = false →
  crash_loop p = true → p ∈ deleted (concat ts).
Proof.
  intros Hf Hin Hg Hc. destruct (Forall2_in_concat _ _ _ _ Hf Hin) as (t & Hr & Hsub).
  unfold heal_round, broken in Hr. rewrite Hg, Hc in Hr. destruct Hr as (now & a & ->).
  apply deleted_in. exists a. apply Hsub. right; left.
Qed.

Definition listed_pods (e : event Env) : list Pod :=
  match e with
  | Ev c r =>
      match c return answer c → list Pod with
      | KSelect KPod _ _ => or_nil
      | _ => λ _, []
      end r
  end.

(** C22: Only a broken UPF is deleted, and every crash-looping one is.  ensureUpfHealthy never fails;
    a pod it deletes is one it listed, is not Ready and not already being deleted, and either
    its init containers restarted three times or its secondary interfaces were missing when the
    clock was read; conversely every listed pod in such a crash loop is deleted. *)
Theorem upf_heal_outcome upfLabel dp :
  spec (ensureUpfHealthy upfLabel) dp (λ t dp' r, dp' = dp ∧ r = Ok tt ∧
    (∀ p, p ∈ deleted t →
       being_deleted p = false ∧ podReady p = false ∧
       (∃ sel pods, pod_listing sel pods ∈ t ∧ p ∈ pods) ∧
       (∃ now, @Ev Env Now now ∈ t ∧ (crash_loop p = true ∨ net_missing now p = true))) ∧
    (∀ sel pods p, pod_listing sel pods ∈ t → p ∈ pods →
       being_deleted p = false → podReady p = false → crash_loop p = true → p ∈ deleted t)).
Proof.
  unfold ensureUpfHealthy, env. do 2 step_spec. cbn beta. destruct r as [sel|e].
  2: { apply spec_ret. split_and!; [done..| |]; set_solver. }
  do 2 step_spec. cbn beta. rename r into listing.
  eapply spec_impl; [|apply (for_each_total _ _ heal_round); intros p; apply heal_upf_outcome].
  cbn beta. intros t dp' res (-> & -> & ts & Hf & ->). split; [done|]. split; [done|].
  change (deleted (_ ++ _ ++ ?t)) with (deleted t).
  split.
  - intros p Hp. destruct (heal_rounds_sound _ _ _ Hf Hp) as (Hin & Hg & now & Hnow & Hb).
    apply orb_false_iff in Hg as [Hd Hr]. apply orb_true_iff in Hb. split_and!; [done..| |].
    + destruct listing as [pods|e]; [|by apply elem_of_nil in Hin].
      exists sel, pods. split; [right; left | done].
    + exists now. split; [|done]. by do 2 right.
  - intros sel' pods p Hl Hin Hd Hr Hc. apply (heal_rounds_complete _ _ _ Hf); [|by rewrite Hd|done].
    apply elem_of_cons in Hl as [Hl|Hl]; [discriminate Hl|].
    apply elem_of_cons in Hl as [Hl|Hl]; [|by destruct (heal_rounds_listing _ _ _ _ Hf Hl)].
    apply (f_equal listed_pods) in Hl. cbn in Hl. by destruct Hl.
Qed.
