(* ===== verification/Addressing.v ===== *)
(** * Per-site addressing (edgesite_controller.go)

    The part of the EdgeSite reconciler that derives a site's addresses from its name and its
    network: [siteIndex], [netBase], [ranBase], [mgmtNodeIP], [allocateRanVIP] and
    [deriveAddressing].  The object under reconciliation is the state of the actions; the node
    list, the EdgeSite list and the final update are calls. *)

From S2P Require Import Prelude GoText Net Prog Api Effects Helpers.

(** ** The site index *)

(** [h = (h*31 + int(c)) % 197] over the runes; [Z.rem] is Go's [%].  Every intermediate value is
    below 197 * 31 + 2^21, far from the bounds of an [int]. *)
Definition siteIndex (name : string) : Z :=
  foldl (λ h c, Z.rem (h * 31 + c) 197) 0 (runes name) + 2.

(** ** Network bases *)

(** "A.B.C" of "A.B.C.D[/xx]", or "" when fewer than three numbers scan. *)
Definition netBase (s : string) : string :=
  match Sscanf4 s with
  | a :: b :: c :: _ => Sprintf "%d.%d.%d" [FInt a; FInt b; FInt c]
  | _ => ""
  end.

Definition NodeInternalIP : string := "InternalIP".

(** The first InternalIP address of a node, or "". *)
Definition node_ip (n : Node) : string :=
  match find_first (λ a, String.eqb (na_Type a) NodeInternalIP) (node_Addresses n) with
  | Some a => na_Address a
  | None => ""
  end.

Definition is_control_plane (n : Node) : bool :=
  match Labels (node_meta n) !! "node-role.kubernetes.io/control-plane" with
  | Some _ => true
  | None => false
  end.

(** The loop over the nodes: a control-plane node ends it, otherwise the last address wins. *)
Fixpoint pick_node (pick : string) (nodes : list Node) : string :=
  match nodes with
  | [] => pick
  | n :: r =>
      let ip := node_ip n in
      if String.eqb ip "" then pick_node pick r
      else if is_control_plane n then ip
      else pick_node ip r
  end.

Definition mgmtNodeIP : act Env EdgeSite string :=
  nodes ← env (KList KNode None []);
  mret (match nodes with Err _ => "" | Ok l => pick_node "" l end).

(** The fallback base of ranBase. *)
Definition lab_base : string := "192.168.4".

Definition ranBase : act Env EdgeSite string :=
  es ← get;
  let b := netBase (es_RanSubnet (es_spec es)) in
  if negb (String.eqb b "") then mret b
  else
    ip ← (if es_Colocated (es_spec es) then
            n ← mgmtNodeIP;
            mret (if String.eqb n "" then es_Server (es_spec es) else n)
          else mret (es_Server (es_spec es)));
    let b := netBase ip in
    mret (if String.eqb b "" then lab_base else b).

(** ** The N2 VIP *)

(** The last octet of a VIP, when all four numbers scan. *)
Definition vip_octet (s : string) : option Z :=
  match Sscanf4 s with
  | [_; _; _; d] => Some d
  | _ => None
  end.

Definition in_pool (d : Z) : bool := (241 <=? d) && (d <=? 254).

(** A VIP of the pool this site already carries. *)
Definition held_vip (es : EdgeSite) : option string :=
  let vip := es_N2VIP (es_spec es) in
  if String.eqb vip "" then None
  else match vip_octet vip with
       | Some od => if in_pool od then Some vip else None
       | None => None
       end.

(** The octets the other sites of a listing hold; 240 is the management core's. *)
Definition taken_by (self : string) (items : list EdgeSite) : gset Z :=
  foldl (λ (taken : gset Z) o,
           if String.eqb (Name (es_meta o)) self || String.eqb (es_N2VIP (es_spec o)) ""
           then taken
           else match vip_octet (es_N2VIP (es_spec o)) with
                | Some d => {[d]} ∪ taken
                | None => taken
                end)
        {[240]} items.

(** The 14 slots in probing order: a linear probe from [start], wrapping around. *)
Definition probe_order (start : Z) : list Z := (λ k, 241 + Z.rem (start + k) 14) <$> seqZ 0 14.

Definition free_slot (start : Z) (taken : gset Z) : option Z :=
  find_first (λ i, negb (bool_decide (i ∈ taken))) (probe_order start).

(** The VIP picked for [self] over [base] when [taken] is occupied. *)
Definition pick_vip (self base : string) (taken : gset Z) : string :=
  match free_slot (Z.rem (siteIndex self) 14) taken with
  | Some i => Sprintf "%s.%d" [FStr base; FInt i]
  | None => base +:+ ".254"
  end.

Definition allocateRanVIP (base : string) : act Env EdgeSite string :=
  es ← get;
  match held_vip es with
  | Some vip => mret vip
  | None =>
      list ← env (KList KEdgeSite None []);
      let taken := match list with
                   | Ok items => taken_by (Name (es_meta es)) items
                   | Err _ => {[240]}
                   end in
      mret (pick_vip (Name (es_meta es)) base taken)
  end.

(** ** deriveAddressing *)

(** The closure [set]: fills an empty field, recording in [changed] that it did. *)
Definition set_empty (p : ptr EdgeSiteSpec) (v : string) (x : EdgeSiteSpec * bool) :
    EdgeSiteSpec * bool :=
  if String.eqb (peek p x.1) "" then (poke p v x.1, true) else x.

Definition set_all (l : list (ptr EdgeSiteSpec * string)) (x : EdgeSiteSpec * bool) :
    EdgeSiteSpec * bool :=
  foldl (λ x pv, set_empty pv.1 pv.2 x) x l.

(** The fields derived from the index alone, in the code's order. *)
Definition index_fields (idx : Z) : list (ptr EdgeSiteSpec * string) :=
  [(p_PodCIDR, Sprintf "10.%d.0.0/16" [FInt idx]);
   (p_UEPool, Sprintf "172.%d.0.0/16" [FInt idx]);
   (p_SliceSD, "102030");
   (p_EgressNic, "eth0");
   (p_AccessCIDR, Sprintf "10.200.%d.10/24" [FInt idx]);
   (p_CoreCIDR, Sprintf "10.201.%d.10/24" [FInt idx]);
   (p_AccessGw, Sprintf "10.200.%d.1" [FInt idx]);
   (p_CoreGw, Sprintf "10.201.%d.1" [FInt idx]);
   (p_CoreNextHop, Sprintf "10.201.%d.10" [FInt idx]);
   (p_GnbIP, Sprintf "10.200.%d.20" [FInt idx])].

(** [r.Update(ctx, es)]: on success the client overwrites [es] with the server's answer. *)
Definition update_site : act Env EdgeSite unit :=
  es ← get;
  es' ← env_ok (env (KUpdate KEdgeSite es));
  modify (λ _, es').

Definition put_spec (s : EdgeSiteSpec) : act Env EdgeSite unit := modify (set_es_spec s).

Definition deriveAddressing : act Env EdgeSite unit :=
  es ← get;
  let x1 := set_all (index_fields (siteIndex (Name (es_meta es)))) (es_spec es, false) in
  _ ← put_spec x1.1;
  base ← ranBase;
  let x2 := set_empty p_RanSubnet (base +:+ ".240/28") x1 in
  _ ← put_spec x2.1;
  vip ← (if es_Colocated (es_spec es) then mret (base +:+ ".240") else allocateRanVIP base);
  let x3 := set_empty p_RanNic "eth0" (set_empty p_N2VIP vip x2) in
  _ ← put_spec x3.1;
  when x3.2 update_site.

(** ** The site index: bounds *)

Lemma decode_rune_nonneg l : Forall is_byte l → 0 ≤ (decode_rune l).1.
Proof.
  unfold is_byte. intros H. destruct l as [|b0 l]; cbn; [done|].
  apply Forall_cons in H as [H0 H]. unfold between.
  repeat first [ case_match; simpl; try done; try lia
               | match goal with H : Forall _ (_ :: _) |- _ => apply Forall_cons in H as [? H] end ];
    rewrite ?andb_true_iff in *; lia.
Qed.

Lemma chunks_nonneg k s : Forall (λ c : Z * string, 0 ≤ c.1) (chunks k s).
Proof.
  revert k. induction s as [|c s IH]; intros k; [constructor|]. cbn [chunks].
  destruct k; [|apply IH].
  pose proof (decode_rune_nonneg (bytes (String c s)) (bytes_are_bytes _)) as Hn.
  destruct (decode_rune (bytes (String c s))) as [r w]. by constructor.
Qed.

Lemma runes_nonneg s : Forall (λ r, 0 ≤ r) (runes s).
Proof. unfold runes. rewrite Forall_fmap. apply chunks_nonneg. Qed.

Lemma index_fold_range (l : list Z) h :
  Forall (λ r, 0 ≤ r) l → 0 ≤ h < 197 →
  0 ≤ foldl (λ h c, Z.rem (h * 31 + c) 197) h l < 197.
Proof.
  intros H. revert h. induction H as [|r l Hr _ IH]; intros h Hh; [done|]. cbn [foldl].
  apply IH. rewrite Z.rem_mod_nonneg by lia. apply Z.mod_pos_bound. lia.
Qed.

Lemma siteIndex_bounds name : 2 ≤ siteIndex name ≤ 198.
Proof.
  unfold siteIndex. pose proof (index_fold_range (runes name) 0 (runes_nonneg name) ltac:(lia)).
  lia.
Qed.

(** ** The VIP allocator *)

Lemma probe_order_elem start i : 0 ≤ start → i ∈ probe_order start ↔ 241 ≤ i ≤ 254.
Proof.
  intros Hs. unfold probe_order. rewrite list_elem_of_fmap. split.
  - intros (k & -> & Hk%elem_of_seqZ). rewrite Z.rem_mod_nonneg by lia.
    pose proof (Z.mod_pos_bound (start + k) 14 ltac:(lia)). lia.
  - intros Hi. exists ((i - 241 - start) mod 14).
    pose proof (Z.mod_pos_bound (i - 241 - start) 14 ltac:(lia)).
    split; [|apply elem_of_seqZ; lia]. rewrite Z.rem_mod_nonneg by lia.
    rewrite Zplus_mod_idemp_r. replace (start + (i - 241 - start)) with (i - 241) by lia.
    rewrite Z.mod_small; lia.
Qed.

(** A slot is found exactly when one of .241-.254 is free, and it is a free one. *)
Lemma free_slot_Some start taken i :
  0 ≤ start → free_slot start taken = Some i → 241 ≤ i ≤ 254 ∧ i ∉ taken.
Proof.
  intros Hs [Hi Hf]%find_first_Some. split; [by apply (probe_order_elem start)|].
  by apply negb_true_iff, bool_decide_eq_false in Hf.
Qed.

Lemma free_slot_None start taken :
  0 ≤ start → free_slot start taken = None ↔ ∀ i, 241 ≤ i ≤ 254 → i ∈ taken.
Proof.
  intros Hs. unfold free_slot. rewrite find_first_None. split.
  - intros H i Hi. specialize (H i). rewrite probe_order_elem in H by done.
    apply negb_false_iff, bool_decide_eq_true in H; done.
  - intros H i Hi%probe_order_elem; [|done].
    by apply negb_false_iff, bool_decide_eq_true, H.
Qed.

Lemma probe_start_nonneg self : 0 ≤ Z.rem (siteIndex self) 14.
Proof. pose proof (siteIndex_bounds self). apply Z.rem_nonneg; lia. Qed.

Lemma taken_by_acc self items (acc : gset Z) d :
  d ∈ foldl (λ (taken : gset Z) o,
           if String.eqb (Name (es_meta o)) self || String.eqb (es_N2VIP (es_spec o)) ""
           then taken
           else match vip_octet (es_N2VIP (es_spec o)) with
                | Some d => {[d]} ∪ taken
                | None => taken
                end) acc items ↔
  d ∈ acc ∨ ∃ o, o ∈ items ∧ Name (es_meta o) ≠ self ∧
                 vip_octet (es_N2VIP (es_spec o)) = Some d.
Proof.
  revert acc. induction items as [|o items IH]; intros acc; cbn [foldl].
  { split; [by left | intros [?|(o & Ho & _)]; [done | by apply elem_of_nil in Ho]]. }
  rewrite IH. clear IH. setoid_rewrite elem_of_cons.
  destruct (String.eqb_spec (Name (es_meta o)) self) as [E|E]; simpl.
  { naive_solver. }
  destruct (String.eqb_spec (es_N2VIP (es_spec o)) "") as [E'|E'].
  { split; [naive_solver|]. intros [?|(o' & [->|Ho'] & ? & Hv)]; [naive_solver| |naive_solver].
    rewrite E' in Hv. discriminate. }
  destruct (vip_octet (es_N2VIP (es_spec o))) as [d'|] eqn:Ed; [|naive_solver].
  rewrite elem_of_union, elem_of_singleton. naive_solver.
Qed.

(** The octets taken are .240 and those of the sites with another name. *)
Lemma elem_of_taken_by self items d :
  d ∈ taken_by self items ↔
  d = 240 ∨ ∃ o, o ∈ items ∧ Name (es_meta o) ≠ self ∧
                 vip_octet (es_N2VIP (es_spec o)) = Some d.
Proof. unfold taken_by. rewrite taken_by_acc, elem_of_singleton. done. Qed.

(** *** Printed bases and the VIPs over them *)

(** A base netBase prints: three int64 numbers. *)
Definition is_base (b : string) : Prop :=
  ∃ x y z, is_int64 x ∧ is_int64 y ∧ is_int64 z ∧
           b = Sprintf "%d.%d.%d" [FInt x; FInt y; FInt z].

Lemma Sprintf_base x y z :
  Sprintf "%d.%d.%d" [FInt x; FInt y; FInt z] = Itoa x +:+ "." +:+ Itoa y +:+ "." +:+ Itoa z.
Proof. eval_sprintf. by rewrite string_app_nil_r. Qed.

Lemma netBase_is_base s : netBase s ≠ "" → is_base (netBase s).
Proof.
  unfold netBase, Sscanf4. pose proof (scan_dotted_int64 4 (runes s)) as H.
  destruct (scan_dotted 4 (runes s)) as [|x [|y [|z r]]]; try done. intros _.
  apply Forall_cons in H as [? H]. apply Forall_cons in H as [? H].
  apply Forall_cons in H as [? H]. exists x, y, z. done.
Qed.

Lemma lab_base_is_base : is_base lab_base.
Proof. exists 192, 168, 4. repeat split; done. Qed.

Lemma is_base_nonempty b : is_base b → b ≠ "".
Proof.
  intros (x & y & z & _ & _ & _ & ->) H. rewrite Sprintf_base in H.
  apply (f_equal bytes) in H. rewrite !bytes_app in H.
  apply app_eq_nil in H as [_ H]. discriminate.
Qed.

(** What is scanned from a base followed by a dot, a number and some more text. *)
Lemma Sscanf4_base b d rest :
  is_base b → is_int64 d → is_ascii rest = true → no_digit_head (bytes rest) →
  ∃ x y z, b = Sprintf "%d.%d.%d" [FInt x; FInt y; FInt z] ∧
           Sscanf4 (b +:+ "." +:+ Itoa d +:+ rest) = [x; y; z; d].
Proof.
  intros (x & y & z & Hx & Hy & Hz & ->) Hd Ha Hr. exists x, y, z. split; [done|].
  rewrite Sprintf_base, <-(Sscanf4_quad x y z d rest) by done. unfold quad.
  by rewrite !string_app_assoc.
Qed.

Lemma vip_text b i : Sprintf "%s.%d" [FStr b; FInt i] = b +:+ "." +:+ Itoa i +:+ "".
Proof. eval_sprintf. by rewrite string_app_nil_r. Qed.

Lemma vip_octet_of b i :
  is_base b → is_int64 i → vip_octet (Sprintf "%s.%d" [FStr b; FInt i]) = Some i.
Proof.
  intros Hb Hi. destruct (Sscanf4_base b i "" Hb Hi) as (x & y & z & _ & E); [done..|].
  unfold vip_octet. by rewrite vip_text, E.
Qed.

(** The base is recovered from a VIP or a pool CIDR over it. *)
Lemma netBase_over b i rest :
  is_base b → is_int64 i → is_ascii rest = true → no_digit_head (bytes rest) →
  netBase (b +:+ "." +:+ Itoa i +:+ rest) = b.
Proof.
  intros Hb Hi Ha Hr. destruct (Sscanf4_base b i rest Hb Hi Ha Hr) as (x & y & z & -> & E).
  unfold netBase. by rewrite E.
Qed.

Lemma pick_vip_octet self b taken :
  is_base b →
  ∃ d, pick_vip self b taken = Sprintf "%s.%d" [FStr b; FInt d] ∧
       vip_octet (pick_vip self b taken) = Some d ∧ 241 ≤ d ≤ 254 ∧
       ((∃ i, 241 ≤ i ≤ 254 ∧ i ∉ taken) → d ∉ taken).
Proof.
  intros Hb. pose proof (probe_start_nonneg self) as Hs. unfold pick_vip.
  destruct (free_slot _ taken) as [i|] eqn:E.
  - apply free_slot_Some in E as [Hi Hf]; [|done]. exists i.
    rewrite vip_octet_of; [done|done|]. unfold is_int64, min_int64, max_int64. lia.
  - rewrite free_slot_None in E by done. exists 254.
    change (b +:+ ".254") with (b +:+ "." +:+ Itoa 254).
    split; [by rewrite vip_text, string_app_nil_r|]. split; [|split; [lia|naive_solver]].
    rewrite <-(string_app_nil_r (Itoa 254)), <-vip_text. by apply vip_octet_of.
Qed.

(** *** Pigeonhole: fewer than 14 VIPs held by others leave a slot *)

Definition octet_of (o : EdgeSite) : option Z := vip_octet (es_N2VIP (es_spec o)).

Definition others (self : string) (items : list EdgeSite) : list EdgeSite :=
  filter (λ o, Name (es_meta o) ≠ self) items.

Lemma free_slot_exists self items :
  (length (omap octet_of (others self items)) < 14)%nat →
  ∃ i, 241 ≤ i ≤ 254 ∧ i ∉ taken_by self items.
Proof.
  intros Hlen.
  destruct (find_first (λ i, negb (bool_decide (i ∈ taken_by self items))) (seqZ 241 14))
    as [i|] eqn:E.
  { apply find_first_Some in E as [Hi%elem_of_seqZ Hf]. exists i. split; [lia|].
    by apply negb_true_iff, bool_decide_eq_false in Hf. }
  exfalso. rewrite find_first_None in E.
  assert (seqZ 241 14 ⊆+ omap octet_of (others self items)) as Hsub.
  { apply NoDup_submseteq; [apply NoDup_seqZ|]. intros i Hi. pose proof Hi as Hi'.
    apply E, negb_false_iff, bool_decide_eq_true, elem_of_taken_by in Hi.
    apply elem_of_seqZ in Hi'. destruct Hi as [->|(o & Ho & Hn & Hv)]; [lia|].
    apply list_elem_of_omap. exists o. split; [|done]. by apply list_elem_of_filter. }
  apply submseteq_length in Hsub. rewrite length_seqZ in Hsub. lia.
Qed.

(** ** Filling empty fields *)

Definition independent {S} (p q : ptr S) : Prop := ∀ v s, peek q (poke p v s) = peek q s.
Definition lawful {S} (p : ptr S) : Prop := ∀ v s, peek p (poke p v s) = v.

(** Pointers to pairwise distinct fields. *)
Fixpoint distinct_ptrs {S} (l : list (ptr S)) : Prop :=
  match l with
  | [] => True
  | p :: r => lawful p ∧ Forall (λ q, independent p q ∧ independent q p) r ∧ distinct_ptrs r
  end.

Lemma set_empty_other p q v x :
  independent p q → peek q (set_empty p v x).1 = peek q x.1.
Proof. intros H. unfold set_empty. by destruct (String.eqb _ _); simpl. Qed.

Lemma set_empty_this p v x :
  lawful p → peek p (set_empty p v x).1 = if String.eqb (peek p x.1) "" then v else peek p x.1.
Proof. intros H. unfold set_empty. by destruct (String.eqb _ _); simpl. Qed.

Lemma set_all_other l q x :
  Forall (λ p, independent p q) l.*1 → peek q (set_all l x).1 = peek q x.1.
Proof.
  revert x. induction l as [|[p v] l IH]; intros x H; [done|].
  apply Forall_cons in H as [Hp H]. unfold set_all. cbn [foldl].
  etransitivity; [by apply IH | by apply set_empty_other].
Qed.

(** Each listed field ends up with its old value, or the derived one when it was empty. *)
Lemma set_all_peek l x p v :
  distinct_ptrs l.*1 → (p, v) ∈ l →
  peek p (set_all l x).1 = if String.eqb (peek p x.1) "" then v else peek p x.1.
Proof.
  revert x. induction l as [|[q u] l IH]; intros x Hd Hin; [by apply elem_of_nil in Hin|].
  destruct Hd as (Hl & Hf & Hd). unfold set_all. cbn [foldl].
  apply elem_of_cons in Hin as [[= -> ->]|Hin].
  - etransitivity; [apply set_all_other|by apply set_empty_this].
    eapply Forall_impl; [exact Hf | naive_solver].
  - etransitivity; [by apply IH|]. cbn [fst snd]. rewrite set_empty_other; [done|].
    rewrite Forall_forall in Hf. apply Hf. apply list_elem_of_fmap. by exists (p, v).
Qed.

Lemma set_all_changed l x :
  distinct_ptrs l.*1 →
  (set_all l x).2 = x.2 || existsb (λ pv, String.eqb (peek pv.1 x.1) "") l.
Proof.
  revert x. induction l as [|[q u] l IH]; intros x Hd; [by rewrite orb_false_r|].
  destruct Hd as (Hl & Hf & Hd). unfold set_all. cbn [foldl existsb].
  etransitivity; [by apply IH|]. cbn [fst snd].
  assert (existsb (λ pv, String.eqb (peek pv.1 (set_empty q u x).1) "") l
          = existsb (λ pv, String.eqb (peek pv.1 x.1) "") l) as ->.
  { clear -Hf. induction l as [|[p v] l IH]; [done|]. apply Forall_cons in Hf as [[Hp _] Hf].
    cbn [existsb]. rewrite IH by done. cbn [fst]. by rewrite set_empty_other. }
  unfold set_empty. cbn [fst snd]. destruct (String.eqb (peek q x.1) ""); simpl; [|done].
  by rewrite orb_true_r.
Qed.

Lemma set_all_unchanged l x : existsb (λ pv, String.eqb (peek pv.1 x.1) "") l = false →
  set_all l x = x.
Proof.
  revert x. induction l as [|[q u] l IH]; intros x H; [done|]. cbn [existsb fst] in H.
  apply orb_false_iff in H as [Hq H]. unfold set_all. cbn [foldl].
  unfold set_empty at 2. cbn [fst]. rewrite Hq. by apply IH.
Qed.

(** Every field deriveAddressing fills, with the value it fills it with. *)
Definition derived_fields (idx : Z) (base vip : string) : list (ptr EdgeSiteSpec * string) :=
  (index_fields idx ++
   [(p_RanSubnet, base +:+ ".240/28"); (p_N2VIP, vip); (p_RanNic, "eth0")])%list.

Lemma derived_fields_distinct idx base vip : distinct_ptrs (derived_fields idx base vip).*1.
Proof. repeat (split || constructor). Qed.

Lemma derived_fields_nonempty idx base vip p v :
  vip ≠ "" → (p, v) ∈ derived_fields idx base vip → v ≠ "".
Proof.
  intros Hv. unfold derived_fields, index_fields. simpl app.
  repeat (intros [[= -> ->]|H]%elem_of_cons; [|revert H]);
    try (intros H; by apply elem_of_nil in H).
  all: eval_sprintf; try done.
  intros E. apply (f_equal bytes) in E. rewrite bytes_app in E.
  by apply app_eq_nil in E as [_ E].
Qed.

(** The fields deriveAddressing fills, without the values. *)
Definition derived_ptrs : list (ptr EdgeSiteSpec) := (derived_fields 0 "" "").*1.

Lemma derived_fields_ptrs idx base vip : (derived_fields idx base vip).*1 = derived_ptrs.
Proof. done. Qed.

(** They are all filled: nothing is left to derive. *)
Definition addressed (s : EdgeSiteSpec) : Prop := Forall (λ p, peek p s ≠ "") derived_ptrs.

Definition addressedb (s : EdgeSiteSpec) : bool :=
  negb (existsb (λ p, String.eqb (peek p s) "") derived_ptrs).

Lemma addressedb_spec s : addressedb s = true ↔ addressed s.
Proof.
  unfold addressedb, addressed. induction derived_ptrs as [|p l IH]; simpl; [done|].
  rewrite Forall_cons, <-IH. destruct (String.eqb_spec (peek p s) ""); naive_solver.
Qed.

Lemma existsb_ptrs {B} (l : list (ptr EdgeSiteSpec * B)) s :
  existsb (λ pv, String.eqb (peek pv.1 s) "") l
  = existsb (λ p, String.eqb (peek p s) "") l.*1.
Proof. induction l as [|[p v] l IH]; simpl; [done|]. by rewrite IH. Qed.

(** The spec deriveAddressing computes. *)
Definition derived_spec (idx : Z) (base vip : string) (s : EdgeSiteSpec) : EdgeSiteSpec :=
  (set_all (derived_fields idx base vip) (s, false)).1.

Lemma derived_spec_peek idx base vip s p v :
  (p, v) ∈ derived_fields idx base vip →
  peek p (derived_spec idx base vip s) = if String.eqb (peek p s) "" then v else peek p s.
Proof.
  intros H. unfold derived_spec.
  exact (set_all_peek _ (s, false) p v (derived_fields_distinct idx base vip) H).
Qed.

Lemma derived_spec_changed idx base vip s :
  (set_all (derived_fields idx base vip) (s, false)).2 = negb (addressedb s).
Proof.
  rewrite set_all_changed by apply derived_fields_distinct. cbn [fst snd orb].
  by rewrite existsb_ptrs, derived_fields_ptrs, <-(negb_involutive (existsb _ _)).
Qed.

(** A complete spec is left alone. *)
Lemma derived_spec_complete idx base vip s : addressed s → derived_spec idx base vip s = s.
Proof.
  intros H%addressedb_spec. unfold derived_spec. rewrite set_all_unchanged; [done|].
  unfold addressedb in H. rewrite existsb_ptrs. by apply negb_true_iff.
Qed.

(** After a derivation the spec is complete. *)
Lemma derived_spec_addressed idx base vip s :
  vip ≠ "" → addressed (derived_spec idx base vip s).
Proof.
  intros Hv. unfold addressed. rewrite <-(derived_fields_ptrs idx base vip).
  apply Forall_forall. intros p Hp. apply list_elem_of_fmap in Hp as ([q v] & -> & Hin).
  simpl. rewrite (derived_spec_peek _ _ _ _ _ _ Hin).
  destruct (String.eqb_spec (peek q s) ""); [by eapply derived_fields_nonempty | done].
Qed.

Lemma set_all_derived idx base vip x :
  set_all (derived_fields idx base vip) x =
  set_empty p_RanNic "eth0" (set_empty p_N2VIP vip (set_empty p_RanSubnet (base +:+ ".240/28")
    (set_all (index_fields idx) x))).
Proof. unfold set_all, derived_fields. by rewrite foldl_app. Qed.

(** The fields that are not derived. *)
Definition given_part (s : EdgeSiteSpec) :=
  (es_Server s, es_User s, es_Role s, es_ControlPlane s, es_Colocated s, es_RAN s).

Lemma set_all_given l x :
  Forall (λ p, ∀ v s, given_part (poke p v s) = given_part s) l.*1 →
  given_part (set_all l x).1 = given_part x.1.
Proof.
  revert x. induction l as [|[p v] l IH]; intros x H; [done|].
  apply Forall_cons in H as [Hp H]. unfold set_all. cbn [foldl].
  etransitivity; [by apply IH|]. unfold set_empty. by destruct (String.eqb _ _); simpl.
Qed.

Lemma derived_spec_given idx base vip s : given_part (derived_spec idx base vip s) = given_part s.
Proof. apply set_all_given. by repeat constructor. Qed.

(** ** The programs *)

Definition node_listing (t : list (event Env)) : Prop :=
  t = [] ∨ ∃ r, t = [@Ev Env (KList KNode None []) r].

Lemma mgmtNodeIP_spec (es : EdgeSite) :
  spec mgmtNodeIP es (λ t es' r,
    es' = es ∧ (∃ n, t = [@Ev Env (KList KNode None []) n]) ∧ ∃ ip, r = Ok ip).
Proof. unfold mgmtNodeIP, env. walk; naive_solver. Qed.

(** The base of an address: its first three numbers, or the fallback. *)
Definition base_of (ip : string) : string :=
  if String.eqb (netBase ip) "" then lab_base else netBase ip.

Lemma base_of_is_base ip : is_base (base_of ip).
Proof.
  unfold base_of. destruct (String.eqb_spec (netBase ip) ""); [apply lab_base_is_base|].
  by apply netBase_is_base.
Qed.

(** The base a site settles on and the listing it took to find it: that of spec.ranSubnet when it
    has one; for a colocated site that of the management node listed, or of its server when no
    node has an address; that of its server otherwise. *)
Definition found_base (es : EdgeSite) (tn : list (event Env)) (base : string) : Prop :=
  let own := netBase (es_RanSubnet (es_spec es)) in
  if negb (String.eqb own "") then tn = [] ∧ base = own
  else if es_Colocated (es_spec es) then
    ∃ nodes, tn = [@Ev Env (KList KNode None []) nodes] ∧
      base = base_of (let ip := match nodes with Err _ => "" | Ok l => pick_node "" l end in
                      if String.eqb ip "" then es_Server (es_spec es) else ip)
  else tn = [] ∧ base = base_of (es_Server (es_spec es)).

Lemma found_base_listing es tn base : found_base es tn base → node_listing tn.
Proof.
  unfold found_base, node_listing. destruct (negb _); [naive_solver|].
  destruct (es_Colocated _); naive_solver.
Qed.

Lemma found_base_own es tn base :
  found_base es tn base → netBase (es_RanSubnet (es_spec es)) ≠ "" →
  base = netBase (es_RanSubnet (es_spec es)) ∧ tn = [].
Proof.
  unfold found_base. destruct (String.eqb_spec (netBase (es_RanSubnet (es_spec es))) ""); [done|].
  naive_solver.
Qed.

Lemma found_base_is_base es tn base : found_base es tn base → is_base base.
Proof.
  unfold found_base. destruct (String.eqb_spec (netBase (es_RanSubnet (es_spec es))) ""); simpl.
  - destruct (es_Colocated _); [intros (n & _ & ->)|intros [_ ->]]; apply base_of_is_base.
  - intros [_ ->]. by apply netBase_is_base.
Qed.

(** Only three fields of the spec bear on the base. *)
Lemma found_base_congr es es' tn base :
  es_RanSubnet (es_spec es') = es_RanSubnet (es_spec es) →
  given_part (es_spec es') = given_part (es_spec es) →
  found_base es' tn base → found_base es tn base.
Proof.
  unfold found_base, given_part. intros E1 E2. injection E2 as -> _ _ _ -> _. by rewrite E1.
Qed.

(** ranBase never fails and returns the base the site settles on. *)
Lemma ranBase_ok es :
  spec ranBase es (λ t es' r, es' = es ∧ ∃ base, r = Ok base ∧ found_base es t base).
Proof.
  unfold ranBase, mgmtNodeIP, env, found_base. cbn zeta. apply spec_bind, spec_get. cbn beta.
  destruct (negb (String.eqb (netBase (es_RanSubnet (es_spec es))) "")).
  { walk. split; [done|]. by eexists. }
  destruct (es_Colocated (es_spec es)); walk; (split; [done|]); eexists;
    (split; [reflexivity|]); [by eexists|done].
Qed.

Definition answered (es : EdgeSite) (listing : result (list EdgeSite)) : gset Z :=
  match listing with
  | Ok items => taken_by (Name (es_meta es)) items
  | Err _ => {[240]}
  end.

Lemma allocateRanVIP_ok base es :
  spec (allocateRanVIP base) es (λ t es' r,
    es' = es ∧
    match held_vip es with
    | Some vip => t = [] ∧ r = Ok vip
    | None => ∃ listing, t = [@Ev Env (KList KEdgeSite None []) listing] ∧
                r = Ok (pick_vip (Name (es_meta es)) base (answered es listing))
    end).
Proof. unfold allocateRanVIP, env. walk; naive_solver. Qed.

Lemma held_vip_text es vip : held_vip es = Some vip → vip = es_N2VIP (es_spec es) ∧ vip ≠ "".
Proof.
  unfold held_vip. destruct (String.eqb_spec (es_N2VIP (es_spec es)) ""); [done|].
  intros. repeat case_match; naive_solver.
Qed.

Lemma pick_vip_nonempty self base taken : is_base base → pick_vip self base taken ≠ "".
Proof.
  intros Hb E. destruct (pick_vip_octet self base taken Hb) as (d & _ & H & _).
  rewrite E in H. discriminate.
Qed.

(** Filling the index fields touches neither the RAN subnet nor the VIP. *)
Lemma index_fields_kept idx es :
  let es1 := set_es_spec (set_all (index_fields idx) (es_spec es, false)).1 es in
  es_RanSubnet (es_spec es1) = es_RanSubnet (es_spec es) ∧
  es_N2VIP (es_spec es1) = es_N2VIP (es_spec es) ∧ es_meta es1 = es_meta es ∧
  given_part (es_spec es1) = given_part (es_spec es).
Proof.
  split; [|split; [|split; [done|]]].
  - apply (set_all_other (index_fields idx) p_RanSubnet (es_spec es, false)).
    by repeat constructor.
  - apply (set_all_other (index_fields idx) p_N2VIP (es_spec es, false)).
    by repeat constructor.
  - apply (set_all_given (index_fields idx) (es_spec es, false)). by repeat constructor.
Qed.

(** The VIP deriveAddressing offers to set_empty, and the listing it took to find it. *)
Definition offered_vip (es : EdgeSite) (base : string) (tl : list (event Env)) (vip : string) :
    Prop :=
  if es_Colocated (es_spec es) then tl = [] ∧ vip = base +:+ ".240"
  else match held_vip es with
       | Some v => tl = [] ∧ vip = v
       | None => ∃ listing, tl = [@Ev Env (KList KEdgeSite None []) listing] ∧
                   vip = pick_vip (Name (es_meta es)) base (answered es listing)
       end.

Lemma app_nonempty_r (a b : string) : b ≠ "" → a +:+ b ≠ "".
Proof. intros H E. by destruct a. Qed.

Lemma offered_vip_ok base es es0 :
  is_base base → es_meta es0 = es_meta es → es_N2VIP (es_spec es0) = es_N2VIP (es_spec es) →
  spec (if es_Colocated (es_spec es) then mret (base +:+ ".240") else allocateRanVIP base) es0
    (λ tl es' r, es' = es0 ∧ ∃ vip, r = Ok vip ∧ vip ≠ "" ∧ offered_vip es base tl vip).
Proof.
  intros Hb Em Ev. unfold offered_vip. destruct (es_Colocated (es_spec es)).
  { walk. split; [done|]. eexists. split; [done|]. split; [by apply app_nonempty_r | done]. }
  eapply spec_impl; [|apply allocateRanVIP_ok]. cbn beta. intros tl es' r [-> H].
  split; [done|]. unfold held_vip in H |- *. rewrite Ev in H. unfold answered in *.
  rewrite Em in H.
  fold (held_vip es) in H |- *. destruct (held_vip es) as [v|] eqn:E.
  - destruct H as [-> ->]. apply held_vip_text in E as E'. exists v. naive_solver.
  - destruct H as (l & -> & ->). eexists. split; [reflexivity|].
    split; [by apply pick_vip_nonempty | by eexists].
Qed.

Lemma set_es_spec_twice s s' es : set_es_spec s (set_es_spec s' es) = set_es_spec s es.
Proof. done. Qed.

Lemma set_es_spec_id es : set_es_spec (es_spec es) es = es.
Proof. by destruct es. Qed.

Lemma spec_put_spec s es (Q : list (event Env) → EdgeSite → result unit → Prop) :
  Q [] (set_es_spec s es) (Ok tt) → spec (put_spec s) es Q.
Proof. done. Qed.

Lemma write_back_ok s (changed : bool) es0 :
  spec (_ ← put_spec s; when changed update_site) es0 (λ t es' r,
    if changed then
      ∃ a, t = [@Ev Env (KUpdate KEdgeSite (set_es_spec s es0)) a] ∧
           match a with
           | Ok o => es' = o ∧ r = Ok tt
           | Err e => es' = set_es_spec s es0 ∧ r = Err e
           end
    else t = [] ∧ es' = set_es_spec s es0 ∧ r = Ok tt).
Proof. unfold put_spec, update_site, env_ok, env. walk; naive_solver. Qed.

#[local] Strategy 1000 [set_all index_fields siteIndex Sprintf].

(** A run of deriveAddressing in full: the base is found, a VIP over it is offered, and the update
    is made exactly when a field was empty. *)
Definition derivation (es : EdgeSite) (t : list (event Env)) (es' : EdgeSite)
    (r : result unit) : Prop :=
  ∃ tn tl tu base vip,
    t = (tn ++ tl ++ tu)%list ∧ found_base es tn base ∧ offered_vip es base tl vip ∧
    let es1 := set_es_spec (derived_spec (siteIndex (Name (es_meta es))) base vip (es_spec es)) es in
    if addressedb (es_spec es) then tu = [] ∧ es' = es ∧ r = Ok tt
    else ∃ a, tu = [@Ev Env (KUpdate KEdgeSite es1) a] ∧
              match a with
              | Ok o => es' = o ∧ r = Ok tt
              | Err e => es' = es1 ∧ r = Err e
              end.

(** An offered VIP is never empty. *)
Lemma offered_vip_nonempty es base tl vip : is_base base → offered_vip es base tl vip → vip ≠ "".
Proof.
  intros Hb. unfold offered_vip. destruct (es_Colocated _).
  { intros [_ ->]. by apply app_nonempty_r. }
  destruct (held_vip es) as [v|] eqn:E.
  - intros [_ ->]. by apply held_vip_text in E as [_ ?].
  - intros (l & _ & ->). by apply pick_vip_nonempty.
Qed.

Lemma deriveAddressing_runs es : spec deriveAddressing es (derivation es).
Proof.
  unfold deriveAddressing.
  destruct (index_fields_kept (siteIndex (Name (es_meta es))) es) as (Esub & Evip & Emeta & Egiv).
  walk. apply spec_put_spec. walk. eapply spec_impl; [|apply ranBase_ok]. cbn beta.
  intros tn es1 r (-> & base & -> & Hbase).
  apply (found_base_congr es) in Hbase; [|exact Esub|exact Egiv]. walk.
  apply spec_put_spec. step_spec.
  eapply spec_impl; [|apply (offered_vip_ok base es)]; [| |done|].
  - cbn beta. intros tl es1 r (-> & vip & -> & Hvip & Hoff).
    eapply spec_impl; [|apply write_back_ok]. cbn beta. intros tu es' r H.
    exists tn, tl, tu, base, vip. cbn [app]. rewrite ?set_es_spec_twice in H.
    rewrite <-set_all_derived in H. rewrite derived_spec_changed in H.
    do 3 (split; [done|]). cbn zeta. destruct (addressedb (es_spec es)) eqn:E; [|exact H].
    apply addressedb_spec in E. destruct H as (-> & -> & ->). split; [done|]. split; [|done].
    etransitivity; [|apply set_es_spec_id]. f_equal. by apply derived_spec_complete.
  - by eapply found_base_is_base.
  - etransitivity; [|exact Evip].
    exact (set_empty_other p_RanSubnet p_N2VIP _ _ (λ v s, eq_refl)).
Qed.

(** The same, with what follows for the base and the VIP. *)
Lemma deriveAddressing_trace es :
  let s1 := λ base vip, derived_spec (siteIndex (Name (es_meta es))) base vip (es_spec es) in
  spec deriveAddressing es (λ t es' r, ∃ tn tl tu base vip,
    t = (tn ++ tl ++ tu)%list ∧ node_listing tn ∧ is_base base ∧ vip ≠ "" ∧
    offered_vip es base tl vip ∧
    (if addressedb (es_spec es) then tu = [] ∧ es' = es ∧ r = Ok tt
     else ∃ a, tu = [@Ev Env (KUpdate KEdgeSite (set_es_spec (s1 base vip) es)) a] ∧
               match a with
               | Ok o => es' = o ∧ r = Ok tt
               | Err e => es' = set_es_spec (s1 base vip) es ∧ r = Err e
               end)).
Proof.
  intros s1. eapply spec_impl; [|apply deriveAddressing_runs].
  intros t es' r (tn & tl & tu & base & vip & Et & Hb & Hl & H).
  pose proof (found_base_is_base _ _ _ Hb) as Hbase.
  exists tn, tl, tu, base, vip. split; [exact Et|].
  split; [by eapply found_base_listing|]. split; [exact Hbase|].
  split; [by eapply offered_vip_nonempty|]. split; [exact Hl|exact H].
Qed.
