(* ===== verification/AddressPlan.v ===== *)
(** * The addressing plan of a fleet

    What the addresses derived in [Addressing] promise: deriveAddressing's functional behaviour and
    its convergence, that sites with different indices get disjoint networks with their gateways
    inside them, and that N2 VIPs stay pairwise distinct over every history of creations,
    deletions and reconciles of EdgeSites against one API server. *)

From S2P Require Import Prelude GoText Net Prog Api Effects Helpers Addressing.

#[local] Strategy 1000 [set_all derived_spec index_fields derived_fields siteIndex Sprintf].

(** ** Networks and addresses of a site *)

(** The prefixes among the fields derived from the index: pods, UEs, access and core. *)
Definition site_networks (name : string) : list prefix4 :=
  omap ParseCIDR4 (index_fields (siteIndex name)).*2.

(** The plain addresses among them: access and core gateways, next hop, gNB. *)
Definition site_addresses (name : string) : list Z :=
  omap ParseIP4 (index_fields (siteIndex name)).*2.

(** What the parsed fields are, for an index of the range siteIndex returns. *)
Definition networks_of (i : Z) : list prefix4 :=
  [Prefix4 (addr4 10 i 0 0) 16; Prefix4 (addr4 172 i 0 0) 16;
   Prefix4 (addr4 10 200 i 10) 24; Prefix4 (addr4 10 201 i 10) 24].
Definition addresses_of (i : Z) : list Z :=
  [addr4 10 200 i 1; addr4 10 201 i 1; addr4 10 201 i 10; addr4 10 200 i 20].

Definition parses (i : Z) : bool :=
  bool_decide (omap ParseCIDR4 (index_fields i).*2 = networks_of i ∧
               omap ParseIP4 (index_fields i).*2 = addresses_of i).

Lemma index_fields_parse i :
  2 ≤ i ≤ 198 →
  omap ParseCIDR4 (index_fields i).*2 = networks_of i ∧
  omap ParseIP4 (index_fields i).*2 = addresses_of i.
Proof.
  intros Hi. assert (forallb parses (seqZ 2 197) = true) as H by (vm_compute; done).
  rewrite forallb_forall in H. specialize (H i).
  apply (bool_decide_unpack _), Is_true_true, H, list_elem_of_In, elem_of_seqZ. lia.
Qed.

Lemma site_networks_eq name : site_networks name = networks_of (siteIndex name).
Proof. apply index_fields_parse, siteIndex_bounds. Qed.

Lemma site_addresses_eq name : site_addresses name = addresses_of (siteIndex name).
Proof. apply index_fields_parse, siteIndex_bounds. Qed.

(** The addresses of a /16 and of a /24. *)
Lemma in_prefix_16 a b c d x :
  0 ≤ c < 256 → 0 ≤ d < 256 →
  in_prefix (Prefix4 (addr4 a b c d) 16) x ↔ addr4 a b 0 0 ≤ x < addr4 a b 0 0 + 65536.
Proof.
  intros. unfold in_prefix, network, block, addr4. cbn [p_addr p_len].
  change (2 ^ (32 - 16)) with 65536.
  rewrite <-(Z.mod_unique_pos _ 65536 (a * 256 + b) (c * 256 + d)) by lia. lia.
Qed.

Lemma in_prefix_24 a b c d x :
  0 ≤ d < 256 →
  in_prefix (Prefix4 (addr4 a b c d) 24) x ↔ addr4 a b c 0 ≤ x < addr4 a b c 0 + 256.
Proof.
  intros. unfold in_prefix, network, block, addr4. cbn [p_addr p_len].
  change (2 ^ (32 - 24)) with 256.
  rewrite <-(Z.mod_unique_pos _ 256 (a * 65536 + b * 256 + c) d) by lia. lia.
Qed.

(** Splits membership in the four networks of an index. *)
Ltac each_network H :=
  unfold networks_of in H; repeat apply elem_of_cons in H as [->|H];
  [..|by apply elem_of_nil in H].

Lemma networks_apart i j p q :
  2 ≤ i ≤ 198 → 2 ≤ j ≤ 198 → p ∈ networks_of i → q ∈ networks_of j →
  i ≠ j ∨ p ≠ q → ¬ overlap p q.
Proof.
  intros Hi Hj Hp Hq Hne (x & Hx & Hy). each_network Hp; each_network Hq;
    rewrite ?in_prefix_16, ?in_prefix_24 in Hx by lia;
    rewrite ?in_prefix_16, ?in_prefix_24 in Hy by lia;
    unfold addr4 in Hx, Hy; try (clear Hne; lia).
  all: assert (i = j) as -> by (clear Hne; lia); by destruct Hne.
Qed.

(** ** Properties of the derived addresses *)

(** C25: Sites with different indices get disjoint networks, and the four networks of one site -
    pods, UEs, access, core - are disjoint from each other. *)
Theorem site_networks_disjoint a b p q :
  p ∈ site_networks a → q ∈ site_networks b →
  siteIndex a ≠ siteIndex b ∨ p ≠ q →
  ¬ overlap p q.
Proof.
  rewrite !site_networks_eq. intros Hp Hq Hne.
  eapply networks_apart; [apply siteIndex_bounds..|exact Hp|exact Hq|exact Hne].
Qed.

Lemma site_networks_disjoint_witness :
  siteIndex "edge-01" = 113 ∧ siteIndex "edge-02" = 114 ∧
  ¬ overlap (Prefix4 (addr4 10 113 0 0) 16) (Prefix4 (addr4 10 114 0 0) 16).
Proof.
  split; [reflexivity|]. split; [reflexivity|].
  apply (site_networks_disjoint "edge-01" "edge-02").
  - rewrite site_networks_eq. left.
  - rewrite site_networks_eq. left.
  - left. vm_compute. discriminate.
Defined.

(** C40: The addresses derived for a site are hosts of the subnets derived for it: the access
    gateway and the gNB of the access subnet, the core gateway and the next hop of the core subnet,
    and none of them is the UPF's access address; the next hop is the UPF's core address. *)
Theorem site_addresses_in_subnets name :
  ∃ pods ues access core accessGw coreGw nextHop gnb,
    site_networks name = [pods; ues; access; core] ∧
    site_addresses name = [accessGw; coreGw; nextHop; gnb] ∧
    in_prefix access accessGw ∧ in_prefix access gnb ∧
    in_prefix core coreGw ∧ in_prefix core nextHop ∧
    NoDup [accessGw; gnb; p_addr access] ∧ nextHop = p_addr core ∧ coreGw ≠ nextHop.
Proof.
  pose proof (siteIndex_bounds name) as Hi.
  rewrite site_networks_eq, site_addresses_eq. generalize (siteIndex name), Hi. intros i Hi'.
  unfold networks_of, addresses_of. do 8 eexists. split; [reflexivity|]. split; [reflexivity|].
  rewrite !in_prefix_24 by lia. cbn [p_addr]. unfold addr4.
  do 4 (split; [lia|]). split; [|split; lia].
  repeat constructor; rewrite ?elem_of_cons, ?elem_of_nil; lia.
Qed.

(** The index is a hash: two sites of one Fleet whose names default to their servers
    192.168.1.2 and 192.168.1.51 get one index, hence the same four networks and addresses. *)
Theorem siteIndex_collision :
  ∃ a b, a ≠ b ∧ a = "site-" +:+ ReplaceByte "192.168.1.2" dot dash ∧
         b = "site-" +:+ ReplaceByte "192.168.1.51" dot dash ∧
         siteIndex a = siteIndex b ∧ site_networks a = site_networks b ∧
         site_addresses a = site_addresses b.
Proof.
  exists "site-192-168-1-2", "site-192-168-1-51". by vm_compute.
Qed.

(** ** Properties of deriveAddressing *)

Lemma derive_reads es base tn tl tu vip :
  node_listing tn → offered_vip es base tl vip → writes (tn ++ tl ++ tu)%list = writes tu.
Proof.
  intros Hn Hl. rewrite !writes_app.
  assert (writes tn = []) as -> by (destruct Hn as [->|[? ->]]; done).
  assert (writes tl = []) as ->; [|done].
  unfold offered_vip in Hl. destruct (es_Colocated _); [by destruct Hl as [-> _]|].
  destruct (held_vip es); [by destruct Hl as [-> _] | by destruct Hl as (? & -> & _)].
Qed.

(** C24: deriveAddressing's calls and result, whatever they are answered.  It settles on a base:
    that of spec.ranSubnet, else - for a colocated site - that of the address mgmtNodeIP picks from
    the node listing, else that of the server, else 192.168.4.  It offers a VIP over it: .240 to a
    colocated site, the pool VIP a site holds already, else the first slot of the probe that no
    other site of the EdgeSite listing holds.  When every derived field is set nothing more is
    done; otherwise the EdgeSite is updated once, with each empty field filled from the index, the
    base and the VIP, each set field kept, the user's fields, metadata and status untouched, and
    the answer of that update is the result. *)
Theorem deriveAddressing_spec es :
  spec deriveAddressing es (λ t es' r, ∃ tn tl tu base vip,
    t = (tn ++ tl ++ tu)%list ∧ found_base es tn base ∧ offered_vip es base tl vip ∧
    (addressed (es_spec es) → tu = [] ∧ es' = es ∧ r = Ok tt) ∧
    (¬ addressed (es_spec es) → ∃ es1 a,
       tu = [@Ev Env (KUpdate KEdgeSite es1) a] ∧
       match a with
       | Ok o => es' = o ∧ r = Ok tt
       | Err e => es' = es1 ∧ r = Err e
       end ∧
       es_meta es1 = es_meta es ∧ es_status es1 = es_status es ∧
       given_part (es_spec es1) = given_part (es_spec es) ∧
       ∀ p v, (p, v) ∈ derived_fields (siteIndex (Name (es_meta es))) base vip →
         peek p (es_spec es1) = if String.eqb (peek p (es_spec es)) "" then v
                                else peek p (es_spec es))).
Proof.
  eapply spec_impl; [|apply deriveAddressing_runs].
  intros t es' r (tn & tl & tu & base & vip & Et & Hb & Hl & H).
  exists tn, tl, tu, base, vip. do 3 (split; [done|]). rewrite <-addressedb_spec. cbn zeta in H.
  destruct (addressedb (es_spec es)); [done|]. split; [done|]. intros _.
  destruct H as (a & -> & H).
  eexists _, a. split; [reflexivity|]. split; [exact H|]. do 2 (split; [done|]).
  split; [apply derived_spec_given | intros p v; apply derived_spec_peek].
Qed.

(** One successful derivation is enough: once the API server has accepted the update,
    deriving the stored site again makes no write, whatever the environment answers. *)
Theorem deriveAddressing_converges es :
  spec deriveAddressing es (λ t es' r,
    r = Ok tt →
    (∀ o a, @Ev Env (KUpdate KEdgeSite o) (Ok a) ∈ t → accepted (k := KEdgeSite) o a) →
    spec deriveAddressing es' (λ t' es'' r',
      writes t' = [] ∧ es'' = es' ∧ r' = Ok tt)).
Proof.
  eapply spec_impl; [|apply deriveAddressing_trace]. cbn beta.
  intros t es' r (tn & tl & tu & base & vip & -> & _ & _ & Hv & _ & H) -> Hacc.
  assert (addressed (es_spec es')) as Hes'.
  { destruct (addressedb (es_spec es)) eqn:E.
    - apply addressedb_spec in E. by destruct H as (_ & -> & _).
    - destruct H as ([o|e] & -> & H); [|by destruct H]. destruct H as [-> _].
      destruct (Hacc (set_es_spec (derived_spec (siteIndex (Name (es_meta es))) base vip
        (es_spec es)) es) o) as [Hs _].
      { rewrite !elem_of_app. right. right. left. }
      cbn in Hs. rewrite Hs. by apply derived_spec_addressed. }
  eapply spec_impl; [|apply deriveAddressing_trace]. cbn beta.
  intros t' es'' r' (tn' & tl' & tu' & base' & vip' & -> & Hn' & _ & _ & Hl' & H').
  rewrite (derive_reads es' base' tn' tl' tu' vip' Hn' Hl').
  apply addressedb_spec in Hes'. rewrite Hes' in H'. by destruct H' as (-> & -> & ->).
Qed.

(** The RAN base is stable.  Once the pool CIDR the site derived is stored, ranBase returns
    the base it was derived from without listing a node, so the fallback to the node or server
    address is taken at most once in the life of a site. *)
Theorem ranBase_stable es base i :
  is_base base → 0 ≤ i < 256 → es_RanSubnet (es_spec es) = base +:+ "." +:+ Itoa i +:+ "/28" →
  spec ranBase es (λ t es' r, t = [] ∧ es' = es ∧ r = Ok base).
Proof.
  intros Hb Hi E. eapply spec_impl; [|apply ranBase_ok]. cbn beta.
  intros t es' r (-> & b & -> & H). pose proof (found_base_own _ _ _ H) as H'. clear H.
  rename H' into H. rewrite E in H.
  assert (is_int64 i) as Hi64 by (unfold is_int64, min_int64, max_int64; lia).
  rewrite netBase_over in H by done.
  destruct H as [-> ->]; [by apply is_base_nonempty | done].
Qed.

(** ** N2 VIPs over the life of a fleet

    [vip_step] is one event on a management cluster whose API server is [MemServer]: a user creates
    an EdgeSite without a VIP, edits one without touching its VIP, deletes one, or the reconciler
    runs deriveAddressing on one against the current content of the server.  Two sites on one L2
    segment with one VIP would both answer ARP for it; [distinct_vips] excludes that. *)

Import MemServer.

Definition edge_sites (w : world) : gmap (string * string) EdgeSite := objects w KEdgeSite.

(** All sites live in one namespace, as the names of a Fleet's sites do. *)
Definition site_key (name : string) : string * string := ("default", name).

Inductive vip_step : world → world → Prop :=
| step_create w w' o :
    es_N2VIP (es_spec o) = "" → key_of (k := KEdgeSite) o = site_key (Name (es_meta o)) →
    edge_sites w !! site_key (Name (es_meta o)) = None →
    edge_sites w' = <[site_key (Name (es_meta o)) := o]> (edge_sites w) →
    vip_step w w'
| step_edit w w' o o' :
    edge_sites w !! site_key (Name (es_meta o)) = Some o →
    key_of (k := KEdgeSite) o' = site_key (Name (es_meta o)) →
    es_N2VIP (es_spec o') = es_N2VIP (es_spec o) →
    edge_sites w' = <[site_key (Name (es_meta o)) := o']> (edge_sites w) →
    vip_step w w'
| step_delete w w' name :
    edge_sites w' = delete (site_key name) (edge_sites w) →
    vip_step w w'
| step_derive w es :
    edge_sites w !! site_key (Name (es_meta es)) = Some es →
    (size (edge_sites w) ≤ 14)%nat →
    (es_Colocated (es_spec es) = true →
     ∀ key o, edge_sites w !! key = Some o → octet_of o ≠ Some 240) →
    vip_step w (run_world handle (deriveAddressing es) w).

Definition keyed (w : world) : Prop :=
  ∀ key o, edge_sites w !! key = Some o →
    key = site_key (Name (es_meta o)) ∧ key_of (k := KEdgeSite) o = key.

Definition distinct_vips (w : world) : Prop :=
  ∀ k1 k2 o1 o2 d, edge_sites w !! k1 = Some o1 → edge_sites w !! k2 = Some o2 →
    octet_of o1 = Some d → octet_of o2 = Some d → k1 = k2.

(** Storing a site whose octet is held by no other site. *)
Lemma distinct_insert w w' key o :
  distinct_vips w → edge_sites w' = <[key := o]> (edge_sites w) →
  (∀ k o' d, k ≠ key → edge_sites w !! k = Some o' → octet_of o = Some d →
     octet_of o' ≠ Some d) →
  distinct_vips w'.
Proof.
  intros Hd E Hfree k1 k2 o1 o2 d. rewrite E.
  intros [[<- <-]|[N1 L1]]%lookup_insert_Some [[<- <-]|[N2 L2]]%lookup_insert_Some H1 H2.
  - done.
  - exfalso. by apply (Hfree k2 o2 d).
  - exfalso. by apply (Hfree k1 o1 d).
  - by apply (Hd k1 k2 o1 o2 d).
Qed.

Lemma keyed_insert w w' name o :
  keyed w → key_of (k := KEdgeSite) o = site_key name →
  edge_sites w' = <[site_key name := o]> (edge_sites w) → keyed w'.
Proof.
  intros Hk Ho E key o'. rewrite E. intros [[<- <-]|[_ L]]%lookup_insert_Some; [|by apply Hk].
  split; [|done]. injection Ho as _ ->. done.
Qed.

(** Fewer than 14 other sites leave a slot of the pool. *)
Lemma others_bound w es :
  edge_sites w !! site_key (Name (es_meta es)) = Some es → (size (edge_sites w) ≤ 14)%nat →
  (length (omap octet_of (others (Name (es_meta es)) (map_to_list (edge_sites w)).*2)) < 14)%nat.
Proof.
  intros Hes Hsize. rewrite <-(insert_delete_id _ _ _ Hes) in Hsize |- *.
  rewrite map_size_insert_None in Hsize by apply lookup_delete_eq.
  unfold others. rewrite map_to_list_insert by apply lookup_delete_eq. cbn [fmap list_fmap].
  rewrite filter_cons_False by (cbn; tauto).
  eapply Nat.le_lt_trans; [apply length_omap_le|].
  eapply Nat.le_lt_trans; [apply length_filter|].
  rewrite length_fmap, length_map_to_list. lia.
Qed.

Lemma edge_sites_put w key o :
  edge_sites (put w KEdgeSite key o) = <[key := o]> (edge_sites w).
Proof. apply (with_objects_same w KEdgeSite). Qed.

Lemma edge_sites_remove w key :
  edge_sites (remove w KEdgeSite key) = delete key (edge_sites w).
Proof. apply (with_objects_same w KEdgeSite). Qed.

(** The VIP offered to a site by the current content of the server. *)
Definition offered_now (w : world) (es : EdgeSite) (base vip : string) : Prop :=
  if es_Colocated (es_spec es) then vip = base +:+ ".240"
  else match held_vip es with
       | Some v => vip = v
       | None => vip = pick_vip (Name (es_meta es)) base
                   (taken_by (Name (es_meta es)) (map_to_list (edge_sites w)).*2)
       end.

(** A derivation against the server: nothing is written, or the site is stored with the VIP that
    the current content of the server offers it. *)
Lemma derive_in_world w es :
  keyed w → edge_sites w !! site_key (Name (es_meta es)) = Some es →
  let w' := run_world handle (deriveAddressing es) w in
  edge_sites w' = edge_sites w ∨
  ∃ base vip o, edge_sites w' = <[site_key (Name (es_meta es)) := o]> (edge_sites w) ∧
    key_of (k := KEdgeSite) o = site_key (Name (es_meta es)) ∧ is_base base ∧
    es_N2VIP (es_spec o) =
      (if String.eqb (es_N2VIP (es_spec es)) "" then vip else es_N2VIP (es_spec es)) ∧
    offered_now w es base vip.
Proof.
  intros Hk Hes w'.
  destruct (always_replays handle (deriveAddressing es) _ w (deriveAddressing_trace es))
    as (t & Hr & tn & tl & tu & base & vip & Et & Hn & Hb & Hv & Hl & H).
  fold w' in Hr. rewrite Et in Hr. apply replays_app in Hr as (w1 & Hr1 & Hr).
  apply replays_app in Hr as (w2 & Hr2 & Hr).
  assert (w1 = w) as -> by (destruct Hn as [->|[n ->]]; [done|by destruct Hr1]).
  assert (w2 = w ∧ offered_now w es base vip) as [-> Hoff].
  { unfold offered_vip, offered_now in *. destruct (es_Colocated _); [by destruct Hl as [-> ->]|].
    destruct (held_vip es); [by destruct Hl as [-> ->]|]. destruct Hl as (l & -> & ->).
    by destruct Hr2 as [<- Hr2]. }
  destruct (addressedb (es_spec es)).
  { destruct H as (-> & _ & _). by left; rewrite Hr. }
  right. destruct H as (a & -> & _). destruct Hr as [_ Hr]. exists base, vip. rewrite Hr.
  destruct (Hk _ _ Hes) as [_ Ekey].
  rewrite (handle_update w KEdgeSite _ es); [|by rewrite <-Ekey in Hes|done]. unfold write. cbn [snd].
  eexists. split; [rewrite edge_sites_put; rewrite <-Ekey; reflexivity|].
  split; [exact Ekey|]. split; [done|]. split; [|done].
  apply (derived_spec_peek _ _ _ _ p_N2VIP vip). unfold derived_fields.
  apply elem_of_app. right. right. left.
Qed.

(** The VIP a site is offered is held by no other site of the server. *)
Lemma offered_vip_free w es base vip :
  is_base base → edge_sites w !! site_key (Name (es_meta es)) = Some es → keyed w →
  (size (edge_sites w) ≤ 14)%nat → es_N2VIP (es_spec es) = "" →
  (es_Colocated (es_spec es) = true →
   ∀ key o, edge_sites w !! key = Some o → octet_of o ≠ Some 240) →
  offered_now w es base vip →
  ∀ k o d, k ≠ site_key (Name (es_meta es)) → edge_sites w !! k = Some o →
    vip_octet vip = Some d → octet_of o ≠ Some d.
Proof.
  intros Hb Hes Hk Hsize Hempty Hcol Hoff k o d Hne Ho Hd. unfold offered_now in Hoff.
  destruct (es_Colocated (es_spec es)).
  { subst vip. assert (d = 240) as ->; [|by eapply Hcol].
    change ".240" with ("." +:+ Itoa 240 +:+ "") in Hd.
    rewrite <-vip_text, vip_octet_of in Hd by done. by injection Hd. }
  assert (held_vip es = None) as Eheld by (unfold held_vip; by rewrite Hempty).
  rewrite Eheld in Hoff. subst vip.
  destruct (pick_vip_octet (Name (es_meta es)) base
    (taken_by (Name (es_meta es)) (map_to_list (edge_sites w)).*2) Hb) as (d' & _ & E & _ & Hfree).
  rewrite E in Hd. injection Hd as ->. intros Hoct.
  apply Hfree; [by apply free_slot_exists, others_bound|].
  apply elem_of_taken_by. right. exists o. destruct (Hk _ _ Ho) as [-> _].
  split; [|split; [intros En; apply Hne; by rewrite En|done]].
  apply list_elem_of_fmap. eexists (_, o). split; [done|]. by apply elem_of_map_to_list.
Qed.

Lemma derive_keeps w es :
  keyed w → distinct_vips w → edge_sites w !! site_key (Name (es_meta es)) = Some es →
  (size (edge_sites w) ≤ 14)%nat →
  (es_Colocated (es_spec es) = true →
   ∀ key o, edge_sites w !! key = Some o → octet_of o ≠ Some 240) →
  keyed (run_world handle (deriveAddressing es) w) ∧
  distinct_vips (run_world handle (deriveAddressing es) w).
Proof.
  intros Hk Hd Hes Hsize Hcol.
  destruct (derive_in_world w es Hk Hes) as [E|(base & vip & o & E & Ek & Hb & Ev & Hoff)].
  { unfold keyed, distinct_vips. by rewrite E. }
  split; [by eapply keyed_insert|]. eapply distinct_insert; [done|exact E|].
  intros k o' d Hne Ho'. unfold octet_of at 1. rewrite Ev.
  destruct (String.eqb_spec (es_N2VIP (es_spec es)) "").
  - by eapply offered_vip_free.
  - intros H1 H2. apply Hne. by apply (Hd k _ o' es d).
Qed.

Lemma vip_step_keeps w w' :
  vip_step w w' → keyed w ∧ distinct_vips w → keyed w' ∧ distinct_vips w'.
Proof.
  intros Hs [Hk Hd]. destruct Hs as [w w' o Hv Hko Hn E|w w' o o' Ho Hko Hv E|w w' name E|w es].
  - split; [by eapply keyed_insert|]. eapply distinct_insert; [done|exact E|].
    intros k o' d _ _. unfold octet_of. by rewrite Hv.
  - split; [by eapply keyed_insert|]. eapply distinct_insert; [done|exact E|].
    intros k o2 d Hne L. unfold octet_of at 1. rewrite Hv. intros H1 H2.
    apply Hne. by apply (Hd k _ o2 o d).
  - unfold keyed, distinct_vips. rewrite E. split.
    + intros key o [_ L]%lookup_delete_Some. by apply Hk.
    + intros k1 k2 o1 o2 d [_ L1]%lookup_delete_Some [_ L2]%lookup_delete_Some.
      by apply (Hd k1 k2 o1 o2 d).
  - by apply derive_keeps.
Qed.

(** No two EdgeSites ever hold N2 VIPs with the same last octet.  This is an invariant of every
    history of creations (without a preset VIP), edits (that leave the VIP alone), deletions and
    reconciles of a fleet of at most 14 sites, provided each reconcile sees the current content of
    the API server and a colocated core is reconciled while no other site holds .240. *)
Theorem vips_stay_distinct w :
  rtc vip_step empty w → distinct_vips w.
Proof.
  intros Hr. apply (rtc_ind_r (λ w, keyed w ∧ distinct_vips w) empty) in Hr as [_ H]; [done| |].
  - split; intros ?; unfold edge_sites, empty; cbn [objects].
    + intros o. by rewrite lookup_empty.
    + intros ? ? ? ?. by rewrite lookup_empty.
  - intros w1 w2 _ Hs H. by eapply vip_step_keeps.
Qed.

(** *** A fleet *)

(** An EdgeSite as a user writes it: a name, a server and a role. *)
Definition user_site (name server : string) : EdgeSite :=
  {| es_meta := new_meta "default" name;
     es_spec := {| es_Server := server; es_User := ""; es_Role := "cp+upf"; es_ControlPlane := "";
                   es_Colocated := false; es_PodCIDR := ""; es_SliceSD := ""; es_UEPool := "";
                   es_AccessCIDR := ""; es_CoreCIDR := ""; es_AccessGw := ""; es_CoreGw := "";
                   es_CoreNextHop := ""; es_GnbIP := ""; es_RanSubnet := ""; es_N2VIP := "";
                   es_RanNic := ""; es_EgressNic := ""; es_RAN := None |};
     es_status := {| ess_Phase := ""; ess_Message := ""; ess_Cluster := "";
                     ess_ObservedGeneration := 0; ess_Conditions := [] |} |}.

Definition create_site (w : world) (o : EdgeSite) : world :=
  put w KEdgeSite (site_key (Name (es_meta o))) o.

Definition edge_01 : EdgeSite := user_site "edge-01" "192.168.1.5".
(** Its name hashes to the slot of edge-01. *)
Definition edge_29 : EdgeSite := user_site "edge-29" "192.168.1.6".

Definition fleet_1 : world := run_world handle (deriveAddressing edge_01) (create_site empty edge_01).
Definition fleet_2 : world :=
  run_world handle (deriveAddressing edge_29) (create_site fleet_1 edge_29).

Lemma fleet_1_reached : rtc vip_step empty fleet_1.
Proof.
  eapply rtc_l; [apply (step_create _ (create_site empty edge_01) edge_01)|].
  1-3: reflexivity. 1: apply edge_sites_put.
  apply rtc_once, step_derive; [reflexivity | vm_compute; lia | done].
Qed.

Lemma fleet_2_reached : rtc vip_step empty fleet_2.
Proof.
  etransitivity; [apply fleet_1_reached|].
  eapply rtc_l; [apply (step_create _ (create_site fleet_1 edge_29) edge_29)|].
  1-3: reflexivity. 1: apply edge_sites_put.
  apply rtc_once, step_derive; [vm_compute; reflexivity | vm_compute; lia | done].
Qed.

Lemma vips_stay_distinct_witness :
  rtc vip_step empty fleet_2 ∧ distinct_vips fleet_2 ∧
  octet_of <$> (map_to_list (edge_sites fleet_2)).*2 = [Some 243; Some 242].
Proof.
  split; [apply fleet_2_reached|]. split; [apply vips_stay_distinct, fleet_2_reached|].
  vm_compute. reflexivity.
Defined.

(** ** The limits of the allocator *)

Definition holder (name ns vip : string) : EdgeSite :=
  let o := user_site name "192.168.1.9" in
  set_es_spec (poke p_N2VIP vip (es_spec o))
    (set_es_meta (new_meta ns name) o).

(** Freshness of the listing is necessary: edge-01 and edge-29, reconciled against one
    listing in which neither holds a VIP yet, are both given .242. *)
Theorem stale_listing_collides base :
  pick_vip "edge-01" base (taken_by "edge-01" []) = pick_vip "edge-29" base (taken_by "edge-29" [])
  ∧ pick_vip "edge-01" base (taken_by "edge-01" []) = Sprintf "%s.%d" [FStr base; FInt 242].
Proof. split; reflexivity. Qed.

(** So is the single namespace: a site skips the VIP of any site with its own name, and thus
    takes the VIP its namesake of another namespace holds. *)
Theorem namesake_collides base :
  let namesake := holder "edge-01" "other" (Sprintf "%s.%d" [FStr base; FInt 242]) in
  pick_vip "edge-01" base (taken_by "edge-01" [namesake]) = es_N2VIP (es_spec namesake).
Proof. reflexivity. Qed.

(** An exhausted pool is not reported: once .241-.254 are all taken the VIP offered is .254,
    which another site holds. *)
Theorem exhausted_pool_collides self base items :
  (∀ i, 241 ≤ i ≤ 254 → ∃ o, o ∈ items ∧ Name (es_meta o) ≠ self ∧ octet_of o = Some i) →
  pick_vip self base (taken_by self items) = base +:+ ".254" ∧
  ∃ o, o ∈ items ∧ Name (es_meta o) ≠ self ∧ octet_of o = Some 254.
Proof.
  intros H. split; [|apply (H 254); lia]. unfold pick_vip.
  assert (free_slot (Z.rem (siteIndex self) 14) (taken_by self items) = None) as ->; [|done].
  apply free_slot_None; [apply probe_start_nonneg|]. intros i Hi.
  apply elem_of_taken_by. right. by apply H.
Qed.

(** Fourteen sites that hold the whole pool. *)
Definition full_pool : list EdgeSite :=
  (λ i, holder (Sprintf "core-%d" [FInt i]) "default" (Sprintf "192.168.1.%d" [FInt i]))
    <$> seqZ 241 14.

Lemma exhausted_pool_collides_witness :
  pick_vip "edge-01" "192.168.1" (taken_by "edge-01" full_pool) = "192.168.1" +:+ ".254" ∧
  ∃ o, o ∈ full_pool ∧ Name (es_meta o) ≠ "edge-01" ∧ octet_of o = Some 254.
Proof.
  apply (exhausted_pool_collides "edge-01" "192.168.1" full_pool).
  intros i Hi. exists (holder (Sprintf "core-%d" [FInt i]) "default"
    (Sprintf "192.168.1.%d" [FInt i])).
  split; [apply list_elem_of_fmap; exists i; split; [done|apply elem_of_seqZ; lia]|].
  assert (i ∈ seqZ 241 14) as Hin by (apply elem_of_seqZ; lia). vm_compute in Hin.
  repeat (apply elem_of_cons in Hin as [->|Hin]; [split; vm_compute; done|]).
  by apply elem_of_nil in Hin.
Defined.

(** ** The allocator *)

(** The VIP allocateRanVIP returns for a site that holds none lies in the pool of its base,
    and, when the listing succeeds and fewer than 14 other sites hold a VIP, no other site of the
    listing holds the same last octet.  The site object is not modified. *)
Theorem allocateRanVIP_collision_free base es :
  is_base base → held_vip es = None →
  spec (allocateRanVIP base) es (λ t es' r,
    es' = es ∧
    ∃ listing vip d,
      t = [@Ev Env (KList KEdgeSite None []) listing] ∧ r = Ok vip ∧
      vip = Sprintf "%s.%d" [FStr base; FInt d] ∧ vip_octet vip = Some d ∧ 241 ≤ d ≤ 254 ∧
      ∀ items, listing = Ok items →
        (length (omap octet_of (others (Name (es_meta es)) items)) < 14)%nat →
        ∀ o, o ∈ items → Name (es_meta o) ≠ Name (es_meta es) → octet_of o ≠ Some d).
Proof.
  intros Hb Hheld. eapply spec_impl; [|apply allocateRanVIP_ok]. cbn beta.
  intros t es' r [-> H]. rewrite Hheld in H. destruct H as (listing & -> & ->).
  destruct (pick_vip_octet (Name (es_meta es)) base (answered es listing) Hb)
    as (d & E1 & E2 & Hd & Hfree).
  split; [done|]. eexists _, _, d. do 5 (split; [done|]).
  intros items -> Hlen o Ho Hn Hoct. cbn [answered] in Hfree.
  apply Hfree; [by apply free_slot_exists|]. apply elem_of_taken_by. right. by exists o.
Qed.

Lemma allocateRanVIP_collision_free_witness :
  is_base "192.168.4" ∧ held_vip edge_01 = None ∧
  spec (allocateRanVIP "192.168.4") edge_01 (λ t es' r, es' = edge_01 ∧ is_ok r = true).
Proof.
  split; [apply lab_base_is_base|]. split; [reflexivity|].
  eapply spec_impl; [|apply (allocateRanVIP_collision_free "192.168.4" edge_01)].
  - cbn beta. intros t es' r (-> & l & v & d & _ & -> & _). by split.
  - apply lab_base_is_base.
  - reflexivity.
Defined.

(** A site that carries a VIP of the pool keeps it verbatim, without listing anything. *)
Theorem allocateRanVIP_stable base es vip :
  held_vip es = Some vip →
  vip = es_N2VIP (es_spec es) ∧ allocateRanVIP base es = Ret (es, Ok vip).
Proof.
  intros H. split; [by apply held_vip_text|].
  unfold allocateRanVIP, mbind, act_mbind, get. cbn [prog_bind]. by rewrite H.
Qed.

Lemma allocateRanVIP_stable_witness :
  allocateRanVIP "10.0.0" (holder "edge-01" "default" "192.168.1.250") =
  Ret (holder "edge-01" "default" "192.168.1.250", Ok "192.168.1.250").
Proof.
  apply (allocateRanVIP_stable "10.0.0" (holder "edge-01" "default" "192.168.1.250")).
  reflexivity.
Defined.

Lemma ranBase_stable_witness :
  spec ranBase (set_es_spec (poke p_RanSubnet "192.168.4.240/28" (es_spec edge_01)) edge_01)
    (λ t es' r, t = [] ∧ r = Ok "192.168.4").
Proof.
  eapply spec_impl; [|apply (ranBase_stable _ "192.168.4" 240)].
  - cbn beta. intros t es' r (-> & _ & ->). by split.
  - apply lab_base_is_base.
  - lia.
  - reflexivity.
Defined.
