(* ===== verification/RanProfile.v ===== *)
(** * The gNB of a site (edgesite_controller.go: deliverRAN and its renderers)

    A site whose spec has a [ran] block gets an OCUDU gNB: [gnb_config] is the gnb.yaml it runs, by
    the precedence the code documents (full override, SDR profile, Open Fronthaul profile,
    simulator), [detect_script] the init script, [pod_spec] and [pod_annotations] the Deployment's
    parts.  [deliverRAN] delivers the manifests to the site's deploy repository one by one.

    The templates are the source's literals; a backtick stands for a double quote (see [raw]). *)

From S2P Require Import Prelude GoText Prog Api Effects Helpers GitOps Addressing.

(** ** Renderers of the radio configuration *)

Definition profile_head (tac sd : Z) : string :=
  Sprintf (raw "cu_cp:
  amf:
    addr: AMF_ADDR
    bind_addr: 0.0.0.0
    supported_tracking_areas:
      - tac: %d
        plmn_list:
          - plmn: `00101`
            tai_slice_support_list:
              - { sst: 1, sd: %d }
") [FInt tac; FInt sd].

Definition b210_profile (tac sd : Z) : string :=
  Sprintf (raw "ru_sdr: { device_driver: uhd, device_args: `RADIO_ARGS,num_recv_frames=64,num_send_frames=64`, clock: internal, srate: 23.04, otw_format: sc12, tx_gain: 80, rx_gain: 60 }
cell_cfg:
  dl_arfcn: 621312
  band: 78
  channel_bandwidth_MHz: 20
  common_scs: 30
  nof_antennas_dl: 1
  nof_antennas_ul: 1
  plmn: `00101`
  tac: %d
  pci: 0
  slicing: [ { sst: 1, sd: %d } ]
  pdsch: { max_consecutive_kos: 1000000 }
  pusch: { max_consecutive_kos: 1000000 }
  pucch: { max_consecutive_kos: 1000000 }
log: { filename: stdout, all_level: warning }
") [FInt tac; FInt sd].

Definition usrp_profile (tac sd : Z) : string :=
  Sprintf (raw "ru_sdr: { device_driver: uhd, device_args: `RADIO_ARGS`, srate: 61.44, clock: internal, sync: internal, tx_gain: 45, rx_gain: 70 }
cell_cfg:
  dl_arfcn: 621312
  band: 78
  channel_bandwidth_MHz: 40
  common_scs: 30
  nof_antennas_dl: 2
  nof_antennas_ul: 2
  plmn: `00101`
  tac: %d
  pci: 0
  slicing: [ { sst: 1, sd: %d } ]
  tdd_ul_dl_cfg: { dl_ul_tx_period: 10, nof_dl_slots: 7, nof_dl_symbols: 6, nof_ul_slots: 2, nof_ul_symbols: 4 }
  prach: { prach_config_index: 159, prach_root_sequence_index: 1, zero_correlation_zone: 0, prach_frequency_start: 12 }
  pdsch: { max_consecutive_kos: 1000000 }
  pusch: { max_consecutive_kos: 1000000 }
  pucch: { max_consecutive_kos: 1000000, nof_cell_csi_res: 0 }
  csi: { csi_rs_enabled: false }
log: { filename: stdout, all_level: warning }
") [FInt tac; FInt sd].

Definition deviceProfile (device : string) (tac sd : Z) : string :=
  profile_head tac sd +:+
  (if String.eqb device "b210" then b210_profile tac sd else usrp_profile tac sd).

Definition srateForBw (bwMHz : Z) : string :=
  if bwMHz <=? 5 then "7.68"
  else if bwMHz <=? 10 then "11.52"
  else if bwMHz <=? 15 then "15.36"
  else if bwMHz <=? 20 then "23.04"
  else if bwMHz <=? 40 then "46.08"
  else if bwMHz <=? 50 then "61.44"
  else if bwMHz <=? 80 then "92.16"
  else "122.88".

Inductive port_kind := PPrach | PDl | PUl.

Definition port_default (kind : port_kind) : list Z :=
  match kind with PPrach => [4; 5; 6; 7] | PDl => [0; 1; 2; 3] | PUl => [0; 1; 2; 3] end.

Definition port_override (o : RANOfh) (kind : port_kind) : list Z :=
  match kind with PPrach => ofh_PrachPortId o | PDl => ofh_DlPortId o | PUl => ofh_UlPortId o end.

(** The eAxC ports: the override when it is a non-empty list. *)
Definition ofh_ports (ofh : option RANOfh) (kind : port_kind) : list Z :=
  match ofh with
  | Some o => match port_override o kind with [] => port_default kind | v => v end
  | None => port_default kind
  end.

Definition ofhPortList (ofh : option RANOfh) (kind : port_kind) : string :=
  "[" +:+ Join (Itoa <$> ofh_ports ofh kind) ", " +:+ "]".

(** A field of the ofh block, or its default. *)
Definition ofh_field (ofh : option RANOfh) (f : RANOfh → string) (d : string) : string :=
  match ofh with Some o => orDefault (f o) d | None => d end.

Definition ofh_eal (ofh : option RANOfh) (pci : string) : string :=
  let eal := Sprintf "--lcores (0-1)@(0-3) -a %s --iova-mode=pa" [FStr pci] in
  match ofh with
  | Some o => if String.eqb (TrimSpace (ofh_EalArgs o)) "" then eal else ofh_EalArgs o
  | None => eal
  end.

(** The band without its leading n. *)
Definition cell_band (cell : RANCell) : string := TrimPrefix (orDefault (cell_Band cell) "n78") "n".

Definition ofhProfile (ofh : option RANOfh) (cell : RANCell) (tac sd : Z) : string :=
  let pci := ofh_field ofh ofh_Interface "0000:af:0a.0" in
  let ruMac := ofh_field ofh ofh_RuMac "aa:bb:cc:dd:ee:ff" in
  let duMac := ofh_field ofh ofh_DuMac "00:11:22:33:44:55" in
  let eal := ofh_eal ofh pci in
  let ant := orInt (cell_Antennas cell) 4 in
  Sprintf (raw "cu_cp:
  amf:
    addr: AMF_ADDR
    port: 38412
    bind_addr: 0.0.0.0
    supported_tracking_areas:
      - tac: %d
        plmn_list:
          - plmn: `00101`
            tai_slice_support_list:
              - sst: 1
                sd: %d
hal:
  eal_args: `%s`
expert_phy:
  allow_request_on_empty_uplink_slot: true
ru_ofh:
  t1a_max_cp_dl: 350
  t1a_min_cp_dl: 200
  t1a_max_cp_ul: 350
  t1a_min_cp_ul: 200
  t1a_max_up: 300
  t1a_min_up: 0
  ta4_max: 500
  ta4_min: 0
  is_prach_cp_enabled: true
  ignore_ecpri_payload_size: false
  ignore_ecpri_seq_id: true
  compr_method_ul: bfp
  compr_bitwidth_ul: 9
  compr_method_dl: bfp
  compr_bitwidth_dl: 9
  compr_method_prach: bfp
  compr_bitwidth_prach: 9
  enable_ul_static_compr_hdr: true
  enable_dl_static_compr_hdr: true
  iq_scaling: 5.0
  cells:
    - network_interface: %s
      ru_mac_addr: %s
      du_mac_addr: %s
      prach_port_id: %s
      dl_port_id: %s
      ul_port_id: %s
cell_cfg:
  dl_arfcn: %d
  band: %s
  channel_bandwidth_MHz: %d
  common_scs: %d
  plmn: `00101`
  tac: %d
  pci: %d
  nof_antennas_dl: %d
  nof_antennas_ul: %d
  pdcch:
    common:
      coreset0_index: 11
      ss0_index: 0
  pdsch:
    min_ue_mcs: 0
    max_ue_mcs: 28
    nof_harqs: 16
    max_nof_harq_retxs: 4
    mcs_table: qam64
  pusch:
    min_ue_mcs: 0
    max_ue_mcs: 25
    max_nof_harq_retxs: 4
    msg3_delta_preamble: 2
    p0_nominal_with_grant: -96
    mcs_table: qam64
  pucch:
    p0_nominal: -96
    sr_period_ms: 20
  prach:
    prach_config_index: 159
    prach_root_sequence_index: 1
    zero_correlation_zone: 14
    prach_frequency_start: 22
    preamble_rx_target_pw: -80
    preamble_trans_max: 7
    power_ramping_step_db: 4
    nof_cb_preambles_per_ssb: 64
    ra_resp_window: 10
  csi:
    csi_rs_enabled: true
    csi_rs_period: 20
  ssb:
    ssb_period: 20
    ssb_block_power_dbm: 0
  tdd_ul_dl_cfg:
    dl_ul_tx_period: 5
    nof_dl_slots: 3
    nof_dl_symbols: 6
    nof_ul_slots: 1
    nof_ul_symbols: 4
log:
  filename: stdout
  all_level: info
  ofh_level: info
")
    [FInt tac; FInt sd; FStr eal; FStr pci; FStr ruMac; FStr duMac;
     FStr (ofhPortList ofh PPrach); FStr (ofhPortList ofh PDl); FStr (ofhPortList ofh PUl);
     FInt (orInt (cell_DlArfcn cell) 630000); FStr (cell_band cell);
     FInt (orInt (cell_BandwidthMHz cell) 100); FInt (orInt (cell_CommonScs cell) 30); FInt tac;
     FInt (orInt (cell_Pci cell) 0); FInt ant; FInt ant].

Definition ofh_radio_block (ofh : option RANOfh) : string :=
  let iface := ofh_field ofh ofh_Interface "0000:01:00.1" in
  let ruMac := ofh_field ofh ofh_RuMac "aa:bb:cc:dd:ee:ff" in
  let duMac := ofh_field ofh ofh_DuMac "00:11:22:33:44:55" in
  let vlan := match ofh with Some o => orInt (ofh_VlanTag o) 3 | None => 3 end in
  Sprintf (raw "ru_ofh:
  ru_bandwidth_MHz: 100
  t1a_max_cp_dl: 500
  t1a_min_cp_dl: 258
  t1a_max_cp_ul: 500
  t1a_min_cp_ul: 285
  t1a_max_up: 300
  t1a_min_up: 85
  ta4_max: 300
  ta4_min: 50
  is_prach_cp_enabled: true
  compr_method_ul: bfp
  compr_bitwidth_ul: 9
  compr_method_dl: bfp
  compr_bitwidth_dl: 9
  compr_method_prach: bfp
  compr_bitwidth_prach: 9
  enable_ul_static_compr_hdr: true
  enable_dl_static_compr_hdr: true
  cells:
    - network_interface: %s
      ru_mac_addr: %s
      du_mac_addr: %s
      vlan_tag_cp: %d
      vlan_tag_up: %d
      prach_port_id: [4, 5]
      dl_port_id: [0, 1]
      ul_port_id: [0, 1]") [FStr iface; FStr ruMac; FStr duMac; FInt vlan; FInt vlan].

Definition ranRadioBlock (split device srate : string) (ofh : option RANOfh) : string :=
  if String.eqb split "7.2" then ofh_radio_block ofh
  else if String.eqb device "b210" then
    Sprintf (raw "ru_sdr:
  device_driver: uhd
  device_args: type=b200
  clock: external
  srate: %s
  tx_gain: 80
  rx_gain: 40") [FStr srate]
  else if String.eqb device "x310" then
    Sprintf (raw "ru_sdr:
  device_driver: uhd
  device_args: type=x300
  clock: internal
  srate: %s
  tx_gain: 50
  rx_gain: 50") [FStr srate]
  else
    Sprintf (raw "ru_sdr:
  device_driver: zmq
  device_args: tx_port=tcp://127.0.0.1:2000,rx_port=tcp://127.0.0.1:2001,base_srate=%se6
  srate: %s") [FStr srate; FStr srate].

(** ** The mode of a gNB *)

Definition ran_split (ran : RANSpec) : string := orDefault (ran_Split ran) "8".
Definition ran_device (ran : RANSpec) : string := orDefault (ran_Device ran) "zmq".

Definition isUHD (ran : RANSpec) : bool :=
  String.eqb (ran_split ran) "8" && negb (String.eqb (ran_device ran) "zmq").
Definition isOFH (ran : RANSpec) : bool := String.eqb (ran_split ran) "7.2".

Definition ranReplicas (ran : RANSpec) : Z :=
  match ran_Enabled ran with Some false => 0 | _ => 1 end.

(** The fleet's tracking area. *)
Definition tac : Z := 1.

(** The slice differentiator as the number OCUDU wants; a parse error leaves ParseInt's value. *)
Definition slice_sd (s : EdgeSiteSpec) : Z :=
  (ParseInt (TrimPrefix (orDefault (es_SliceSD s) "102030") "0x") 16).1.

(** ** gnb.yaml *)

(** The cell of the simulator: band, ARFCN, bandwidth, subcarrier spacing, PRACH index. *)
Record sim_cell := {
  sc_band : string; sc_arfcn : Z; sc_bw : Z; sc_scs : Z; sc_prach : Z;
}.

Definition simulator_cell (device : string) (cell : RANCell) : sim_cell :=
  let band := cell_band cell in
  let arfcn := orInt (cell_DlArfcn cell) 632628 in
  let bw := orInt (cell_BandwidthMHz cell) 100 in
  let scs := orInt (cell_CommonScs cell) 30 in
  if String.eqb device "zmq" && String.eqb band "78" && (arfcn =? 632628) && (bw =? 100)
     && (scs =? 30)
  then {| sc_band := "3"; sc_arfcn := 368500; sc_bw := 10; sc_scs := 15; sc_prach := 1 |}
  else {| sc_band := band; sc_arfcn := arfcn; sc_bw := bw; sc_scs := scs; sc_prach := 0 |}.

Definition sim_prach (c : sim_cell) : string :=
  if 0 <? sc_prach c then
    Sprintf (interp "\n  prach:\n    prach_config_index: %d\n    zero_correlation_zone: 0")
      [FInt (sc_prach c)]
  else "".

Definition simulator_config (ran : RANSpec) (tac sd : Z) : string :=
  let c := simulator_cell (ran_device ran) (ran_Cell ran) in
  let radio := ranRadioBlock (ran_split ran) (ran_device ran) (srateForBw (sc_bw c)) (ran_Ofh ran) in
  Sprintf (raw "cu_cp:
  amf:
    addr: AMF_ADDR
    port: 38412
    bind_addr: 0.0.0.0
    supported_tracking_areas:
      - tac: %d
        plmn_list:
          - plmn: `00101`
            tai_slice_support_list:
              - sst: 1
                sd: %d
%s
cell_cfg:
  dl_arfcn: %d
  band: %s
  channel_bandwidth_MHz: %d
  common_scs: %d
  plmn: `00101`
  tac: %d
  pci: %d%s
log:
  filename: stdout
  all_level: info
")
    [FInt tac; FInt sd; FStr radio; FInt (sc_arfcn c); FStr (sc_band c); FInt (sc_bw c);
     FInt (sc_scs c); FInt tac; FInt (orInt (cell_Pci (ran_Cell ran)) 1); FStr (sim_prach c)].

(** The configuration before the N3 bind is added. *)
Definition gnb_base (ran : RANSpec) (sd : Z) : string :=
  let s := TrimSpace (ran_Config ran) in
  if negb (String.eqb s "") then s
  else if isUHD ran then deviceProfile (ran_device ran) tac sd
  else if isOFH ran then ofhProfile (ran_Ofh ran) (ran_Cell ran) tac sd
  else simulator_config ran tac sd.

(** The N3 downlink bind, unless the configuration already declares cu_up. *)
Definition n3_bind (gnbIP gnb : string) : string :=
  if negb (String.eqb gnbIP "") && negb (Contains gnb "cu_up:") then
    Sprintf (interp "\ncu_up:\n  ngu:\n    socket:\n      - bind_addr: %s\n") [FStr gnbIP]
  else "".

Definition gnb_config (s : EdgeSiteSpec) (ran : RANSpec) : string :=
  let gnb := gnb_base ran (slice_sd s) in
  gnb +:+ n3_bind (es_GnbIP s) gnb.

Definition gnb_configmap (gnb : string) : string :=
  Sprintf (raw "apiVersion: v1
kind: ConfigMap
metadata:
  name: ocudu-gnb-config
  namespace: default
data:
  gnb.yaml: |
%s") [FStr (indent gnb "    ")].

(** ** The init script *)

Definition ofh_init : string := raw "set -e
until AMF=$(getent hosts amf-headless.default.svc.cluster.local 2>/dev/null | awk '{print $1; exit}'); [ -n `$AMF` ]; do echo waiting for amf DNS; sleep 2; done
CPUS=$(tr ' ' '\n' < /proc/cmdline | grep '^isolcpus=' | sed 's/.*isolcpus=//' | tr ',' '\n' | grep -E '^[0-9]+(-[0-9]+)?$' | head -1)
[ -n `$CPUS` ] || CPUS=`0-$(($(nproc)-1))`
A=$(ip -o -4 addr show n3 2>/dev/null | awk '{print $4}' | head -1); [ -n `$A` ] && ip addr change `$A` dev n3 scope link 2>/dev/null || true
sed `s/AMF_ADDR/$AMF/` /in/gnb.yaml > /out/gnb.yaml
# N3/NG-U: pin the gNB downlink GTP-U bind to its real n3 IP, else it advertises 0.0.0.0 and the UPF
# encaps downlink to 0.0.0.0 (uplink works, downlink dropped). $A is the n3 addr (with /prefix).
N3=$(echo `$A` | cut -d/ -f1)
if [ -n `$N3` ] && ! grep -q '^cu_up:' /out/gnb.yaml; then printf '\ncu_up:\n  ngu:\n    socket:\n      - bind_addr: %s\n' `$N3` >> /out/gnb.yaml; fi
printf '%s' `$CPUS` > /out/cpuset
echo `ofh-init: cpuset=[$CPUS] amf=$AMF`
".

Definition ofh_detect : string :=
  Sprintf (interp "apiVersion: v1\nkind: ConfigMap\nmetadata:\n  name: ocudu-gnb-detect\n  namespace: default\ndata:\n  detect.sh: |\n%s")
    [FStr (indent ofh_init "    ")].

(** The UHD type of a declared device. *)
Definition wantType (device : string) : string :=
  if String.eqb device "n310" then "n3xx"
  else if String.eqb device "b210" then "b200"
  else if String.eqb device "x310" then "x300"
  else device.

Definition detect_script (device : string) : string :=
  Sprintf (raw "set -e
until AMF=$(getent hosts amf-headless.default.svc.cluster.local 2>/dev/null | awk '{print $1; exit}'); [ -n `$AMF` ]; do echo `waiting for amf DNS`; sleep 2; done
WANT=%q
# Honor the intent-declared radio: bind ONLY the requested type, never auto-grab a different/shared one.
# USB b200 needs no addr; networked n3xx/x300 discover THEIR OWN addr (filtered by type so a co-visible
# radio of another type can't be selected). RADIO_ADDR (intent override) always wins for the data plane.
case `$WANT` in
  b200) TYPE=b200; ARGS=`type=b200` ;;
  n3xx) TYPE=n3xx; MGMT=$(timeout 20 uhd_find_devices --args `type=n3xx` 2>/dev/null | sed -n 's/^[[:space:]]*addr:[[:space:]]*//p' | head -1)
        DATA=${RADIO_ADDR:-$MGMT}; MGMT=${MGMT:-$RADIO_ADDR}; ARGS=`type=n3xx${DATA:+,addr=$DATA}${MGMT:+,mgmt_addr=$MGMT}` ;;
  x300) TYPE=x300; MGMT=$(timeout 20 uhd_find_devices --args `type=x300` 2>/dev/null | sed -n 's/^[[:space:]]*addr:[[:space:]]*//p' | head -1)
        DATA=${RADIO_ADDR:-$MGMT}; ARGS=`type=x300${DATA:+,addr=$DATA}` ;;
  *)    TYPE=`$WANT`; [ -n `$RADIO_ADDR` ] && ARGS=`addr=$RADIO_ADDR` || ARGS=`type=$WANT` ;;
esac
CPUS=$(tr ' ' '\n' < /proc/cmdline | grep '^isolcpus=' | sed 's/isolcpus=//' | tr ',' '\n' | grep -E '^[0-9]+(-[0-9]+)?$' | head -1)
[ -n `$CPUS` ] || CPUS=`0-$(($(nproc)-1))`
# N3 (access-net multus iface `n3`) only needs L2 reachability to the UPF; set it link-scope so OCUDU's
# 0.0.0.0-bound N2 SCTP does NOT advertise it — leaving the pod's primary CNI IP as the ONLY N2 address
# (single-homed => stable N2 on any host). Same for any other non-primary global-scope iface the pod has.
for IFACE in n3 radio0; do
  A=$(ip -o -4 addr show `$IFACE` 2>/dev/null | awk '{print $4}' | head -1)
  [ -n `$A` ] && ip addr change `$A` dev `$IFACE` scope link 2>/dev/null || true
done
sed -e `s/AMF_ADDR/$AMF/` -e `s|RADIO_ARGS|$ARGS|` /in/gnb.yaml > /out/gnb.yaml
printf '%%s' `$CPUS` > /out/cpuset
echo `detect: want=$WANT type=$TYPE data=$DATA args=[$ARGS] cpuset=[$CPUS] amf=$AMF`
") [FStr (wantType device)].

Definition uhd_detect (device : string) : string :=
  Sprintf (raw "apiVersion: v1
kind: ConfigMap
metadata:
  name: ocudu-gnb-detect
  namespace: default
data:
  detect.sh: |
%s") [FStr (indent (detect_script device) "    ")].

(** ** The Deployment *)

Definition resolve_amf : string := raw "      initContainers:
        - name: resolve-amf
          image: busybox:1.36
          command: [`sh`,`-c`,`until AMF=$(nslookup amf-headless.default.svc.cluster.local 2>/dev/null | awk '/^Address: /{print $2; exit}'); [ -n \`$AMF\` ]; do echo waiting for amf DNS; sleep 2; done; sed \`s/AMF_ADDR/$AMF/\` /in/gnb.yaml > /out/gnb.yaml; echo resolved AMF=$AMF`]
          volumeMounts:
            - { name: cfg-in, mountPath: /in }
            - { name: cfg-out, mountPath: /out }".

Definition ofh_pod : string := raw "      dnsPolicy: ClusterFirst
      initContainers:
        - name: ofh-init
          image: ocudu/gnb:split72
          imagePullPolicy: IfNotPresent
          command: [`sh`,`/scripts/detect.sh`]
          securityContext: { privileged: true }
          volumeMounts:
            - { name: cfg-in, mountPath: /in }
            - { name: scripts, mountPath: /scripts }
            - { name: cfg-out, mountPath: /out }
      containers:
        - name: gnb
          image: ocudu/gnb:split72
          imagePullPolicy: IfNotPresent
          command: [`sh`,`-c`,`exec taskset -c \`$(cat /out/cpuset)\` /usr/local/bin/gnb_split_7_2 -c /out/gnb.yaml`]
          securityContext: { privileged: true }
          resources:
            limits: { hugepages-1Gi: 2Gi, memory: 6Gi }
            requests: { hugepages-1Gi: 2Gi, memory: 2Gi, cpu: `4` }
          volumeMounts:
            - { name: cfg-out, mountPath: /out }
            - { name: vfio, mountPath: /dev/vfio }
            - { name: hugepages, mountPath: /dev/hugepages }
            - { name: sysbus, mountPath: /sys/bus/pci }
            - { name: sysdev, mountPath: /sys/devices }
      volumes:
        - { name: cfg-in, configMap: { name: ocudu-gnb-config } }
        - { name: scripts, configMap: { name: ocudu-gnb-detect } }
        - { name: cfg-out, emptyDir: {} }
        - { name: vfio, hostPath: { path: /dev/vfio } }
        - { name: hugepages, emptyDir: { medium: HugePages } }
        - { name: sysbus, hostPath: { path: /sys/bus/pci } }
        - { name: sysdev, hostPath: { path: /sys/devices } }".

Definition radio_env (addr : string) : string :=
  if String.eqb addr "" then ""
  else Sprintf (interp "\n          env:\n            - { name: RADIO_ADDR, value: `%s` }") [FStr addr].

Definition uhd_pod (addr : string) : string :=
  Sprintf (raw "      dnsPolicy: ClusterFirst
      initContainers:
        - name: detect
          image: ocudu/gnb:sdr
          imagePullPolicy: IfNotPresent
          command: [`sh`,`/scripts/detect.sh`]
          securityContext: { privileged: true }%s
          volumeMounts:
            - { name: cfg-in, mountPath: /in }
            - { name: scripts, mountPath: /scripts }
            - { name: cfg-out, mountPath: /out }
      containers:
        - name: gnb
          image: ocudu/gnb:sdr
          imagePullPolicy: IfNotPresent
          command: [`sh`,`-c`,`exec taskset -c \`$(cat /out/cpuset)\` /usr/local/bin/gnb -c /out/gnb.yaml`]
          securityContext: { privileged: true }
          volumeMounts:
            - { name: cfg-out, mountPath: /out }
            - { name: usb, mountPath: /dev/bus/usb }
      volumes:
        - { name: cfg-in, configMap: { name: ocudu-gnb-config } }
        - { name: scripts, configMap: { name: ocudu-gnb-detect } }
        - { name: cfg-out, emptyDir: {} }
        - { name: usb, hostPath: { path: /dev/bus/usb, type: DirectoryOrCreate } }") [FStr (radio_env addr)].

Definition zmq_pod : string :=
  Sprintf (raw "%s
      containers:
        - name: gnb
          image: ocudu/gnb:zmq
          imagePullPolicy: IfNotPresent
          args: [`-c`,`/out/gnb.yaml`]
          securityContext: { privileged: true }
          volumeMounts:
            - { name: cfg-out, mountPath: /out }
      volumes:
        - { name: cfg-in, configMap: { name: ocudu-gnb-config } }
        - { name: cfg-out, emptyDir: {} }") [FStr resolve_amf].

Definition pod_spec (ran : RANSpec) : string :=
  if isOFH ran then ofh_pod
  else if isUHD ran then uhd_pod (ran_RadioAddr ran)
  else zmq_pod.

(** The MAC pinned on the gNB's N3 interface, derived from its address. *)
Definition n3mac (gnbIP : string) : string :=
  match Split gnbIP dot with
  | [a; b; c; d] =>
      Sprintf "02:00:%02x:%02x:%02x:%02x"
        [FInt (atoiOr a 10); FInt (atoiOr b 200); FInt (atoiOr c 193); FInt (atoiOr d 20)]
  | _ => "02:00:00:00:00:01"
  end.

(** A networked SDR gets a second, jumbo-MTU interface. *)
Definition networked_sdr (ran : RANSpec) : bool :=
  isUHD ran && negb (String.eqb (ran_RadioNic ran) "") && Contains (ran_RadioAddr ran) ".".

Definition radio_net (nic : string) : string :=
  Sprintf (raw "apiVersion: k8s.cni.cncf.io/v1
kind: NetworkAttachmentDefinition
metadata:
  name: radio-net
  namespace: default
spec:
  config: '{`cniVersion`:`0.3.1`,`type`:`macvlan`,`master`:`%s`,`mode`:`bridge`,`mtu`:9000,`ipam`:{`type`:`static`}}'
") [FStr nic].

(** [addr[:strings.LastIndex(addr, ".")] + ".10"]; only used when [addr] has a dot. *)
Definition gnbRadioIP (addr : string) : string :=
  match LastIndex addr dot with
  | Some i => take_bytes i addr +:+ ".10"
  | None => ""
  end.

Definition pod_annotations (gnbIP : string) (ran : RANSpec) : string :=
  if networked_sdr ran then
    Sprintf (raw "
      annotations:
        k8s.v1.cni.cncf.io/networks: '[{`name`:`access-net`,`interface`:`n3`,`ips`:[`%s/24`]},{`name`:`radio-net`,`interface`:`radio0`,`ips`:[`%s/24`]}]'") [FStr gnbIP; FStr (gnbRadioIP (ran_RadioAddr ran))]
  else
    Sprintf (raw "
      annotations:
        k8s.v1.cni.cncf.io/networks: '[{`name`:`access-net`,`interface`:`n3`,`ips`:[`%s/24`],`mac`:`%s`}]'") [FStr gnbIP; FStr (n3mac gnbIP)].

Definition rollout_strategy (ran : RANSpec) : string :=
  if isUHD ran then interp "\n  strategy: { type: Recreate }" else "".

Definition gnb_deployment (name gnbIP : string) (ran : RANSpec) : string :=
  Sprintf (raw "apiVersion: apps/v1
kind: Deployment
metadata:
  name: gnb-%s
  namespace: default
  labels: { app: gnb-%s }
spec:
  replicas: %d
  selector: { matchLabels: { app: gnb-%s } }%s
  template:
    metadata:
      labels: { app: gnb-%s }%s
    spec:
%s
")
    [FStr name; FStr name; FInt (ranReplicas ran); FStr name; FStr (rollout_strategy ran);
     FStr name; FStr (pod_annotations gnbIP ran); FStr (pod_spec ran)].

(** ** deliverRAN *)

Definition deliverRAN (deployRepo : string) : act Env EdgeSite unit :=
  es ← get;
  match es_RAN (es_spec es) with
  | None => mret tt
  | Some ran =>
      _ ← gitPut deployRepo "ran/configmap.yaml" (gnb_configmap (gnb_config (es_spec es) ran));
      _ ← (if isOFH ran then gitPut deployRepo "ran/detect.yaml" ofh_detect
           else if isUHD ran then
             gitPut deployRepo "ran/detect.yaml" (uhd_detect (ran_device ran))
           else mret tt);
      _ ← when (networked_sdr ran)
            (gitPut deployRepo "ran/radio-net.yaml" (radio_net (ran_RadioNic ran)));
      gitPut deployRepo "ran/deployment.yaml"
        (gnb_deployment (Name (es_meta es)) (es_GnbIP (es_spec es)) ran)
  end.

(** ** What is delivered *)

(** The manifests of a site's gNB, in the order of delivery. *)
Definition ran_files (es : EdgeSite) (ran : RANSpec) : list (string * string) :=
  ([("ran/configmap.yaml", gnb_configmap (gnb_config (es_spec es) ran))] ++
   (if isOFH ran then [("ran/detect.yaml", ofh_detect)]
    else if isUHD ran then [("ran/detect.yaml", uhd_detect (ran_device ran))] else []) ++
   (if networked_sdr ran then [("ran/radio-net.yaml", radio_net (ran_RadioNic ran))] else []) ++
   [("ran/deployment.yaml", gnb_deployment (Name (es_meta es)) (es_GnbIP (es_spec es)) ran)])%list.

Lemma delivered_nil repo : delivered repo [] [] (Ok tt).
Proof. exists [], []. split; [done|]. by split; [constructor|]. Qed.

(** Delivering a list and then another. *)
Lemma delivers_then {St} repo (m1 m2 : act Env St unit) s f1 f2 :
  spec m1 s (λ t s' r, s' = s ∧ delivered repo f1 t r) →
  spec m2 s (λ t s' r, s' = s ∧ delivered repo f2 t r) →
  spec (_ ← m1; m2) s (λ t s' r, s' = s ∧ delivered repo (f1 ++ f2)%list t r).
Proof.
  intros H1 H2. apply spec_bind. eapply spec_impl; [|exact H1]. cbn beta.
  intros t s' [[]|e] [-> D]; [|split; [done|by eapply delivered_fail]].
  eapply spec_impl; [|exact H2]. cbn beta. intros t' s'' r [-> D'].
  split; [done|]. by eapply delivered_app.
Qed.

#[local] Strategy 1000 [gnb_configmap gnb_config gnb_deployment ofh_detect uhd_detect radio_net].

(** C33: deliverRAN delivers exactly the gNB's manifests, in order - the configuration, the init
    script of a real radio, the second network of a networked SDR, the Deployment - stopping at the
    first one that is not acknowledged; a site without a ran block delivers nothing. *)
Theorem deliverRAN_delivers deployRepo es :
  spec (deliverRAN deployRepo) es (λ t es' r,
    es' = es ∧
    match es_RAN (es_spec es) with
    | None => t = [] ∧ r = Ok tt
    | Some ran => delivered deployRepo (ran_files es ran) t r
    end).
Proof.
  unfold deliverRAN. apply spec_bind, spec_get.
  destruct (es_RAN (es_spec es)) as [ran|]; [|done]. cbn [app].
  apply delivers_then; [apply gitPut_delivers|]. apply delivers_then; [|apply delivers_then].
  - destruct (isOFH ran); [apply gitPut_delivers|].
    destruct (isUHD ran); [apply gitPut_delivers|]. apply spec_ret. split; [done|].
    apply delivered_nil.
  - unfold when. destruct (networked_sdr ran); [apply gitPut_delivers|].
    apply spec_ret. split; [done|]. apply delivered_nil.
  - apply gitPut_delivers.
Qed.

(** ** The configuration and the core agree *)

Lemma negb_eqb_false s t : negb (String.eqb s t) = false ↔ s = t.
Proof. rewrite negb_false_iff. apply String.eqb_eq. Qed.

(** Every generated configuration declares the fleet's tracking area and the slice. *)
Lemma deviceProfile_serves device tac sd :
  Contains (deviceProfile device tac sd) ("tac: " +:+ Itoa tac) = true ∧
  Contains (deviceProfile device tac sd) ("sd: " +:+ Itoa sd) = true.
Proof.
  unfold deviceProfile. split; apply Contains_app_l; unfold profile_head; eval_sprintf; find_text.
Qed.

Lemma ofhProfile_serves ofh cell tac sd :
  Contains (ofhProfile ofh cell tac sd) ("tac: " +:+ Itoa tac) = true ∧
  Contains (ofhProfile ofh cell tac sd) ("sd: " +:+ Itoa sd) = true.
Proof.
  unfold ofhProfile. generalize (ofh_eal ofh (ofh_field ofh ofh_Interface "0000:af:0a.0")).
  intros eal. split; eval_sprintf; find_text.
Qed.

Lemma simulator_serves ran tac sd :
  Contains (simulator_config ran tac sd) ("tac: " +:+ Itoa tac) = true ∧
  Contains (simulator_config ran tac sd) ("sd: " +:+ Itoa sd) = true.
Proof.
  unfold simulator_config. generalize (simulator_cell (ran_device ran) (ran_Cell ran)).
  intros c. split; eval_sprintf; find_text.
Qed.

Lemma gnb_base_serves ran sd :
  TrimSpace (ran_Config ran) = "" →
  Contains (gnb_base ran sd) ("tac: " +:+ Itoa tac) = true ∧
  Contains (gnb_base ran sd) ("sd: " +:+ Itoa sd) = true.
Proof.
  intros E. unfold gnb_base. rewrite E. cbn [negb String.eqb].
  destruct (isUHD ran); [apply deviceProfile_serves|].
  destruct (isOFH ran); [apply ofhProfile_serves | apply simulator_serves].
Qed.

(** The N3 bind is declared by the configuration or appended to it. *)
Lemma gnb_config_binds s ran :
  es_GnbIP s ≠ "" → Contains (gnb_config s ran) "cu_up:" = true.
Proof.
  intros Hip. unfold gnb_config, n3_bind. apply String.eqb_neq in Hip. rewrite Hip. simpl negb.
  destruct (Contains (gnb_base ran (slice_sd s)) "cu_up:") eqn:E; simpl andb; cbv iota.
  - by apply Contains_app_l.
  - apply Contains_app_r. eval_sprintf. find_text.
Qed.

(** ** Sample rates *)

(** The rates srateForBw chooses from, in kHz. *)
Definition rate_table : list (string * Z) :=
  [("7.68", 7680); ("11.52", 11520); ("15.36", 15360); ("23.04", 23040); ("46.08", 46080);
   ("61.44", 61440); ("92.16", 92160); ("122.88", 122880)].

Definition rate_of (srate : string) : option Z :=
  snd <$> find_first (λ r, String.eqb r.1 srate) rate_table.

(** The sample rate is one of the standard rates and strictly above the channel bandwidth, for
    every bandwidth up to 122 MHz, and it does not decrease as the bandwidth grows. *)
Theorem srateForBw_above bw bw' :
  bw ≤ bw' → bw' ≤ 122 →
  ∃ rate rate', rate_of (srateForBw bw) = Some rate ∧ rate_of (srateForBw bw') = Some rate' ∧
    bw * 1000 < rate ∧ bw' * 1000 < rate' ∧ rate ≤ rate'.
Proof.
  intros H H'. unfold srateForBw.
  repeat match goal with |- context [?a <=? ?b] => destruct (Z.leb_spec a b) end;
    try lia; do 2 eexists; (split; [reflexivity|]); (split; [reflexivity|]); cbn [snd]; lia.
Qed.

Lemma srateForBw_above_witness :
  srateForBw 20 = "23.04" ∧ srateForBw 100 = "122.88" ∧
  ∃ rate rate', rate_of (srateForBw 20) = Some rate ∧ rate_of (srateForBw 100) = Some rate' ∧
    20 * 1000 < rate ∧ 100 * 1000 < rate' ∧ rate ≤ rate'.
Proof.
  split; [reflexivity|]. split; [reflexivity|]. apply (srateForBw_above 20 100); lia.
Defined.

(** It is not always the smallest such rate: 61.44 MHz is above a 60 MHz channel. *)
Theorem srateForBw_not_smallest :
  srateForBw 60 = "92.16" ∧ ∃ r z, (r, z) ∈ rate_table ∧ 60 * 1000 < z ∧ z < 92160.
Proof.
  split; [reflexivity|]. exists "61.44", 61440. split; [|lia].
  unfold rate_table. do 5 right. left.
Qed.

(** ** The MAC of the N3 interface *)

Lemma n3mac_dotted a b c d :
  0 ≤ a < 256 → 0 ≤ b < 256 → 0 ≤ c < 256 → 0 ≤ d < 256 →
  n3mac (Sprintf "%d.%d.%d.%d" [FInt a; FInt b; FInt c; FInt d]) =
  "02:00:" +:+ hex2 a +:+ ":" +:+ hex2 b +:+ ":" +:+ hex2 c +:+ ":" +:+ hex2 d.
Proof.
  intros. unfold n3mac. rewrite Split_dotted by lia. rewrite !atoiOr_Itoa by lia.
  unfold hex2. eval_sprintf. by rewrite !string_app_nil_r, ?string_app_assoc.
Qed.

(** Distinct gNB addresses get distinct MACs, so no two gNBs of a fleet answer for one L2
    address, and the MAC of a gNB depends on its address alone. *)
Theorem n3mac_inj a b c d a' b' c' d' :
  Forall (λ o, 0 ≤ o < 256) [a; b; c; d; a'; b'; c'; d'] →
  n3mac (Sprintf "%d.%d.%d.%d" [FInt a; FInt b; FInt c; FInt d]) =
  n3mac (Sprintf "%d.%d.%d.%d" [FInt a'; FInt b'; FInt c'; FInt d']) →
  [a; b; c; d] = [a'; b'; c'; d'].
Proof.
  intros H. repeat apply Forall_cons in H as [? H]. rewrite !n3mac_dotted by done.
  intros E. apply (string_app_inj_l "02:00:") in E.
  apply hex2_inj in E as [-> E]; [|done..]. apply (string_app_inj_l ":") in E.
  apply hex2_inj in E as [-> E]; [|done..]. apply (string_app_inj_l ":") in E.
  apply hex2_inj in E as [-> E]; [|done..]. apply (string_app_inj_l ":") in E.
  rewrite <-(string_app_nil_r (hex2 d)), <-(string_app_nil_r (hex2 d')) in E.
  by apply hex2_inj in E as [-> _].
Qed.

Lemma n3mac_inj_witness :
  n3mac (Sprintf "%d.%d.%d.%d" [FInt 10; FInt 200; FInt 113; FInt 20]) = "02:00:0a:c8:71:14" ∧
  (n3mac (Sprintf "%d.%d.%d.%d" [FInt 10; FInt 200; FInt 113; FInt 20]) =
   n3mac (Sprintf "%d.%d.%d.%d" [FInt 10; FInt 200; FInt 113; FInt 20]) →
   [10; 200; 113; 20] = [10; 200; 113; 20]).
Proof.
  split; [reflexivity|]. apply (n3mac_inj 10 200 113 20 10 200 113 20).
  repeat (constructor; [lia|]). constructor.
Defined.

(** ** Interfaces of the pod *)

(** A gNB without a second network has its N3 MAC pinned. *)
Lemma mac_is_pinned gnbIP ran :
  networked_sdr ran = false → Contains (pod_annotations gnbIP ran) (n3mac gnbIP) = true.
Proof.
  intros E. unfold pod_annotations. rewrite E. generalize (n3mac gnbIP). intros mac.
  eval_sprintf. find_text.
Qed.

Definition default_cell : RANCell :=
  {| cell_Band := ""; cell_DlArfcn := 0; cell_BandwidthMHz := 0; cell_CommonScs := 0;
     cell_Pci := 0; cell_Antennas := 0 |}.

(** A ran block that declares a device and, for a networked radio, its address and NIC. *)
Definition ran_of (device addr nic : string) : RANSpec :=
  {| ran_Stack := "ocudu"; ran_Enabled := None; ran_Split := "8"; ran_Device := device;
     ran_Config := ""; ran_LdLibraryPath := ""; ran_Cpuset := ""; ran_RadioAddr := addr;
     ran_RadioNic := nic; ran_Cell := default_cell; ran_Ofh := None |}.

(** With a second network the annotation is rewritten without the MAC: the one gNB whose restarts
    change its MAC is the networked SDR's. *)
Theorem networked_sdr_mac_unpinned :
  networked_sdr (ran_of "n310" "192.168.10.2" "ens3") = true ∧
  Contains (pod_annotations "10.200.7.20" (ran_of "n310" "192.168.10.2" "ens3"))
    (n3mac "10.200.7.20") = false ∧
  Contains (pod_annotations "10.200.7.20" (ran_of "n310" "192.168.10.2" "ens3")) "mac" = false.
Proof. by vm_compute. Qed.

(** ** The simulator *)

(** Of the splits and devices the API admits, only the zmq simulator is rendered from
    ran.cell; a real radio runs its profile, and the whole is replaced by a non-blank
    ran.config. *)
Theorem gnb_base_precedence ran sd :
  ran_Split ran ∈ [""; "8"; "7.2"] →
  gnb_base ran sd =
    (if negb (String.eqb (TrimSpace (ran_Config ran)) "") then TrimSpace (ran_Config ran)
     else if String.eqb (ran_Split ran) "7.2" then ofhProfile (ran_Ofh ran) (ran_Cell ran) tac sd
     else if String.eqb (ran_device ran) "zmq" then simulator_config ran tac sd
     else deviceProfile (ran_device ran) tac sd).
Proof.
  intros Hs. unfold gnb_base. destruct (negb _); [done|]. unfold isUHD, isOFH, ran_split.
  repeat apply elem_of_cons in Hs as [->|Hs]; [..|by apply elem_of_nil in Hs].
  all: cbn [orDefault String.eqb Ascii.eqb Bool.eqb orb andb negb].
  all: change (orDefault "" "8") with "8"; change (orDefault "8" "8") with "8";
    change (orDefault "7.2" "8") with "7.2".
  all: try done.
  all: by destruct (String.eqb (ran_device ran) "zmq").
Qed.

Lemma gnb_base_precedence_witness :
  gnb_base (ran_of "b210" "" "") 1056816 = deviceProfile "b210" 1 1056816.
Proof.
  etransitivity; [apply (gnb_base_precedence (ran_of "b210" "" "")); right; left|].
  change (TrimSpace (ran_Config (ran_of "b210" "" ""))) with "". reflexivity.
Defined.
