(* ===== verification/EdgeSite.v ===== *)
(** * The EdgeSite reconciler (edgesite_controller.go)

    [Reconcile] expands one EdgeSite into PackageVariants, IPClaims, a MeshLink and a NetworkSlice
    (children on the management cluster, written by [applyOwned]) and into manifests delivered to
    the site's deploy repository.  Every step runs through [step], which records a failure in the
    status and ends the reconcile.  The EdgeSite under reconciliation is the state of the
    actions. *)

From S2P Require Import Prelude GoText Prog Api Effects Helpers Upsert GitOps Addressing RanProfile.

(** ** Constants *)

Definition subscriberCount : nat := 5.
Definition imsiBase : string := "00101010000".

Definition pvGVK : GroupVersionKind :=
  {| gvk_Group := "config.porch.kpt.dev"; gvk_Version := "v1alpha1"; gvk_Kind := "PackageVariant" |}.
Definition ipClaimGVK : GroupVersionKind :=
  {| gvk_Group := "ipam.resource.nephio.org"; gvk_Version := "v1alpha1"; gvk_Kind := "IPClaim" |}.

(** The fields of EdgeSiteReconciler. *)
Record EdgeSiteReconciler := { BlueprintRepo : string; MgmtRepo : string }.

(** SetupWithManager's defaults. *)
Definition with_defaults (r : EdgeSiteReconciler) : EdgeSiteReconciler :=
  {| BlueprintRepo := if String.eqb (BlueprintRepo r) "" then "blueprints" else BlueprintRepo r;
     MgmtRepo := if String.eqb (MgmtRepo r) "" then "mgmt" else MgmtRepo r |}.

(** ** Children *)

Definition owner_of (es : EdgeSite) : OwnerReference :=
  {| or_APIVersion := "sdcore.nephio.io/v1alpha1"; or_Kind := "EdgeSite";
     or_Name := Name (es_meta es); or_UID := UID (es_meta es);
     or_Controller := Some true; or_BlockOwnerDeletion := Some true |}.

Definition owned_by {k : kind} (es : EdgeSite) (o : obj k) : obj k :=
  with_meta (set_OwnerReferences [owner_of es] (meta o)) o.

Definition applyOwned {k : kind} (o : obj k) : act Env EdgeSite unit :=
  es ← get; upsert (owned_by es o).

Definition injector (es : EdgeSite) : json :=
  JArr [JObj [("group", JStr "sdcore.nephio.io"); ("version", JStr "v1alpha1");
              ("kind", JStr "EdgeSite"); ("name", JStr (Name (es_meta es)))]].

Definition pv_spec (r : EdgeSiteReconciler) (es : EdgeSite)
    (upstreamPkg downRepo downPkg : string) (inject : bool) : json :=
  JObj ([("upstream", JObj [("repo", JStr (BlueprintRepo r)); ("package", JStr upstreamPkg);
                            ("workspaceName", JStr "main")]);
         ("downstream", JObj [("repo", JStr downRepo); ("package", JStr downPkg)])] ++
        (if inject then [("injectors", injector es)] else []))%list.

Definition pkgVariant (r : EdgeSiteReconciler) (name upstreamPkg downRepo downPkg : string)
    (inject : bool) : act Env EdgeSite unit :=
  es ← get;
  applyOwned (k := KUnstructured pvGVK)
    (new_unstructured pvGVK (Namespace (es_meta es)) name
       (pv_spec r es upstreamPkg downRepo downPkg inject)).

Definition prefix_length (es : EdgeSite) (name kind : string) : Z :=
  if String.eqb kind "pool" || String.eqb name (Name (es_meta es) +:+ "-pod") then 16 else 24.

Definition claim_spec (es : EdgeSite) (name kind : string) : json :=
  JObj [("kind", JStr kind); ("networkInstance", JObj [("name", JStr "sdcore-vpc")]);
        ("prefixLength", JInt (prefix_length es name kind)); ("createPrefix", JBool true)].

Definition ipClaim (name kind : string) : act Env EdgeSite unit :=
  es ← get;
  applyOwned (k := KUnstructured ipClaimGVK)
    (new_unstructured ipClaimGVK (Namespace (es_meta es)) name (claim_spec es name kind)).

Definition mesh_link_of (es : EdgeSite) (cp : string) : MeshLink :=
  {| ml_meta := new_meta (Namespace (es_meta es)) (Name (es_meta es));
     ml_spec := {| ml_Edge := Name (es_meta es); ml_ControlPlane := cp;
                   ml_UPFName := "upf-" +:+ Name (es_meta es) |};
     ml_status := empty_MeshLinkStatus |}.

Definition meshLink (cp : string) : act Env EdgeSite unit :=
  es ← get; applyOwned (k := KMeshLink) (mesh_link_of es cp).

Definition edge_slice_of (es : EdgeSite) : NetworkSlice :=
  {| ns_meta := new_meta (Namespace (es_meta es)) (Name (es_meta es));
     ns_spec := {| ns_Sst := "1"; ns_Sd := es_SliceSD (es_spec es); ns_Dnn := "internet";
                   ns_UePool := es_UEPool (es_spec es);
                   ns_UpfName := "upf-" +:+ Name (es_meta es);
                   ns_Plmn := {| plmn_Mcc := "001"; plmn_Mnc := "01" |};
                   ns_Gnbs := [{| gnb_Name := "gnb-" +:+ Name (es_meta es); gnb_Tac := 1 |}];
                   ns_Qos := {| qos_MbrUplink := 0; qos_MbrDownlink := 0 |} |};
     ns_status := empty_NetworkSliceStatus |}.

Definition edgeSlice : act Env EdgeSite unit :=
  es ← get; applyOwned (k := KNetworkSlice) (edge_slice_of es).

(** ** Manifests for the deploy repository *)

Definition n2_expose (vip : string) : string :=
  Sprintf (raw "apiVersion: cilium.io/v2alpha1
kind: CiliumLoadBalancerIPPool
metadata:
  name: ran-ngap-pool
spec:
  serviceSelector:
    matchLabels:
      sdcore.nephio.io/expose: n2
  blocks:
    - start: `%s`
      stop: `%s`
---
apiVersion: v1
kind: Service
metadata:
  name: amf-ngap
  namespace: default
  labels:
    app: amf-ngap
    sdcore.nephio.io/expose: n2
spec:
  type: LoadBalancer
  selector:
    app: amf
  ports:
    - name: ngap
      protocol: SCTP
      port: 38412
      targetPort: 38412
") [FStr vip; FStr vip].

Definition deliverN2Expose (deployRepo : string) : act Env EdgeSite unit :=
  es ← get;
  vip ← (if String.eqb (es_N2VIP (es_spec es)) "" then
           base ← ranBase; mret (base +:+ ".240")
         else mret (es_N2VIP (es_spec es)));
  gitPut deployRepo "n2-expose/amf-ngap.yaml" (n2_expose vip).

(** The slice of a self-contained core. *)
Definition core_slice (es : EdgeSite) : string :=
  Sprintf (raw "apiVersion: sdcore.nephio.io/v1alpha1
kind: NetworkSlice
metadata:
  name: %s
  namespace: default
spec:
  sst: `1`
  sd: `%s`
  dnn: internet
  uePool: `%s`
  upfName: upf
  plmn: {mcc: `001`, mnc: `01`}
  gnbs:
  - {name: gnb-%s, tac: %d}
")
    [FStr (Name (es_meta es)); FStr (es_SliceSD (es_spec es)); FStr (es_UEPool (es_spec es));
     FStr (Name (es_meta es)); FInt 1].

Definition imsi (i : nat) : string :=
  Sprintf "%s%04d" [FStr imsiBase; FInt (7488 + Z.of_nat i)].

Definition starter_subscriber (es : EdgeSite) (i : nat) : string :=
  Sprintf (raw "apiVersion: sdcore.nephio.io/v1alpha1
kind: Subscriber
metadata:
  name: sub-%s
  namespace: default
spec:
  imsi: `%s`
  key: `5122250214c33e723a5dd523fc145fc0`
  opc: `981d464c7c52eb6e5036234984ad0bcf`
  sliceRef: %s
---
")
    [FStr (imsi i); FStr (imsi i); FStr (Name (es_meta es))].

Definition starter_subscribers (es : EdgeSite) : string :=
  concat_strings (starter_subscriber es <$> seq 0 subscriberCount).

Definition deliverCoreSlice (deployRepo : string) : act Env EdgeSite unit :=
  es ← get;
  _ ← gitPut deployRepo "core-slice/networkslice.yaml" (core_slice es);
  gitPut deployRepo "core-slice/subscriber.yaml" (starter_subscribers es).

(** ** Steps and the status *)

Section reconciler.
Context {AM : Apimachinery}.

Definition set_status (phase message : string) (cluster : string) (observed : Z)
    (conds : list Condition) : EdgeSiteStatus :=
  {| ess_Phase := phase; ess_Message := message; ess_Cluster := cluster;
     ess_ObservedGeneration := observed; ess_Conditions := conds |}.

(** What a failed step writes into the status. *)
Definition failed_status (es : EdgeSite) (name : string) (e : error) : EdgeSiteStatus :=
  let st := es_status es in
  set_status "Failed" (Sprintf "step %q: %v" [FStr name; FStr (err_msg e)]) (ess_Cluster st)
    (ess_ObservedGeneration st)
    (setCondition (ess_Conditions st) "Ready" ConditionFalse (name +:+ "Failed")
       (Sprintf "%s: %v" [FStr name; FStr (err_msg e)]) (Generation (es_meta es))).

(** [r.Status().Update(ctx, es)]: the answer overwrites the object. *)
Definition update_status : act Env EdgeSite (result unit) :=
  es ← get;
  ans ← env (KStatusUpdate KEdgeSite es);
  match ans with
  | Ok es' => _ ← modify (λ _, es'); mret (Ok tt)
  | Err e => mret (Err e)
  end.

Definition log_step (name : string) : act Env EdgeSite unit :=
  es ← get;
  _ ← env (LogInfo "EdgeSite step" [("site", Name (es_meta es)); ("step", name)]); mret tt.

Definition step_failed (name : string) (e : error) : act Env EdgeSite unit :=
  es ← get;
  _ ← env (LogError e "EdgeSite step FAILED" [("site", Name (es_meta es)); ("step", name)]);
  _ ← modify (λ es, set_es_status (failed_status es name e) es);
  uerr ← update_status;
  es ← get;
  _ ← match uerr with
      | Err ue =>
          _ ← env (LogError ue "EdgeSite: also failed to write failure status"
                     [("site", Name (es_meta es)); ("step", name)]); mret tt
      | Ok _ => mret tt
      end;
  throw (wrapf (Sprintf "EdgeSite %q step %q: " [FStr (Name (es_meta es)); FStr name]) e).

Definition step (name : string) (fn : act Env EdgeSite unit) : act Env EdgeSite unit :=
  _ ← log_step name;
  r ← try fn;
  match r with
  | Ok _ => mret tt
  | Err e => step_failed name e
  end.

Definition meshNote (role : string) : string :=
  if String.eqb role "upf-only" then " + MeshLink" else "".

Definition success_status (es : EdgeSite) (cluster : string) : EdgeSiteStatus :=
  set_status "Deploying"
    "cluster + NF PackageVariants + IPClaims emitted; Porch/Config-Sync actuating"
    cluster (Generation (es_meta es))
    (setCondition (ess_Conditions (es_status es)) "Ready" ConditionTrue "Emitted"
       ("all KRM emitted (cluster/CP/UPF PackageVariants + IPClaims" +:+
        meshNote (es_Role (es_spec es)) +:+ ")") (Generation (es_meta es))).

Definition succeed (cluster : string) : act Env EdgeSite Result :=
  _ ← modify (λ es, set_es_status (success_status es cluster) es);
  r ← update_status;
  es ← get;
  match r with
  | Err e =>
      _ ← env (LogError e "EdgeSite: failed to write success status"
                 [("site", Name (es_meta es))]);
      throw (wrapf (Sprintf "EdgeSite %s: status update: " [FStr (Name (es_meta es))]) e)
  | Ok _ =>
      _ ← env (LogInfo "EdgeSite reconciled OK"
                 [("site", Name (es_meta es)); ("role", es_Role (es_spec es));
                  ("cluster", cluster)]);
      mret no_requeue
  end.

(** ** Reconcile *)

Definition claims : list (string * string) :=
  [("pod", "network"); ("access", "network"); ("core", "network"); ("uepool", "pool")].

(** The loop over the IPClaims; the claim's name is built from the site's at each turn. *)
Definition claim_steps : act Env EdgeSite unit :=
  for_each claims (λ n, step ("IPClaim/" +:+ n.1)
    (es ← get; ipClaim (Name (es_meta es) +:+ "-" +:+ n.1) n.2)).

(** A PackageVariant named after the site. *)
Definition site_variant (r : EdgeSiteReconciler) (prefix upstreamPkg deployRepo : string) :
    act Env EdgeSite unit :=
  es ← get;
  pkgVariant r (prefix +:+ Name (es_meta es)) upstreamPkg deployRepo
    (prefix +:+ Name (es_meta es)) true.

(** A PackageVariant of cluster-scoped infrastructure, named after the deploy repository. *)
Definition infra_variant (r : EdgeSiteReconciler) (prefix upstreamPkg deployRepo : string) :
    act Env EdgeSite unit :=
  pkgVariant r (prefix +:+ deployRepo) upstreamPkg deployRepo (prefix +:+ deployRepo) false.

Definition cp_steps (r : EdgeSiteReconciler) (deployRepo : string) : act Env EdgeSite unit :=
  _ ← step "ControlPlanePackageVariant" (site_variant r "cp-" "sdcore-cp" deployRepo);
  _ ← step "N2Expose" (deliverN2Expose deployRepo);
  _ ← step "CoreSliceAndSubscriber" (deliverCoreSlice deployRepo);
  es ← get;
  match es_RAN (es_spec es) with
  | Some _ => step "RANgNB" (deliverRAN deployRepo)
  | None => mret tt
  end.

Definition edge_steps : act Env EdgeSite unit :=
  es ← get;
  let cp := if String.eqb (es_ControlPlane (es_spec es)) "" then "mgmt"
            else es_ControlPlane (es_spec es) in
  _ ← step "MeshLink" (meshLink cp);
  step "EdgeNetworkSlice" edgeSlice.

(** What is emitted once the site is addressed. *)
Definition emit (r : EdgeSiteReconciler) (cluster : string) : act Env EdgeSite unit :=
  es ← get;
  let deployRepo := if es_Colocated (es_spec es) then MgmtRepo r else cluster in
  _ ← when (negb (es_Colocated (es_spec es)))
        (step "ClusterPackageVariant"
           (pkgVariant r cluster "cluster-ck8s-byoh" (MgmtRepo r) cluster true));
  _ ← claim_steps;
  es ← get;
  _ ← when (String.eqb (es_Role (es_spec es)) "cp+upf") (cp_steps r deployRepo);
  _ ← step "MultusPackageVariant" (infra_variant r "multus-" "multus" deployRepo);
  _ ← step "UPFPackageVariant" (site_variant r "upf-" "edge-site" deployRepo);
  _ ← step "DatapathActuatorPackageVariant"
        (infra_variant r "datapath-" "datapath-actuator" deployRepo);
  es ← get;
  when (String.eqb (es_Role (es_spec es)) "upf-only") edge_steps.

Definition reconcile_site (r : EdgeSiteReconciler) : act Env EdgeSite Result :=
  es ← get;
  let cluster := "cluster-" +:+ Name (es_meta es) in
  _ ← step "DeriveAddressing" deriveAddressing;
  _ ← emit r cluster;
  succeed cluster.

Definition Reconcile (r : EdgeSiteReconciler) (ns name : string) : prog Env (result Result) :=
  Call (S := Env) (KGet KEdgeSite ns name) (λ ans,
    match ans with
    | Err e => Ret (match IgnoreNotFound e with None => Ok no_requeue | Some e => Err e end)
    | Ok es => x ← reconcile_site r es; mret x.2
    end).
End reconciler.
