(* ===== verification/EdgePlan.v ===== *)
(** * The EdgeSite reconciler follows its plan

    [plan] is the specification of an EdgeSite reconcile: the steps a site goes through, by role,
    colocation and ran block, each with the children it reconciles and the files it delivers.
    [step_ran] says, call by call, what a step does with its tasks; [reconcile_follows_plan] is the
    refinement: the trace of a reconcile of any site, whatever the environment answers, is the
    derivation of its addresses and then its plan, up to the first step that fails. *)

From S2P Require Import Prelude GoText Prog Api Effects Helpers Upsert GitOps Addressing RanProfile.
From S2P Require Import EdgeSite.

#[local] Strategy 1000 [gnb_configmap gnb_config gnb_deployment ofh_detect uhd_detect radio_net
  n2_expose core_slice starter_subscribers derived_spec siteIndex Sprintf contents_url put_body
  EncodeToString].

(** ** The plan *)

(** A child object, a file of a deploy repository, or the manifest that exposes the AMF. *)
Inductive task :=
| Child (k : kind) (o : obj k)
| File (repo path yaml : string)
| Expose (repo : string).

Definition files (repo : string) (l : list (string * string)) : list task :=
  (λ f : string * string, File repo f.1 f.2) <$> l.

Definition n2_file : string := "n2-expose/amf-ngap.yaml".

Definition core_files (es : EdgeSite) : list (string * string) :=
  [("core-slice/networkslice.yaml", core_slice es);
   ("core-slice/subscriber.yaml", starter_subscribers es)].

(** A PackageVariant and an IPClaim of a site. *)
Definition variant (r : EdgeSiteReconciler) (es : EdgeSite) (name up repo pkg : string)
    (inject : bool) : task :=
  Child (KUnstructured pvGVK)
    (new_unstructured pvGVK (Namespace (es_meta es)) name (pv_spec r es up repo pkg inject)).

Definition claim (es : EdgeSite) (c : string * string) : task :=
  let name := Name (es_meta es) +:+ "-" +:+ c.1 in
  Child (KUnstructured ipClaimGVK)
    (new_unstructured ipClaimGVK (Namespace (es_meta es)) name (claim_spec es name c.2)).

Definition control_plane (es : EdgeSite) : string :=
  if String.eqb (es_ControlPlane (es_spec es)) "" then "mgmt" else es_ControlPlane (es_spec es).

Definition cp_plan (r : EdgeSiteReconciler) (repo : string) (es : EdgeSite) :
    list (string * list task) :=
  let name := "cp-" +:+ Name (es_meta es) in
  ([("ControlPlanePackageVariant", [variant r es name "sdcore-cp" repo name true]);
    ("N2Expose", [Expose repo]);
    ("CoreSliceAndSubscriber", files repo (core_files es))] ++
   match es_RAN (es_spec es) with
   | Some ran => [("RANgNB", files repo (ran_files es ran))]
   | None => []
   end)%list.

Definition edge_plan (es : EdgeSite) : list (string * list task) :=
  [("MeshLink", [Child KMeshLink (mesh_link_of es (control_plane es))]);
   ("EdgeNetworkSlice", [Child KNetworkSlice (edge_slice_of es)])].

(** The steps after the addressing of a site. *)
Definition plan (r : EdgeSiteReconciler) (cluster : string) (es : EdgeSite) :
    list (string * list task) :=
  let repo := if es_Colocated (es_spec es) then MgmtRepo r else cluster in
  let upf := "upf-" +:+ Name (es_meta es) in
  ((if negb (es_Colocated (es_spec es)) then
      [("ClusterPackageVariant",
        [variant r es cluster "cluster-ck8s-byoh" (MgmtRepo r) cluster true])] else []) ++
   ((λ c : string * string, ("IPClaim/" +:+ c.1, [claim es c])) <$> claims) ++
   (if String.eqb (es_Role (es_spec es)) "cp+upf" then cp_plan r repo es else []) ++
   [("MultusPackageVariant",
     [variant r es ("multus-" +:+ repo) "multus" repo ("multus-" +:+ repo) false]);
    ("UPFPackageVariant", [variant r es upf "edge-site" repo upf true]);
    ("DatapathActuatorPackageVariant",
     [variant r es ("datapath-" +:+ repo) "datapath-actuator" repo ("datapath-" +:+ repo) false])] ++
   (if String.eqb (es_Role (es_spec es)) "upf-only" then edge_plan es else []))%list.

(** ** What a task and a step do *)

(** The calls of a task, with its result: a child is upserted, owned by the site; a file is put;
    the AMF is exposed on the site's VIP, or on .240 of its base when it has none. *)
Definition does (es : EdgeSite) (x : task) (t : list (event Env)) (r : result unit) : Prop :=
  match x with
  | Child _ o => upserted (owned_by es o) t r
  | File repo path yaml => filed repo path yaml t r
  | Expose repo =>
      if String.eqb (es_N2VIP (es_spec es)) "" then
        ∃ tn base t', t = (tn ++ t')%list ∧ found_base es tn base ∧
          filed repo n2_file (n2_expose (base +:+ ".240")) t' r
      else filed repo n2_file (n2_expose (es_N2VIP (es_spec es))) t r
  end.

#[local] Abbreviation performs_tasks m es l := (performs (eq es) (does es) m es l).

Definition announced (es : EdgeSite) (name : string) : event Env :=
  @Ev Env (LogInfo "EdgeSite step" [("site", Name (es_meta es)); ("step", name)]) tt.

Section steps.
Context {AM : Apimachinery}.

(** The report of a failed step: a log line, the failure in the status, and the wrapped error;
    that the status was refused is logged only. *)
Inductive step_reported (es : EdgeSite) (name : string) (e : error) :
    list (event Env) → error → Prop :=
| report_stored (a : EdgeSite) :
    step_reported es name e
      [@Ev Env (LogError e "EdgeSite step FAILED" [("site", Name (es_meta es)); ("step", name)]) tt;
       @Ev Env (KStatusUpdate KEdgeSite (set_es_status (failed_status es name e) es)) (Ok a)]
      (wrapf (Sprintf "EdgeSite %q step %q: " [FStr (Name (es_meta a)); FStr name]) e)
| report_refused ue :
    step_reported es name e
      [@Ev Env (LogError e "EdgeSite step FAILED" [("site", Name (es_meta es)); ("step", name)]) tt;
       @Ev Env (KStatusUpdate KEdgeSite (set_es_status (failed_status es name e) es)) (Err ue);
       @Ev Env (LogError ue "EdgeSite: also failed to write failure status"
                  [("site", Name (es_meta es)); ("step", name)]) tt]
      (wrapf (Sprintf "EdgeSite %q step %q: " [FStr (Name (es_meta es)); FStr name]) e).

(** A step: announced, its tasks in turn, and the report of the one that failed. *)
Inductive step_ran (es : EdgeSite) (p : string * list task) :
    list (event Env) → result unit → Prop :=
| step_succeeded t :
    in_turn (does es) p.2 t (Ok tt) → step_ran es p (announced es p.1 :: t) (Ok tt)
| step_stopped t e t' e' :
    in_turn (does es) p.2 t (Err e) → step_reported es p.1 e t' e' →
    step_ran es p (announced es p.1 :: t ++ t')%list (Err e').

Definition follows (m : act Env EdgeSite unit) (es : EdgeSite) (l : list (string * list task)) :
    Prop := performs (λ _, True) (step_ran es) m es l.

(** The end of a reconcile whose steps are all done: the success status, then a log line; a
    refused status is the error of the reconcile. *)
Inductive finished (es : EdgeSite) (cluster : string) :
    list (event Env) → result Result → Prop :=
| finished_stored (a : EdgeSite) :
    finished es cluster
      [@Ev Env (KStatusUpdate KEdgeSite (set_es_status (success_status es cluster) es)) (Ok a);
       @Ev Env (LogInfo "EdgeSite reconciled OK"
                  [("site", Name (es_meta a)); ("role", es_Role (es_spec a));
                   ("cluster", cluster)]) tt]
      (Ok no_requeue)
| finished_refused e :
    finished es cluster
      [@Ev Env (KStatusUpdate KEdgeSite (set_es_status (success_status es cluster) es)) (Err e);
       @Ev Env (LogError e "EdgeSite: failed to write success status"
                  [("site", Name (es_meta es))]) tt]
      (Err (wrapf (Sprintf "EdgeSite %s: status update: " [FStr (Name (es_meta es))]) e)).

(** ** The tasks of the operations *)

Lemma gitPut_task repo path yaml es :
  performs_tasks (gitPut repo path yaml) es [File repo path yaml].
Proof. apply performs_one; [done|]. apply gitPut_filed. Qed.

Lemma applyOwned_task k (o : obj k) es : performs_tasks (applyOwned o) es [Child k o].
Proof.
  apply performs_one; [done|]. unfold applyOwned. apply spec_bind, spec_get. apply upsert_upserted.
Qed.

Lemma pkgVariant_task r name up repo pkg inject es :
  performs_tasks (pkgVariant r name up repo pkg inject) es [variant r es name up repo pkg inject].
Proof. unfold pkgVariant, variant. apply performs_get, applyOwned_task. Qed.

Lemma ipClaim_task c es :
  performs_tasks (x ← get; ipClaim (Name (es_meta x) +:+ "-" +:+ c.1) c.2) es [claim es c].
Proof. unfold ipClaim, claim. apply performs_get, performs_get, applyOwned_task. Qed.

Lemma deliverN2Expose_task repo es : performs_tasks (deliverN2Expose repo) es [Expose repo].
Proof.
  apply performs_one; [done|]. unfold deliverN2Expose, does. apply spec_bind, spec_get, spec_bind.
  destruct (String.eqb (es_N2VIP (es_spec es)) ""); [|apply spec_ret, gitPut_filed].
  apply spec_bind. eapply spec_impl; [|apply ranBase_ok]. cbn beta.
  intros tn s' r (-> & base & -> & Hb). apply spec_ret.
  eapply spec_impl; [|apply gitPut_filed]. cbn beta. intros t s' r [-> H].
  split; [done|]. exists tn, base, t. by rewrite app_nil_r.
Qed.

Lemma deliverCoreSlice_task repo es :
  performs_tasks (deliverCoreSlice repo) es (files repo (core_files es)).
Proof. apply performs_get, (performs_seq _ _ _ _ _ [_] [_]); apply gitPut_task. Qed.

Lemma deliverRAN_task repo es ran :
  es_RAN (es_spec es) = Some ran →
  performs_tasks (deliverRAN repo) es (files repo (ran_files es ran)).
Proof.
  intros E. apply performs_get. rewrite E. unfold files, ran_files. rewrite !fmap_app.
  apply performs_seq; [apply gitPut_task|]. apply performs_seq; [|apply performs_seq].
  - destruct (isOFH ran); [apply gitPut_task|].
    destruct (isUHD ran); [apply gitPut_task | apply performs_ret].
  - unfold when. destruct (networked_sdr ran); [apply gitPut_task | apply performs_ret].
  - apply gitPut_task.
Qed.

(** ** Steps *)

Lemma step_failed_reports name e es :
  spec (step_failed name e) es (λ t es' r, ∃ e', r = Err e' ∧ step_reported es name e t e').
Proof.
  unfold step_failed, update_status, env. walk; eexists; (split; [reflexivity|]).
  all: drop_logs.
  - apply (report_stored es name e).
  - apply (report_refused es name e).
Qed.

Lemma step_follows name fn es tasks :
  performs_tasks fn es tasks → follows (step name fn) es [(name, tasks)].
Proof.
  intros H. unfold follows, performs, step, log_step, env. walk. eapply spec_impl; [|exact H].
  cbn beta. drop_logs.
  intros t s' [[]|e] [Hs Ht].
  - apply spec_ret. split; [done|]. apply in_turn_one. rewrite (app_nil_r t).
    exact (step_succeeded es (name, tasks) t Ht).
  - rewrite <-Hs. eapply spec_impl; [|apply step_failed_reports]. cbn beta.
    intros t' s'' r (e' & -> & Hr). split; [done|]. apply in_turn_one.
    exact (step_stopped es (name, tasks) t e t' e' Ht Hr).
Qed.

Lemma cp_steps_follow r repo es : follows (cp_steps r repo) es (cp_plan r repo es).
Proof.
  unfold cp_steps, cp_plan, site_variant. cbn [app].
  apply (performs_seq _ _ _ _ _ [_]);
    [apply step_follows, performs_get, pkgVariant_task|].
  apply (performs_seq _ _ _ _ _ [_]); [apply step_follows, deliverN2Expose_task|].
  apply (performs_seq _ _ _ _ _ [_]); [apply step_follows, deliverCoreSlice_task|].
  apply performs_get. destruct (es_RAN (es_spec es)) as [ran|] eqn:E; [|apply performs_ret].
  by apply step_follows, deliverRAN_task.
Qed.

Lemma edge_steps_follow es : follows edge_steps es (edge_plan es).
Proof.
  apply performs_get, (performs_seq _ _ _ _ _ [_] [_]);
    apply step_follows, performs_get, applyOwned_task.
Qed.

Lemma emit_follows r cluster es : follows (emit r cluster) es (plan r cluster es).
Proof.
  apply performs_get. unfold plan. apply performs_seq; [|apply performs_seq].
  - apply performs_when, step_follows, pkgVariant_task.
  - apply performs_for_each. intros c. apply step_follows, ipClaim_task.
  - apply performs_get, performs_seq; [apply performs_when, cp_steps_follow|]. cbn [app].
    unfold infra_variant, site_variant.
    apply (performs_seq _ _ _ _ _ [_]); [apply step_follows, pkgVariant_task|].
    apply (performs_seq _ _ _ _ _ [_]); [apply step_follows, performs_get, pkgVariant_task|].
    apply (performs_seq _ _ _ _ _ [_]); [apply step_follows, pkgVariant_task|].
    apply performs_get, performs_when, edge_steps_follow.
Qed.

(** ** The whole reconcile *)

Lemma succeed_finishes cluster es :
  spec (succeed cluster) es (λ t es' res, finished es cluster t res).
Proof.
  unfold succeed, update_status, env. walk; drop_logs;
    [apply (finished_stored es cluster)|apply (finished_refused es cluster)].
Qed.

End steps.
