(* ===== verification/Children.v ===== *)
(** * Children of an EdgeSite, and the manifests of its core

    What [applyOwned] establishes on a healthy API server - the child is stored with the wanted
    spec, owned by the site, and an unstructured child that is already right is not written again -
    and the agreement between the manifests delivered for a core and for its gNB. *)

From S2P Require Import Prelude GoText Prog Api Effects Helpers Upsert GitOps Addressing.
From S2P Require Import Host AddressPlan.
From S2P Require Import RanProfile EdgeSite.

#[local] Strategy 1000 [Sprintf siteIndex derived_spec].

(** ** applyOwned against a healthy API server *)

(** C18: Against a healthy API server, applyOwned succeeds, whatever is stored under the child's
    name, provided that it is not being deleted: the child is stored with the wanted contents,
    labels and owner - except that an unstructured child whose spec was the wanted one is left
    exactly as it was, owner and metadata included - and no other object is touched. *)
Theorem applyOwned_establishes {W} (h : handler Env W) {server : ApiServer h} {k : kind}
    (o : obj k) es w :
  let child := owned_by es o in
  (∀ cur, live h w child = Some cur → DeletionTimestamp (meta cur) = None) →
  let p := applyOwned o es in
  run_value h p w = (es, Ok tt) ∧
  OwnerReferences (meta child) = [owner_of es] ∧ spec_part child = spec_part o ∧
  in_place h child w (run_world h p w) ∧ others_kept h child w (run_world h p w).
Proof.
  intros child Hdel p. destruct (upsert_places h child es w Hdel) as (Hv & Hp & Ho).
  split; [exact Hv|]. unfold child, owned_by. rewrite meta_with_meta, spec_with_meta. done.
Qed.

Lemma pv_spec_wf r es up repo pkg inject : wf_json (pv_spec r es up repo pkg inject).
Proof.
  unfold pv_spec, injector. destruct inject; cbn;
    repeat first [ split | constructor ]; rewrite ?elem_of_cons, ?elem_of_nil; naive_solver.
Qed.

Lemma claim_spec_wf es name kind : wf_json (claim_spec es name kind).
Proof.
  cbn. repeat first [ split | constructor ]; rewrite ?elem_of_cons, ?elem_of_nil; naive_solver.
Qed.

(** C19: No revision churn: once a PackageVariant or an IPClaim that is not being deleted has been
    reconciled against a healthy server, reconciling it again writes nothing and changes nothing. *)
Theorem variants_and_claims_settle {W} (h : handler Env W) {server : ApiServer h} r es w
    name up repo pkg inject kind p :
  p = pkgVariant r name up repo pkg inject es ∨ p = ipClaim name kind es →
  (∀ gvk cur, stored w (KUnstructured gvk) (Namespace (es_meta es)) name = Some cur →
     DeletionTimestamp (u_meta cur) = None) →
  let w1 := run_world h p w in
  run_value h p w = (es, Ok tt) ∧ run_value h p w1 = (es, Ok tt) ∧
  run_world h p w1 = w1 ∧ writes (run_trace h p w1) = [].
Proof.
  intros Hp Hdel. destruct Hp as [->| ->].
  - apply (upsert_settles h pvGVK (owned_by es (k := KUnstructured pvGVK) (new_unstructured pvGVK (Namespace (es_meta es)) name
      (pv_spec r es up repo pkg inject))) es w (pv_spec_wf _ _ _ _ _ _)).
    intros cur Hc. by apply (Hdel pvGVK).
  - apply (upsert_settles h ipClaimGVK (owned_by es (k := KUnstructured ipClaimGVK)
      (new_unstructured ipClaimGVK (Namespace (es_meta es)) name (claim_spec es name kind)))
      es w (claim_spec_wf _ _ _)).
    intros cur Hc. by apply (Hdel ipClaimGVK).
Qed.

(** A server that knows edge-01. *)
Definition lab : MemServer.world := create_site MemServer.empty edge_01.

Lemma applyOwned_establishes_witness :
  run_value MemServer.handle (applyOwned (k := KMeshLink) (mesh_link_of edge_01 "mgmt") edge_01) lab
  = (edge_01, Ok tt).
Proof.
  refine (proj1 (applyOwned_establishes MemServer.handle
    (server := MemServer.api_server) (k := KMeshLink) (mesh_link_of edge_01 "mgmt") edge_01 lab _)).
  intros cur Hc. vm_compute in Hc. discriminate.
Defined.

Definition operator_config : EdgeSiteReconciler :=
  {| BlueprintRepo := "blueprints"; MgmtRepo := "mgmt" |}.

Lemma variants_and_claims_settle_witness :
  let p := pkgVariant operator_config "upf-edge-01" "edge-site" "cluster-edge-01" "upf-edge-01" true
             edge_01 in
  writes (run_trace MemServer.handle p (run_world MemServer.handle p lab)) = [] ∧
  MemServer.lookup (run_world MemServer.handle p lab) (KUnstructured pvGVK) "default" "upf-edge-01"
    ≠ None.
Proof.
  split; [|by vm_compute].
  refine (proj2 (proj2 (proj2 (variants_and_claims_settle MemServer.handle
    (server := MemServer.api_server) operator_config edge_01 lab "upf-edge-01" "edge-site" "cluster-edge-01" "upf-edge-01" true "network" _ _ _)))).
  - by left.
  - intros gvk cur Hc. vm_compute in Hc. discriminate.
Defined.

(** ** The core and its gNB *)

(** A hexadecimal number: digits of either case, leading zeros included. *)
Definition hex_number (s : string) : Prop :=
  s ≠ "" ∧ Forall (λ z, is_hex_digit z = true) (bytes s) ∧ hex_value (bytes s) < 2 ^ 63.

Lemma hex_digit_val z :
  is_hex_digit z = true → ∃ d, hex_digit z = Some d ∧ digit_val z = Some d ∧ 0 ≤ d < 16.
Proof.
  unfold is_hex_digit, digit_val, hex_digit, between. rewrite bool_decide_eq_true.
  intros [d Hd]. exists d. rewrite Hd. split; [done|].
  repeat case_match; simplify_eq;
    rewrite ?andb_true_iff, ?andb_false_iff, ?Z.leb_le, ?Z.leb_gt in *;
    first [exfalso; lia | split; [done|lia]].
Qed.

(** Reading on only makes the number greater, so a number that fits is read to its end. *)
Lemma parse_uint_hex ds acc :
  Forall (λ z, is_hex_digit z = true) ds → 0 ≤ acc →
  let n := foldl (λ acc c, acc * 16 + default 0 (hex_digit c)) acc ds in
  acc ≤ n ∧ (n < 2 ^ 64 → parse_uint 16 acc ds = (n, None)).
Proof.
  intros H. revert acc. induction H as [|z ds Hz _ IH]; intros acc Ha; cbn [foldl parse_uint];
    [split; [lia|done]|].
  destruct (hex_digit_val z Hz) as (d & -> & -> & Hd). cbn [from_option id].
  destruct (IH (acc * 16 + d) ltac:(lia)) as [Hle Hp]. cbn zeta in *. split; [lia|].
  intros Hn. rewrite (proj2 (Z.ltb_lt d 16)) by lia.
  rewrite (proj2 (Z.leb_gt (2 ^ 64) (acc * 16 + d))) by lia. by apply Hp.
Qed.

Lemma ParseInt_hex_number s : hex_number s → ParseInt s 16 = (hex_value (bytes s), None).
Proof.
  intros (Hne & Hh & Hn). destruct (parse_uint_hex (bytes s) 0 Hh ltac:(lia)) as [H0 Hp].
  fold (hex_value (bytes s)) in H0, Hp. specialize (Hp ltac:(lia)). unfold ParseInt.
  destruct (bytes s) as [|c r] eqn:E; [by destruct s|].
  apply Forall_cons in Hh as [Hc _]. destruct (hex_digit_val c Hc) as (d & _ & Hd & _).
  assert ((c =? 45) = false ∧ (c =? 43) = false) as [E1 E2].
  { split; apply Z.eqb_neq; intros ->; discriminate. }
  rewrite E1, E2. cbn [orb]. cbv iota. rewrite Hp. cbn [negb andb].
  by rewrite (proj2 (Z.leb_gt _ _) Hn).
Qed.

Lemma HasPrefix_app_both v a b : HasPrefix (v +:+ a) (v +:+ b) = HasPrefix a b.
Proof. induction v as [|c v IH]; [done|]. cbn. by rewrite Ascii.eqb_refl, IH. Qed.

Lemma hex_no_0x s : Forall (λ z, is_hex_digit z = true) (bytes s) → HasPrefix s "0x" = false.
Proof.
  destruct s as [|a [|b s]]; cbn [HasPrefix]; [done|by destruct (Ascii.eqb _ _)|].
  intros H. destruct (Ascii.eqb "0" a); [|done]. destruct (Ascii.eqb_spec "x" b) as [<-|]; [|done].
  apply Forall_cons in H as [_ H]. apply Forall_cons in H as [H _]. discriminate.
Qed.

Lemma slice_sd_hex s prefix sd :
  prefix ∈ [""; "0x"] → hex_number sd → es_SliceSD s = prefix +:+ sd →
  slice_sd s = hex_value (bytes sd).
Proof.
  intros Hpre Hsd E. pose proof Hsd as (Hne & Hh & _). unfold slice_sd.
  assert (orDefault (es_SliceSD s) "102030" = prefix +:+ sd) as ->.
  { rewrite E. rewrite !elem_of_cons, elem_of_nil in Hpre. apply orDefault_set;
      destruct Hpre as [->|[->|[]]]; cbn; intros E'; try done; rewrite E' in Hh.
    apply Forall_cons in Hh as [Hh _]. discriminate. }
  assert (TrimPrefix (prefix +:+ sd) "0x" = sd) as ->.
  { rewrite !elem_of_cons, elem_of_nil in Hpre. unfold TrimPrefix.
    destruct Hpre as [->|[->|[]]]; cbn [String.append].
    - by rewrite hex_no_0x.
    - cbn [HasPrefix]. rewrite !Ascii.eqb_refl. by destruct sd. }
  by rewrite ParseInt_hex_number.
Qed.

(** C34: The gNB joins the core it is deployed with.  For a slice differentiator written as a
    hexadecimal number below 2^63 - digits of either case, with or without leading zeros and with
    or without the prefix 0x - the NetworkSlice delivered for the core carries it as written and
    the fleet's TAC, and every generated gNB configuration (one the user does not supply) carries
    the same TAC and the same differentiator as the decimal number OCUDU reads, with the N3 socket
    bound when the site has a gNB address. *)
Theorem core_and_gnb_agree es ran prefix sd :
  prefix ∈ [""; "0x"] → hex_number sd → es_SliceSD (es_spec es) = prefix +:+ sd →
  TrimSpace (ran_Config ran) = "" →
  Contains (core_slice es) (raw "sd: `" +:+ (prefix +:+ sd) +:+ raw "`") = true ∧
  Contains (core_slice es) ("tac: " +:+ Itoa tac) = true ∧
  Contains (gnb_config (es_spec es) ran) ("tac: " +:+ Itoa tac) = true ∧
  Contains (gnb_config (es_spec es) ran) ("sd: " +:+ Itoa (hex_value (bytes sd))) = true ∧
  (es_GnbIP (es_spec es) ≠ "" → Contains (gnb_config (es_spec es) ran) "cu_up:" = true).
Proof.
  intros Hpre Hn E Hc. pose proof (slice_sd_hex _ _ _ Hpre Hn E) as Hsd.
  set (n := hex_value (bytes sd)) in *. destruct (gnb_base_serves ran n Hc) as [Ht Hs].
  assert (gnb_config (es_spec es) ran =
    gnb_base ran n +:+ n3_bind (es_GnbIP (es_spec es)) (gnb_base ran n)) as Eg
    by (unfold gnb_config; by rewrite Hsd).
  split; [|split; [|split; [|split]]].
  - unfold core_slice. rewrite E. generalize (prefix +:+ sd). intros v. eval_sprintf.
    let q := eval vm_compute in (raw "sd: `") in change (raw "sd: `") with q.
    let q := eval vm_compute in (raw "`") in change (raw "`") with q. cbn [String.append].
    repeat first
      [ apply Contains_prefix; cbn [HasPrefix]; rewrite !Ascii.eqb_refl, HasPrefix_app_both;
        reflexivity
      | apply Contains_cons | apply Contains_app_r ].
  - unfold core_slice. eval_sprintf. find_text.
  - rewrite Eg. by apply Contains_app_l.
  - rewrite Eg. by apply Contains_app_l.
  - apply gnb_config_binds.
Qed.

(** edge-01 after its derivation, with a simulated gNB. *)
Definition addressed_edge : EdgeSite :=
  set_es_spec (derived_spec 113 "192.168.1" "192.168.1.242" (es_spec edge_01)) edge_01.

(** The same with a differentiator that has a prefix, a leading zero and capital digits. *)
Definition capital_edge : EdgeSite :=
  set_es_spec (poke p_SliceSD "0x01ABCD" (es_spec addressed_edge)) addressed_edge.

Lemma core_and_gnb_agree_witness :
  es_SliceSD (es_spec capital_edge) = "0x01ABCD" ∧
  Contains (gnb_config (es_spec capital_edge) (ran_of "zmq" "" "")) "sd: 109517" = true ∧
  Contains (gnb_config (es_spec addressed_edge) (ran_of "zmq" "" "")) "sd: 1056816" = true.
Proof.
  split; [reflexivity|].
  destruct (core_and_gnb_agree capital_edge (ran_of "zmq" "" "") "0x" "01ABCD")
    as (_ & _ & _ & H1 & _); [right; left|..].
  { split; [discriminate|]. split; [by repeat constructor | reflexivity]. }
  { reflexivity. }
  { reflexivity. }
  destruct (core_and_gnb_agree addressed_edge (ran_of "zmq" "" "") "" "102030")
    as (_ & _ & _ & H2 & _); [left|..].
  { split; [discriminate|]. split; [by repeat constructor | reflexivity]. }
  { reflexivity. }
  { reflexivity. }
  by split.
Defined.
