(* ===== verification/Fleet.v ===== *)
(** * The Fleet reconciler (fleet_controller.go)

    One Fleet lists the servers of a deployment; [Reconcile] turns every entry into an EdgeSite,
    deletes the EdgeSites whose entry was removed and reports in the status.  The Fleet is the
    state of the actions. *)

From S2P Require Import Prelude GoText Prog Api Effects Helpers.

Definition fleetLabel : string := "fleet.sdcore.nephio.io/fleet".
Definition managedLabel : string := "fleet.sdcore.nephio.io/managed".

(** ** The desired sites *)

Definition site_name (s : FleetSite) : string :=
  if String.eqb (fs_Name s) "" then "site-" +:+ ReplaceByte (fs_Server s) dot dash else fs_Name s.

(** The map [desired]: a later entry replaces an earlier one of its name. *)
Definition desired (sites : list FleetSite) : gmap string FleetSite :=
  foldl (λ m s, if String.eqb (fs_Server s) "" then m else <[site_name s := s]> m) ∅ sites.

(** [sort.Strings]: Go compares strings bytewise, as [String.le] does. *)
Definition sort_strings (l : list string) : list string := merge_sort String.le l.

Definition site_role (s : FleetSite) : string :=
  if String.eqb (fs_Role s) "" then "upf-only" else fs_Role s.

(** ** applyEdgeSite *)

Definition fleet_owner (fleet : Fleet) : OwnerReference :=
  {| or_APIVersion := "sdcore.nephio.io/v1alpha1"; or_Kind := "Fleet";
     or_Name := Name (fl_meta fleet); or_UID := UID (fl_meta fleet);
     or_Controller := Some true; or_BlockOwnerDeletion := Some true |}.

Definition managed_labels (fleet : Fleet) (labels : gmap string string) : gmap string string :=
  <[managedLabel := "true"]> (<[fleetLabel := Name (fl_meta fleet)]> labels).

(** The intent of an entry written over a spec. *)
Definition declare (server user role : string) (ran : option RANSpec) (s : EdgeSiteSpec) :
    EdgeSiteSpec := set_RAN ran (set_Role role (set_User user (set_Server server s))).

(** The EdgeSite created for an entry: everything else is left to be derived. *)
Definition new_site (fleet : Fleet) (name server user role : string) (ran : option RANSpec) :
    EdgeSite :=
  {| es_meta := set_OwnerReferences [fleet_owner fleet]
                  (set_Labels (managed_labels fleet ∅) (new_meta (Namespace (fl_meta fleet)) name));
     es_spec := declare server user role ran empty_EdgeSiteSpec;
     es_status := empty_EdgeSiteStatus |}.

(** The EdgeSite of an entry that exists already. *)
Definition updated_site (fleet : Fleet) (server user role : string) (ran : option RANSpec)
    (cur : EdgeSite) : EdgeSite :=
  set_es_spec (declare server user role ran (es_spec cur))
    (set_es_meta (set_Labels (managed_labels fleet (Labels (es_meta cur))) (es_meta cur)) cur).

Definition applyEdgeSite (name server user role : string) (ran : option RANSpec) :
    act Env Fleet unit :=
  fleet ← get;
  cur ← env (KGet KEdgeSite (Namespace (fl_meta fleet)) name);
  match cur with
  | Err e =>
      if IsNotFound e then
        _ ← env_ok (env (KCreate KEdgeSite (new_site fleet name server user role ran))); mret tt
      else throw e
  | Ok cur =>
      _ ← env_ok (env (KUpdate KEdgeSite (updated_site fleet server user role ran cur))); mret tt
  end.

(** ** Reconcile *)

(** One desired site; its error is collected. *)
Definition reconcile_entry (sites : gmap string FleetSite) (name : string) :
    act Env Fleet (list string) :=
  fleet ← get;
  match sites !! name with
  | None => mret []
  | Some s =>
      r ← try (applyEdgeSite name (fs_Server s) (fs_User s) (site_role s) (fs_RAN s));
      match r with
      | Ok _ => mret []
      | Err e =>
          _ ← env (LogError e "Fleet: EdgeSite reconcile failed"
                     [("fleet", Name (fl_meta fleet)); ("edgesite", name)]);
          mret [Sprintf "%s: %v" [FStr name; FStr (err_msg e)]]
      end
  end.

(** One listed EdgeSite: deleted when no entry wants it and it is not already being deleted. *)
Definition unwanted (sites : gmap string FleetSite) (es : EdgeSite) : bool :=
  match sites !! Name (es_meta es), DeletionTimestamp (es_meta es) with
  | None, None => true
  | _, _ => false
  end.

Definition decommission (sites : gmap string FleetSite) (es : EdgeSite) :
    act Env Fleet (list string) :=
  fleet ← get;
  if unwanted sites es then
    _ ← env (LogInfo "Fleet: entry removed -> decommissioning site"
               [("fleet", Name (fl_meta fleet)); ("edgesite", Name (es_meta es))]);
    r ← env (KDelete KEdgeSite es);
    match r with
    | Ok _ => mret []
    | Err e =>
        if IsNotFound e then mret []
        else
          _ ← env (LogError e "Fleet: EdgeSite delete failed"
                     [("fleet", Name (fl_meta fleet)); ("edgesite", Name (es_meta es))]);
          mret [Sprintf "delete %s: %v" [FStr (Name (es_meta es)); FStr (err_msg e)]]
    end
  else mret [].

(** The errors of a loop that continues past a failing element. *)
Fixpoint collect {A} (l : list A) (f : A → act Env Fleet (list string)) :
    act Env Fleet (list string) :=
  match l with
  | [] => mret []
  | x :: r => errs ← f x; rest ← collect r f; mret (errs ++ rest)%list
  end.

Section fleet.
Context {AM : Apimachinery}.

Definition fleet_status (sites : Z) (message : string) (ready : ConditionStatus)
    (reason : string) (fleet : Fleet) : Fleet :=
  set_fl_status
    {| fls_Sites := sites; fls_Message := message;
       fls_Conditions := setCondition (fls_Conditions (fl_status fleet)) "Ready" ready reason
                           message (Generation (fl_meta fleet)) |} fleet.

(** [_ = r.Status().Update(ctx, fleet)], or with its error for the caller. *)
Definition update_fleet_status : act Env Fleet (result unit) :=
  fleet ← get;
  r ← env (KStatusUpdate KFleet fleet);
  match r with
  | Ok f => _ ← modify (λ _, f); mret (Ok tt)
  | Err e => mret (Err e)
  end.

Definition fleet_fail (e : error) : act Env Fleet Result :=
  fleet ← get;
  _ ← modify (fleet_status (fls_Sites (fl_status fleet)) (err_msg e) ConditionFalse "Failed");
  _ ← update_fleet_status;
  throw e.

Definition partial_message (total : Z) (errs : list string) : string :=
  Sprintf "%d/%d site(s) reconciled; errors: %s"
    [FInt (total - Z.of_nat (length errs)); FInt total; FStr (Join errs "; ")].

Definition report (total : Z) (errs : list string) : act Env Fleet Result :=
  match errs with
  | [] =>
      _ ← modify (fleet_status total (Sprintf "%d site(s) reconciled into EdgeSites" [FInt total])
                    ConditionTrue "Reconciled");
      r ← update_fleet_status;
      fleet ← get;
      _ ← match r with
          | Ok _ => mret tt
          | Err e => _ ← env (LogError e "Fleet: status update"
                                [("fleet", Name (fl_meta fleet))]); mret tt
          end;
      mret no_requeue
  | _ =>
      _ ← modify (fleet_status total (partial_message total errs) ConditionFalse
                    "PartialFailure");
      _ ← update_fleet_status;
      mret {| RequeueAfter := 15 * Second |}
  end.

Definition reconcile_fleet : act Env Fleet Result :=
  fleet ← get;
  let sites := desired (fl_Sites fleet) in
  keys ← range_map (map_to_list sites).*1;
  errs ← collect (sort_strings keys) (reconcile_entry sites);
  owned ← env (KList KEdgeSite (Some (Namespace (fl_meta fleet)))
                 [(fleetLabel, Name (fl_meta fleet))]);
  match owned with
  | Err e => fleet_fail (wrapf "list managed EdgeSites: " e)
  | Ok items =>
      errs' ← collect items (decommission sites);
      report (Z.of_nat (size sites)) (errs ++ errs')%list
  end.

Definition Reconcile (ns name : string) : prog Env (result Result) :=
  Call (S := Env) (KGet KFleet ns name) (λ ans,
    match ans with
    | Err e => Ret (match IgnoreNotFound e with None => Ok no_requeue | Some e => Err e end)
    | Ok fleet => x ← reconcile_fleet fleet; mret x.2
    end).
End fleet.

(** ** The desired sites: properties *)

Definition declares (name : string) (s : FleetSite) : bool :=
  negb (String.eqb (fs_Server s) "") && String.eqb (site_name s) name.

Lemma desired_snoc sites s :
  desired (sites ++ [s])%list =
  if String.eqb (fs_Server s) "" then desired sites else <[site_name s := s]> (desired sites).
Proof. unfold desired. by rewrite foldl_app. Qed.

(** A name is desired exactly when an entry with a server declares it - by its name, or by its
    server when it has none - and the last such entry of the list is the one reconciled. *)
Theorem desired_last_wins sites name :
  desired sites !! name = find_first (declares name) (rev sites).
Proof.
  induction sites as [|s sites IH] using rev_ind; [done|].
  rewrite desired_snoc, rev_app_distr. cbn [rev app find_first]. unfold declares at 1.
  destruct (String.eqb (fs_Server s) ""); cbn [negb andb]; [apply IH|].
  destruct (String.eqb_spec (site_name s) name) as [->|Hne].
  - apply lookup_insert_eq.
  - rewrite lookup_insert_ne by done. apply IH.
Qed.

Lemma sort_strings_perm l l' : l ≡ₚ l' → sort_strings l = sort_strings l'.
Proof.
  intros H. unfold sort_strings. apply (Sorted_unique String.le).
  - apply (Sorted_merge_sort _).
  - apply (Sorted_merge_sort _).
  - by rewrite !merge_sort_Permutation.
Qed.

(** ** What a reconcile does to EdgeSites *)

(** The create-or-update of an entry: the live EdgeSite is read; a missing one is created; the
    intent is written over one that exists; any other read error ends it. *)
Inductive applied (fleet : Fleet) (name : string) (s : FleetSite) :
    list (event Env) → result unit → Prop :=
| applied_unread e :
    IsNotFound e = false →
    applied fleet name s [@Ev Env (KGet KEdgeSite (Namespace (fl_meta fleet)) name) (Err e)] (Err e)
| applied_created e (a : result EdgeSite) :
    IsNotFound e = true →
    applied fleet name s
      [@Ev Env (KGet KEdgeSite (Namespace (fl_meta fleet)) name) (Err e);
       @Ev Env (KCreate KEdgeSite
                  (new_site fleet name (fs_Server s) (fs_User s) (site_role s) (fs_RAN s))) a]
      (result_map (λ _, tt) a)
| applied_updated cur (a : result EdgeSite) :
    applied fleet name s
      [@Ev Env (KGet KEdgeSite (Namespace (fl_meta fleet)) name) (Ok cur);
       @Ev Env (KUpdate KEdgeSite
                  (updated_site fleet (fs_Server s) (fs_User s) (site_role s) (fs_RAN s) cur)) a]
      (result_map (λ _, tt) a).

(** One desired site: applied, its error logged and collected. *)
Inductive entry_done (fleet : Fleet) (sites : gmap string FleetSite) (name : string) :
    list (event Env) → list string → Prop :=
| entry_applied s t :
    sites !! name = Some s → applied fleet name s t (Ok tt) → entry_done fleet sites name t []
| entry_failed s t e :
    sites !! name = Some s → applied fleet name s t (Err e) →
    entry_done fleet sites name
      (t ++ [@Ev Env (LogError e "Fleet: EdgeSite reconcile failed"
                        [("fleet", Name (fl_meta fleet)); ("edgesite", name)]) tt])%list
      [Sprintf "%s: %v" [FStr name; FStr (err_msg e)]].

(** One listed site: left alone, or deleted; an error other than "not found" is logged and
    collected. *)
Definition announced_removal (fleet : Fleet) (es : EdgeSite) : event Env :=
  @Ev Env (LogInfo "Fleet: entry removed -> decommissioning site"
             [("fleet", Name (fl_meta fleet)); ("edgesite", Name (es_meta es))]) tt.

Inductive site_done (fleet : Fleet) (sites : gmap string FleetSite) (es : EdgeSite) :
    list (event Env) → list string → Prop :=
| site_kept : unwanted sites es = false → site_done fleet sites es [] []
| site_deleted a :
    unwanted sites es = true → (∀ e, a = Err e → IsNotFound e = true) →
    site_done fleet sites es
      [announced_removal fleet es; @Ev Env (KDelete KEdgeSite es) a] []
| site_undeleted e :
    unwanted sites es = true → IsNotFound e = false →
    site_done fleet sites es
      [announced_removal fleet es; @Ev Env (KDelete KEdgeSite es) (Err e);
       @Ev Env (LogError e "Fleet: EdgeSite delete failed"
                  [("fleet", Name (fl_meta fleet)); ("edgesite", Name (es_meta es))]) tt]
      [Sprintf "delete %s: %v" [FStr (Name (es_meta es)); FStr (err_msg e)]].

(** A loop that keeps the Fleet and whose passes are described by [turn]. *)
Lemma collect_collects {A} (turn : A → list (event Env) → list string → Prop) l
    (f : A → act Env Fleet (list string)) fleet :
  (∀ x, x ∈ l → spec (f x) fleet (λ t fleet' r, fleet' = fleet ∧ ∃ errs, r = Ok errs ∧ turn x t errs)) →
  spec (collect l f) fleet (λ t fleet' r, fleet' = fleet ∧ ∃ errs, r = Ok errs ∧ collected turn l t errs).
Proof.
  induction l as [|x l IH]; intros H; cbn [collect].
  { apply spec_ret. split; [done|]. exists []. split; [done|apply collected_end]. }
  apply spec_bind. eapply spec_impl; [|apply H; left]. cbn beta.
  intros t s' r (-> & errs & -> & Ht). apply spec_bind.
  eapply spec_impl; [|apply IH; intros y Hy; apply H; by right]. cbn beta.
  intros t' s' r (-> & errs' & -> & Ht'). apply spec_ret. split; [done|].
  exists (errs ++ errs')%list. split; [done|]. rewrite app_nil_r. by apply collected_next.
Qed.

Lemma applyEdgeSite_applies fleet name s :
  spec (applyEdgeSite name (fs_Server s) (fs_User s) (site_role s) (fs_RAN s)) fleet
    (λ t fleet' r, fleet' = fleet ∧ applied fleet name s t r).
Proof.
  unfold applyEdgeSite, env_ok, env. walk; (split; [done|]); subst.
  - by apply (applied_updated fleet name s _ (Ok _)).
  - by apply (applied_updated fleet name s _ (Err _)).
  - by apply (applied_created fleet name s _ (Ok _)).
  - by apply (applied_created fleet name s _ (Err _)).
  - by apply applied_unread.
Qed.

Lemma entry_collects sites name fleet s :
  sites !! name = Some s →
  spec (reconcile_entry sites name) fleet (λ t fleet' r, fleet' = fleet ∧
    ∃ errs, r = Ok errs ∧ entry_done fleet sites name t errs).
Proof.
  intros E. unfold reconcile_entry. apply spec_bind, spec_get. rewrite E. apply spec_bind, spec_try.
  eapply spec_impl; [|apply applyEdgeSite_applies]. cbn beta.
  intros t s' [[]|e] [-> Ha]; unfold env; walk; (split; [done|]); eexists;
    (split; [reflexivity|]); drop_logs.
  - rewrite !app_nil_r. by apply (entry_applied _ _ _ s).
  - by apply (entry_failed _ _ _ s).
Qed.

Lemma decommission_collects sites es fleet :
  spec (decommission sites es) fleet (λ t fleet' r, fleet' = fleet ∧
    ∃ errs, r = Ok errs ∧ site_done fleet sites es t errs).
Proof.
  unfold decommission, env. walk; (split; [done|]); eexists; (split; [reflexivity|]);
    drop_logs.
  - apply (site_deleted fleet sites es (Ok a)); [done|naive_solver].
  - apply (site_deleted fleet sites es (Err e)); [done|naive_solver].
  - by apply (site_undeleted fleet sites es e).
  - by apply site_kept.
Qed.

(** The names of the desired sites, in the order they are reconciled. *)
Definition site_names (sites : gmap string FleetSite) : list string :=
  sort_strings (map_to_list sites).*1.

Lemma site_names_spec sites :
  Sorted String.le (site_names sites) ∧ NoDup (site_names sites) ∧
  ∀ name, name ∈ site_names sites ↔ is_Some (sites !! name).
Proof.
  unfold site_names, sort_strings. split; [apply (Sorted_merge_sort _)|]. split.
  - rewrite merge_sort_Permutation. apply NoDup_fst_map_to_list.
  - intros name. rewrite merge_sort_Permutation, list_elem_of_fmap. split.
    + intros ([k v] & -> & H%elem_of_map_to_list). by exists v.
    + intros [v H]. exists (name, v). split; [done|]. by apply elem_of_map_to_list.
Qed.

Section fleet_properties.
Context {AM : Apimachinery}.

(** The status a reconcile ends with, and its result: all reconciled, or some failed and the
    Fleet is looked at again after 15 seconds; a refused status is not an error. *)
Inductive fleet_reported (fleet : Fleet) (total : Z) :
    list string → list (event Env) → result Result → Prop :=
| reported_all (a : result Fleet) :
    let st := fleet_status total (Sprintf "%d site(s) reconciled into EdgeSites" [FInt total])
                ConditionTrue "Reconciled" fleet in
    fleet_reported fleet total []
      (@Ev Env (KStatusUpdate KFleet st) a ::
       match a with
       | Ok _ => []
       | Err e => [@Ev Env (LogError e "Fleet: status update" [("fleet", Name (fl_meta fleet))]) tt]
       end)
      (Ok no_requeue)
| reported_some x errs a :
    let st := fleet_status total (partial_message total (x :: errs)) ConditionFalse
                "PartialFailure" fleet in
    fleet_reported fleet total (x :: errs) [@Ev Env (KStatusUpdate KFleet st) a]
      (Ok {| RequeueAfter := 15 * Second |}).

Lemma report_reports total errs fleet :
  spec (report total errs) fleet (λ t _ r, fleet_reported fleet total errs t r).
Proof.
  unfold report, update_fleet_status, env. destruct errs as [|x errs]; walk; simplify_eq; drop_logs.
  - exact (reported_all fleet total (Ok _)).
  - exact (reported_all fleet total (Err _)).
  - exact (reported_some fleet total x errs (Ok _)).
  - exact (reported_some fleet total x errs (Err _)).
Qed.

Lemma fleet_fail_reports e fleet :
  spec (fleet_fail e) fleet (λ t _ r, r = Err e ∧ ∃ a,
    t = [@Ev Env (KStatusUpdate KFleet (fleet_status (fls_Sites (fl_status fleet)) (err_msg e)
                    ConditionFalse "Failed" fleet)) a]).
Proof. unfold fleet_fail, update_fleet_status, env. walk; (split; [done|]); by eexists. Qed.

(** C9: A reconcile of a Fleet, call by call and whatever the environment answers.  Every desired
    site is applied exactly once, in bytewise order of the names whatever the iteration order of
    the map, going on past failures.  Then the EdgeSites with the Fleet's label are listed, and of
    the sites listed exactly those that no entry wants and that are not being deleted already are
    deleted, in the order of the listing, going on past failures.  A listing that fails is written
    to the status and is the only error returned; otherwise one status is written, and a retry
    after 15 seconds is asked for exactly when some site could not be applied or deleted. *)
Theorem fleet_reconcile_acts fleet :
  let sites := desired (fl_Sites fleet) in
  spec reconcile_fleet fleet (λ t _ res, ∃ order te errs listing t',
    t = (@Ev Env (MapOrder (size sites)) order :: te ++
         @Ev Env (KList KEdgeSite (Some (Namespace (fl_meta fleet)))
                    [(fleetLabel, Name (fl_meta fleet))]) listing :: t')%list ∧
    collected (entry_done fleet sites) (site_names sites) te errs ∧
    match listing with
    | Err e =>
        let e' := wrapf "list managed EdgeSites: " e in
        res = Err e' ∧ ∃ a,
          t' = [@Ev Env (KStatusUpdate KFleet (fleet_status (fls_Sites (fl_status fleet))
                           (err_msg e') ConditionFalse "Failed" fleet)) a]
    | Ok items => ∃ td errs' tr,
        t' = (td ++ tr)%list ∧ collected (site_done fleet sites) items td errs' ∧
        fleet_reported fleet (Z.of_nat (size sites)) (errs ++ errs')%list tr res
    end).
Proof.
  intros sites. unfold reconcile_fleet. apply spec_bind, spec_get. unfold range_map, env. walk.
  fold sites. rename r into order.
  assert (sort_strings (shuffle (length (map_to_list sites).*1) order (map_to_list sites).*1)
          = site_names sites) as -> by apply sort_strings_perm, shuffle_perm.
  assert (length (map_to_list sites).*1 = size sites) as El
    by by rewrite length_fmap, length_map_to_list.
  revert order. rewrite El. intros order.
  eapply spec_impl; [|apply (collect_collects (entry_done fleet sites))].
  2: { intros n Hn. apply site_names_spec in Hn as [s Hs]. by eapply entry_collects. }
  cbn beta. intros te f r (-> & errs & -> & He). do 2 step_spec.
  match goal with l : ans Env (KList _ _ _) |- _ => destruct l as [items|e] end; cbn beta iota.
  - apply spec_bind. fold sites.
    eapply spec_impl; [|apply (collect_collects (site_done fleet sites))].
    2: { intros es _. apply decommission_collects. }
    cbn beta. intros td f r (-> & errs' & -> & Hd).
    eapply spec_impl; [|apply report_reports]. cbn beta. intros tr f r Hr.
    exists order, te, errs, (Ok items), (td ++ tr)%list. split; [done|]. split; [done|].
    by exists td, errs', tr.
  - eapply spec_impl; [|apply fleet_fail_reports]. cbn beta. intros t' f r Hf.
    exists order, te, errs, (Err e), t'. by split.
Qed.

(** The count in the message is negative when more deletions fail than sites are desired. *)
Theorem partial_message_negative e :
  partial_message 0 [e] = "-1/0 site(s) reconciled; errors: " +:+ e.
Proof. unfold partial_message. eval_sprintf. cbn [Join]. by rewrite string_app_nil_r. Qed.
End fleet_properties.
