(* ===== verification/MeshLink.v ===== *)
(** * The MeshLink reconciler (meshlink_controller.go, mesh_clustermesh.go)

    One MeshLink wires an edge cluster to its control plane: the shared CA delivered by Git, the
    global amf-cp Service on both clusters (N2), and on the control plane a Service and an
    EndpointSlice for the edge's UPF (N4).  What it writes on the peer clusters has no owner
    there, so a finalizer holds the MeshLink until [cleanupRemote] has run.  The MeshLink is the
    state of the actions. *)

From S2P Require Import Prelude GoText Prog Api Effects Helpers GitOps.

Definition meshFinalizer : string := "sdcore.nephio.io/meshlink-cleanup".

(** ** Clients of the peer clusters *)

Definition is_mgmt (name : string) : bool := String.eqb name "" || String.eqb name "mgmt".

Definition clusterClient (name : string) : act Env MeshLink clientset :=
  if is_mgmt name then
    cfg ← env_ok (env GetConfig);
    env_ok (env (NewForConfig cfg))
  else
    sec ← env_ok (env (KGet KSecret "default" ("cluster-" +:+ name +:+ "-kubeconfig")));
    match sec_Data sec !! "value" with
    | None => throw (errorf (Sprintf "kubeconfig secret for %s has no 'value'" [FStr name]))
    | Some raw =>
        cfg ← env_ok (env (ConfigFromKubeConfig raw));
        env_ok (env (NewForConfig cfg))
    end.

(** ** Services and EndpointSlices of a peer cluster *)

Definition set_Annotations (a : gmap string string) (m : ObjectMeta) : ObjectMeta :=
  {| Name := Name m; Namespace := Namespace m; UID := UID m; ResourceVersion := ResourceVersion m;
     Generation := Generation m; Labels := Labels m; Annotations := a;
     OwnerReferences := OwnerReferences m; Finalizers := Finalizers m;
     DeletionTimestamp := DeletionTimestamp m |}.

(** The live Service with the fields the controller owns. *)
Definition patch_service (svc cur : Service) : Service :=
  {| svc_meta := set_Annotations (Annotations (svc_meta svc)) (svc_meta cur);
     svc_Selector := svc_Selector svc; svc_Ports := svc_Ports svc;
     svc_IngressIPs := svc_IngressIPs cur |}.

Definition apply (cs : clientset) (svc : Service) : act Env MeshLink unit :=
  found ← env (RGetService cs (Name (svc_meta svc)));
  match found with
  | Err e =>
      if IsNotFound e then _ ← env_ok (env (RCreateService cs svc)); mret tt
      else
        cur ← env_ok (env (RGetService cs (Name (svc_meta svc))));
        _ ← env_ok (env (RUpdateService cs (patch_service svc cur))); mret tt
  | Ok _ =>
      cur ← env_ok (env (RGetService cs (Name (svc_meta svc))));
      _ ← env_ok (env (RUpdateService cs (patch_service svc cur))); mret tt
  end.

Definition amf_service (shared : string) : Service :=
  {| svc_meta := set_Annotations (<["service.cilium.io/global" := "true"]>
                                    (<["service.cilium.io/shared" := shared]> ∅))
                   (new_meta "default" "amf-cp");
     svc_Selector := <["app" := "amf"]> ∅;
     svc_Ports := [{| sp_Name := "n2"; sp_Protocol := "SCTP"; sp_Port := 38412;
                      sp_TargetPort := intstr38412 |}];
     svc_IngressIPs := [] |}.

Definition ensureAmfGlobal (cs : clientset) (shared : string) : act Env MeshLink unit :=
  apply cs (amf_service shared).

Definition n4_service (name : string) : Service :=
  {| svc_meta := new_meta "default" name; svc_Selector := ∅;
     svc_Ports := [{| sp_Name := "pfcp"; sp_Protocol := "UDP"; sp_Port := 8805;
                      sp_TargetPort := intstr8805 |}];
     svc_IngressIPs := [] |}.

Definition n4_slice (name ip : string) : EndpointSlice :=
  {| eps_meta := set_Labels (<["kubernetes.io/service-name" := name]> ∅)
                   (new_meta "default" (name +:+ "-x"));
     eps_AddressType := "IPv4";
     eps_Endpoints := [{| ep_Addresses := [ip]; ep_Ready := Some true |}];
     eps_Ports := [{| epp_Name := "pfcp"; epp_Protocol := "UDP"; epp_Port := 8805 |}] |}.

(** A missing slice is created; after any other answer it is updated. *)
Definition ensureN4Endpoint (cs : clientset) (name ip : string) : act Env MeshLink unit :=
  _ ← apply cs (n4_service name);
  found ← env (RGetEndpointSlice cs (Name (eps_meta (n4_slice name ip))));
  if match found with Err e => IsNotFound e | Ok _ => false end
  then _ ← env_ok (env (RCreateEndpointSlice cs (n4_slice name ip))); mret tt
  else _ ← env_ok (env (RUpdateEndpointSlice cs (n4_slice name ip))); mret tt.

Definition podIP (cs : clientset) (selector : string) : act Env MeshLink string :=
  pods ← env_ok (env (RListPods cs selector));
  mret (match pods with [] => "" | p :: _ => pod_PodIP p end).

Definition upf_name (ml : MeshLink) : string :=
  if String.eqb (ml_UPFName (ml_spec ml)) "" then "upf-" +:+ ml_Edge (ml_spec ml)
  else ml_UPFName (ml_spec ml).

(** ** ClusterMesh *)

Definition ensureClusterMesh (cpCS : clientset) : act Env MeshLink unit :=
  ml ← get;
  if is_mgmt (ml_Edge (ml_spec ml)) then mret tt
  else
    let cp := if String.eqb (ml_ControlPlane (ml_spec ml)) "" then "mgmt"
              else ml_ControlPlane (ml_spec ml) in
    ca ← wrap "read control-plane cilium-ca: "
           (env_ok (env (RGetSecret cpCS "kube-system" "cilium-ca")));
    yaml ← secretYAML "cilium-ca" "kube-system" (sec_Data ca);
    _ ← wrap "deliver shared cilium-ca to edge repo: "
          (deliverViaGit (deployRepoFor (ml_Edge (ml_spec ml))) "clustermesh/cilium-ca.yaml" yaml);
    for_each [deployRepoFor cp; deployRepoFor (ml_Edge (ml_spec ml))] (λ repo,
      wrap (Sprintf "retire legacy cilium-clustermesh from %s: " [FStr repo])
        (removeFromGit repo "clustermesh/cilium-clustermesh.yaml")).

(** ** Deletion *)

(** Errors are swallowed: nothing here can block the finalizer. *)
Definition cleanup_cp (cs : clientset) (upfName : string) : act Env MeshLink unit :=
  _ ← env (RDeleteService cs upfName);
  _ ← env (RDeleteEndpointSlice cs (upfName +:+ "-x"));
  _ ← env (RDeleteService cs "amf-cp");
  mret tt.

Definition cleanupRemote : act Env MeshLink unit :=
  ml ← get;
  cp ← try (clusterClient (ml_ControlPlane (ml_spec ml)));
  _ ← match cp with
      | Ok cs => cleanup_cp cs (upf_name ml)
      | Err _ => _ ← env (LogInfo "MeshLink cleanup: CP cluster unreachable, skipping remote delete"
                            [("cp", ml_ControlPlane (ml_spec ml))]); mret tt
      end;
  edge ← try (clusterClient (ml_Edge (ml_spec ml)));
  match edge with
  | Ok cs => _ ← env (RDeleteService cs "amf-cp"); mret tt
  | Err _ => mret tt
  end.

(** [r.Update(ctx, &ml)]. *)
Definition update_link : act Env MeshLink unit :=
  ml ← get;
  ml' ← env_ok (env (KUpdate KMeshLink ml));
  modify (λ _, ml').

Definition set_link_finalizers (l : list string) (ml : MeshLink) : MeshLink :=
  set_ml_meta (set_Finalizers l (ml_meta ml)) ml.

Section meshlink.
Context {AM : Apimachinery}.

Definition release : act Env MeshLink Result :=
  ml ← get;
  _ ← when (ContainsFinalizer (Finalizers (ml_meta ml)) meshFinalizer)
        (_ ← cleanupRemote;
         _ ← modify (λ ml, set_link_finalizers
                       (RemoveFinalizer (Finalizers (ml_meta ml)) meshFinalizer) ml);
         update_link);
  mret no_requeue.

(** ** Status *)

Definition link_status (phase message : string) (st : ConditionStatus) (reason : string)
    (ml : MeshLink) : MeshLink :=
  set_ml_status
    {| mls_Phase := phase; mls_Message := message;
       mls_Conditions := setCondition (mls_Conditions (ml_status ml)) "Ready" st reason message
                           (Generation (ml_meta ml)) |} ml.

Definition update_link_status : act Env MeshLink (result unit) :=
  ml ← get;
  r ← env (KStatusUpdate KMeshLink ml);
  match r with
  | Ok ml' => _ ← modify (λ _, ml'); mret (Ok tt)
  | Err e => mret (Err e)
  end.

(** The failure is recorded and the link retried: no error is returned. *)
Definition fail (what : string) (e : error) : act Env MeshLink Result :=
  ml ← get;
  _ ← env (LogError e "MeshLink step FAILED"
             [("edge", ml_Edge (ml_spec ml)); ("controlPlane", ml_ControlPlane (ml_spec ml));
              ("step", what)]);
  _ ← modify (link_status "Failed" (Sprintf "%s: %v" [FStr what; FStr (err_msg e)])
                ConditionFalse (what +:+ "Failed"));
  r ← update_link_status;
  ml ← get;
  _ ← match r with
      | Ok _ => mret tt
      | Err ue => _ ← env (LogError ue "MeshLink: also failed to write failure status"
                             [("edge", ml_Edge (ml_spec ml))]); mret tt
      end;
  mret {| RequeueAfter := requeueMesh |}.

(** One step of the wiring: a failure ends the reconcile through [fail]. *)
Definition attempt {A} (what : string) (m : act Env MeshLink A)
    (k : A → act Env MeshLink Result) : act Env MeshLink Result :=
  r ← try m;
  match r with
  | Ok a => k a
  | Err e => fail what e
  end.

Definition wired_message (ml : MeshLink) : string :=
  Sprintf "N2 amf-cp + N4 %s wired (%s <-> %s)"
    [FStr (upf_name ml); FStr (ml_Edge (ml_spec ml)); FStr (ml_ControlPlane (ml_spec ml))].

Definition wired_condition (ml : MeshLink) : string :=
  Sprintf "N2 amf-cp + N4 %s wired between %s and %s"
    [FStr (upf_name ml); FStr (ml_Edge (ml_spec ml)); FStr (ml_ControlPlane (ml_spec ml))].

Definition wired_status (ml : MeshLink) : MeshLink :=
  set_ml_status
    {| mls_Phase := "N4Wired"; mls_Message := wired_message ml;
       mls_Conditions := setCondition (mls_Conditions (ml_status ml)) "Ready" ConditionTrue
                           "Wired" (wired_condition ml) (Generation (ml_meta ml)) |} ml.

Definition wired : act Env MeshLink Result :=
  ml0 ← get;
  _ ← modify wired_status;
  r ← update_link_status;
  ml ← get;
  _ ← match r with
      | Err e => _ ← env (LogError e "MeshLink: failed to write success status"
                            [("edge", ml_Edge (ml_spec ml))]); mret tt
      | Ok _ => _ ← env (LogInfo "MeshLink reconciled OK"
                           [("edge", ml_Edge (ml_spec ml));
                            ("controlPlane", ml_ControlPlane (ml_spec ml));
                            ("n4", upf_name ml0)]); mret tt
      end;
  mret {| RequeueAfter := requeueMesh |}.

(** The endpoint of the edge's UPF, when its pod has an address. *)
Definition wire_n4 (edgeCS cpCS : clientset) : act Env MeshLink Result :=
  ml ← get;
  ip ← try (podIP edgeCS "app=upf");
  match ip with
  | Ok ip =>
      if String.eqb ip "" then wired
      else attempt "N4 endpoint" (ensureN4Endpoint cpCS (upf_name ml) ip) (λ _, wired)
  | Err _ => wired
  end.

Definition wire : act Env MeshLink Result :=
  ml ← get;
  attempt "edge client" (clusterClient (ml_Edge (ml_spec ml))) (λ edgeCS,
  attempt "control-plane client" (clusterClient (ml_ControlPlane (ml_spec ml))) (λ cpCS,
  attempt "clustermesh" (ensureClusterMesh cpCS) (λ _,
  attempt "amf-cp export" (ensureAmfGlobal cpCS "true") (λ _,
  attempt "amf-cp consume" (ensureAmfGlobal edgeCS "false") (λ _,
  wire_n4 edgeCS cpCS))))).

Definition reconcile_link : act Env MeshLink Result :=
  ml ← get;
  match DeletionTimestamp (ml_meta ml) with
  | Some _ => release
  | None =>
      let '(finalizers, added) := AddFinalizer (Finalizers (ml_meta ml)) meshFinalizer in
      _ ← modify (set_link_finalizers finalizers);
      _ ← when added update_link;
      wire
  end.

Definition Reconcile (ns name : string) : prog Env (result Result) :=
  Call (S := Env) (KGet KMeshLink ns name) (λ ans,
    match ans with
    | Err e => Ret (match IgnoreNotFound e with None => Ok no_requeue | Some e => Err e end)
    | Ok ml => x ← reconcile_link ml; mret x.2
    end).
End meshlink.

(** ** Writes on the peer clusters *)

(** The objects a MeshLink is responsible for on its peers. *)
Inductive peer_object := PeerService (name : string) | PeerSlice (name : string).

Definition peer_target (e : event Env) : option peer_object :=
  match ev_op e : call_op with
  | RCreateService _ s | RUpdateService _ s => Some (PeerService (Name (svc_meta s)))
  | RDeleteService _ name => Some (PeerService name)
  | RCreateEndpointSlice _ s | RUpdateEndpointSlice _ s => Some (PeerSlice (Name (eps_meta s)))
  | RDeleteEndpointSlice _ name => Some (PeerSlice name)
  | _ => None
  end.

Definition footprint (ml : MeshLink) : list peer_object :=
  [PeerService (upf_name ml); PeerSlice (upf_name ml +:+ "-x"); PeerService "amf-cp"].

(** Every write of the trace deletes something on a peer. *)
Definition only_deletes (t : list (event Env)) : bool :=
  forallb (λ e : event Env,
    match ev_op e : call_op with
    | RDeleteService _ _ | RDeleteEndpointSlice _ _ => true
    | _ => false
    end) (writes t).

(** *** What the parts of a reconcile do, call by call *)

(** The client of a cluster: from the process's own configuration for the management cluster, from
    the kubeconfig Secret of the cluster otherwise. *)
Inductive client_of (name : string) : list (event Env) → result clientset → Prop :=
| client_no_config e :
    is_mgmt name = true → client_of name [@Ev Env GetConfig (Err e)] (Err e)
| client_mgmt cfg answer :
    is_mgmt name = true →
    client_of name [@Ev Env GetConfig (Ok cfg); @Ev Env (NewForConfig cfg) answer] answer
| client_no_secret e :
    is_mgmt name = false →
    client_of name
      [@Ev Env (KGet KSecret "default" ("cluster-" +:+ name +:+ "-kubeconfig")) (Err e)] (Err e)
| client_no_value (sec : Secret) :
    is_mgmt name = false → sec_Data sec !! "value" = None →
    client_of name
      [@Ev Env (KGet KSecret "default" ("cluster-" +:+ name +:+ "-kubeconfig")) (Ok sec)]
      (Err (errorf (Sprintf "kubeconfig secret for %s has no 'value'" [FStr name])))
| client_bad_config (sec : Secret) raw e :
    is_mgmt name = false → sec_Data sec !! "value" = Some raw →
    client_of name
      [@Ev Env (KGet KSecret "default" ("cluster-" +:+ name +:+ "-kubeconfig")) (Ok sec);
       @Ev Env (ConfigFromKubeConfig raw) (Err e)] (Err e)
| client_remote (sec : Secret) raw cfg answer :
    is_mgmt name = false → sec_Data sec !! "value" = Some raw →
    client_of name
      [@Ev Env (KGet KSecret "default" ("cluster-" +:+ name +:+ "-kubeconfig")) (Ok sec);
       @Ev Env (ConfigFromKubeConfig raw) (Ok cfg); @Ev Env (NewForConfig cfg) answer] answer.

Lemma clusterClient_runs name (ml : MeshLink) :
  spec (clusterClient name) ml (λ t ml' r, ml' = ml ∧ client_of name t r).
Proof.
  unfold clusterClient, env_ok, env. walk; (split; [done|]); subst.
  - by apply (client_mgmt name).
  - by apply client_no_config.
  - by eapply (client_remote name).
  - by eapply client_bad_config.
  - by apply client_no_value.
  - by apply client_no_secret.
Qed.

Lemma client_of_quiet name t r :
  client_of name t r → writes t = [].
Proof. by destruct 1. Qed.

(** The deletions of a clean-up: of the whole footprint when the client of the control plane was
    made, of amf-cp when that of the edge was; their answers do not matter. *)
Definition cleaned_cp (ml : MeshLink) (cp : result clientset) (t : list (event Env)) : Prop :=
  match cp with
  | Ok cs => ∃ a1 a2 a3,
      t = [@Ev Env (RDeleteService cs (upf_name ml)) a1;
           @Ev Env (RDeleteEndpointSlice cs (upf_name ml +:+ "-x")) a2;
           @Ev Env (RDeleteService cs "amf-cp") a3]
  | Err _ => t = [@Ev Env (LogInfo "MeshLink cleanup: CP cluster unreachable, skipping remote delete"
                            [("cp", ml_ControlPlane (ml_spec ml))]) tt]
  end.

Definition cleaned_edge (edge : result clientset) (t : list (event Env)) : Prop :=
  match edge with
  | Ok cs => ∃ a, t = [@Ev Env (RDeleteService cs "amf-cp") a]
  | Err _ => t = []
  end.

Definition cleaned (ml : MeshLink) (t : list (event Env)) : Prop :=
  ∃ t1 cp t2 t3 edge t4, t = (t1 ++ t2 ++ t3 ++ t4)%list ∧
    client_of (ml_ControlPlane (ml_spec ml)) t1 cp ∧ cleaned_cp ml cp t2 ∧
    client_of (ml_Edge (ml_spec ml)) t3 edge ∧ cleaned_edge edge t4.

Lemma cleanupRemote_cleans ml :
  spec cleanupRemote ml (λ t ml' r, ml' = ml ∧ r = Ok tt ∧ cleaned ml t).
Proof.
  unfold cleanupRemote, cleanup_cp, env. do 3 step_spec. cbn beta iota. step_spec.
  eapply spec_impl; [|apply clusterClient_runs]. cbn beta. intros t1 s1 cp [-> Hcp]. walk.
  all: eapply spec_impl; [|apply clusterClient_runs]; cbn beta;
    intros t3 s1 edge [-> Hedge]; walk; drop_logs; do 2 (split; [done|]).
  - by eexists t1, (Ok _), [_; _; _], t3, (Ok _), [_]; split_and!; [|done|do 3 eexists|done|eexists].
  - by eexists t1, (Ok _), [_; _; _], t3, (Err _), []; split_and!; [|done|do 3 eexists|done|].
  - by eexists t1, (Err _), [_], t3, (Ok _), [_]; split_and!; [|done| |done|eexists].
  - by eexists t1, (Err _), [_], t3, (Err _), []; split_and!; [|done| |done|].
Qed.

(** A clean-up writes nothing but its deletions. *)
Lemma cleaned_deletes ml t : cleaned ml t → only_deletes t = true.
Proof.
  intros (t1 & cp & t2 & t3 & edge & t4 & -> & H1 & H2 & H3 & H4).
  apply client_of_quiet in H1 as E1, H3 as E3.
  unfold only_deletes. rewrite !writes_app, E1, E3.
  destruct cp, edge; cbn in H2, H4; naive_solver.
Qed.

Section meshlink_properties.
Context {AM : Apimachinery} {AML : ApimachineryLaws}.

(** C30: Deleting a MeshLink never wedges on its peers.  A MeshLink that is being deleted and
    still carries the finalizer asks for the client of its control plane and, when there is one,
    deletes its whole footprint there - the UPF's Service and EndpointSlice and the amf-cp Service;
    it asks for the client of its edge and, when there is one, deletes the amf-cp Service there.
    Then, whatever these calls were answered, one update drops the finalizer and changes nothing
    else; the reconcile fails only if that update does.  There are no other writes.  Without the
    finalizer nothing is called. *)
Theorem release_never_wedges ml :
  DeletionTimestamp (ml_meta ml) ≠ None →
  spec reconcile_link ml (λ t _ res,
    if bool_decide (meshFinalizer ∈ Finalizers (ml_meta ml)) then
      ∃ t1 finalizers a,
        let ml' := set_link_finalizers finalizers ml in
        t = (t1 ++ [@Ev Env (KUpdate KMeshLink ml') a])%list ∧
        cleaned ml t1 ∧ only_deletes t1 = true ∧
        (∀ f, f ∈ finalizers ↔ f ∈ Finalizers (ml_meta ml) ∧ f ≠ meshFinalizer) ∧
        res = match a with Ok _ => Ok no_requeue | Err e => Err e end
    else t = [] ∧ res = Ok no_requeue).
Proof.
  intros Hd. unfold reconcile_link. apply spec_bind, spec_get.
  destruct (DeletionTimestamp (ml_meta ml)); [|done].
  unfold release. apply spec_bind, spec_get. unfold when.
  destruct (ContainsFinalizer (Finalizers (ml_meta ml)) meshFinalizer) eqn:E.
  - apply contains_finalizer in E. rewrite bool_decide_eq_true_2 by done.
    do 2 step_spec. eapply spec_impl; [|apply cleanupRemote_cleans]. cbn beta.
    intros t s' r (-> & -> & Hc). unfold update_link, env_ok, env.
    walk; exists t; eexists _, _; cbn zeta; cbn [app]; rewrite ?app_nil_r; (split; [reflexivity|]);
      (split; [done|]); (split; [by eapply cleaned_deletes|]); (split; [|done]); cbn;
      intros f; apply remove_finalizer.
  - assert (meshFinalizer ∉ Finalizers (ml_meta ml)) as Hn.
    { intros Hin. apply contains_finalizer in Hin. congruence. }
    rewrite bool_decide_eq_false_2 by done. walk. by split.
Qed.
End meshlink_properties.

(** ** The wiring *)

(** What a trace does to the peers and to the MeshLink itself. *)
Inductive link_act :=
| LPeer (x : peer_object)
| LUpdate
| LStatus (ml : MeshLink).

Definition link_acts (t : list (event Env)) : list link_act :=
  omap (λ e : event Env,
    match ev_op e : call_op with
    | KUpdate KMeshLink _ => Some LUpdate
    | KStatusUpdate k o => match k return obj k → option link_act with
                           | KMeshLink => λ o, Some (LStatus o)
                           | _ => λ _, None
                           end o
    | _ => LPeer <$> peer_target e
    end) t.

Lemma link_acts_app t1 t2 : link_acts (t1 ++ t2)%list = (link_acts t1 ++ link_acts t2)%list.
Proof. apply omap_app. Qed.

(** Nothing but writes on the footprint of [ml]. *)
Definition in_footprint (ml : MeshLink) (l : list link_act) : Prop :=
  Forall (λ a, ∃ x, a = LPeer x ∧ x ∈ footprint ml) l.

Lemma in_footprint_app ml l1 l2 :
  in_footprint ml l1 → in_footprint ml l2 → in_footprint ml (l1 ++ l2)%list.
Proof. apply Forall_app_2. Qed.

(** Reading a Service returns the one of that name. *)
Definition named_answer (e : event Env) : Prop :=
  match e with
  | Ev c r =>
      match c return answer c → Prop with
      | RGetService _ name => λ r, match r with Ok s => Name (svc_meta s) = name | Err _ => True end
      | _ => λ _, True
      end r
  end.

(** *** What the steps do, call by call *)

Definition absent {A} (found : result A) : bool :=
  match found with Err e => IsNotFound e | Ok _ => false end.

(** The create-or-update of a Service: whatever the first read found, short of "not found", the
    live Service is read again and patched. *)
Inductive service_applied (cs : clientset) (svc : Service) :
    list (event Env) → result unit → Prop :=
| service_created found (a : result Service) :
    absent found = true →
    service_applied cs svc
      [@Ev Env (RGetService cs (Name (svc_meta svc))) found; @Ev Env (RCreateService cs svc) a]
      (result_map (λ _, tt) a)
| service_unread found e :
    absent found = false →
    service_applied cs svc
      [@Ev Env (RGetService cs (Name (svc_meta svc))) found;
       @Ev Env (RGetService cs (Name (svc_meta svc))) (Err e)] (Err e)
| service_patched found cur (a : result Service) :
    absent found = false →
    service_applied cs svc
      [@Ev Env (RGetService cs (Name (svc_meta svc))) found;
       @Ev Env (RGetService cs (Name (svc_meta svc))) (Ok cur);
       @Ev Env (RUpdateService cs (patch_service svc cur)) a]
      (result_map (λ _, tt) a).

(** The Service and the EndpointSlice of the edge's UPF. *)
Definition slice_applied (cs : clientset) (name ip : string) (t : list (event Env))
    (r : result unit) : Prop :=
  ∃ found (a : result EndpointSlice),
    t = [@Ev Env (RGetEndpointSlice cs (name +:+ "-x")) found;
         if absent found then @Ev Env (RCreateEndpointSlice cs (n4_slice name ip)) a
         else @Ev Env (RUpdateEndpointSlice cs (n4_slice name ip)) a] ∧
    r = result_map (λ _, tt) a.

Definition endpoint_applied (cs : clientset) (name ip : string) (t : list (event Env))
    (r : result unit) : Prop :=
  ∃ t1 r1, service_applied cs (n4_service name) t1 r1 ∧
    match r1 with
    | Ok _ => ∃ t2, t = (t1 ++ t2)%list ∧ slice_applied cs name ip t2 r
    | Err _ => t = t1 ∧ r = r1
    end.

(** The manifest of a CA Secret, its entries in some order. *)
Definition ca_manifest (data : gmap string string) (yaml : string) : Prop :=
  ∃ entries, entries ≡ₚ map_to_list data ∧
    yaml = secret_header "cilium-ca" "kube-system" +:+ concat_strings (secret_entry <$> entries).

(** The shared CA: nothing for the management cluster; else the control plane's CA Secret is read
    and delivered to the edge's repository, and then the legacy manifest removed from both. *)
Definition legacy_retired (repo : string) (t : list (event Env)) (r : result unit) : Prop :=
  ∃ r', retired repo "clustermesh/cilium-clustermesh.yaml" t r' ∧
    r = match r' with
        | Ok a => Ok a
        | Err e => Err (wrapf (Sprintf "retire legacy cilium-clustermesh from %s: " [FStr repo]) e)
        end.

Definition mesh_repos (ml : MeshLink) : list string :=
  let cp := if String.eqb (ml_ControlPlane (ml_spec ml)) "" then "mgmt"
            else ml_ControlPlane (ml_spec ml) in
  [deployRepoFor cp; deployRepoFor (ml_Edge (ml_spec ml))].

Inductive mesh_shared (cs : clientset) (ml : MeshLink) : list (event Env) → result unit → Prop :=
| mesh_local : is_mgmt (ml_Edge (ml_spec ml)) = true → mesh_shared cs ml [] (Ok tt)
| mesh_no_ca e :
    is_mgmt (ml_Edge (ml_spec ml)) = false →
    mesh_shared cs ml [@Ev Env (RGetSecret cs "kube-system" "cilium-ca") (Err e)]
      (Err (wrapf "read control-plane cilium-ca: " e))
| mesh_undelivered ca order yaml t e :
    is_mgmt (ml_Edge (ml_spec ml)) = false → ca_manifest (sec_Data ca) yaml →
    filed (deployRepoFor (ml_Edge (ml_spec ml))) "clustermesh/cilium-ca.yaml" yaml t (Err e) →
    mesh_shared cs ml
      (@Ev Env (RGetSecret cs "kube-system" "cilium-ca") (Ok ca) ::
       @Ev Env (MapOrder (size (sec_Data ca))) order :: t)
      (Err (wrapf "deliver shared cilium-ca to edge repo: " e))
| mesh_delivered ca order yaml t t' r :
    is_mgmt (ml_Edge (ml_spec ml)) = false → ca_manifest (sec_Data ca) yaml →
    filed (deployRepoFor (ml_Edge (ml_spec ml))) "clustermesh/cilium-ca.yaml" yaml t (Ok tt) →
    in_turn legacy_retired (mesh_repos ml) t' r →
    mesh_shared cs ml
      (@Ev Env (RGetSecret cs "kube-system" "cilium-ca") (Ok ca) ::
       @Ev Env (MapOrder (size (sec_Data ca))) order :: t ++ t')%list r.

(** *** The wiring as a whole *)

(** The steps of the wiring, by the name a failure is recorded under. *)
Definition wiring_steps : list string :=
  ["edge client"; "control-plane client"; "clustermesh"; "amf-cp export"; "amf-cp consume";
   "N4 endpoint"].

(** The step that failed, with its error. *)
Definition outcome : Type := option (string * error).

(** A step that [ran] describes: its failure is the outcome, otherwise [k] goes on. *)
Definition attempted {A} (what : string) (ran : list (event Env) → result A → Prop)
    (k : A → list (event Env) → outcome → Prop) (t : list (event Env)) (o : outcome) : Prop :=
  ∃ t1 r, ran t1 r ∧
    match r with
    | Err e => t = t1 ∧ o = Some (what, e)
    | Ok a => ∃ t2, t = (t1 ++ t2)%list ∧ k a t2 o
    end.

(** The address of the first pod listed. *)
Definition first_address (pods : result (list Pod)) : string :=
  match pods with Ok (p :: _) => pod_PodIP p | _ => "" end.

Definition done_wiring (t : list (event Env)) (o : outcome) : Prop := t = [] ∧ o = None.

Definition wiring_n4 (ml : MeshLink) (edge cp : clientset) (t : list (event Env)) (o : outcome) :
    Prop :=
  ∃ pods t', t = @Ev Env (RListPods edge "app=upf") pods :: t' ∧
    if String.eqb (first_address pods) "" then done_wiring t' o
    else attempted "N4 endpoint" (endpoint_applied cp (upf_name ml) (first_address pods))
           (λ _, done_wiring) t' o.

Definition wiring (ml : MeshLink) : list (event Env) → outcome → Prop :=
  attempted "edge client" (client_of (ml_Edge (ml_spec ml))) (λ edge,
  attempted "control-plane client" (client_of (ml_ControlPlane (ml_spec ml))) (λ cp,
  attempted "clustermesh" (mesh_shared cp ml) (λ _,
  attempted "amf-cp export" (service_applied cp (amf_service "true")) (λ _,
  attempted "amf-cp consume" (service_applied edge (amf_service "false")) (λ _,
  wiring_n4 ml edge cp))))).

Lemma apply_applies cs svc (ml : MeshLink) :
  spec (apply cs svc) ml (λ t ml' r, ml' = ml ∧ service_applied cs svc t r).
Proof.
  unfold apply, env_ok, env. walk; subst; (split; [done|]).
  - by apply (service_patched cs svc _ _ (Ok _)).
  - by apply (service_patched cs svc _ _ (Err _)).
  - by apply service_unread.
  - by apply (service_created cs svc _ (Ok _)).
  - by apply (service_created cs svc _ (Err _)).
  - by apply (service_patched cs svc _ _ (Ok _)).
  - by apply (service_patched cs svc _ _ (Err _)).
  - by apply service_unread.
Qed.

Lemma ensureN4Endpoint_applies cs name ip (ml : MeshLink) :
  spec (ensureN4Endpoint cs name ip) ml (λ t ml' r, ml' = ml ∧ endpoint_applied cs name ip t r).
Proof.
  unfold ensureN4Endpoint, env_ok, env. apply spec_bind.
  eapply spec_impl; [|apply apply_applies]. cbn beta. intros t ml' [[]|e] [-> H].
  2: { split; [done|]. by exists t, (Err e). }
  step_spec. step_spec. cbn beta iota. fold (absent r). destruct (absent r) eqn:E; walk; subst;
    (split; [done|]); exists t, (Ok tt); (split; [done|]); eexists; (split; [reflexivity|]).
  - exists r, (Ok a). by rewrite E.
  - exists r, (Err e). by rewrite E.
  - exists r, (Ok a). by rewrite E.
  - exists r, (Err e). by rewrite E.
Qed.

Lemma retire_all repos (ml : MeshLink) :
  spec (for_each repos (λ repo,
      wrap (Sprintf "retire legacy cilium-clustermesh from %s: " [FStr repo])
        (removeFromGit repo "clustermesh/cilium-clustermesh.yaml"))) ml
    (λ t ml' r, ml' = ml ∧ in_turn legacy_retired repos t r).
Proof.
  eapply spec_impl; [|apply (performs_for_each (eq ml) legacy_retired repos _ id)].
  - cbn beta. rewrite list_fmap_id. intros t ml' [[]|e] [E H]; by split.
  - intros repo. apply performs_one; [done|]. apply spec_wrap.
    eapply spec_impl; [|apply removeFromGit_retires]. cbn beta. intros t ml' r [-> H].
    split; [done|]. by exists r.
Qed.

Lemma ensureClusterMesh_shares cs (ml : MeshLink) :
  spec (ensureClusterMesh cs) ml (λ t ml' r, ml' = ml ∧ mesh_shared cs ml t r).
Proof.
  unfold ensureClusterMesh. apply spec_bind, spec_get.
  destruct (is_mgmt (ml_Edge (ml_spec ml))) eqn:E; [by split; [|apply mesh_local]|].
  unfold secretYAML, range_map, env_ok, env, deliverViaGit. walk; [|by split; [|apply mesh_no_ca]].
  match goal with H : r = Ok ?x |- _ => rename x into ca; subst r end.
  match goal with o : ans Env (MapOrder _) |- _ => rename o into order end.
  match goal with |- context [gitPut _ _ ?y] =>
    assert (ca_manifest (sec_Data ca) y) as Hy by (eexists; split; [apply shuffle_perm|reflexivity]);
    generalize dependent y end.
  revert order. replace (length (map_to_list (sec_Data ca))) with (size (sec_Data ca))
    by (symmetry; apply length_map_to_list). intros order yaml Hy.
  eapply spec_impl; [|apply gitPut_filed]. cbn beta. intros t ml' [[]|e] [-> Hf].
  2: { split; [done|]. by eapply mesh_undelivered. }
  eapply spec_impl; [|apply retire_all]. cbn beta. intros t' ml' r [-> Hr].
  split; [done|]. exact (mesh_delivered cs ml ca order yaml t t' r E Hy Hf Hr).
Qed.

(** *** What is written stays within the footprint *)

#[local] Strategy 1000 [contents_url put_body delete_body get_request json_request Sprintf
  EncodeToString].

(** Exchanges with Gitea show nothing. *)
Lemma auth_acts r t : link_acts (auth_read r :: t) = link_acts t. Proof. done. Qed.
Lemma request_acts m u r t : link_acts (@Ev Env (NewRequest m u) r :: t) = link_acts t.
Proof. done. Qed.
Lemma http_acts rq r t : link_acts (@Ev Env (HttpDo rq) r :: t) = link_acts t. Proof. done. Qed.
Lemma nil_acts : link_acts [] = []. Proof. done. Qed.

Ltac no_acts :=
  repeat first [rewrite link_acts_app | rewrite auth_acts | rewrite request_acts
               | rewrite http_acts | rewrite nil_acts].

Lemma looked_acts auth api t sha : looked_up auth api t sha → link_acts t = [].
Proof. destruct 1; by no_acts. Qed.

Lemma filed_acts repo path yaml t r : filed repo path yaml t r → link_acts t = [].
Proof.
  destruct 1 as [e|sec t0 sha e api Hl|sec t0 sha resp api Hl]; [exact nil_acts|..];
    apply looked_acts in Hl; no_acts; rewrite Hl; no_acts; exact eq_refl.
Qed.

Lemma retired_acts repo t r : in_turn legacy_retired repo t r → link_acts t = [].
Proof.
  assert (∀ repo t r, legacy_retired repo t r → link_acts t = []) as H.
  { intros ? ? ? (? & [] & _); no_acts; exact eq_refl. }
  induction 1 as [|x l t t' r Hx _ IH|x l t e Hx]; [done| |by eapply H].
  by rewrite link_acts_app, (H _ _ _ Hx), IH.
Qed.

Lemma mesh_shared_acts cs ml t r : mesh_shared cs ml t r → link_acts t = [].
Proof.
  destruct 1 as [| |? ? ? ? ? _ _ Hf|? ? ? ? ? ? _ _ Hf Hr]; [done|done| |]; cbn.
  - exact (filed_acts _ _ _ _ _ Hf).
  - change (link_acts (t ++ t')%list = []).
    by rewrite link_acts_app, (filed_acts _ _ _ _ _ Hf), (retired_acts _ _ _ Hr).
Qed.

Lemma client_of_acts name t r : client_of name t r → link_acts t = [].
Proof. by destruct 1. Qed.

Lemma quiet_in_footprint ml t : link_acts t = [] → in_footprint ml (link_acts t).
Proof. intros ->. by apply Forall_nil. Qed.

Lemma service_acts cs svc ml t r :
  service_applied cs svc t r → PeerService (Name (svc_meta svc)) ∈ footprint ml →
  Forall named_answer t → in_footprint ml (link_acts t).
Proof.
  intros [found a _|found e _|found cur a _] Hin Hn; cbn.
  - apply Forall_singleton. by eexists.
  - by apply Forall_nil.
  - apply Forall_cons in Hn as [_ Hn]. apply Forall_cons in Hn as [Hn _].
    apply Forall_singleton. eexists. split; [reflexivity|]. cbn in Hn |- *. by rewrite Hn.
Qed.

Lemma endpoint_acts cs ip ml t r :
  endpoint_applied cs (upf_name ml) ip t r → Forall named_answer t → in_footprint ml (link_acts t).
Proof.
  intros (t1 & r1 & Hs & H) Hn.
  assert (PeerService (Name (svc_meta (n4_service (upf_name ml)))) ∈ footprint ml) as Hin by left.
  destruct r1 as [u|e]; [|destruct H as [-> _]; by eapply service_acts].
  destruct H as (t2 & -> & found & a & -> & _). apply Forall_app in Hn as [Hn _].
  rewrite link_acts_app. apply in_footprint_app; [by eapply service_acts|].
  destruct (absent found); apply Forall_singleton; eexists; (split; [reflexivity|]); right; left.
Qed.

(** A step that stays within the footprint, then what follows. *)
Lemma attempted_acts {A} what (ran : list (event Env) → result A → Prop) k ml t o :
  attempted what ran k t o →
  (∀ t r, ran t r → Forall named_answer t → in_footprint ml (link_acts t)) →
  (∀ a t, k a t o → Forall named_answer t → in_footprint ml (link_acts t)) →
  Forall named_answer t → in_footprint ml (link_acts t).
Proof.
  intros (t1 & r & Hr & H) H1 H2 Hn. destruct r as [a|e]; [|destruct H as [-> _]; eauto].
  destruct H as (t2 & -> & Hk). apply Forall_app in Hn as [? ?]. rewrite link_acts_app.
  apply in_footprint_app; eauto.
Qed.

Lemma wiring_n4_acts ml edge cp t o :
  wiring_n4 ml edge cp t o → Forall named_answer t → in_footprint ml (link_acts t).
Proof.
  intros (pods & t' & -> & H) Hn. apply Forall_cons in Hn as [_ Hn].
  change (in_footprint ml (link_acts t')).
  destruct (String.eqb _ ""); [destruct H as [-> _]; by apply Forall_nil|].
  eapply attempted_acts; [exact H| | |done].
  - intros. by eapply endpoint_acts.
  - intros _ t2 [-> _] _. by apply Forall_nil.
Qed.

Lemma wiring_acts ml t o :
  wiring ml t o → Forall named_answer t → in_footprint ml (link_acts t).
Proof.
  assert (∀ cs shared t r, service_applied cs (amf_service shared) t r →
    Forall named_answer t → in_footprint ml (link_acts t)) as Hamf.
  { intros cs shared t' r Hs. eapply service_acts; [exact Hs|]. right. right. left. }
  intros H. eapply attempted_acts; [exact H|intros; by eapply quiet_in_footprint, client_of_acts|].
  clear H. intros edge t1 H. eapply attempted_acts; [exact H|intros; by eapply quiet_in_footprint, client_of_acts|].
  clear H. intros cp t2 H. eapply attempted_acts; [exact H|intros; by eapply quiet_in_footprint, mesh_shared_acts|].
  clear H. intros [] t3 H. eapply attempted_acts; [exact H|eauto|].
  clear H. intros [] t4 H. eapply attempted_acts; [exact H|eauto|].
  clear H. intros [] t5 H. by eapply wiring_n4_acts.
Qed.

(** *** How a wiring ends *)

Section wiring.
Context {AM : Apimachinery}.

(** The one status and the log lines around it: wired when no step failed, otherwise the failed
    step with its error; a refused status is only logged. *)
Inductive concluded (ml : MeshLink) : outcome → list (event Env) → Prop :=
| concluded_wired (a : result MeshLink) :
    concluded ml None
      [@Ev Env (KStatusUpdate KMeshLink (wired_status ml)) a;
       match a with
       | Ok ml' => @Ev Env (LogInfo "MeshLink reconciled OK"
                     [("edge", ml_Edge (ml_spec ml'));
                      ("controlPlane", ml_ControlPlane (ml_spec ml'));
                      ("n4", upf_name ml)]) tt
       | Err e => @Ev Env (LogError e "MeshLink: failed to write success status"
                     [("edge", ml_Edge (ml_spec ml))]) tt
       end]
| concluded_failed what e (a : result MeshLink) :
    what ∈ wiring_steps →
    concluded ml (Some (what, e))
      (@Ev Env (LogError e "MeshLink step FAILED"
         [("edge", ml_Edge (ml_spec ml)); ("controlPlane", ml_ControlPlane (ml_spec ml));
          ("step", what)]) tt ::
       @Ev Env (KStatusUpdate KMeshLink
         (link_status "Failed" (Sprintf "%s: %v" [FStr what; FStr (err_msg e)])
            ConditionFalse (what +:+ "Failed") ml)) a ::
       match a with
       | Ok _ => []
       | Err ue => [@Ev Env (LogError ue "MeshLink: also failed to write failure status"
                       [("edge", ml_Edge (ml_spec ml))]) tt]
       end).

(** A wiring took the steps up to the one that failed, if any, and reported that one; its writes on
    the peers stay within the footprint when a read of a Service returns the one asked for. *)
Definition wiring_ends (ml : MeshLink) (t : list (event Env)) (res : result Result) : Prop :=
  res = Ok {| RequeueAfter := requeueMesh |} ∧
  ∃ t1 o t2, t = (t1 ++ t2)%list ∧ wiring ml t1 o ∧ concluded ml o t2 ∧
    (Forall named_answer t1 → in_footprint ml (link_acts t1)).

(** An action that goes through [K] and then reports. *)
Definition concludes (K : list (event Env) → outcome → Prop) (m : act Env MeshLink Result)
    (ml : MeshLink) : Prop :=
  spec m ml (λ t _ res, res = Ok {| RequeueAfter := requeueMesh |} ∧
    ∃ t1 o t2, t = (t1 ++ t2)%list ∧ K t1 o ∧ concluded ml o t2).

Lemma fail_concludes what e ml :
  what ∈ wiring_steps →
  concludes (λ t o, t = [] ∧ o = Some (what, e)) (fail what e) ml.
Proof.
  intros Hw. unfold concludes, fail, update_link_status, env.
  walk; simplify_eq; drop_logs; (split; [reflexivity|]); eexists [], _, _;
    (split; [reflexivity|]); (split; [done|]).
  - exact (concluded_failed ml what e (Ok _) Hw).
  - exact (concluded_failed ml what e (Err _) Hw).
Qed.

Lemma wired_concludes ml : concludes done_wiring wired ml.
Proof.
  unfold concludes, wired, update_link_status, env.
  walk; simplify_eq; drop_logs; (split; [reflexivity|]); eexists [], None, _;
    (split; [reflexivity|]); (split; [done|]).
  - exact (concluded_wired ml (Ok _)).
  - exact (concluded_wired ml (Err _)).
Qed.

Lemma attempt_concludes {A} what ran (m : act Env MeshLink A) k K ml :
  what ∈ wiring_steps → spec m ml (λ t ml' r, ml' = ml ∧ ran t r) →
  (∀ a, concludes (K a) (k a) ml) → concludes (attempted what ran K) (attempt what m k) ml.
Proof.
  intros Hw Hm Hk. unfold concludes, attempt. apply spec_bind, spec_try.
  eapply spec_impl; [|exact Hm]. cbn beta. intros t ml' [a|e] [-> Hr].
  - eapply spec_impl; [|apply Hk]. cbn beta. intros t' _ res (-> & t1 & o & t2 & -> & HK & Hc).
    split; [done|]. exists (t ++ t1)%list, o, t2. rewrite app_assoc. split; [done|].
    split; [|done]. exists t, (Ok a). split; [done|]. by exists t1.
  - eapply spec_impl; [|by apply (fail_concludes what e)]. cbn beta.
    intros t' _ res (-> & t1 & o & t2 & -> & [-> ->] & Hc). split; [done|].
    exists t, (Some (what, e)), t2. split; [done|]. split; [|done]. by exists t, (Err e).
Qed.

Lemma concludes_get K (f : MeshLink → act Env MeshLink Result) ml :
  concludes K (f ml) ml → concludes K (get ≫= f) ml.
Proof. intros H. unfold concludes. by apply spec_bind, spec_get. Qed.

Lemma podIP_reads cs selector (ml : MeshLink) :
  spec (podIP cs selector) ml (λ t ml' r, ml' = ml ∧ ∃ pods,
    t = [@Ev Env (RListPods cs selector) pods] ∧
    match r with Ok ip => ip = first_address pods | Err _ => first_address pods = "" end).
Proof. unfold podIP, env_ok, env. walk; subst; (split; [done|]); by eexists. Qed.

Lemma wire_n4_concludes edge cp ml : concludes (wiring_n4 ml edge cp) (wire_n4 edge cp) ml.
Proof.
  apply concludes_get. unfold concludes. apply spec_bind, spec_try.
  eapply spec_impl; [|apply podIP_reads]. cbn beta.
  intros t ml' r (-> & pods & -> & Hip).
  set (ip := first_address pods) in *.
  assert (concludes (λ t o, if String.eqb ip "" then done_wiring t o
      else attempted "N4 endpoint" (endpoint_applied cp (upf_name ml) ip) (λ _, done_wiring) t o)
    match r with
    | Ok ip => if String.eqb ip "" then wired
               else attempt "N4 endpoint" (ensureN4Endpoint cp (upf_name ml) ip) (λ _, wired)
    | Err _ => wired
    end ml) as H.
  { destruct r as [?|e]; [subst|rewrite Hip; apply wired_concludes].
    destruct (String.eqb ip ""); [apply wired_concludes|].
    apply attempt_concludes; [unfold wiring_steps; set_solver|apply ensureN4Endpoint_applies|].
    intros _. apply wired_concludes. }
  eapply spec_impl; [|exact H]. cbn beta. intros t' _ res (-> & t1 & o & t2 & -> & HK & Hc).
  split; [done|]. eexists (_ :: t1), o, t2. split; [done|]. split; [|done]. by exists pods, t1.
Qed.

Lemma wire_concludes ml : concludes (wiring ml) wire ml.
Proof.
  apply concludes_get.
  apply attempt_concludes; [unfold wiring_steps; set_solver|apply clusterClient_runs|]. intros edge.
  apply attempt_concludes; [unfold wiring_steps; set_solver|apply clusterClient_runs|]. intros cp.
  apply attempt_concludes; [unfold wiring_steps; set_solver|apply ensureClusterMesh_shares|]. intros _.
  apply attempt_concludes; [unfold wiring_steps; set_solver|apply apply_applies|]. intros _.
  apply attempt_concludes; [unfold wiring_steps; set_solver|apply apply_applies|]. intros _.
  apply wire_n4_concludes.
Qed.

Lemma wire_ends ml : spec wire ml (λ t _ res, wiring_ends ml t res).
Proof.
  eapply spec_impl; [|apply wire_concludes]. cbn beta.
  intros t _ res (-> & t1 & o & t2 & -> & HK & Hc). split; [done|]. exists t1, o, t2.
  do 3 (split; [done|]). by eapply wiring_acts.
Qed.

(** C32: The wiring of a MeshLink, call by call.  Its steps run in order - the clients of the edge and
    of the control plane, the shared CA, the amf-cp Service exported and consumed, the endpoint of
    the edge's UPF when a pod with an address is listed - up to the first that fails.  Then one
    status is written: that of the wired link exactly when no step failed, otherwise the failure,
    with its error, of the step that failed.  No error is returned, even when the status is
    refused: the link is looked at again after the requeue interval.  Provided the clusters answer
    the read of a Service with the Service of that name, nothing on the peers outside the link's
    footprint - what its deletion tears down - is written. *)
Theorem wire_outcome ml : spec wire ml (λ t _ res, wiring_ends ml t res).
Proof. apply wire_ends. Qed.

(** C10: The finalizer guards the peers.  A MeshLink that is not being deleted is wired only once
    its finalizer is stored: without it the reconcile first makes the update that adds it, before
    any other write, and stops if that update fails; with it no such update is made. *)
Theorem finalizer_before_peers {AML : ApimachineryLaws} ml :
  DeletionTimestamp (ml_meta ml) = None →
  spec reconcile_link ml (λ t _ res,
    if bool_decide (meshFinalizer ∈ Finalizers (ml_meta ml)) then wiring_ends ml t res
    else ∃ a t2, t = (@Ev Env (KUpdate KMeshLink (set_link_finalizers
                         (Finalizers (ml_meta ml) ++ [meshFinalizer])%list ml)) a :: t2)%list ∧
      match a with
      | Ok ml' => wiring_ends ml' t2 res
      | Err e => t2 = [] ∧ res = Err e
      end).
Proof.
  intros Hd. unfold reconcile_link. apply spec_bind, spec_get. rewrite Hd.
  destruct (decide (meshFinalizer ∈ Finalizers (ml_meta ml))) as [Hin|Hin].
  - rewrite add_finalizer_present, bool_decide_eq_true_2 by done. cbn [when].
    apply spec_bind, spec_modify. apply spec_bind, spec_ret.
    assert (set_link_finalizers (Finalizers (ml_meta ml)) ml = ml) as ->
      by (by destruct ml as [[] ? ?]).
    eapply spec_impl; [|apply wire_ends]. by cbn.
  - rewrite add_finalizer_new, bool_decide_eq_false_2 by done. unfold when, update_link, env_ok, env.
    walk.
    + eapply spec_impl; [|apply wire_ends]. cbn beta. intros t ml' res H.
      cbn [app]. eexists (Ok _), t. by split.
    + cbn [app]. by eexists (Err _), [].
Qed.
End wiring.

(** A MeshLink as the EdgeSite reconciler creates it. *)
Definition new_link (name cp : string) : MeshLink :=
  {| ml_meta := new_meta "default" name;
     ml_spec := {| ml_Edge := name; ml_ControlPlane := cp; ml_UPFName := "upf-" +:+ name |};
     ml_status := empty_MeshLinkStatus |}.

Lemma finalizer_before_peers_witness :
  spec reconcile_link (new_link "edge-01" "mgmt") (λ t _ _, ∃ a t2,
    t = (@Ev Env (KUpdate KMeshLink (set_link_finalizers [meshFinalizer]
           (new_link "edge-01" "mgmt"))) a :: t2)%list).
Proof.
  eapply spec_impl; [|apply (finalizer_before_peers (new_link "edge-01" "mgmt")); reflexivity].
  cbn beta. intros t ml' res H. rewrite bool_decide_eq_false_2 in H by apply not_elem_of_nil.
  destruct H as (a & t2 & E & _). by exists a, t2.
Defined.

(** A link that is being deleted while its finalizer is still there. *)
Definition deleted_link : MeshLink :=
  let ml := set_link_finalizers [meshFinalizer] (new_link "edge-01" "mgmt") in
  set_ml_meta (set_DeletionTimestamp (Some 1735689600) (ml_meta ml)) ml.

Lemma release_never_wedges_witness :
  spec reconcile_link deleted_link (λ t _ res,
    ∃ t1 a, t = (t1 ++ [@Ev Env (KUpdate KMeshLink (set_link_finalizers [] deleted_link)) a])%list ∧
      cleaned deleted_link t1).
Proof.
  eapply spec_impl; [|apply (release_never_wedges deleted_link); discriminate].
  cbn beta. intros t ml' res H. rewrite bool_decide_eq_true_2 in H by set_solver.
  destruct H as (t1 & l & a & H & Hc & _ & Hf & _). exists t1.
  assert (l = []) as ->; [|by exists a].
  destruct l as [|f l]; [done|]. exfalso. destruct (proj1 (Hf f)); set_solver.
Defined.

(** ** The limits of the wiring *)

(** Clusters and a Gitea that accept everything; the edge runs the pods given. *)
Definition lab_secret : Secret :=
  {| sec_meta := new_meta "default" "lab";
     sec_Data := <["value" := "kubeconfig"]> (<["username" := "nephio"]>
                   (<["password" := "secret"]> ∅)) |}.

Definition accepting (pods : list Pod) : handler Env unit := λ c w,
  (match c return answer c with
   | KGet k _ _ => match k return result (obj k) with
                   | KSecret => Ok lab_secret
                   | _ => Err (Error true "not found")
                   end
   | KList _ _ _ => Ok []
   | KCreate _ o | KUpdate _ o | KStatusUpdate _ o => Ok o
   | KDelete _ _ => Ok tt
   | NewRequest _ _ => Ok tt
   | HttpDo _ => Ok {| rs_StatusCode := 200; rs_Body := ""; rs_Sha := "" |}
   | GetConfig | ConfigFromKubeConfig _ => Ok (RestConfig 0)
   | NewForConfig _ => Ok (Clientset 0)
   | RGetSecret _ _ _ => Ok lab_secret
   | RGetService _ name => Ok (n4_service name)
   | RCreateService _ s | RUpdateService _ s => Ok s
   | RDeleteService _ _ | RDeleteEndpointSlice _ _ => Ok tt
   | RGetEndpointSlice _ _ => Err (Error true "not found")
   | RCreateEndpointSlice _ s | RUpdateEndpointSlice _ s => Ok s
   | RListPods _ _ => Ok pods
   | c => refusal c
   end, w).

(** A link is reported wired although no endpoint was written for the edge's UPF: here no pod runs
    on the edge. *)
Theorem wired_without_endpoint :
  sometimes (wire (new_link "edge-01" "mgmt")) (λ t x,
    link_acts t = [LPeer (PeerService "amf-cp"); LPeer (PeerService "amf-cp");
                   LStatus (wired_status (new_link "edge-01" "mgmt"))] ∧
    x.2 = Ok {| RequeueAfter := requeueMesh |}).
Proof. apply (sometimes_run (accepting []) _ _ tt). by vm_compute. Qed.

(** Every link's footprint holds the one amf-cp Service of its control plane: deleting a link of a
    fleet deletes the Service the other links of that control plane still use. *)
Theorem footprints_share_amf ml ml' :
  PeerService "amf-cp" ∈ footprint ml ∧ PeerService "amf-cp" ∈ footprint ml'.
Proof. split; right; right; left. Qed.

(** ** The shared CA *)

Lemma removeFromGit_no_put repo path (ml : MeshLink) :
  spec (removeFromGit repo path) ml (λ t ml' _, ml' = ml ∧ acked t = []).
Proof.
  unfold removeFromGit, gitea_auth, lookup_for_removal, env_ok, env. walk; done.
Qed.

Lemma for_each_retires (repos : list string) pre path (ml : MeshLink) :
  spec (for_each repos (λ repo, wrap (pre repo) (removeFromGit repo path))) ml
    (λ t ml' _, ml' = ml ∧ acked t = []).
Proof.
  induction repos as [|repo repos IH]; [done|]. cbn [for_each]. apply spec_bind, spec_wrap.
  eapply spec_impl; [|apply removeFromGit_no_put]. cbn beta. intros t ml' [[]|e] [-> E]; [|done].
  eapply spec_impl; [|exact IH]. cbn beta. intros t' ml' r [-> E'].
  by rewrite acked_app, E, E'.
Qed.

(** The edge trusts the control plane's CA: when ensureClusterMesh succeeds for an edge of its
    own, exactly one file was delivered - to the edge's deploy repository, the cilium-ca Secret of
    the control plane with every one of its entries - and nothing is delivered for the management
    cluster. *)
Theorem ensureClusterMesh_delivers cpCS ml :
  spec (ensureClusterMesh cpCS) ml (λ t ml' r, ml' = ml ∧
    if is_mgmt (ml_Edge (ml_spec ml)) then t = [] ∧ r = Ok tt
    else r = Ok tt → ∃ ca yaml x,
      @Ev Env (RGetSecret cpCS "kube-system" "cilium-ca") (Ok ca) ∈ t ∧
      ca_manifest (sec_Data ca) yaml ∧ acked t = [x] ∧
      acknowledged_put (deployRepoFor (ml_Edge (ml_spec ml))) "clustermesh/cilium-ca.yaml" yaml x).
Proof.
  unfold ensureClusterMesh. apply spec_bind, spec_get.
  destruct (is_mgmt (ml_Edge (ml_spec ml))); [done|].
  unfold secretYAML, range_map, env_ok, env, deliverViaGit. walk; [|done].
  eapply spec_impl; [|apply gitPut_sends]. cbn beta. intros t ml' [[]|e] (-> & _ & _ & H); [|done].
  destruct H as (x & _ & Ex & Hx).
  eapply spec_impl; [|apply for_each_retires]. cbn beta. intros t' ml' r1 [-> E']. split; [done|].
  intros _. exists a. eexists _, x. split; [|split; [|split; [|exact Hx]]].
  - cbn [app]. left.
  - eexists. split; [apply shuffle_perm|reflexivity].
  - subst. rewrite !acked_app, Ex, E'. done.
Qed.
