(* ===== verification/System.v ===== *)
(** * The reconcilers together

    The Fleet, EdgeSite and MeshLink reconcilers write the same objects.  This file puts them on
    one API server: a whole Fleet reconcile is a history of the steps under which N2 VIPs stay
    distinct, it keeps what the EdgeSite reconciler derived, and the EdgeSite reconciler's update
    of a MeshLink undoes the finalizer the MeshLink reconciler added. *)

From S2P Require Import Prelude GoText Net Prog Api Effects Helpers Upsert GitOps Addressing AddressPlan.
From S2P Require Import EdgeSite Children Fleet MeshLink.

Import MemServer.

#[local] Strategy 1000 [Sprintf siteIndex derived_spec].

(** ** The Fleet and the VIPs *)

Definition good (w : world) : Prop := keyed w ∧ distinct_vips w.

Lemma vip_steps_good w w' : rtc vip_step w w' → good w → good w'.
Proof. induction 1 as [|w1 w2 w3 Hs _ IH]; [done|]. intros Hg. by eapply IH, vip_step_keeps. Qed.

(** The Fleet's action moves the server by steps of its histories, and keeps the Fleet. *)
Definition moves {A} (m : act Env Fleet A) (fleet : Fleet) : Prop :=
  ∀ w, good w →
    rtc vip_step w (run_world handle (m fleet) w) ∧ (run_value handle (m fleet) w).1 = fleet.

Lemma moves_bind {A B} (m : act Env Fleet A) (f : A → act Env Fleet B) fleet :
  moves m fleet → (∀ a, moves (f a) fleet) → moves (m ≫= f) fleet.
Proof.
  intros Hm Hf w Hw. specialize (Hm w Hw). unfold run_world, run_value in *.
  change ((m ≫= f) fleet) with
    (m fleet ≫= (λ '(s', r), match r with Ok a => f a s' | Err e => Ret (s', Err e) end)).
  rewrite run_bind. destruct (run handle (m fleet) w) as [[w1 t1] [s1 r]] eqn:E.
  cbn [fst snd] in Hm. destruct Hm as [Hm ->].
  destruct r as [a|e]; cbn [run fst snd]; [|by split].
  pose proof (vip_steps_good _ _ Hm Hw) as Hw1. specialize (Hf a w1 Hw1).
  unfold run_world, run_value in Hf.
  destruct (run handle (f a fleet) w1) as [[w2 t2] b]. cbn [fst snd] in *.
  destruct Hf as [Hf Hs]. split; [by etransitivity | done].
Qed.

Lemma moves_ret {A} (a : A) fleet : moves (mret a) fleet.
Proof. by intros w _. Qed.

Lemma moves_get {A} (f : Fleet → act Env Fleet A) fleet :
  moves (f fleet) fleet → moves (get ≫= f) fleet.
Proof. intros H w Hw. apply (H w Hw). Qed.

Lemma moves_throw {A} e fleet : moves (throw e : act Env Fleet A) fleet.
Proof. by intros w _. Qed.

Lemma moves_of_result {A} (r : result A) fleet : moves (of_result r) fleet.
Proof. by intros w _. Qed.

(** A call that leaves the EdgeSites alone. *)
Lemma moves_env c fleet : (∀ w, (handle c w).2 = w) → moves (env c) fleet.
Proof.
  intros H w _. unfold env, call, run_world, run_value. cbn [run].
  specialize (H w). destruct (handle c w) as [r w1]. cbn in H |- *. by subst.
Qed.

Lemma moves_try {A} (m : act Env Fleet A) fleet : moves m fleet → moves (try m) fleet.
Proof.
  intros Hm w Hw. specialize (Hm w Hw). unfold run_world, run_value, try in *.
  change (prog_bind (m fleet) ?k) with (m fleet ≫= k). rewrite run_bind.
  destruct (run handle (m fleet) w) as [[w1 t1] [s1 r]]. done.
Qed.

(** ** applyEdgeSite *)

Lemma declare_vip server user role ran s : es_N2VIP (declare server user role ran s) = es_N2VIP s.
Proof. done. Qed.

(** Creating or updating the EdgeSite of an entry is a creation or an edit of the history. *)
Lemma applyEdgeSite_moves fleet name server user role ran :
  Namespace (fl_meta fleet) = "default" → moves (applyEdgeSite name server user role ran) fleet.
Proof.
  intros Hns w [Hk _]. unfold run_world, run_value, applyEdgeSite, env_ok, env, call, get,
    of_result, mbind, act_mbind, mret, act_mret, throw.
  cbn -[handle new_site updated_site]. rewrite handle_get, Hns.
  destruct (edge_sites w !! site_key name) as [cur|] eqn:E; unfold edge_sites, site_key in E;
    cbn [obj] in *; rewrite E; cbn -[handle new_site updated_site].
  - destruct (Hk _ _ E) as [[= En] Ekey].
    rewrite (handle_update w KEdgeSite _ cur); [|by rewrite <-Ekey in E|done].
    cbn -[new_site updated_site]. split; [|done]. apply rtc_once.
    apply (step_edit _ _ cur (stamp w (k := KEdgeSite) (updated_site fleet server user role ran cur))).
    + by rewrite <-En.
    + rewrite <-En. exact Ekey.
    + done.
    + rewrite edge_sites_put, <-En. f_equal. exact Ekey.
  - assert (key_of (k := KEdgeSite) (new_site fleet name server user role ran) = site_key name)
      as Ekey by (unfold site_key; by rewrite <-Hns).
    rewrite (handle_create w KEdgeSite) by by rewrite Ekey.
    cbn -[new_site updated_site]. split; [|done]. apply rtc_once.
    apply (step_create _ _ (stamp w (k := KEdgeSite) (new_site fleet name server user role ran)));
      [done|exact Ekey|done|]. by rewrite edge_sites_put, Ekey.
Qed.

(** A deletion is one of the history, or finds nothing. *)
Lemma delete_moves (es : EdgeSite) fleet : moves (env (KDelete KEdgeSite es)) fleet.
Proof.
  intros w [Hk _]. unfold env, call, run_world, run_value. cbn -[key_of].
  match goal with |- context [match ?x with Some _ => _ | None => _ end] =>
    destruct x as [o|] eqn:E end; cbn -[key_of]; [|by split].
  split; [|done]. destruct (Hk _ _ E) as [Ekey _]. rewrite Ekey. apply rtc_once.
  apply (step_delete _ _ (Name (es_meta o))). apply edge_sites_remove.
Qed.

Create HintDb moves discriminated.
#[local] Hint Resolve moves_ret moves_throw moves_of_result moves_try delete_moves
  applyEdgeSite_moves : moves.

(** Decomposes an action into its calls. *)
Ltac moves_auto :=
  repeat first
    [ apply moves_bind; [|intros ?]
    | solve [eauto with moves]
    | match goal with |- moves (get ≫= _) _ => apply moves_get end
    | apply moves_env; intros; reflexivity
    | match goal with |- moves (match ?x with _ => _ end) _ => destruct x end ].

Lemma decommission_moves sites es fleet : moves (decommission sites es) fleet.
Proof. unfold decommission. apply moves_get. moves_auto.
Qed.

Lemma entry_moves sites name fleet :
  Namespace (fl_meta fleet) = "default" → moves (reconcile_entry sites name) fleet.
Proof.
  intros Hns. unfold reconcile_entry. apply moves_get. destruct (sites !! name); [|apply moves_ret].
  apply moves_bind; [by apply moves_try, applyEdgeSite_moves|]. intros r. moves_auto.
Qed.

Lemma collect_moves {A} (l : list A) f fleet :
  (∀ x, moves (f x) fleet) → moves (collect l f) fleet.
Proof. intros H. induction l as [|x l IH]; cbn [collect]; moves_auto. Qed.

(** An action whose last part may change the Fleet. *)
Lemma moves_last {A B} (m : act Env Fleet A) (f : A → act Env Fleet B) fleet w :
  moves m fleet → good w →
  (∀ a w', good w' → rtc vip_step w' (run_world handle (f a fleet) w')) →
  rtc vip_step w (run_world handle ((m ≫= f) fleet) w).
Proof.
  intros Hm Hw Hf. specialize (Hm w Hw). unfold run_world, run_value in *.
  change ((m ≫= f) fleet) with
    (m fleet ≫= (λ '(s', r), match r with Ok a => f a s' | Err e => Ret (s', Err e) end)).
  rewrite run_bind. destruct (run handle (m fleet) w) as [[w1 t1] [s1 r]].
  cbn [fst snd] in Hm. destruct Hm as [Hm ->].
  destruct r as [a|e]; cbn [run fst snd]; [|done].
  specialize (Hf a w1 (vip_steps_good _ _ Hm Hw)).
  destruct (run handle (f a fleet) w1) as [[w2 t2] b]. by etransitivity.
Qed.

Lemma range_moves {A} (l : list A) fleet : moves (range_map l) fleet.
Proof.
  unfold range_map. apply moves_bind; [by apply (moves_env (MapOrder (length l)))|].
  intros order. apply moves_ret.
Qed.

(** ** A Fleet reconcile as a history *)

Section system.
Context {AM : Apimachinery}.

Lemma report_world total errs fleet w : run_world handle (report total errs fleet) w = w.
Proof. unfold report, update_fleet_status. by destruct errs. Qed.

Lemma fleet_fail_world e fleet w : run_world handle (fleet_fail e fleet) w = w.
Proof. done. Qed.

Lemma fleet_moves fleet w :
  Namespace (fl_meta fleet) = "default" → good w →
  rtc vip_step w (run_world handle (reconcile_fleet fleet) w).
Proof.
  intros Hns Hw. unfold reconcile_fleet.
  change ((get ≫= ?f) fleet) with (f fleet fleet). cbv beta zeta.
  apply moves_last; [apply range_moves|done|]. intros keys w1 Hw1.
  apply moves_last; [apply collect_moves; intros; by apply entry_moves|done|]. intros errs w2 Hw2.
  apply moves_last; [by refine (moves_env (KList _ _ _) _ _)|done|]. intros [items|e] w3 Hw3.
  - apply moves_last; [apply collect_moves; intros; apply decommission_moves|done|].
    intros errs' w4 _. by rewrite report_world.
  - by rewrite fleet_fail_world.
Qed.

(** An event of the whole system: one of the histories of [vip_step] - a user's change, a
    reconcile of an EdgeSite - or the reconcile of any Fleet of the sites' namespace. *)
Inductive system_step : world → world → Prop :=
| system_site w w' : vip_step w w' → system_step w w'
| system_fleet w fleet :
    Namespace (fl_meta fleet) = "default" →
    system_step w (run_world handle (reconcile_fleet fleet) w).

Lemma system_steps_good w w' : rtc system_step w w' → good w → good w'.
Proof.
  induction 1 as [|w1 w2 w3 Hs _ IH]; [done|]. intros Hg. apply IH.
  destruct Hs as [w w' Hs|w fleet Hns]; [by eapply vip_step_keeps|].
  by eapply vip_steps_good; [apply fleet_moves|].
Qed.

(** Fleets and EdgeSites together: whatever Fleets are reconciled between the reconciles,
    edits and deletions of EdgeSites - creating, updating and decommissioning sites - no two
    sites ever hold N2 VIPs with the same last octet. *)
Theorem system_vips_distinct w : rtc system_step empty w → distinct_vips w.
Proof.
  intros H. apply (system_steps_good empty w H). split; intros ?; unfold edge_sites, empty;
    cbn [objects].
  - intros o. by rewrite lookup_empty.
  - intros ? ? ? ?. by rewrite lookup_empty.
Qed.
End system.

(** A Fleet that declares edge-01 and edge-29 by name. *)
Definition two_sites : Fleet :=
  {| fl_meta := new_meta "default" "fleet";
     fl_Sites := [{| fs_Server := "192.168.1.5"; fs_User := ""; fs_Role := "cp+upf";
                     fs_Name := "edge-01"; fs_RAN := None |};
                  {| fs_Server := "192.168.1.6"; fs_User := ""; fs_Role := "cp+upf";
                     fs_Name := "edge-29"; fs_RAN := None |}];
     fl_status := {| fls_Sites := 0; fls_Message := ""; fls_Conditions := [] |} |}.

Definition after_fleet : world := run_world handle (reconcile_fleet two_sites) empty.

(** The EdgeSite of a name, as stored. *)
Definition stored_site (w : world) (name : string) : EdgeSite :=
  default edge_01 (edge_sites w !! site_key name).

Definition after_edge_01 : world :=
  run_world handle (deriveAddressing (stored_site after_fleet "edge-01")) after_fleet.
Definition after_edge_29 : world :=
  run_world handle (deriveAddressing (stored_site after_edge_01 "edge-29")) after_edge_01.

Lemma after_fleet_step : system_step empty after_fleet.
Proof. unfold after_fleet. by apply system_fleet. Qed.

Lemma derive_step w name :
  edge_sites w !! site_key name = Some (stored_site w name) →
  Name (es_meta (stored_site w name)) = name → (size (edge_sites w) ≤ 14)%nat →
  es_Colocated (es_spec (stored_site w name)) = false →
  system_step w (run_world handle (deriveAddressing (stored_site w name)) w).
Proof.
  intros E En Hs Hc. apply system_site, step_derive; [by rewrite En|done|]. by rewrite Hc.
Qed.

Lemma after_edge_01_step : system_step after_fleet after_edge_01.
Proof. unfold after_edge_01. apply derive_step; vm_compute; first [reflexivity|lia]. Qed.

Lemma after_edge_29_step : system_step after_edge_01 after_edge_29.
Proof. unfold after_edge_29. apply derive_step; vm_compute; first [reflexivity|lia]. Qed.

Lemma system_vips_distinct_witness :
  distinct_vips after_edge_29 ∧
  octet_of (stored_site after_edge_29 "edge-01") = Some 242 ∧
  octet_of (stored_site after_edge_29 "edge-29") = Some 243.
Proof.
  split; [|by vm_compute]. apply system_vips_distinct.
  apply (rtc_l _ _ _ _ after_fleet_step), (rtc_l _ _ _ _ after_edge_01_step).
  apply rtc_once, after_edge_29_step.
Defined.

(** ** What one controller does to another's objects *)

Section healthy.
Context {W : Type} (h : handler Env W) {server : ApiServer h}.

(** C31: Reconciling a Fleet entry whose EdgeSite exists, and is not being deleted, rewrites
    exactly what the Fleet declares: server, user, role and ran block, and the labels that name the
    Fleet and mark the site as managed.  Everything else stays - every address and the VIP that the
    EdgeSite reconciler derived, the control plane, all other labels, the owner, the finalizers -
    and no other object is touched. *)
Theorem fleet_update_keeps_addressing fleet name srv user role ran w cur :
  stored w KEdgeSite (Namespace (fl_meta fleet)) name = Some cur →
  Name (es_meta cur) = name → Namespace (es_meta cur) = Namespace (fl_meta fleet) →
  DeletionTimestamp (es_meta cur) = None →
  let p := applyEdgeSite name srv user role ran fleet in
  run_value h p w = (fleet, Ok tt) ∧
  (∃ o, stored (run_world h p w) KEdgeSite (Namespace (fl_meta fleet)) name = Some o ∧
    (es_Server (es_spec o), es_User (es_spec o), es_Role (es_spec o), es_RAN (es_spec o))
      = (srv, user, role, ran) ∧
    Forall (λ q, peek q (es_spec o) = peek q (es_spec cur)) derived_ptrs ∧
    es_ControlPlane (es_spec o) = es_ControlPlane (es_spec cur) ∧
    es_Colocated (es_spec o) = es_Colocated (es_spec cur) ∧
    Labels (es_meta o) !! fleetLabel = Some (Name (fl_meta fleet)) ∧
    Labels (es_meta o) !! managedLabel = Some "true" ∧
    (∀ l, l ≠ fleetLabel → l ≠ managedLabel →
       Labels (es_meta o) !! l = Labels (es_meta cur) !! l) ∧
    OwnerReferences (es_meta o) = OwnerReferences (es_meta cur) ∧
    Finalizers (es_meta o) = Finalizers (es_meta cur)) ∧
  ∀ k ns' name', (k, ns', name') ≠ (KEdgeSite, Namespace (fl_meta fleet), name) →
    stored (run_world h p w) k ns' name' = stored w k ns' name'.
Proof.
  intros E En Ens Hd p.
  destruct (update_stores w KEdgeSite (updated_site fleet srv user role ran cur) cur)
    as (o & w' & Ho & (Hs & _ & _ & Hl & Hor & Hf & _) & Hput & Hk).
  { cbn. by rewrite En, Ens. }
  { done. }
  { done. }
  cbn in Hput, Hk. rewrite En, Ens in Hput, Hk.
  unfold p, run_value, run_world, applyEdgeSite, env_ok, env, call, get, of_result, mbind,
    act_mbind, mret, act_mret.
  cbn -[updated_site]. rewrite (get_found w KEdgeSite _ _ _ E). cbn -[updated_site].
  rewrite Ho. cbn -[updated_site]. split; [done|]. split; [|exact Hk]. exists o. split; [done|].
  cbn in Hs, Hl, Hor, Hf. rewrite Hs, Hl, Hor, Hf. unfold managed_labels.
  split; [done|]. split; [by repeat constructor|]. do 2 (split; [done|]).
  split; [by rewrite lookup_insert_ne, lookup_insert_eq|]. split; [by rewrite lookup_insert_eq|].
  split; [intros l H1 H2; by rewrite !lookup_insert_ne|done].
Qed.

(** C39: The two controllers of a MeshLink fight over its finalizer: reconciling the MeshLink child
    of an EdgeSite overwrites the finalizers of a live MeshLink with none, whatever they were. *)
Theorem meshLink_strips_finalizers es cp w ml :
  stored w KMeshLink (Namespace (es_meta es)) (Name (es_meta es)) = Some ml →
  DeletionTimestamp (ml_meta ml) = None →
  let p := meshLink cp es in
  run_value h p w = (es, Ok tt) ∧
  ∃ ml', stored (run_world h p w) KMeshLink (Namespace (es_meta es)) (Name (es_meta es))
           = Some ml' ∧ Finalizers (ml_meta ml') = [].
Proof.
  intros E Hd p.
  destruct (upsert_run h (owned_by es (k := KMeshLink) (mesh_link_of es cp)) es w) as [Hv Hw].
  { intros cur Hc. assert (Some ml = Some cur) as [= <-]; [|done]. by rewrite <-E, <-Hc. }
  split; [exact Hv|]. unfold live in Hw. cbn in Hw. rewrite E in Hw.
  destruct Hw as [(o & Hl & Hacc) _]. exists o. split; [exact Hl|]. apply Hacc.
Qed.
End healthy.

(** edge-01's MeshLink as the MeshLink reconciler left it. *)
Definition guarded_link : MeshLink :=
  set_link_finalizers [meshFinalizer] (mesh_link_of edge_01 "mgmt").

Definition guarded_world : world :=
  put lab KMeshLink (site_key "edge-01") guarded_link.

Lemma meshLink_strips_finalizers_witness :
  lookup guarded_world KMeshLink "default" "edge-01" = Some guarded_link ∧
  run_value handle (meshLink "mgmt" edge_01) guarded_world = (edge_01, Ok tt).
Proof.
  split; [by vm_compute|].
  refine (proj1 (meshLink_strips_finalizers handle (server := api_server) edge_01 "mgmt"
    guarded_world guarded_link _ _)); by vm_compute.
Defined.

Lemma fleet_update_keeps_addressing_witness :
  run_value handle (applyEdgeSite "edge-01" "192.168.1.5" "ubuntu" "cp+upf" None two_sites)
    after_edge_29 = (two_sites, Ok tt).
Proof.
  refine (proj1 (fleet_update_keeps_addressing handle (server := api_server) two_sites "edge-01"
    "192.168.1.5" "ubuntu" "cp+upf" None after_edge_29 (stored_site after_edge_29 "edge-01")
    _ _ _ _)); by vm_compute.
Defined.
