(* ===== verification/Contracts.v ===== *)
(** * What the controllers rely on of each other

    The EdgeSite controller writes the objects other controllers act on: the MeshLink and the
    NetworkSlice of an edge, the gNB's configuration, the N2 VIP.  This file checks the
    agreements between them: the slice the webconsole gets names the UPF Service that the
    MeshLink puts on the control plane and the tracking area the gNB broadcasts, and the node
    agent recognises every VIP the EdgeSite controller hands out as one it owns. *)

From S2P Require Import Prelude GoText Net Host Prog Api Effects Helpers Subscribers Slices Datapath.
From S2P Require Import Addressing RanProfile EdgeSite MeshLink.

(** A member of a JSON object by its path. *)
Fixpoint json_at (path : list string) (j : json) : option json :=
  match path, j with
  | [], _ => Some j
  | k :: rest, JObj l => v ← assoc k l; json_at rest v
  | _, _ => None
  end.

(** The two POSTs and the PFCP port of a slice, as the webconsole reads them. *)
Definition slice_upf (body : json) : option (string * string) :=
  match json_at ["site-info"; "upf"; "upf-name"] body, json_at ["site-info"; "upf"; "upf-port"] body with
  | Some (JStr n), Some (JStr p) => Some (n, p)
  | _, _ => None
  end.

(** C29: The edge's slice reaches the edge's UPF and gNB.  What the NetworkSlice controller posts for
    the slice an EdgeSite declares names, for every control plane, the N4 Service the edge's
    MeshLink creates there, with that Service's PFCP port; its only gNB carries the tracking area
    code the gNB is configured with, and its UE pool and SD are the site's. *)
Theorem edge_slice_reaches_upf es cp :
  let ns := edge_slice_of es in
  let body := network_slice (Name (ns_meta ns)) (slice_defaults (ns_spec ns)) in
  let svc := n4_service (MeshLink.upf_name (mesh_link_of es cp)) in
  (∃ p, svc_Ports svc = [p] ∧ slice_upf body = Some (Name (svc_meta svc), Itoa (sp_Port p))) ∧
  json_at ["site-info"; "gNodeBs"] body =
    Some (JArr [JObj [("name", JStr ("gnb-" +:+ Name (es_meta es))); ("tac", JInt tac)]]) ∧
  json_at ["slice-id"; "sd"] body = Some (JStr (es_SliceSD (es_spec es))) ∧
  json_at ["ip-domain-expanded"; "ue-ip-pool"]
    (device_group (Name (ns_meta ns)) (slice_defaults (ns_spec ns)) []) =
    Some (JStr (es_UEPool (es_spec es))).
Proof. split; [by eexists|]. split_and!; reflexivity. Qed.

(** C28: The node agent owns the VIPs the operator allocates.  Whatever base and occupancy a VIP was
    picked for, the agent takes it for one of the managed range: it is withdrawn from the NIC,
    where it stands as a /32, exactly when no exposed Service holds it any more. *)
Theorem agent_owns_vips self base taken want a :
  is_base base → string4 a = pick_vip self base taken →
  isRanVIPCandidate (pick_vip self base taken) = true ∧
  (stale_vip want {| ad_IP := IPv4 a; ad_Ones := 32; ad_Bits := 32 |} = true ↔
   pick_vip self base taken ∉ want).
Proof.
  intros Hb Ha. assert (isRanVIPCandidate (pick_vip self base taken) = true) as Hc.
  { destruct (pick_vip_octet self base taken Hb) as (d & _ & Ho & Hd & _).
    unfold vip_octet in Ho. unfold isRanVIPCandidate.
    destruct (Sscanf4 _) as [|? [|? [|? [|? [|]]]]]; try done. injection Ho as ->. lia. }
  split; [exact Hc|]. unfold stale_vip. cbn [ad_IP ad_Ones ad_Bits]. rewrite Ha, Hc.
  rewrite andb_true_r. case_bool_decide; naive_solver.
Qed.

Lemma agent_owns_vips_witness :
  isRanVIPCandidate (pick_vip "edge-01" lab_base {[240]}) = true ∧
  stale_vip ∅ {| ad_IP := IPv4 (addr4 192 168 4 242); ad_Ones := 32; ad_Bits := 32 |} = true.
Proof.
  assert (string4 (addr4 192 168 4 242) = pick_vip "edge-01" lab_base {[240]}) as E by reflexivity.
  destruct (agent_owns_vips "edge-01" lab_base {[240]} ∅ _ lab_base_is_base E) as [H1 [_ H2]].
  split; [exact H1|]. apply H2. apply not_elem_of_empty.
Defined.
