(* ===== verification/Manager.v ===== *)
(** * The manager: which controllers run in which process

    main of cmd/main.go and the SetupWithManager methods of the controllers.  A process is either
    the node agent, with the UPFDataPath controller alone, or the manager of the other eight.
    [main] is the program after flag.Parse; its calls are the signature [Proc].  The line the
    TLS callback logs when a server starts is not part of the model. *)

From S2P Require Import Prelude GoText Net Host Prog Api Effects Helpers Datapath Slices EdgeSite.

(** ** Flags *)

Record flags := {
  f_nodeAgent : bool;
  f_metricsAddr : string;
  f_probeAddr : string;
  f_enableLeaderElection : bool;
  f_secureMetrics : bool;
  f_webhookCertPath : string;
  f_webhookCertName : string;
  f_webhookCertKey : string;
  f_metricsCertPath : string;
  f_metricsCertName : string;
  f_metricsCertKey : string;
  f_enableHTTP2 : bool;
}.

(** What flag.Parse leaves when no argument is given. *)
Definition default_flags : flags :=
  {| f_nodeAgent := false; f_metricsAddr := "0"; f_probeAddr := ":8081";
     f_enableLeaderElection := false; f_secureMetrics := true;
     f_webhookCertPath := ""; f_webhookCertName := "tls.crt"; f_webhookCertKey := "tls.key";
     f_metricsCertPath := ""; f_metricsCertName := "tls.crt"; f_metricsCertKey := "tls.key";
     f_enableHTTP2 := false |}.

(** ** Server options *)

(** The part of a tls.Config the program sets: the protocols offered, [] for the default. *)
Record tls_config := { NextProtos : list string }.

Definition disableHTTP2 (c : tls_config) : tls_config := {| NextProtos := ["http/1.1"] |}.

Record server_options := {
  so_TLSOpts : list (tls_config → tls_config);
  so_CertDir : string;
  so_CertName : string;
  so_KeyName : string;
}.

(** [mo_Filter]: requests are authenticated and authorised. *)
Record metrics_options := {
  mo_BindAddress : string;
  mo_SecureServing : bool;
  mo_Filter : bool;
  mo_Server : server_options;
}.

Record manager_options := {
  mgr_Metrics : metrics_options;
  mgr_Webhook : server_options;
  mgr_HealthProbeBindAddress : string;
  mgr_LeaderElection : bool;
  mgr_LeaderElectionID : string;
}.

Definition tlsOpts (f : flags) : list (tls_config → tls_config) :=
  if f_enableHTTP2 f then [] else [disableHTTP2].

(** The certificate names are set only along with a path. *)
Definition server_of (opts : list (tls_config → tls_config)) (path name key : string) :
    server_options :=
  if String.eqb path ""
  then {| so_TLSOpts := opts; so_CertDir := ""; so_CertName := ""; so_KeyName := "" |}
  else {| so_TLSOpts := opts; so_CertDir := path; so_CertName := name; so_KeyName := key |}.

Definition options_of (f : flags) : manager_options :=
  {| mgr_Metrics :=
       {| mo_BindAddress := f_metricsAddr f; mo_SecureServing := f_secureMetrics f;
          mo_Filter := f_secureMetrics f;
          mo_Server := server_of (tlsOpts f) (f_metricsCertPath f) (f_metricsCertName f)
                         (f_metricsCertKey f) |};
     mgr_Webhook := server_of (tlsOpts f) (f_webhookCertPath f) (f_webhookCertName f)
                      (f_webhookCertKey f);
     mgr_HealthProbeBindAddress := f_probeAddr f;
     mgr_LeaderElection := f_enableLeaderElection f;
     mgr_LeaderElectionID := "c7d4af25.nephio.io" |}.

(** The TLS configuration of a server: its options applied in order. *)
Definition served_tls (s : server_options) : tls_config :=
  foldl (λ c o, o c) {| NextProtos := [] |} (so_TLSOpts s).

(** ** Controllers *)

Inductive reconciler :=
| RSDCoreDeployment (cfg : rest_config)
| RNFDeployment (cfg : rest_config)
| REdgeSite (r : EdgeSiteReconciler)
| RFleet
| RMeshLink
| RSubscriber
| RNetworkSlice (r : NetworkSliceReconciler)
| RNetwork
| RUPFDataPath (r : UPFDataPathReconciler).

(** What ctrl.NewControllerManagedBy is told: the kind reconciled, the kinds owned, the kinds
    watched, an explicit name, and whether only generation changes count. *)
Record builder := {
  b_For : kind;
  b_Owns : list kind;
  b_Watches : list kind;
  b_Named : option string;
  b_GenerationChanged : bool;
}.

Definition plain (k : kind) : builder :=
  {| b_For := k; b_Owns := []; b_Watches := []; b_Named := None; b_GenerationChanged := false |}.

Inductive proc_op :=
| GetConfigOrDie
| NewManager (o : manager_options)
| ManagerConfig
| NewClientset (cfg : rest_config)
| Env_ (key : string)
| Complete (b : builder) (r : reconciler)
| AddHealthzCheck (name : string)
| AddReadyzCheck (name : string)
| StartManager
| SetupInfo (msg : string) (kv : list (string * string))
| SetupError (e : error) (msg : string) (kv : list (string * string)).

(** [GetConfigOrDie] answers whether the process is still alive. *)
Definition proc_answer (c : proc_op) : Type :=
  match c with
  | GetConfigOrDie => bool
  | NewManager _ | Complete _ _ | AddHealthzCheck _ | AddReadyzCheck _ | StartManager => result unit
  | ManagerConfig => rest_config
  | NewClientset _ => result clientset
  | Env_ _ => string
  | SetupInfo _ _ | SetupError _ _ _ => unit
  end.

Definition Proc : signature := Sig proc_op proc_answer.

Definition proc (c : proc_op) : prog Proc (proc_answer c) := Call (S := Proc) c Ret.

(** ** SetupWithManager

    main hands every controller a reconciler whose configuration is nil, so the manager's is
    taken. *)

Definition setup_sdcore : prog Proc (result unit) :=
  cfg ← proc ManagerConfig;
  proc (Complete {| b_For := KSDCoreDeployment; b_Owns := []; b_Watches := [];
                    b_Named := Some "sdcoredeployment"; b_GenerationChanged := true |}
          (RSDCoreDeployment cfg)).

Definition setup_nf : prog Proc (result unit) :=
  cfg ← proc ManagerConfig;
  proc (Complete {| b_For := KNFDeployment; b_Owns := []; b_Watches := [];
                    b_Named := Some "sdcore-nfdeployment"; b_GenerationChanged := true |}
          (RNFDeployment cfg)).

Definition setup_edgesite : prog Proc (result unit) :=
  proc (Complete {| b_For := KEdgeSite; b_Owns := [KMeshLink; KUnstructured pvGVK];
                    b_Watches := []; b_Named := None; b_GenerationChanged := false |}
          (REdgeSite (with_defaults {| BlueprintRepo := ""; MgmtRepo := "" |}))).

Definition setup_fleet : prog Proc (result unit) :=
  proc (Complete {| b_For := KFleet; b_Owns := [KEdgeSite]; b_Watches := []; b_Named := None;
                    b_GenerationChanged := false |} RFleet).

Definition setup_meshlink : prog Proc (result unit) := proc (Complete (plain KMeshLink) RMeshLink).
Definition setup_subscriber : prog Proc (result unit) :=
  proc (Complete (plain KSubscriber) RSubscriber).

Definition setup_networkslice : prog Proc (result unit) :=
  cfg ← proc ManagerConfig;
  cs ← proc (NewClientset cfg);
  match cs with
  | Err e => mret (Err (wrapf "build clientset for mongo exec: " e))
  | Ok cs =>
      proc (Complete {| b_For := KNetworkSlice; b_Owns := []; b_Watches := [KSubscriber];
                        b_Named := None; b_GenerationChanged := false |}
              (RNetworkSlice {| nsr_Config := cfg; nsr_clientset := Some cs |}))
  end.

Definition setup_network : prog Proc (result unit) := proc (Complete (plain KNetworkFabric) RNetwork).

Definition setup_upfdatapath : prog Proc (result unit) :=
  cfg ← proc ManagerConfig;
  cs ← proc (NewClientset cfg);
  match cs with
  | Err e => mret (Err e)
  | Ok cs =>
      node ← proc (Env_ "NODE_NAME");
      proc (Complete (plain KUPFDataPath)
              (RUPFDataPath {| dpr_Config := cfg; dpr_NodeName := node; dpr_clientset := Some cs |}))
  end.

(** ** main *)

(** A step that ends the process with status 1 when it fails; [None] is a return from main. *)
Definition must (p : prog Proc (result unit)) (msg : string) (kv : list (string * string))
    (k : prog Proc (option Z)) : prog Proc (option Z) :=
  r ← p;
  match r with
  | Ok _ => k
  | Err e => _ ← proc (SetupError e msg kv); mret (Some 1)
  end.

Definition must_setup (c : string * prog Proc (result unit)) (k : prog Proc (option Z)) :
    prog Proc (option Z) :=
  must c.2 "Failed to create controller" [("controller", c.1)] k.

(** The management controllers in the order main sets them up. *)
Definition management : list (string * prog Proc (result unit)) :=
  [("sdcoredeployment", setup_sdcore); ("nfdeployment", setup_nf); ("edgesite", setup_edgesite);
   ("fleet", setup_fleet); ("meshlink", setup_meshlink); ("subscriber", setup_subscriber);
   ("networkslice", setup_networkslice); ("network", setup_network)].

Definition announce_certs (what path name key : string) : prog Proc unit :=
  if String.eqb path "" then mret tt
  else proc (SetupInfo ("Initializing " +:+ what +:+ " certificate watcher using provided certificates")
               [(what +:+ "-cert-path", path); (what +:+ "-cert-name", name);
                (what +:+ "-cert-key", key)]).

Definition run_agent : prog Proc (option Z) :=
  must_setup ("upfdatapath", setup_upfdatapath)
    (_ ← proc (SetupInfo "Starting datapath node-agent" []);
     must (proc StartManager) "problem running node-agent" [] (mret None)).

Definition run_manager : prog Proc (option Z) :=
  foldr must_setup
    (must (proc (AddHealthzCheck "healthz")) "Failed to set up health check" []
       (must (proc (AddReadyzCheck "readyz")) "Failed to set up ready check" []
          (_ ← proc (SetupInfo "Starting manager" []);
           must (proc StartManager) "Failed to run manager" [] (mret None))))
    management.

Definition main (f : flags) : prog Proc (option Z) :=
  _ ← announce_certs "webhook" (f_webhookCertPath f) (f_webhookCertName f) (f_webhookCertKey f);
  _ ← announce_certs "metrics" (f_metricsCertPath f) (f_metricsCertName f) (f_metricsCertKey f);
  alive ← proc GetConfigOrDie;
  if negb alive then mret (Some 1)
  else
    must (proc (NewManager (options_of f))) "Failed to start manager" []
      (if f_nodeAgent f then run_agent else run_manager).

(** ** Properties *)

(** The kinds whose controllers the manager accepted, the health checks it accepted, and the
    starts, in order. *)
Definition registration (e : event Proc) : option kind :=
  match e with
  | Ev c r =>
      match c return proc_answer c → option kind with
      | Complete b _ => λ r, if is_ok r then Some (b_For b) else None
      | _ => λ _, None
      end r
  end.
Definition registered (t : list (event Proc)) : list kind := omap registration t.

Definition check (e : event Proc) : option string :=
  match e with
  | Ev c r =>
      match c return proc_answer c → option string with
      | AddHealthzCheck n | AddReadyzCheck n => λ r, if is_ok r then Some n else None
      | _ => λ _, None
      end r
  end.
Definition checks (t : list (event Proc)) : list string := omap check t.

Definition start (e : event Proc) : option unit :=
  match e with Ev StartManager _ => Some tt | _ => None end.
Definition starts (t : list (event Proc)) : list unit := omap start t.

(** What a trace did, in the three respects above. *)
Definition did (t : list (event Proc)) : list kind * list string * list unit :=
  (registered t, checks t, starts t).

Lemma did_app t1 t2 :
  did (t1 ++ t2)%list =
  (registered t1 ++ registered t2, checks t1 ++ checks t2, starts t1 ++ starts t2)%list.
Proof. unfold did, registered, checks, starts. by rewrite !omap_app. Qed.

(** Every controller that is registered can do its work: the ones that exec into pods have a
    clientset.  The manager's servers are hardened unless a flag says otherwise. *)
Definition event_ok (f : flags) (e : event Proc) : Prop :=
  match ev_op e with
  | Complete _ (RUPFDataPath r) => is_Some (dpr_clientset r)
  | Complete _ (RNetworkSlice r) => is_Some (nsr_clientset r)
  | NewManager o =>
      mo_Filter (mgr_Metrics o) = f_secureMetrics f ∧
      (f_enableHTTP2 f = false →
       NextProtos (served_tls (mo_Server (mgr_Metrics o))) = ["http/1.1"] ∧
       NextProtos (served_tls (mgr_Webhook o)) = ["http/1.1"])
  | _ => True
  end.

Definition sets_up (f : flags) (p : prog Proc (result unit)) (k : kind) : Prop :=
  always p (λ t r, Forall (event_ok f) t ∧ did t = (if is_ok r then [k] else [], [], [])).

Ltac set_up :=
  intros; unfold sets_up; cbn -[with_defaults]; intros;
  repeat match goal with
  | |- always (match ?x with _ => _ end) _ => destruct x; cbn -[with_defaults]; intros
  end;
  (split; [repeat (apply Forall_cons; split; [first [exact I | by eexists]|]); by apply Forall_nil|]);
  repeat match goal with r : result unit |- _ => destruct r end; done.

Lemma setup_sdcore_ok f : sets_up f setup_sdcore KSDCoreDeployment. Proof. set_up. Qed.
Lemma setup_nf_ok f : sets_up f setup_nf KNFDeployment. Proof. set_up. Qed.
Lemma setup_edgesite_ok f : sets_up f setup_edgesite KEdgeSite. Proof. set_up. Qed.
Lemma setup_fleet_ok f : sets_up f setup_fleet KFleet. Proof. set_up. Qed.
Lemma setup_meshlink_ok f : sets_up f setup_meshlink KMeshLink. Proof. set_up. Qed.
Lemma setup_subscriber_ok f : sets_up f setup_subscriber KSubscriber. Proof. set_up. Qed.
Lemma setup_networkslice_ok f : sets_up f setup_networkslice KNetworkSlice. Proof. set_up. Qed.
Lemma setup_network_ok f : sets_up f setup_network KNetworkFabric. Proof. set_up. Qed.
Lemma setup_upfdatapath_ok f : sets_up f setup_upfdatapath KUPFDataPath. Proof. set_up. Qed.

(** The kinds the controllers of each mode reconcile. *)
Definition managed_kinds : list kind :=
  [KSDCoreDeployment; KNFDeployment; KEdgeSite; KFleet; KMeshLink; KSubscriber; KNetworkSlice;
   KNetworkFabric].

Definition planned (f : flags) : list kind * list string :=
  if f_nodeAgent f then ([KUPFDataPath], []) else (managed_kinds, ["healthz"; "readyz"]).

Lemma management_ok f : Forall2 (λ c k, sets_up f c.2 k) management managed_kinds.
Proof.
  repeat (apply Forall2_cons; split;
    [first [apply setup_sdcore_ok | apply setup_nf_ok | apply setup_edgesite_ok
           | apply setup_fleet_ok | apply setup_meshlink_ok | apply setup_subscriber_ok
           | apply setup_networkslice_ok | apply setup_network_ok]|]).
  by apply Forall2_nil.
Qed.

(** A step of main: what follows it runs only when it succeeded. *)
Lemma must_always p msg kv k (Q : list (event Proc) → option Z → Prop) :
  always p (λ t r,
    match r with
    | Ok _ => always k (λ t' code, Q (t ++ t')%list code)
    | Err e => ∀ a, Q (t ++ [@Ev Proc (SetupError e msg kv) a])%list (Some 1)
    end) →
  always (must p msg kv k) Q.
Proof.
  intros H. unfold must. apply always_bind. eapply always_impl; [|exact H]. cbn beta.
  intros t [[]|e] Hr; [exact Hr|]. cbn. exact Hr.
Qed.

(** Setting up a list of controllers: all of them and then [k], or some of them and an exit. *)
Lemma setup_all f l kinds k (K : list (event Proc) → option Z → Prop) :
  Forall2 (λ c k, sets_up f c.2 k) l kinds → always k K →
  always (foldr must_setup k l) (λ t code,
    (∃ t0 t1, t = (t0 ++ t1)%list ∧ Forall (event_ok f) t0 ∧ did t0 = (kinds, [], []) ∧ K t1 code) ∨
    (∃ done rest, kinds = (done ++ rest)%list ∧ Forall (event_ok f) t ∧ did t = (done, [], []) ∧
                  code = Some 1)).
Proof.
  intros Hl Hk. induction Hl as [|c kd l kinds Hc _ IH].
  - eapply always_impl; [|exact Hk]. intros t code HK. left. exists [], t. done.
  - cbn [foldr]. apply must_always. eapply always_impl; [|exact Hc]. cbn beta.
    intros t [u|e] [Hok Hd]; cbn [is_ok] in Hd.
    + eapply always_impl; [|exact IH]. cbn beta. unfold did in Hd. injection Hd as Hr Hch Hst.
      intros t' code [(t0 & t1 & -> & Hok0 & Hd0 & HK)|(dn & rest & -> & Hok0 & Hd0 & ->)];
        unfold did in Hd0; injection Hd0 as Hr0 Hch0 Hst0.
      * left. exists (t ++ t0)%list, t1. rewrite did_app, Hr, Hch, Hst, Hr0, Hch0, Hst0, app_assoc.
        split; [done|]. split; [by apply Forall_app | done].
      * right. exists (kd :: dn), rest. rewrite did_app, Hr, Hch, Hst, Hr0, Hch0, Hst0.
        split; [done|]. split; [by apply Forall_app | done].
    + intros a. right. unfold did in Hd. injection Hd as Hr Hch Hst. exists [], (kd :: kinds).
      rewrite did_app, Hr, Hch, Hst. split; [done|]. split; [|done]. apply Forall_app.
      split; [done|]. by apply Forall_cons.
Qed.

(** The process is started after [t0] did all that was planned.  When the manager stopped without
    an error main does nothing more and returns; when it failed the error is logged and the process
    exits with status 1. *)
Definition started_after (plan : list kind * list string) (t : list (event Proc))
    (code : option Z) : Prop :=
  ∃ t0 a tl, t = (t0 ++ @Ev Proc StartManager a :: tl)%list ∧
    did t0 = (plan.1, plan.2, []) ∧
    match a with
    | Ok _ => tl = [] ∧ code = None
    | Err e => (∃ msg u, tl = [@Ev Proc (SetupError e msg []) u]) ∧ code = Some 1
    end.

(** It stops with status 1 before it is started, or is started as planned. *)
Definition as_planned (f : flags) (plan : list kind * list string) (t : list (event Proc))
    (code : option Z) : Prop :=
  Forall (event_ok f) t ∧
  ((starts t = [] ∧ code = Some 1 ∧ registered t `prefix_of` plan.1 ∧ checks t `prefix_of` plan.2)
   ∨ started_after plan t code).

(** Events before a planned run that register, check and start nothing. *)
Lemma as_planned_app f t0 kinds plan t code :
  Forall (event_ok f) t0 → did t0 = (kinds, [], []) → as_planned f plan t code →
  as_planned f ((kinds ++ plan.1)%list, plan.2) (t0 ++ t)%list code.
Proof.
  intros Hok Hd [Hok' H]. split; [by apply Forall_app|]. unfold did in Hd.
  injection Hd as Hr Hc Hs. destruct H as [(Hs' & -> & Hr' & Hc')|(t1 & a & tl & -> & Hd1 & Hdl)].
  - left. unfold starts, registered, checks in *. rewrite !omap_app, Hs, Hr, Hc, Hs'.
    split_and!; try done. by apply prefix_app.
  - right. exists (t0 ++ t1)%list, a, tl. rewrite app_assoc, did_app, Hr, Hc, Hs.
    unfold did in Hd1. injection Hd1 as -> -> ->. done.
Qed.

Lemma silent_ok f c a :
  match c with Complete _ _ | NewManager _ => False | _ => True end → event_ok f (@Ev Proc c a).
Proof. destruct c; by intros ?. Qed.

Lemma launch f m1 m2 :
  always (_ ← proc (SetupInfo m1 []); must (proc StartManager) m2 [] (mret None))
    (as_planned f ([], [])).
Proof.
  cbn. intros a [[]|e]; cbn; intros; (split; [by repeat (apply Forall_cons; split)|]); right.
  - by exists [@Ev Proc (SetupInfo m1 []) a], (Ok tt), [].
  - eexists [@Ev Proc (SetupInfo m1 []) a], (Err e), [_]. do 2 (split; [done|]).
    split; [by do 2 eexists|done].
Qed.

Lemma launch_checked f m1 m2 :
  always (must (proc (AddHealthzCheck "healthz")) "Failed to set up health check" []
       (must (proc (AddReadyzCheck "readyz")) "Failed to set up ready check" []
          (_ ← proc (SetupInfo m1 []); must (proc StartManager) m2 [] (mret None))))
    (as_planned f ([], ["healthz"; "readyz"])).
Proof.
  apply must_always. cbn -[must]. intros [[]|e].
  2: { intros a. split; [by repeat (apply Forall_cons; split)|]. left. split_and!; try done.
       apply prefix_nil. }
  apply must_always. cbn -[must]. intros [[]|e].
  2: { intros a. split; [by repeat (apply Forall_cons; split)|]. left. split_and!; try done.
       by exists ["readyz"]. }
  refine (always_impl _ (as_planned f ([], [])) (λ t code, as_planned f ([], ["healthz"; "readyz"])
    (@Ev Proc (AddHealthzCheck "healthz") (Ok tt) :: @Ev Proc (AddReadyzCheck "readyz") (Ok tt) :: t)
    code) _ (launch f m1 m2)).
  intros t code [Hok H].
  split; [by repeat (apply Forall_cons; split)|].
  destruct H as [(Hs & -> & Hr & Hc)|(t0 & a & tl & -> & Hd0 & Hdl)].
  - left. split_and!; try done. cbn [planned snd] in *. apply prefix_nil_inv in Hc.
    exists []. unfold checks in *. cbn. by rewrite Hc.
  - right. eexists (_ :: _ :: t0)%list, a, tl. split; [done|]. split; [|done].
    unfold did in *. injection Hd0 as Hr Hc Hs. unfold registered, checks, starts in *. cbn.
    by rewrite Hr, Hc, Hs.
Qed.

Lemma agent_as_planned f : always run_agent (as_planned f ([KUPFDataPath], [])).
Proof.
  eapply always_impl; [|apply (setup_all f [("upfdatapath", setup_upfdatapath)] [KUPFDataPath]);
    [repeat constructor; apply setup_upfdatapath_ok | apply (launch f)]].
  cbn beta. intros t code [(t0 & t1 & -> & Hok & Hd & H)|(dn & rest & E & Hok & Hd & ->)].
  - exact (as_planned_app f t0 _ _ _ _ Hok Hd H).
  - split; [done|]. left. unfold did in Hd. injection Hd as -> -> ->. split_and!; try done.
    by exists rest.
Qed.

Lemma manager_as_planned f :
  always run_manager (as_planned f (managed_kinds, ["healthz"; "readyz"])).
Proof.
  eapply always_impl; [|apply (setup_all f management managed_kinds);
    [apply management_ok | apply (launch_checked f)]].
  cbn beta. intros t code [(t0 & t1 & -> & Hok & Hd & H)|(dn & rest & E & Hok & Hd & ->)].
  - exact (as_planned_app f t0 _ _ _ _ Hok Hd H).
  - split; [done|]. left. unfold did in Hd. injection Hd as -> -> ->. split_and!; try done.
    + by exists rest.
    + apply prefix_nil.
Qed.

Lemma announce_certs_silent f what path name key :
  always (announce_certs what path name key) (λ t _, Forall (event_ok f) t ∧ did t = ([], [], [])).
Proof.
  unfold announce_certs. destruct (String.eqb path ""); [done|]. cbn. intros a.
  split; [by repeat (apply Forall_cons; split) | done].
Qed.

Lemma exit_as_planned f plan t :
  Forall (event_ok f) t → did t = ([], [], []) → as_planned f plan t (Some 1).
Proof.
  intros Hok Hd. split; [done|]. left. unfold did in Hd. injection Hd as -> -> ->.
  split_and!; try done; apply prefix_nil.
Qed.

Lemma options_ok f a : event_ok f (@Ev Proc (NewManager (options_of f)) a).
Proof.
  split; [done|]. intros Hh. cbn. unfold server_of, tlsOpts. rewrite Hh.
  by destruct (String.eqb (f_metricsCertPath f) ""), (String.eqb (f_webhookCertPath f) "").
Qed.

(** C27: The wiring of a process.  The node agent registers the UPFDataPath controller alone and the
    manager the other eight, in a fixed order, so that no kind has controllers in both; the
    manager is started at most once, last, only when every controller of the mode and both health
    checks were accepted.  Main returns normally exactly when the manager was started and stopped
    without an error; any failure, before the start or of the running manager, ends the process
    with status 1.  Every controller that execs into pods has its clientset, metrics are
    filtered exactly when they are served securely, and unless HTTP/2 is asked for both servers
    offer HTTP/1.1 only. *)
Theorem process_wiring f :
  always (main f) (λ t code,
    Forall (event_ok f) t ∧
    ((starts t = [] ∧ code = Some 1 ∧
      registered t `prefix_of` (planned f).1 ∧ checks t `prefix_of` (planned f).2) ∨
     started_after (planned f) t code)).
Proof.
  change (always (main f) (as_planned f (planned f))). unfold main.
  assert (always (if f_nodeAgent f then run_agent else run_manager) (as_planned f (planned f))) as H.
  { unfold planned. destruct (f_nodeAgent f); [apply agent_as_planned | apply manager_as_planned]. }
  assert (∀ t0 t code, Forall (event_ok f) t0 → did t0 = ([], [], []) → as_planned f (planned f) t code →
    as_planned f (planned f) (t0 ++ t)%list code) as Hpre.
  { intros t0 t code Hok Hd Ht. pose proof (as_planned_app f t0 [] _ _ _ Hok Hd Ht) as Hx.
    by destruct (planned f). }
  apply always_bind. eapply always_impl; [|apply (announce_certs_silent f)]. cbn beta.
  intros t1 [] [Hok1 Hd1]. apply always_bind. eapply always_impl; [|apply (announce_certs_silent f)].
  cbn beta. intros t2 [] [Hok2 Hd2]. apply always_bind. intros alive. cbn beta.
  destruct alive; cbn [negb].
  2: { cbn. do 2 (apply Hpre; [done..|]). by apply exit_as_planned; [repeat (apply Forall_cons; split)|]. }
  apply must_always. intros [u|e]; hnf; cbn beta iota.
  - eapply always_impl; [|exact H]. cbn beta. intros t code Ht. do 2 (apply Hpre; [done..|]).
    apply Hpre; [by repeat (apply Forall_cons; split) | done |].
    apply Hpre; [|done..]. apply Forall_cons. split; [apply options_ok | done].
  - intros a. do 2 (apply Hpre; [done..|]).
    apply exit_as_planned; [|done]. repeat (apply Forall_cons; split); try done. apply options_ok.
Qed.
