(* ===== verification/Admission.v ===== *)
(** * What the controllers write is admitted by the schemas

    Every controller is checked against the schemas of the custom resources in the judgement of
    Rely.v: whatever an API server that enforces them answers, each object a reconcile creates
    or updates is valid - but for the NetworkInstance of a NetworkFabric with a prefix that is not a
    CIDR, which the schema of the latter does not ask for - and each status it writes is, but for
    the reasons of Schema.v that the pattern of a condition's reason refuses and the length of a
    message.  Those are never stored: what a status can say is [accepted_reports]. *)

From S2P Require Import Prelude GoText Net Host Prog Rely Api Effects Helpers Pattern Crd Schema Upsert.
From S2P Require Import Charts SDCore NFDeploy Fabric GitOps Subscribers Slices Datapath Addressing.
From S2P Require Import RanProfile EdgeSite Fleet MeshLink Manager.

(** The NetworkInstance of a fabric one of whose prefixes is not a CIDR. *)
Definition unroutable {k : kind} : obj k → Prop :=
  match k return obj k → Prop with
  | KUnstructured g => λ o,
      g = networkInstanceGVK ∧ ∃ nf, u_spec o = u_spec (network_instance nf) ∧
        forallb (λ p, cidr_text (fp_Prefix p)) (nf_Prefixes nf) = false
  | _ => λ _, False
  end.

Definition admissible {k : kind} (o : obj k) : Prop := schema_ok o = true ∨ unroutable o.

(** A created or updated object satisfies its schema, but for that one; a written status does but
    for a refused reason or a long message, and says one of the things the operator says. *)
Definition admitted (c : op Env) : Prop :=
  match c : call_op with
  | KCreate _ o | KUpdate _ o => admissible o
  | KStatusUpdate k o => nearly_ok o = true ∧ reported k o = true
  | _ => True
  end.

#[warnings="-notation-for-abbreviation"]
Notation typed := (keeps admitted enforced).

Lemma schema_admissible {k : kind} (o : obj k) : schema_ok o = true → admissible o.
Proof. by left. Qed.
#[export] Hint Resolve schema_admissible : keeps.

(** The invariants of the object under reconciliation: accepted, and accepted but for a reason. *)
Definition accepted (k : kind) (o : obj k) : Prop := schema_ok o = true.
Definition nearly (k : kind) (o : obj k) : Prop := nearly_ok o = true.

Lemma accepted_nearly k (o : obj k) : accepted k o → nearly k o.
Proof. apply schema_nearly_ok. Qed.
#[export] Hint Resolve schema_nearly_ok accepted_nearly : keeps.

(** What is left: a written object, the replacement of the object by an answer. *)
Ltac finish_typed :=
  try done; auto with keeps; cbv beta in *; try solve [left; assumption];
  try match goal with
  | H : enforced _ (Ok ?o) |- ∀ s, _ s → nearly _ ?o => intros s _; apply schema_nearly_ok, H
  | H : enforced _ (Ok ?o) |- ∀ s, _ s → accepted _ ?o => intros s _; apply H
  end.

Ltac typed_walk := unfold env_ok, env; keep; finish_typed.

(** ** Functions shared by several controllers: they keep any invariant *)

Section shared.
Context {St : Type} (I : St → Prop).

Lemma range_map_typed {A} E (l : list A) : typed I E (range_map l) (λ _, True).
Proof. unfold range_map. typed_walk. Qed.

Lemma gitPut_typed repo path yaml : typed I I (gitPut repo path yaml) (λ _, True).
Proof. unfold gitPut, gitea_auth, lookup_sha. typed_walk. Qed.

Lemma removeFromGit_typed repo path : typed I I (removeFromGit repo path) (λ _, True).
Proof. unfold removeFromGit, gitea_auth, lookup_for_removal. typed_walk. Qed.

Lemma webuiPost_typed path body : typed I I (webuiPost path body) (λ _, True).
Proof. unfold webuiPost. typed_walk. Qed.

Lemma mongoExec_typed cfg cs js : typed I I (mongoExec cfg cs js) (λ _, True).
Proof. unfold mongoExec. typed_walk. Qed.

Lemma with_meta_ok ok {k : kind} m (o : obj k) :
  Generation m = Generation (meta o) → object_ok ok o = true → object_ok ok (with_meta m o) = true.
Proof. intros H. apply object_ok_same; destruct k; try done; exact H. Qed.

Lemma with_meta_admissible {k : kind} m (o : obj k) :
  Generation m = Generation (meta o) → admissible o → admissible (with_meta m o).
Proof.
  intros Hm [Ho|Ho]; [left; by apply with_meta_ok|right]. by destruct k.
Qed.

Lemma upsert_typed {k : kind} (o : obj k) :
  admissible o → typed I I (upsert o) (λ _, True).
Proof.
  intros Ho. assert (∀ v, admissible (with_meta (set_ResourceVersion v (meta o)) o)) as Hv
    by (intros; by apply with_meta_admissible).
  unfold upsert. typed_walk; apply Hv.
Qed.
End shared.

#[export] Hint Resolve range_map_typed gitPut_typed removeFromGit_typed webuiPost_typed
  mongoExec_typed upsert_typed : keeps.

(** ** The status of an object

    [update_status] and its siblings: the object set just before is written, and what the server
    answers replaces it. *)

Section status.
Context {AM : Apimachinery} {AML : ApimachineryLaws}.

(** The object carries a condition the operator just set. *)
Definition fresh (k : kind) (o : obj k) : Prop := nearly_ok o = true ∧ reported k o = true.

Lemma fresh_nearly k (o : obj k) : fresh k o → nearly k o.
Proof. by intros [? _]. Qed.

Lemma set_status_typed (k : kind) E (f : obj k → obj k) :
  (∀ o, accepted k o → fresh k (f o)) →
  hoare admitted enforced (accepted k) (modify f) (fresh k) E (λ _, True).
Proof. apply hoare_modify. Qed.

(** From there the object is read, written, and replaced by the server's. *)
Lemma status_tail {A} (k : kind) (f : obj k → act Env (obj k) A) Q :
  (∀ o, fresh k o → typed (nearly k) (nearly k) (f o) Q) →
  hoare admitted enforced (fresh k) (o ← get; f o) (nearly k) (nearly k) Q.
Proof.
  intros H. eapply hoare_bind; [apply hoare_get|]. intros o Ho.
  eapply hoare_weaken; [| | | |by apply H]; try done. apply fresh_nearly.
Qed.


(** Where nothing was reported. *)
Lemma typed_nearly {A} (k : kind) (m : act Env (obj k) A) Q :
  typed (accepted k) (nearly k) m Q →
  hoare admitted enforced (accepted k) m (nearly k) (nearly k) Q.
Proof. apply hoare_weaken; [done| |done|done]. intros s. apply schema_nearly_ok. Qed.

(** A controller reads its object first. *)
Lemma reconcile_obeys {A} (k : kind) ns name (nf : error → result A) (m : act Env (obj k) A) :
  hoare admitted enforced (accepted k) m (nearly k) (nearly k) (λ _, True) →
  obeys admitted enforced
    (Call (S := Env) (KGet k ns name) (λ ans,
       match ans with Err e => Ret (nf e) | Ok o => x ← m o; mret x.2 end)) (λ _, True).
Proof.
  intros H. split; [done|]. intros [o|e] Hr; [|done].
  apply obeys_bind. eapply obeys_impl; [|apply H, Hr]. done.
Qed.
End status.

(** The end of a reconcile: the invariant holds until the status is set, from there on it may
    fail for a refused reason. *)
Ltac hoare_step :=
  lazymatch goal with
  | |- hoare _ _ (accepted ?k) (mbind _ (modify _)) _ _ _ =>
      eapply hoare_bind; [apply (set_status_typed k); intros ? ?; auto with keeps | intros ? _]
  | |- hoare _ _ (fresh ?k) (mbind _ get) _ _ _ => apply (status_tail k); intros ? ?; typed_walk
  | |- hoare _ _ (fresh ?k) (mbind _ _) _ _ _ =>
      eapply (hoare_bind _ _ (fresh k) (nearly k)); [solve [eauto with keeps] | intros ? _]
  | |- hoare ?G ?R (accepted ?k) (mbind _ _) _ _ _ =>
      eapply (hoare_bind _ _ (accepted k) (accepted k));
      [lazymatch goal with |- hoare _ _ ?I ?m _ ?E ?Q => change (keeps G R I E m Q) end; typed_walk
      | intros ? ?]
  | |- hoare _ _ (accepted _) (match ?x with _ => _ end) _ _ _ => destruct x eqn:?
  | |- hoare _ _ (accepted ?k) (mret _) _ _ _ => apply (typed_nearly k); typed_walk
  | |- hoare _ _ (accepted _) _ _ _ _ => solve [eauto with keeps]
  | |- hoare ?G ?R (nearly ?k) ?m (nearly ?k) ?E ?Q => change (keeps G R (nearly k) E m Q); typed_walk
  end.

Ltac hoare_walk := unfold env_ok, env; repeat (cbn beta; hoare_step); finish_typed.

Ltac fresh_status :=
  intros Ho; eapply set_condition_nearly; [exact Ho|..]; try reflexivity;
  lazymatch goal with
  | |- _ ∈ _ => repeat constructor
  | |- _ => apply object_ok_unfold in Ho; apply Ho
  end.

(** ** SubscriberReconciler *)

Section subscriber.
Context {AM : Apimachinery} {AML : ApimachineryLaws}.

Lemma failed_subscriber_fresh e sub :
  accepted KSubscriber sub → fresh KSubscriber (failed_subscriber e sub).
Proof. fresh_status. Qed.

Lemma provisioned_subscriber_fresh sub :
  accepted KSubscriber sub → fresh KSubscriber (provisioned_subscriber sub).
Proof. fresh_status. Qed.

Lemma write_sub_status_typed msg :
  hoare admitted enforced (fresh KSubscriber) (write_sub_status msg) (nearly KSubscriber)
    (nearly KSubscriber) (λ _, True).
Proof. unfold write_sub_status. hoare_walk. Qed.
#[local] Hint Resolve failed_subscriber_fresh provisioned_subscriber_fresh
  write_sub_status_typed : keeps.

Lemma subFail_typed e :
  hoare admitted enforced (accepted KSubscriber) (subFail e) (nearly KSubscriber)
    (nearly KSubscriber) (λ _, True).
Proof. unfold subFail. hoare_walk. Qed.

Lemma subscriber_done_typed :
  hoare admitted enforced (accepted KSubscriber) subscriber_done (nearly KSubscriber)
    (nearly KSubscriber) (λ _, True).
Proof. unfold subscriber_done. hoare_walk. Qed.
#[local] Hint Resolve subFail_typed subscriber_done_typed : keeps.

Lemma subscriber_admitted ns name :
  obeys admitted enforced (Subscribers.Reconcile ns name) (λ _, True).
Proof.
  apply (reconcile_obeys KSubscriber). unfold reconcile_subscriber, provision_subscriber.
  hoare_walk.
Qed.
End subscriber.

(** ** NetworkSliceReconciler *)

Section slice.
Context {AM : Apimachinery} {AML : ApimachineryLaws}.

Lemma failed_slice_fresh e ns : accepted KNetworkSlice ns → fresh KNetworkSlice (failed_slice e ns).
Proof. fresh_status. Qed.

Lemma provisioned_slice_fresh now imsis ns :
  accepted KNetworkSlice ns → fresh KNetworkSlice (provisioned_slice now imsis ns).
Proof. fresh_status. Qed.

Lemma write_slice_status_typed msg :
  hoare admitted enforced (fresh KNetworkSlice) (write_slice_status msg) (nearly KNetworkSlice)
    (nearly KNetworkSlice) (λ _, True).
Proof. unfold write_slice_status. hoare_walk. Qed.
#[local] Hint Resolve failed_slice_fresh provisioned_slice_fresh write_slice_status_typed : keeps.

Lemma slice_done_typed imsis :
  hoare admitted enforced (accepted KNetworkSlice) (slice_done imsis) (nearly KNetworkSlice)
    (nearly KNetworkSlice) (λ _, True).
Proof. unfold slice_done. hoare_walk. Qed.

Lemma sliceFail_typed e :
  hoare admitted enforced (accepted KNetworkSlice) (sliceFail e) (nearly KNetworkSlice)
    (nearly KNetworkSlice) (λ _, True).
Proof. unfold sliceFail. hoare_walk. Qed.
#[local] Hint Resolve slice_done_typed sliceFail_typed : keeps.

Lemma slice_admitted r ns name :
  obeys admitted enforced (Slices.Reconcile r ns name) (λ _, True).
Proof.
  apply (reconcile_obeys KNetworkSlice).
  unfold reconcile_slice, provision_slice, repair, ensureDnnConfig, ensureProvisionedData.
  hoare_walk.
Qed.
End slice.

(** ** NetworkReconciler *)

Section fabric.
Context {AM : Apimachinery} {AML : ApimachineryLaws}.

Lemma failed_fabric_fresh e nf : accepted KNetworkFabric nf → fresh KNetworkFabric (failed_fabric e nf).
Proof. fresh_status. Qed.

Lemma ready_fabric_fresh now nf :
  accepted KNetworkFabric nf → fresh KNetworkFabric (ready_fabric now nf).
Proof. fresh_status. Qed.

Lemma update_fabric_status_typed :
  hoare admitted enforced (fresh KNetworkFabric) update_fabric_status (nearly KNetworkFabric)
    (nearly KNetworkFabric) (λ _, True).
Proof. unfold update_fabric_status. hoare_walk. Qed.
#[local] Hint Resolve failed_fabric_fresh ready_fabric_fresh update_fabric_status_typed : keeps.

Lemma fabric_fail_typed e :
  hoare admitted enforced (accepted KNetworkFabric) (fabric_fail e) (nearly KNetworkFabric)
    (nearly KNetworkFabric) (λ _, True).
Proof. unfold fabric_fail. hoare_walk. Qed.

Lemma fabric_done_typed :
  hoare admitted enforced (accepted KNetworkFabric) fabric_done (nearly KNetworkFabric)
    (nearly KNetworkFabric) (λ _, True).
Proof. unfold fabric_done. hoare_walk. Qed.
#[local] Hint Resolve fabric_fail_typed fabric_done_typed : keeps.

(** An entry with a CIDR is valid, and so is a list of them. *)
Lemma prefix_entry_valid p :
  valid (SObject [("labels", labels_schema); ("prefix", SPattern prefix_pattern)] ["prefix"])
    (prefix_entry p) = cidr_text (fp_Prefix p).
Proof.
  unfold prefix_entry. destruct (bool_decide _); cbn [valid present assoc app String.eqb
    Ascii.eqb Bool.eqb forallb andb]; fold (cidr_text (fp_Prefix p)); [by rewrite andb_true_r|].
  assert (valid labels_schema (JObj (prod_map id JStr <$> map_to_list (fp_Labels p))) = true) as H.
  { cbn. induction (map_to_list (fp_Labels p)) as [|[k v] l IH]; [done|exact IH]. }
  rewrite H. cbn [andb]. apply andb_true_r.
Qed.

(** A NetworkInstance is valid exactly when every prefix of its fabric holds a CIDR. *)
Lemma network_instance_ok nf :
  schema_ok (k := KUnstructured networkInstanceGVK) (network_instance nf)
  = forallb (λ p, cidr_text (fp_Prefix p)) (nf_Prefixes nf).
Proof.
  change (true && (forallb (valid (SObject [("labels", labels_schema);
      ("prefix", SPattern prefix_pattern)] ["prefix"])) (prefix_entry <$> nf_Prefixes nf) && true)
      && true && true = forallb (λ p, cidr_text (fp_Prefix p)) (nf_Prefixes nf)).
  rewrite !andb_true_r. cbn [andb]. induction (nf_Prefixes nf) as [|p l IH]; [done|].
  cbn [fmap list_fmap forallb]. by rewrite prefix_entry_valid, IH.
Qed.

Lemma network_instance_admissible nf :
  admissible (k := KUnstructured networkInstanceGVK) (network_instance nf).
Proof.
  unfold admissible. rewrite network_instance_ok.
  destruct (forallb (λ p, cidr_text (fp_Prefix p)) (nf_Prefixes nf)) eqn:F; [by left|right].
  split; [done|]. by exists nf.
Qed.

Lemma vlan_index_admissible nf : admissible (k := KUnstructured vlanIndexGVK) (vlan_index nf).
Proof. by left. Qed.
#[local] Hint Resolve network_instance_admissible vlan_index_admissible : keeps.

Lemma fabric_admitted ns name :
  obeys admitted enforced (Fabric.Reconcile ns name) (λ _, True).
Proof.
  apply (reconcile_obeys KNetworkFabric). unfold reconcile_fabric, expand, ensure.
  hoare_walk.
Qed.
End fabric.

(** ** UPFDataPathReconciler *)

Section datapath.
Context {AM : Apimachinery} {AML : ApimachineryLaws} {NL : Netlink}.
Context (I : UPFDataPath → Prop).

Lemma for_all_typed {A B} E (l : list A) (f : A → act Env UPFDataPath B) :
  (∀ x, x ∈ l → typed I E (f x) (λ _, True)) → typed I E (for_all l f) (λ _, True).
Proof.
  induction l as [|x l IH]; intros H; cbn; [by apply keeps_ret|].
  eapply keeps_bind; [apply H; left|]. intros b _.
  eapply keeps_bind; [apply IH; intros y Hy; apply H; by right|]. intros rest _. by apply keeps_ret.
Qed.

Lemma first_link_typed E usable routes : typed I E (first_link usable routes) (λ _, True).
Proof. induction routes as [|rt routes IH]; cbn; typed_walk. Qed.
#[local] Hint Resolve first_link_typed : keeps.

Lemma hostEgressNic_typed E preferred : typed I E (hostEgressNic preferred) (λ _, True).
Proof. unfold hostEgressNic, preferred_nic, route_link. typed_walk. Qed.

Lemma ins_typed b t c rule : typed I I (ins b t c rule) (λ _, True).
Proof. unfold ins. typed_walk. Qed.
#[local] Hint Resolve ins_typed : keeps.

Lemma ensureN6Nat_typed uePool nic accBr : typed I I (ensureN6Nat uePool nic accBr) (λ _, True).
Proof.
  unfold ensureN6Nat, nat_backend. keep_step; [typed_walk|].
  eapply keeps_bind; [apply for_all_typed; intros; typed_walk | intros; typed_walk].
Qed.

Lemma podExec_typed r cs pod container cmd :
  typed I I (podExec r cs pod container cmd) (λ _, True).
Proof. unfold podExec. typed_walk. Qed.

Lemma upf_pods_typed cs label : typed I I (upf_pods cs label) (λ _, True).
Proof. unfold upf_pods. typed_walk. Qed.
#[local] Hint Resolve ensureN6Nat_typed podExec_typed upf_pods_typed : keeps.

Lemma datapath_steps_typed r s nic st :
  st ∈ datapath_steps r s nic → typed I I st.2 (λ _, True).
Proof.
  unfold datapath_steps. rewrite list_elem_of_In. cbn [In].
  intros H; repeat (destruct H as [<-|H]); [..|done]; cbn [snd].
  - unfold ensureBridge, ensure_bridge. typed_walk.
  - unfold ensureBridgeAddr, ensure_addr. typed_walk.
  - unfold ensureForwarding. typed_walk.
  - unfold ensureRoute. typed_walk.
  - typed_walk.
  - unfold ensureN2VIP, announce. typed_walk.
  - unfold ensureUpfHealthy, heal_upf. typed_walk.
  - unfold ensureUpfPodHardening. typed_walk.
  - unfold ensureBessAccessRoute. typed_walk.
  - unfold ensurePfcpHealthy, heal_pfcp. typed_walk.
  - unfold refreshNeigh, refresh_neigh. typed_walk.
Qed.
End datapath.

Section datapath_status.
Context {AM : Apimachinery} {AML : ApimachineryLaws} {NL : Netlink}.

Lemma failed_datapath_fresh r failed dp :
  accepted KUPFDataPath dp → fresh KUPFDataPath (failed_datapath r failed dp).
Proof. fresh_status. Qed.

Lemma ready_datapath_fresh r now dp :
  accepted KUPFDataPath dp → fresh KUPFDataPath (ready_datapath r now dp).
Proof. fresh_status. Qed.
#[local] Hint Resolve failed_datapath_fresh ready_datapath_fresh hostEgressNic_typed : keeps.

Lemma run_step_typed r st :
  typed (accepted KUPFDataPath) (accepted KUPFDataPath) st.2 (λ _, True) →
  typed (accepted KUPFDataPath) (nearly KUPFDataPath) (run_step r st) (λ _, True).
Proof. intros H. unfold run_step. typed_walk. Qed.

Lemma report_datapath_typed r failed :
  hoare admitted enforced (accepted KUPFDataPath) (report_datapath r failed) (nearly KUPFDataPath)
    (nearly KUPFDataPath) (λ _, True).
Proof. unfold report_datapath. hoare_walk. Qed.
#[local] Hint Resolve report_datapath_typed : keeps.

Lemma datapath_admitted r ns name :
  obeys admitted enforced (Datapath.Reconcile r ns name) (λ _, True).
Proof.
  apply (reconcile_obeys KUPFDataPath). unfold reconcile_datapath. hoare_walk.
  apply for_all_typed. intros st Hst. by eapply run_step_typed, datapath_steps_typed.
Qed.
End datapath_status.

(** ** SDCoreDeploymentReconciler and NFDeploymentReconciler *)

Section helm.
Context {AM : Apimachinery} {AML : ApimachineryLaws} {H : Helm}.

Lemma failed_sdcore_fresh msg cr :
  accepted KSDCoreDeployment cr → fresh KSDCoreDeployment (failed_sdcore msg cr).
Proof. fresh_status. Qed.

Lemma deployed_sdcore_fresh rev cr :
  accepted KSDCoreDeployment cr → fresh KSDCoreDeployment (deployed_sdcore rev cr).
Proof. fresh_status. Qed.

Lemma wired_nf_fresh component nfd :
  accepted KNFDeployment nfd → fresh KNFDeployment (wired_nf component nfd).
Proof. fresh_status. Qed.
#[local] Hint Resolve failed_sdcore_fresh deployed_sdcore_fresh wired_nf_fresh : keeps.

Lemma sdcore_fail_typed msg :
  hoare admitted enforced (accepted KSDCoreDeployment) (sdcore_fail msg)
    (nearly KSDCoreDeployment) (nearly KSDCoreDeployment) (λ _, True).
Proof. unfold sdcore_fail. hoare_walk. Qed.

Lemma sdcore_done_typed rev :
  hoare admitted enforced (accepted KSDCoreDeployment) (sdcore_done rev)
    (nearly KSDCoreDeployment) (nearly KSDCoreDeployment) (λ _, True).
Proof. unfold sdcore_done. hoare_walk. Qed.
#[local] Hint Resolve sdcore_fail_typed sdcore_done_typed : keeps.

Lemma sdcore_admitted cfg ns name :
  obeys admitted enforced (SDCore.Reconcile cfg ns name) (λ _, True).
Proof.
  apply (reconcile_obeys KSDCoreDeployment). unfold reconcile_sdcore, deploy_release.
  hoare_walk.
Qed.

Lemma nf_done_typed component :
  hoare admitted enforced (accepted KNFDeployment) (nf_done component)
    (nearly KNFDeployment) (nearly KNFDeployment) (λ _, True).
Proof. unfold nf_done. hoare_walk. Qed.
#[local] Hint Resolve nf_done_typed : keeps.

Lemma nf_admitted cfg ns name :
  obeys admitted enforced (NFDeploy.Reconcile cfg ns name) (λ _, True).
Proof.
  apply (reconcile_obeys KNFDeployment).
  unfold reconcile_nf, buildValuesFromNFDeployment, env_or, nf_release, nf_retry.
  hoare_walk.
Qed.
End helm.

(** ** FleetReconciler *)

Section fleet.
Context {AM : Apimachinery} {AML : ApimachineryLaws}.

Lemma fleet_status_fresh n message st reason fleet :
  (st, reason) ∈ reports KFleet →
  accepted KFleet fleet → fresh KFleet (fleet_status n message st reason fleet).
Proof.
  intros Hr Ho. eapply set_condition_nearly; [exact Ho|reflexivity..|exact Hr|].
  apply object_ok_unfold in Ho. apply Ho.
Qed.

Lemma desired_listed sites name s : desired sites !! name = Some s → s ∈ sites.
Proof.
  induction sites as [|x sites IH] using rev_ind; [done|]. rewrite desired_snoc.
  intros H. apply elem_of_app.
  destruct (String.eqb (fs_Server x) ""); [left; by apply IH|].
  destruct (decide (site_name x = name)) as [<-|Hne].
  - rewrite lookup_insert_eq in H. injection H as ->. right. left.
  - rewrite lookup_insert_ne in H by done. left. by apply IH.
Qed.

(** The EdgeSites of a valid entry: the role is set, the radio is the entry's. *)
Lemma declared_ok s x :
  fleet_site_ok s = true →
  edge_site_ok (declare (fs_Server s) (fs_User s) (site_role s) (fs_RAN s) x) = true.
Proof.
  unfold fleet_site_ok, edge_site_ok. intros [Hr Hran]%andb_true_iff. cbn. rewrite Hran.
  apply andb_true_iff. split; [|done]. apply bool_decide_eq_true. unfold site_role.
  unfold omitted_or in Hr. destruct (String.eqb (fs_Role s) ""); [|by apply bool_decide_eq_true in Hr].
  right. left.
Qed.

Lemma applyEdgeSite_typed name s :
  fleet_site_ok s = true →
  typed (accepted KFleet) (accepted KFleet)
    (applyEdgeSite name (fs_Server s) (fs_User s) (site_role s) (fs_RAN s)) (λ _, True).
Proof.
  intros Hs. unfold applyEdgeSite. typed_walk; left.
  - apply object_ok_unfold. cbn [conditions spec_ok meta es_spec updated_site set_es_spec].
    match goal with H : enforced _ (Ok ?o) |- _ => apply object_ok_unfold in H as (G & S & N & C) end.
    split; [exact G|]. split; [by apply declared_ok|]. by split.
  - apply object_ok_unfold. split; [done|]. split; [by apply declared_ok|].
    split; [intros _; apply NoDup_nil_2|]. intros c Hc. by apply elem_of_nil in Hc.
Qed.

Lemma collect_typed {A} E (l : list A) (f : A → act Env Fleet (list string)) :
  (∀ x, x ∈ l → typed (accepted KFleet) E (f x) (λ _, True)) →
  typed (accepted KFleet) E (collect l f) (λ _, True).
Proof.
  induction l as [|x l IH]; intros H; cbn; [by apply keeps_ret|].
  eapply keeps_bind; [apply H; left|]. intros b _.
  eapply keeps_bind; [apply IH; intros y Hy; apply H; by right|]. intros rest _. by apply keeps_ret.
Qed.

Lemma reconcile_entry_typed E sites name :
  (∀ s, sites !! name = Some s → fleet_site_ok s = true) →
  typed (accepted KFleet) E (reconcile_entry sites name) (λ _, True).
Proof.
  intros Hs. unfold reconcile_entry. destruct (sites !! name) as [s|]; [|typed_walk].
  pose proof (applyEdgeSite_typed name s (Hs s eq_refl)). typed_walk.
Qed.

Lemma update_fleet_status_typed :
  hoare admitted enforced (fresh KFleet) update_fleet_status (nearly KFleet)
    (nearly KFleet) (λ _, True).
Proof. unfold update_fleet_status. hoare_walk. Qed.
#[local] Hint Resolve update_fleet_status_typed : keeps.
#[local] Hint Extern 4 (fresh KFleet _) =>
  (apply fleet_status_fresh; [repeat constructor | assumption]) : keeps.

Lemma fleet_fail_typed e :
  hoare admitted enforced (accepted KFleet) (fleet_fail e) (nearly KFleet) (nearly KFleet)
    (λ _, True).
Proof. unfold fleet_fail. hoare_walk. Qed.

Lemma report_typed total errs :
  hoare admitted enforced (accepted KFleet) (report total errs) (nearly KFleet) (nearly KFleet)
    (λ _, True).
Proof. unfold report. hoare_walk. Qed.
#[local] Hint Resolve fleet_fail_typed report_typed : keeps.

Lemma fleet_admitted ns name : obeys admitted enforced (Fleet.Reconcile ns name) (λ _, True).
Proof.
  apply (reconcile_obeys KFleet). unfold reconcile_fleet. hoare_walk.
  - apply collect_typed. intros name' _. apply reconcile_entry_typed. intros s Hs%desired_listed.
    match goal with H : accepted KFleet _ |- _ =>
      apply object_ok_unfold in H as (_ & S & _); cbn in S; rewrite forallb_forall in S;
      by apply S, list_elem_of_In end.
  - apply collect_typed. intros es _. unfold decommission. typed_walk.
Qed.
End fleet.

(** ** MeshLinkReconciler *)

Section meshlink_calls.
Context (I : MeshLink → Prop).

Lemma clusterClient_typed name : typed I I (clusterClient name) (λ _, True).
Proof. unfold clusterClient. typed_walk. Qed.

Lemma apply_typed cs svc : typed I I (apply cs svc) (λ _, True).
Proof. unfold apply. typed_walk. Qed.
#[local] Hint Resolve clusterClient_typed apply_typed : keeps.

Lemma ensureAmfGlobal_typed cs shared : typed I I (ensureAmfGlobal cs shared) (λ _, True).
Proof. unfold ensureAmfGlobal. typed_walk. Qed.

Lemma ensureN4Endpoint_typed cs name ip : typed I I (ensureN4Endpoint cs name ip) (λ _, True).
Proof. unfold ensureN4Endpoint. typed_walk. Qed.

Lemma podIP_typed cs sel : typed I I (podIP cs sel) (λ _, True).
Proof. unfold podIP. typed_walk. Qed.

Lemma ensureClusterMesh_typed cs : typed I I (ensureClusterMesh cs) (λ _, True).
Proof. unfold ensureClusterMesh, secretYAML, deliverViaGit. typed_walk. Qed.

Lemma cleanupRemote_typed E : typed I E cleanupRemote (λ _, True).
Proof. unfold cleanupRemote, cleanup_cp. typed_walk. Qed.
End meshlink_calls.

#[local] Hint Resolve clusterClient_typed ensureAmfGlobal_typed ensureN4Endpoint_typed podIP_typed
  ensureClusterMesh_typed cleanupRemote_typed : keeps.

Section meshlink.
Context {AM : Apimachinery} {AML : ApimachineryLaws}.

Lemma link_status_fresh phase message st reason ml :
  (st, reason) ∈ reports KMeshLink →
  accepted KMeshLink ml → fresh KMeshLink (link_status phase message st reason ml).
Proof.
  intros Hr Ho. eapply set_condition_nearly; [exact Ho|reflexivity..|exact Hr|].
  apply object_ok_unfold in Ho. apply Ho.
Qed.

Lemma wired_status_fresh ml : accepted KMeshLink ml → fresh KMeshLink (wired_status ml).
Proof. fresh_status. Qed.

Lemma update_link_status_typed :
  hoare admitted enforced (fresh KMeshLink) update_link_status (nearly KMeshLink)
    (nearly KMeshLink) (λ _, True).
Proof. unfold update_link_status. hoare_walk. Qed.
#[local] Hint Resolve wired_status_fresh update_link_status_typed : keeps.

Lemma failed_step_reported what : what ∈ wire_steps → failed_step what ∈ reports KMeshLink.
Proof. intros H. apply elem_of_cons. right. by apply list_elem_of_fmap_2. Qed.

Lemma fail_typed what e :
  what ∈ wire_steps →
  hoare admitted enforced (accepted KMeshLink) (MeshLink.fail what e) (nearly KMeshLink)
    (nearly KMeshLink) (λ _, True).
Proof.
  intros Hw%failed_step_reported. unfold MeshLink.fail. hoare_walk.
  by apply link_status_fresh.
Qed.

(** Where the rest of the wiring ends in a status, so does a step and the rest. *)
Lemma attempt_typed {A} what (m : act Env MeshLink A) k :
  what ∈ wire_steps → typed (accepted KMeshLink) (accepted KMeshLink) m (λ _, True) →
  (∀ a, hoare admitted enforced (accepted KMeshLink) (k a) (nearly KMeshLink) (nearly KMeshLink)
          (λ _, True)) →
  hoare admitted enforced (accepted KMeshLink) (attempt what m k) (nearly KMeshLink)
    (nearly KMeshLink) (λ _, True).
Proof.
  intros Hw Hm Hk. unfold attempt. hoare_walk. by apply fail_typed.
Qed.

Lemma wired_typed :
  hoare admitted enforced (accepted KMeshLink) wired (nearly KMeshLink) (nearly KMeshLink)
    (λ _, True).
Proof. unfold wired. hoare_walk. Qed.
#[local] Hint Resolve wired_typed : keeps.

Lemma wire_typed :
  hoare admitted enforced (accepted KMeshLink) wire (nearly KMeshLink) (nearly KMeshLink)
    (λ _, True).
Proof.
  unfold wire. hoare_walk. do 5 (apply attempt_typed; [repeat constructor|typed_walk|intros ?]).
  unfold wire_n4. hoare_walk. apply attempt_typed; [repeat constructor|typed_walk|auto with keeps].
Qed.

Lemma update_link_typed E :
  (∀ ml, accepted KMeshLink ml → E ml) → typed (accepted KMeshLink) E update_link (λ _, True).
Proof. intros HE. unfold update_link. typed_walk. Qed.

Lemma link_finalizers_accepted l ml :
  accepted KMeshLink ml → accepted KMeshLink (set_link_finalizers l ml).
Proof. by apply object_ok_same. Qed.
#[local] Hint Resolve update_link_typed link_finalizers_accepted wire_typed : keeps.

Lemma release_typed :
  typed (accepted KMeshLink) (nearly KMeshLink) release (λ _, True).
Proof. unfold release. typed_walk. Qed.
#[local] Hint Resolve release_typed : keeps.

(** What follows the finalizer. *)
Lemma finalized_typed (l : list string) (added : bool) :
  hoare admitted enforced (accepted KMeshLink)
    (_ ← modify (set_link_finalizers l); _ ← when added update_link; wire) (nearly KMeshLink)
    (nearly KMeshLink) (λ _, True).
Proof.
  eapply (hoare_bind _ _ _ (accepted KMeshLink)); [apply hoare_modify; auto with keeps|].
  intros _ _. hoare_walk.
Qed.
#[local] Hint Resolve finalized_typed : keeps.

Lemma link_admitted ns name : obeys admitted enforced (MeshLink.Reconcile ns name) (λ _, True).
Proof.
  apply (reconcile_obeys KMeshLink). unfold reconcile_link.
  eapply hoare_bind; [apply hoare_get|]. intros ml Hml. cbv beta in Hml.
  destruct (DeletionTimestamp (ml_meta ml)); [apply (typed_nearly KMeshLink), release_typed|].
  destruct (AddFinalizer _ _) as [l added]. apply finalized_typed.
Qed.
End meshlink.

(** ** EdgeSiteReconciler *)

Section edgesite.
Context {AM : Apimachinery} {AML : ApimachineryLaws}.

Lemma hoare_throws {A} I J J' E (m : act Env EdgeSite A) Q :
  hoare admitted enforced I m J E (λ _, False) → hoare admitted enforced I m J' E Q.
Proof.
  intros H s Hs. eapply obeys_impl; [|by apply H]. by intros [s' [a|e]]; cbn; [intros [_ []]|].
Qed.

Lemma failed_status_fresh es name e :
  name ∈ step_names →
  accepted KEdgeSite es → fresh KEdgeSite (set_es_status (failed_status es name e) es).
Proof.
  intros Hn Ho. eapply set_condition_nearly; [exact Ho|reflexivity..| |].
  - apply elem_of_cons. right. by apply (list_elem_of_fmap_2 failed_step).
  - apply object_ok_unfold in Ho. apply Ho.
Qed.

Lemma success_status_fresh es cluster :
  accepted KEdgeSite es → fresh KEdgeSite (set_es_status (success_status es cluster) es).
Proof. fresh_status. Qed.

Lemma update_status_typed :
  hoare admitted enforced (fresh KEdgeSite) update_status (nearly KEdgeSite)
    (nearly KEdgeSite) (λ _, True).
Proof. unfold update_status. hoare_walk. Qed.
#[local] Hint Resolve failed_status_fresh success_status_fresh update_status_typed : keeps.

Lemma step_failed_typed name e :
  name ∈ step_names →
  typed (accepted KEdgeSite) (nearly KEdgeSite) (step_failed name e) (λ _, True).
Proof.
  intros Hn. apply (hoare_throws _ (nearly KEdgeSite)). unfold step_failed. hoare_walk.
Qed.

Lemma step_typed name fn :
  name ∈ step_names → typed (accepted KEdgeSite) (accepted KEdgeSite) fn (λ _, True) →
  typed (accepted KEdgeSite) (nearly KEdgeSite) (step name fn) (λ _, True).
Proof.
  intros Hn Hfn. unfold step, log_step. typed_walk. by apply step_failed_typed.
Qed.

(** *** The steps *)

Lemma put_spec_typed E s :
  edge_site_ok s = true → typed (accepted KEdgeSite) E (put_spec s) (λ _, True).
Proof.
  intros Hs. apply keeps_modify. intros es Hes. apply object_ok_unfold in Hes as (G & _ & N & C).
  by apply object_ok_unfold.
Qed.

Lemma ranBase_typed (I : EdgeSite → Prop) : typed I I ranBase (λ _, True).
Proof. unfold ranBase, mgmtNodeIP. typed_walk. Qed.

Lemma allocateRanVIP_typed (I : EdgeSite → Prop) base : typed I I (allocateRanVIP base) (λ _, True).
Proof. unfold allocateRanVIP. typed_walk. Qed.

Lemma update_site_typed :
  typed (accepted KEdgeSite) (accepted KEdgeSite) update_site (λ _, True).
Proof. unfold update_site. typed_walk. Qed.
#[local] Hint Resolve ranBase_typed allocateRanVIP_typed update_site_typed : keeps.

Lemma given_ok s s' : given_part s' = given_part s → edge_site_ok s = true → edge_site_ok s' = true.
Proof. unfold edge_site_ok. by intros [= _ _ -> _ _ ->]. Qed.

Lemma set_empty_given p v x :
  (∀ v s, given_part (poke p v s) = given_part s) →
  given_part (set_empty p v x).1 = given_part x.1.
Proof. intros H. unfold set_empty. destruct (String.eqb _ _); [apply H | done]. Qed.

Lemma deriveAddressing_typed :
  typed (accepted KEdgeSite) (accepted KEdgeSite) deriveAddressing (λ _, True).
Proof.
  unfold deriveAddressing. keep_step; [apply keeps_get|]. cbn beta zeta in *.
  assert (edge_site_ok (es_spec a) = true) as Ha by (by apply object_ok_unfold in H as (_ & ? & _)).
  assert (∀ l, Forall (λ p, ∀ v s, given_part (poke p v s) = given_part s) l.*1 →
    edge_site_ok (set_all l (es_spec a, false)).1 = true) as Hall.
  { intros l Hl. eapply given_ok; [by apply set_all_given | exact Ha]. }
  keep_step; [apply put_spec_typed, Hall; by repeat constructor | cbv beta].
  keep_step; [typed_walk|].
  keep_step; [apply put_spec_typed; eapply given_ok; [by apply set_empty_given|];
              apply Hall; by repeat constructor|].
  keep_step; [typed_walk|].
  keep_step; [apply put_spec_typed; do 3 (eapply given_ok; [by apply set_empty_given|]);
              apply Hall; by repeat constructor|].
  typed_walk.
Qed.

Lemma applyOwned_typed (I : EdgeSite → Prop) {k : kind} (o : obj k) :
  schema_ok o = true → typed I I (applyOwned o) (λ _, True).
Proof.
  intros Ho. unfold applyOwned. keep_step; [apply keeps_get|].
  apply upsert_typed. left. by apply with_meta_ok.
Qed.

Lemma pkgVariant_typed (I : EdgeSite → Prop) r name up repo down inject :
  typed I I (pkgVariant r name up repo down inject) (λ _, True).
Proof.
  unfold pkgVariant. keep_step; [apply keeps_get|]. apply applyOwned_typed. by destruct inject.
Qed.

(** The kinds of the claims are among those of the IPClaim's schema. *)
Lemma ipClaim_typed (I : EdgeSite → Prop) name kind :
  kind ∈ claims.*2 → typed I I (ipClaim name kind) (λ _, True).
Proof.
  intros Hk. unfold ipClaim. keep_step; [apply keeps_get|]. apply applyOwned_typed.
  revert kind Hk. apply Forall_forall. by repeat constructor.
Qed.

Lemma meshLink_typed (I : EdgeSite → Prop) cp : typed I I (meshLink cp) (λ _, True).
Proof. unfold meshLink. keep_step; [apply keeps_get|]. by apply applyOwned_typed. Qed.

Lemma edgeSlice_typed (I : EdgeSite → Prop) : typed I I edgeSlice (λ _, True).
Proof. unfold edgeSlice. keep_step; [apply keeps_get|]. by apply applyOwned_typed. Qed.

Lemma deliverRAN_typed (I : EdgeSite → Prop) repo : typed I I (deliverRAN repo) (λ _, True).
Proof. unfold deliverRAN. typed_walk. Qed.
#[local] Hint Resolve deriveAddressing_typed pkgVariant_typed meshLink_typed
  edgeSlice_typed deliverRAN_typed : keeps.
#[local] Hint Extern 2 (keeps _ _ _ _ (step _ _) _) =>
  (apply step_typed; [repeat constructor | typed_walk]) : keeps.

Lemma claim_steps_typed :
  typed (accepted KEdgeSite) (nearly KEdgeSite) claim_steps (λ _, True).
Proof.
  apply keeps_for_each. intros n Hn. apply step_typed.
  - revert n Hn. apply Forall_forall. by repeat constructor.
  - keep_step; [apply keeps_get|]. apply ipClaim_typed. by apply list_elem_of_fmap_2.
Qed.

Lemma cp_steps_typed r repo :
  typed (accepted KEdgeSite) (nearly KEdgeSite) (cp_steps r repo) (λ _, True).
Proof. unfold cp_steps, site_variant, deliverN2Expose, deliverCoreSlice. typed_walk. Qed.

Lemma edge_steps_typed :
  typed (accepted KEdgeSite) (nearly KEdgeSite) edge_steps (λ _, True).
Proof. unfold edge_steps. typed_walk. Qed.
#[local] Hint Resolve claim_steps_typed cp_steps_typed edge_steps_typed : keeps.

Lemma emit_typed r cluster :
  typed (accepted KEdgeSite) (nearly KEdgeSite) (emit r cluster) (λ _, True).
Proof. unfold emit, infra_variant, site_variant. typed_walk. Qed.

Lemma succeed_typed cluster :
  hoare admitted enforced (accepted KEdgeSite) (succeed cluster) (nearly KEdgeSite)
    (nearly KEdgeSite) (λ _, True).
Proof. unfold succeed. hoare_walk. Qed.
#[local] Hint Resolve emit_typed succeed_typed : keeps.

Lemma site_admitted r ns name :
  obeys admitted enforced (EdgeSite.Reconcile r ns name) (λ _, True).
Proof. apply (reconcile_obeys KEdgeSite). unfold reconcile_site. hoare_walk. Qed.
End edgesite.

(** ** Every controller *)

Section every.
Context {AM : Apimachinery} {NL : Netlink} {H : Helm}.

(** What controller-runtime calls for an object of the controller's kind. *)
Definition reconcile (r : reconciler) (ns name : string) : prog Env (result Result) :=
  match r with
  | RSDCoreDeployment cfg => SDCore.Reconcile cfg ns name
  | RNFDeployment cfg => NFDeploy.Reconcile cfg ns name
  | REdgeSite r => EdgeSite.Reconcile r ns name
  | RFleet => Fleet.Reconcile ns name
  | RMeshLink => MeshLink.Reconcile ns name
  | RSubscriber => Subscribers.Reconcile ns name
  | RNetworkSlice r => Slices.Reconcile r ns name
  | RNetwork => Fabric.Reconcile ns name
  | RUPFDataPath r => Datapath.Reconcile r ns name
  end.

(** What the operator can report and have stored. *)
Definition accepted_reports (k : kind) : list (ConditionStatus * string) :=
  List.filter (λ x, reason_ok x.2) (reports k).

Lemma obeys_reconcile {AML : ApimachineryLaws} r ns name :
  obeys admitted enforced (reconcile r ns name) (λ _, True).
Proof.
  destruct r; cbn [reconcile];
    auto using sdcore_admitted, nf_admitted, site_admitted, fleet_admitted, link_admitted,
      subscriber_admitted, slice_admitted, fabric_admitted, datapath_admitted.
Qed.

(** C6: Every controller writes objects the CRDs accept.  Against an API server that stores only
    what the schemas allow, every object a reconcile creates or updates satisfies the schema of
    its kind - that of its CustomResourceDefinition in config/crd/bases, or for the unstructured
    PackageVariants, IPClaims, NetworkInstances and VLANIndexes in platform/mgmt-bootstrap: types,
    required members, enumerations, patterns.  The one exception is the NetworkInstance of a
    NetworkFabric that declares a prefix which is not a CIDR: the NetworkFabric's schema takes any
    text, that of the NetworkInstance does not.  Every status written satisfies its schema - types
    and reasons match their patterns, no text is too long, conditions are keyed by type - but for
    the operator's own condition, whose reason may be one of the refused ones and whose message,
    quoting errors of the environment, may be too long; its status and reason are among the reports
    of the kind. *)
Theorem writes_admitted {AML : ApimachineryLaws} r ns name :
  obeys admitted enforced (reconcile r ns name) (λ _, True).
Proof. apply obeys_reconcile. Qed.

(** C13: What a status can say.  Against such a server, whatever it answers, a status it accepts
    carries the operator's condition with a status and reason the pattern of the schema allows:
    for a MeshLink that it is wired or that the cluster mesh failed, for an EdgeSite anything but
    the failure of an IPClaim. *)
Theorem accepted_status_reports {AML : ApimachineryLaws} r ns name :
  always (reconcile r ns name) (λ t _,
    Forall (relied enforced) t →
    ∀ k o o', @Ev Env (KStatusUpdate k o) (Ok o') ∈ t →
      ∃ c, find_condition (condition_type k) (conditions o) = Some c ∧
           (c_Status c, c_Reason c) ∈ accepted_reports k).
Proof.
  eapply always_impl; [|apply obeys_always, obeys_reconcile]. cbn beta.
  intros t _ Ht Hr k o o' Hin. specialize (Ht Hr) as [Ha _].
  rewrite Forall_forall in Ha, Hr. specialize (Ha _ Hin) as [_ Ha]. specialize (Hr _ Hin) as [_ Hr].
  destruct (accepted_report o Ha (Hr eq_refl)) as (c & Hc & Hrep & Hok).
  exists c. split; [done|]. apply list_elem_of_In, filter_In.
  split; [by apply list_elem_of_In | done].
Qed.
End every.

Lemma writes_admitted_witness :
  obeys admitted enforced (reconcile (NL := std_netlink) (H := lab_charts) RFleet "default" "lab")
    (λ _, True).
Proof. apply (writes_admitted (NL := std_netlink) (H := lab_charts) RFleet "default" "lab"). Defined.

(** The exception is real: the server takes the fabric and refuses its NetworkInstance. *)
Definition named_pool : NetworkFabric :=
  {| nf_meta := new_meta "default" "sdcore-vpc";
     nf_Prefixes := [{| fp_Prefix := "n3-pool"; fp_Labels := ∅ |}];
     nf_status := {| nfs_LastReconcile := ""; nfs_Conditions := [] |} |}.

Theorem fabric_prefix_unchecked :
  schema_ok (k := KNetworkFabric) named_pool = true ∧
  schema_ok (k := KUnstructured networkInstanceGVK) (network_instance named_pool) = false ∧
  schema_ok (k := KUnstructured networkInstanceGVK) (network_instance lab_fabric) = true.
Proof. rewrite !network_instance_ok. vm_compute. auto. Qed.

(** The EdgeSite of an entry that names no role: as declared it would be refused, as created it
    is not. *)
Example created_site_ok :
  let fleet := {| fl_meta := new_meta "default" "lab"; fl_Sites := [];
                  fl_status := {| fls_Sites := 0; fls_Message := ""; fls_Conditions := [] |} |} in
  let s := {| fs_Server := "192.168.1.10"; fs_User := ""; fs_Role := ""; fs_Name := "edge1";
              fs_RAN := None |} in
  let site role := new_site fleet (site_name s) (fs_Server s) (fs_User s) role (fs_RAN s) in
  schema_ok (k := KEdgeSite) (site (fs_Role s)) = false ∧
  schema_ok (k := KEdgeSite) (site (site_role s)) = true.
Proof. vm_compute. auto. Qed.

Lemma accepted_status_reports_witness :
  accepted_reports KMeshLink = [(ConditionTrue, "Wired"); (ConditionFalse, "clustermeshFailed")] ∧
  always (reconcile (NL := std_netlink) (H := lab_charts) RMeshLink "default" "edge1") (λ t _,
    Forall (relied enforced) t →
    ∀ k o o', @Ev Env (KStatusUpdate k o) (Ok o') ∈ t →
      ∃ c, find_condition (condition_type k) (conditions o) = Some c ∧
           (c_Status c, c_Reason c) ∈ accepted_reports k).
Proof.
  split; [vm_compute; reflexivity|].
  apply (accepted_status_reports (NL := std_netlink) (H := lab_charts) RMeshLink "default" "edge1").
Defined.

(** ** Failures that are never stored *)

Section unreported.
Context {AM : Apimachinery} {AML : ApimachineryLaws}.

Lemma refused_condition cs c :
  reason_ok (c_Reason c) = false → forallb condition_ok (SetStatusCondition cs c) = false.
Proof.
  intros Hr. destruct (forallb _ _) eqn:E; [|done].
  pose proof (set_condition_this cs c) as [Hin _]%find_first_Some.
  rewrite forallb_forall in E. specialize (E c (proj1 (list_elem_of_In _ _) Hin)).
  unfold condition_ok in E. rewrite Hr, andb_false_r in E. done.
Qed.

(** The conditions of a status update satisfy the schema. *)
Definition valid_status (e : event Env) : bool :=
  match ev_op e : call_op with
  | KStatusUpdate _ o => forallb condition_ok (conditions o)
  | _ => true
  end.

(** C14: A step of the wiring other than the cluster mesh fails silently: the failure status carries
    a reason with a space in it, the server refuses it, and no error is returned.  The link keeps
    the status it had. *)
Theorem link_failure_unreported what e ml :
  what ∈ wire_steps → what ≠ "clustermesh" →
  spec (MeshLink.fail what e) ml (λ t _ r,
    Forall (relied enforced) t →
    r = Ok {| RequeueAfter := requeueMesh |} ∧
    ∀ o o', @Ev Env (KStatusUpdate KMeshLink o) (Ok o') ∉ t).
Proof.
  intros Hw Hne. assert (reason_ok (what +:+ "Failed") = false) as Hr.
  { unfold wire_steps in Hw. rewrite !elem_of_cons in Hw.
    destruct Hw as [->|[->|[->|[->|[->|[->|[]%elem_of_nil]]]]]]; by vm_compute. }
  unfold MeshLink.fail, update_link_status, env.
  walk; intros Ht; (split; [done|]); intros o o' Hin;
    rewrite Forall_forall in Ht; specialize (Ht _ Hin) as [_ Hacc]; specialize (Hacc eq_refl);
    cbn [app] in Hin; rewrite !elem_of_cons in Hin;
    destruct_or! Hin; try discriminate Hin; try (by apply elem_of_nil in Hin);
    apply (f_equal valid_status) in Hin; cbn [valid_status ev_op] in Hin; rewrite Hacc in Hin;
    symmetry in Hin; unfold conditions in Hin; cbn in Hin; unfold setCondition in Hin;
    by rewrite refused_condition in Hin.
Qed.

End unreported.

Lemma link_failure_unreported_witness :
  spec (MeshLink.fail (AM := std_apimachinery) "edge client" (errorf "no route to host"))
    {| ml_meta := new_meta "default" "edge1";
       ml_spec := {| ml_Edge := "edge1"; ml_ControlPlane := "mgmt"; ml_UPFName := "upf-edge1" |};
       ml_status := empty_MeshLinkStatus |}
    (λ t _ r, Forall (relied enforced) t →
       r = Ok {| RequeueAfter := requeueMesh |} ∧
       ∀ o o', @Ev Env (KStatusUpdate KMeshLink o) (Ok o') ∉ t).
Proof.
  apply (link_failure_unreported (AM := std_apimachinery)).
  - left.
  - discriminate.
Defined.
