(* ===== verification/Termination.v ===== *)
(** * Every reconcile ends, and soon

    A reconcile makes a number of calls that is linear in what it is told: the [call_bound] of its
    controller, plus [item_bound] for each item of a listing, each Service address and each entry
    of a Fleet it read. *)

From S2P Require Import Prelude GoText Net Host Prog Cost Api Effects Helpers Upsert Charts SDCore.
From S2P Require Import NFDeploy Fabric GitOps Subscribers Slices Datapath Addressing RanProfile.
From S2P Require Import EdgeSite Fleet MeshLink Manager Admission.

(** ** What a call tells *)

(** A Service is an item itself, and so is each of its addresses. *)
Definition listed_items {k : kind} : obj k → nat :=
  match k return obj k → nat with
  | KService => λ o, S (length (svc_IngressIPs o))
  | _ => λ _, 1%nat
  end.

Definition read_items {k : kind} : obj k → nat :=
  match k return obj k → nat with
  | KFleet => λ o, length (fl_Sites o)
  | _ => λ _, 0%nat
  end.

Definition list_items {A} (f : A → nat) (r : result (list A)) : nat :=
  match r with Ok l => sum_list_with f l | Err _ => 0 end.

Definition items (c : op Env) : ans Env c → nat :=
  match c as c return answer c → nat with
  | KGet k _ _ => λ r, match r with Ok o => read_items o | Err _ => 0%nat end
  | KList k _ _ | KSelect k _ _ => list_items listed_items
  | RListPods _ _ => list_items (λ _, 1%nat)
  | RouteGet _ | RouteList => list_items (λ _, 1%nat)
  | AddrList _ => list_items (λ _, 1%nat)
  | NeighList _ => list_items (λ _, 1%nat)
  | _ => λ _, 0%nat
  end.

(** The calls a controller makes when nothing is listed. *)
Definition call_bound (r : reconciler) : nat :=
  match r with
  | RSDCoreDeployment _ => 6
  | RNFDeployment _ => 8
  | REdgeSite _ => 124
  | RFleet => 5
  | RMeshLink => 43
  | RSubscriber => 6
  | RNetworkSlice _ => 16
  | RNetwork => 9
  | RUPFDataPath _ => 89
  end.

Definition item_bound : nat := 10.

Definition credit (c : op Env) (r : ans Env c) : nat := (item_bound * items c r)%nat.

(** The items of a trace. *)
Definition told (t : list (event Env)) : nat :=
  sum_list_with (λ e : event Env, match e with Ev c r => items c r end) t.

Lemma credits_told t : credits credit t = (item_bound * told t)%nat.
Proof.
  induction t as [|[c r] t IH]; [done|]. unfold credits, told in *. cbn [sum_list_with].
  rewrite IH. unfold credit. lia.
Qed.

Lemma sum_ones {A} (l : list A) : sum_list_with (λ _, 1%nat) l = length l.
Proof. induction l as [|x l IH]; cbn; [done|]. by rewrite IH. Qed.

#[warnings="-notation-for-abbreviation"]
Notation affordable := (affords credit).
#[warnings="-notation-for-abbreviation"]
Notation cost := (costs credit).

(** The answer the goal is about to look at, by cases. *)
Tactic Notation "name_answer" simple_intropattern(p) :=
  match goal with |- context [of_result ?r] => is_var r; destruct r as p end.

Ltac cost_walk := intros ?s ?n ?Hn; unfold env_ok, env; pay; try lia.

(** ** Functions shared by several controllers *)

Section shared.
Context {St : Type}.

Lemma range_map_affords {A} (l : list A) (s : St) n Q :
  (0 < n)%nat → (∀ l', l' ≡ₚ l → Q s (Ok l') (n - 1)%nat) → affordable (range_map l) s n Q.
Proof.
  intros Hn HQ. unfold range_map, env. pay. unfold credit. cbn [items].
  rewrite Nat.mul_0_r, Nat.add_0_r.
  apply HQ, shuffle_perm.
Qed.

Lemma gitPut_cost repo path yaml : cost (gitPut (St := St) repo path yaml) 5.
Proof. unfold gitPut, gitea_auth, lookup_sha. cost_walk. Qed.

Lemma removeFromGit_cost repo path : cost (removeFromGit (St := St) repo path) 5.
Proof. unfold removeFromGit, gitea_auth, lookup_for_removal. cost_walk. Qed.

Lemma webuiPost_cost path body : cost (webuiPost (St := St) path body) 2.
Proof. unfold webuiPost. cost_walk. Qed.

Lemma mongoExec_cost cfg cs js : cost (mongoExec (St := St) cfg cs js) 2.
Proof. unfold mongoExec. cost_walk. Qed.

Lemma upsert_cost {k : kind} (o : obj k) : cost (upsert (St := St) o) 2.
Proof. unfold upsert. cost_walk. Qed.
End shared.

#[export] Hint Resolve gitPut_cost removeFromGit_cost webuiPost_cost mongoExec_cost upsert_cost : costs.

(** A controller reads its object, then works on it. *)
Lemma reconcile_pays {A} (k : kind) ns name (nf : error → result A) (m : act Env (obj k) A) b :
  (∀ o, affordable m o (b + item_bound * read_items o)%nat (λ _ _ _, True)) →
  pays credit
    (Call (S := Env) (KGet k ns name) (λ ans,
       match ans with Err e => Ret (nf e) | Ok o => x ← m o; mret x.2 end)) (S b)
    (λ _ _, True).
Proof.
  intros H. split; [lia|]. intros [o|e]; [|done].
  apply pays_bind. eapply pays_impl; [|replace (S b - 1)%nat with b by lia; exact (H o)]. done.
Qed.

(** A bounded reconcile is affordable. *)
Lemma cost_affordable {St A} (m : act Env St A) c s n :
  cost m c → (c ≤ n)%nat → affordable m s n (λ _ _ _, True).
Proof. intros Hm Hn. by apply (costs_use credit m c). Qed.

(** ** Controllers without lists *)

Section plain.
Context {AM : Apimachinery} {H : Helm}.

Lemma subscriber_pays ns name :
  pays credit (Subscribers.Reconcile ns name) (call_bound RSubscriber) (λ _ _, True).
Proof.
  apply (reconcile_pays KSubscriber). intros sub. apply (cost_affordable _ 5); [|cbn; lia].
  unfold reconcile_subscriber, provision_subscriber, subscriber_done, subFail, write_sub_status.
  cost_walk.
Qed.

Lemma fabric_pays ns name :
  pays credit (Fabric.Reconcile ns name) (call_bound RNetwork) (λ _ _, True).
Proof.
  apply (reconcile_pays KNetworkFabric). intros nf. apply (cost_affordable _ 8); [|cbn; lia].
  unfold reconcile_fabric, expand, ensure, fabric_done, fabric_fail, update_fabric_status.
  cost_walk.
Qed.

Lemma sdcore_pays cfg ns name :
  pays credit (SDCore.Reconcile cfg ns name) (call_bound (RSDCoreDeployment cfg)) (λ _ _, True).
Proof.
  apply (reconcile_pays KSDCoreDeployment). intros cr. apply (cost_affordable _ 5); [|cbn; lia].
  unfold reconcile_sdcore, deploy_release, sdcore_done, sdcore_fail. cost_walk.
Qed.

Lemma nf_pays cfg ns name :
  pays credit (NFDeploy.Reconcile cfg ns name) (call_bound (RNFDeployment cfg)) (λ _ _, True).
Proof.
  apply (reconcile_pays KNFDeployment). intros nfd. apply (cost_affordable _ 7); [|cbn; lia].
  unfold reconcile_nf, buildValuesFromNFDeployment, env_or, nf_release, nf_done. cost_walk.
Qed.
End plain.

(** ** MeshLinkReconciler *)

Section meshlink.
Context {AM : Apimachinery}.

Lemma clusterClient_cost name : cost (clusterClient name) 3.
Proof. unfold clusterClient. cost_walk. Qed.

Lemma apply_cost cs svc : cost (apply cs svc) 3.
Proof. unfold apply. cost_walk. Qed.
#[local] Hint Resolve clusterClient_cost apply_cost : costs.

Lemma ensureN4Endpoint_cost cs name ip : cost (ensureN4Endpoint cs name ip) 5.
Proof. unfold ensureN4Endpoint. cost_walk. Qed.

Lemma ensureClusterMesh_cost cs : cost (ensureClusterMesh cs) 17.
Proof.
  unfold ensureClusterMesh, secretYAML, range_map, deliverViaGit. cbn [for_each]. cost_walk.
Qed.

Lemma fail_cost what e : cost (MeshLink.fail what e) 3.
Proof. unfold MeshLink.fail, update_link_status. cost_walk. Qed.
#[local] Hint Resolve ensureN4Endpoint_cost ensureClusterMesh_cost fail_cost : costs.

Lemma wired_cost : cost wired 2.
Proof. unfold wired, update_link_status. cost_walk. Qed.
#[local] Hint Resolve wired_cost : costs.

Lemma attempt_cost {A} what (m : act Env MeshLink A) k c d :
  (3 ≤ d)%nat → cost m c → (∀ a, cost (k a) d) → cost (attempt what m k) (c + d).
Proof.
  intros Hd Hm Hk s n Hn. unfold attempt. apply affords_bind, affords_try.
  apply (costs_use credit m c); [done|lia|]. intros s' [a|e] n' Hn'.
  - apply (costs_use credit _ d); [apply Hk|lia|]. intros. lia.
  - apply (costs_use credit _ 3); [apply fail_cost|lia|]. intros. lia.
Qed.

Lemma wire_cost : cost wire 38.
Proof.
  intros ml n Hn. unfold wire. apply affords_bind, affords_get.
  apply (costs_use credit _ (3 + (3 + (17 + (3 + (3 + 9)))))%nat); [|lia|intros; lia].
  do 5 (apply attempt_cost; [lia|unfold ensureAmfGlobal; auto with costs|intros ?]).
  unfold wire_n4, podIP, attempt. cost_walk.
Qed.

Lemma link_pays ns name :
  pays credit (MeshLink.Reconcile ns name) (call_bound RMeshLink) (λ _ _, True).
Proof.
  apply (reconcile_pays KMeshLink). intros ml. apply (cost_affordable _ 42); [|cbn; lia].
  pose proof wire_cost.
  unfold reconcile_link, release, cleanupRemote, cleanup_cp, update_link. cost_walk.
Qed.
End meshlink.

(** ** EdgeSiteReconciler *)

Section edgesite.
Context {AM : Apimachinery}.

Lemma ranBase_cost : cost ranBase 1.
Proof. unfold ranBase, mgmtNodeIP. cost_walk. Qed.

Lemma allocateRanVIP_cost base : cost (allocateRanVIP base) 1.
Proof. unfold allocateRanVIP. cost_walk. Qed.
#[local] Hint Resolve ranBase_cost allocateRanVIP_cost : costs.

Lemma deriveAddressing_cost : cost deriveAddressing 3.
Proof. unfold deriveAddressing, put_spec, update_site. cost_walk. Qed.

Lemma step_failed_cost name e : cost (step_failed name e) 3.
Proof. unfold step_failed, update_status. cost_walk. Qed.

Lemma step_cost name fn c : cost fn c → cost (step name fn) (c + 4).
Proof.
  intros Hfn. pose proof step_failed_cost. unfold step, log_step. cost_walk.
Qed.

Lemma applyOwned_cost {k : kind} (o : obj k) : cost (applyOwned o) 2.
Proof. unfold applyOwned. cost_walk. Qed.
#[local] Hint Resolve deriveAddressing_cost applyOwned_cost : costs.

Lemma pkgVariant_cost r name up repo down inject : cost (pkgVariant r name up repo down inject) 2.
Proof. unfold pkgVariant. cost_walk. Qed.
#[local] Hint Resolve pkgVariant_cost : costs.

Lemma site_variant_cost r p up repo : cost (site_variant r p up repo) 2.
Proof. unfold site_variant. cost_walk. Qed.

Lemma infra_variant_cost r p up repo : cost (infra_variant r p up repo) 2.
Proof. unfold infra_variant. auto with costs. Qed.

Lemma ipClaim_cost name kind : cost (ipClaim name kind) 2.
Proof. unfold ipClaim. cost_walk. Qed.

Lemma meshLink_cost cp : cost (meshLink cp) 2.
Proof. unfold meshLink. cost_walk. Qed.

Lemma edgeSlice_cost : cost edgeSlice 2.
Proof. unfold edgeSlice. cost_walk. Qed.

Lemma deliverN2Expose_cost repo : cost (deliverN2Expose repo) 6.
Proof. unfold deliverN2Expose. cost_walk. Qed.

Lemma deliverCoreSlice_cost repo : cost (deliverCoreSlice repo) 10.
Proof. unfold deliverCoreSlice. cost_walk. Qed.

Lemma deliverRAN_cost repo : cost (deliverRAN repo) 20.
Proof. unfold deliverRAN. cost_walk. Qed.
#[local] Hint Resolve site_variant_cost infra_variant_cost ipClaim_cost meshLink_cost
  edgeSlice_cost deliverN2Expose_cost deliverCoreSlice_cost deliverRAN_cost step_cost : costs.

Lemma claim_steps_cost : cost claim_steps 24.
Proof.
  apply (costs_for_each credit claims _ 6). intros n _. apply (step_cost _ _ 2). cost_walk.
Qed.

Lemma cp_steps_cost r repo : cost (cp_steps r repo) 54.
Proof. unfold cp_steps. cost_walk. Qed.

Lemma edge_steps_cost : cost edge_steps 12.
Proof. unfold edge_steps. cost_walk. Qed.
#[local] Hint Resolve claim_steps_cost cp_steps_cost edge_steps_cost : costs.

Lemma emit_cost r cluster : cost (emit r cluster) 114.
Proof. unfold emit. cost_walk. Qed.

Lemma succeed_cost cluster : cost (succeed cluster) 2.
Proof. unfold succeed, update_status. cost_walk. Qed.
#[local] Hint Resolve emit_cost succeed_cost : costs.

Lemma site_pays r ns name :
  pays credit (EdgeSite.Reconcile r ns name) (call_bound (REdgeSite r)) (λ _ _, True).
Proof.
  apply (reconcile_pays KEdgeSite). intros es. apply (cost_affordable _ 123); [|cbn; lia].
  unfold reconcile_site. cost_walk.
Qed.
End edgesite.

(** ** NetworkSliceReconciler *)

Section slice.
Context {AM : Apimachinery}.

Lemma ensureProvisionedData_cost {St} cfg cs imsi sd :
  cost (ensureProvisionedData (St := St) cfg cs imsi sd) 10.
Proof.
  apply (costs_for_each credit collections _ 2). intros c _. cost_walk.
Qed.

Lemma repair_cost r name s imsis : cost (repair r name s imsis) (2 + 10 * length imsis).
Proof.
  unfold repair, ensureDnnConfig. intros st n Hn. destruct (nsr_clientset r); [|pay; lia].
  apply affords_bind, (costs_use credit _ 2); [apply mongoExec_cost|lia|].
  intros s' [[]|e] n' Hn'; [|lia].
  apply (costs_use credit _ (10 * length imsis)); [|lia|intros; lia].
  apply costs_for_each. intros imsi _. apply ensureProvisionedData_cost.
Qed.

Lemma slice_imsis_length name subs : (length (slice_imsis name subs) ≤ length subs)%nat.
Proof.
  unfold slice_imsis. rewrite length_fmap. induction subs as [|x l IH]; cbn; [done|].
  destruct (String.eqb _ _); cbn; lia.
Qed.

Lemma slice_done_cost imsis : cost (slice_done imsis) 4.
Proof. unfold slice_done, write_slice_status. cost_walk. Qed.

Lemma sliceFail_cost e : cost (sliceFail e) 3.
Proof. unfold sliceFail, write_slice_status. cost_walk. Qed.
#[local] Hint Resolve repair_cost slice_done_cost sliceFail_cost : costs.

(** The listing pays for the repairs of its Subscribers. *)
Lemma provision_slice_affords r ns n :
  (11 ≤ n)%nat → affordable (provision_slice r) ns n (λ _ _ n', (n - 11 ≤ n')%nat).
Proof.
  intros Hn. unfold provision_slice, env_ok, env. do 3 pay_step. cbn beta zeta.
  apply affords_wrap, affords_bind. pay_step. cbn beta iota. name_answer [subs|e].
  all: apply affords_of_result; cbn beta iota.
  2: lia.
  pose proof (slice_imsis_length (Name (ns_meta ns)) subs) as Hl.
  assert (credit (KList KSubscriber None []) (Ok subs) = 10 * length subs)%nat as Hc
    by (unfold credit; cbn [items list_items]; unfold listed_items; by rewrite sum_ones).
  rewrite Hc. cbn [obj] in *. pay; lia.
Qed.

Lemma slice_pays r ns name :
  pays credit (Slices.Reconcile r ns name) (call_bound (RNetworkSlice r)) (λ _ _, True).
Proof.
  apply (reconcile_pays KNetworkSlice). intros o. unfold reconcile_slice.
  apply affords_bind, affords_try. eapply affords_impl; [|apply provision_slice_affords; cbn; lia].
  cbn. intros s' [imsis|e] n' Hn'; pay; done.
Qed.
End slice.

(** ** FleetReconciler *)

Section fleet.
Context {AM : Apimachinery}.

Lemma collect_cost {A} (l : list A) (f : A → act Env Fleet (list string)) c :
  (∀ x, cost (f x) c) → cost (collect l f) (c * length l).
Proof.
  intros Hf. induction l as [|x l IH]; intros s n Hn; cbn [collect length] in *; [pay; lia|].
  apply affords_bind, (costs_use credit _ c); [apply Hf|lia|]. intros s' [a|e] n' Hn'; [|lia].
  apply affords_bind, (costs_use credit _ (c * length l)); [apply IH|lia|].
  intros s'' [b|e] n'' Hn''; [|lia]. pay. lia.
Qed.

Lemma reconcile_entry_cost sites name : cost (reconcile_entry sites name) 3.
Proof. unfold reconcile_entry, applyEdgeSite. cost_walk. Qed.

Lemma decommission_cost sites es : cost (decommission sites es) 3.
Proof. unfold decommission. cost_walk. Qed.

Lemma report_cost total errs : cost (report total errs) 2.
Proof. unfold report, update_fleet_status. cost_walk. Qed.

Lemma fleet_fail_cost e : cost (fleet_fail e) 1.
Proof. unfold fleet_fail, update_fleet_status. cost_walk. Qed.

Lemma desired_size sites : (size (desired sites) ≤ length sites)%nat.
Proof.
  induction sites as [|s sites IH] using rev_ind; [done|].
  rewrite desired_snoc, length_app. cbn. destruct (String.eqb (fs_Server s) ""); [lia|].
  rewrite map_size_insert. destruct (desired sites !! site_name s); cbn; lia.
Qed.

Lemma fleet_pays ns name :
  pays credit (Fleet.Reconcile ns name) (call_bound RFleet) (λ _ _, True).
Proof.
  apply (reconcile_pays KFleet). intros fleet. unfold reconcile_fleet. cbn [read_items].
  pose proof (desired_size (fl_Sites fleet)) as Hd. unfold item_bound.
  do 2 pay_step. cbn beta zeta iota. apply affords_bind, range_map_affords; [lia|].
  intros keys Hk%Permutation_length.
  assert (length (sort_strings keys) ≤ length (fl_Sites fleet))%nat as Hl.
  { unfold sort_strings. rewrite (Permutation_length (merge_sort_Permutation _ _)), Hk.
    rewrite length_fmap, length_map_to_list. done. }
  apply affords_bind, (costs_use credit _ (3 * length (sort_strings keys)));
    [apply collect_cost, reconcile_entry_cost|lia|].
  intros s [errs|e] n Hn; [|done]. unfold env. do 2 pay_step. cbn beta iota.
  match goal with |- context [credit _ ?r] => destruct r as [owned|e] end.
  - assert (credit (KList KEdgeSite (Some (Namespace (fl_meta fleet)))
      [(fleetLabel, Name (fl_meta fleet))]) (Ok owned) = 10 * length owned)%nat as Hc
      by (unfold credit; cbn [items list_items]; unfold listed_items; by rewrite sum_ones).
    rewrite Hc. apply affords_bind, (costs_use credit _ (3 * length owned));
      [apply collect_cost, decommission_cost|lia|].
    intros s' [errs'|e] n' Hn'; [|done].
    apply (costs_use credit _ 2); [apply report_cost|lia|done].
  - apply (costs_use credit _ 1); [apply fleet_fail_cost|lia|done].
Qed.
End fleet.

(** ** UPFDataPathReconciler *)

Section datapath.
Context {AM : Apimachinery} {NL : Netlink}.

Lemma for_all_cost {A B} (l : list A) (f : A → act Env UPFDataPath B) cs :
  Forall2 (λ x c, cost (f x) c) l cs → cost (for_all l f) (sum_list cs).
Proof.
  induction 1 as [|x c l cs Hx Hl IH]; intros s n Hn; cbn [for_all] in *; [pay; lia|].
  change (c + sum_list cs ≤ n)%nat in Hn. change (sum_list (c :: cs)) with (c + sum_list cs)%nat.
  apply affords_bind, (costs_use credit _ c); [done|lia|]. intros s' [a|e] n' Hn'; [|lia].
  apply affords_bind, (costs_use credit _ (sum_list cs)); [done|lia|].
  intros s'' [b|e] n'' Hn''; [|lia]. pay. lia.
Qed.

Lemma first_link_cost usable routes : cost (first_link usable routes) (length routes).
Proof.
  induction routes as [|rt routes IH]; intros s n Hn; cbn [first_link length] in *; [pay; lia|].
  assert (∀ n', (length routes ≤ n')%nat → (n - 1 ≤ n')%nat →
    affordable (first_link usable routes) s n' (λ _ _ n'', (n - S (length routes) ≤ n'')%nat)) as Hr
    by (intros n' H1 H2; apply (costs_use credit _ (length routes)); [done|lia|intros; lia]).
  unfold env. destruct (_ && _); [|apply Hr; lia].
  do 2 pay_step. cbn beta iota. match goal with |- context [credit _ ?r] => destruct r end;
    [pay; lia | apply Hr; lia].
Qed.

(** A listing brings in the credit for a loop over its elements. *)
Ltac listing l :=
  match goal with |- context [credit ?c ?r] =>
    is_var r; destruct r as [l|?];
    [replace (credit c (Ok l)) with (10 * length l)%nat
       by (unfold credit; cbn [items list_items]; unfold listed_items; by rewrite sum_ones);
     cbn [obj] in *
    |]
  end; cbn [or_nil route_link for_each].

Lemma route_get_cost ip usable :
  cost (routes ← env (St := UPFDataPath) (RouteGet ip); route_link usable routes) 1.
Proof.
  intros s n Hn. unfold env. do 2 pay_step. cbn beta iota. listing routes; [|pay; lia].
  apply (costs_use credit _ (length routes)); [apply first_link_cost|lia|intros; lia].
Qed.

Lemma route_list_cost usable :
  cost (routes ← env (St := UPFDataPath) RouteList; route_link usable routes) 1.
Proof.
  intros s n Hn. unfold env. do 2 pay_step. cbn beta iota. listing routes; [|pay; lia].
  apply (costs_use credit _ (length routes)); [apply first_link_cost|lia|intros; lia].
Qed.

Lemma hostEgressNic_cost preferred : cost (hostEgressNic preferred) 3.
Proof.
  unfold hostEgressNic. intros s n Hn. apply affords_bind.
  assert (cost (preferred_nic preferred) 1) as Hp by (unfold preferred_nic; cost_walk).
  apply (costs_use credit _ 1); [done|lia|]. intros s1 [[nic|]|e] n1 Hn1; [pay; lia| |lia].
  apply affords_assoc, affords_bind, (costs_use credit _ 1); [apply route_get_cost|lia|].
  intros s2 [[nic|]|e] n2 Hn2; [pay; lia| |lia].
  apply affords_assoc, affords_bind, (costs_use credit _ 1); [apply route_list_cost|lia|].
  intros s3 [nic|e] n3 Hn3; [pay; lia|lia].
Qed.

Lemma ensureBridge_cost a b : cost (ensureBridge [a; b]) 6.
Proof.
  apply (costs_for_each credit [a; b] _ 3). intros n _. unfold ensure_bridge. cost_walk.
Qed.

Lemma map_entries_cost (m : gmap string string) f c k :
  (size m ≤ k)%nat → (∀ x, cost (f x) c) →
  cost (entries ← range_map (St := UPFDataPath) (map_to_list m); for_each entries f) (1 + c * k).
Proof.
  intros Hm Hf s n Hn. apply affords_bind, range_map_affords; [lia|].
  intros l Hl%Permutation_length. rewrite length_map_to_list in Hl.
  apply (costs_use credit _ (c * k)); [|lia|intros; lia].
  apply costs_for_each_le; [lia|auto].
Qed.

Lemma two_entries (a b x y : string) : (size (<[a := x]> (<[b := y]> (∅ : gmap string string))) ≤ 2)%nat.
Proof.
  rewrite !map_size_insert, map_size_empty.
  destruct (_ !! _); destruct (_ !! _); cbn; lia.
Qed.

Lemma ensureBridgeAddr_cost a b x y : cost (ensureBridgeAddr (<[a := x]> (<[b := y]> ∅))) 7.
Proof.
  apply (map_entries_cost _ _ 3 2 (two_entries _ _ _ _)). intros [br gw].
  unfold ensure_addr. cost_walk.
Qed.

Lemma ensureForwarding_cost a b : cost (ensureForwarding [a; b]) 6.
Proof. unfold ensureForwarding. cbn [for_each]. cost_walk. Qed.

Lemma ensureRoute_cost pool nh br : cost (ensureRoute pool nh br) 2.
Proof. unfold ensureRoute. cost_walk. Qed.

Lemma ins_cost b t c rule : cost (ins b t c rule) 2.
Proof. unfold ins. cost_walk. Qed.
#[local] Hint Resolve ins_cost : costs.

Lemma nat_backend_cost pool nic br b : cost (nat_backend pool nic br b) 15.
Proof. unfold nat_backend. cost_walk. Qed.
#[local] Hint Resolve nat_backend_cost : costs.

Lemma nat_backends_cost pool nic br :
  cost (for_all backends (λ b, r ← nat_backend pool nic br b; mret (b, r))) (sum_list [15; 15]%nat).
Proof.
  apply for_all_cost. unfold backends. apply Forall2_cons; split; [cost_walk|].
  apply Forall2_cons; split; [cost_walk | constructor].
Qed.

Lemma ensureN6Nat_cost pool nic br : cost (ensureN6Nat pool nic br) 30.
Proof.
  intros s n Hn. unfold ensureN6Nat. destruct (String.eqb nic ""); [pay; lia|].
  apply affords_bind. eapply costs_use; [apply nat_backends_cost|exact Hn|].
  intros s' [results|e] n' Hn'; [|exact Hn']. pay; exact Hn'.
Qed.

Lemma podExec_cost r cs pod container cmd : cost (podExec r cs pod container cmd) 2.
Proof. unfold podExec. cost_walk. Qed.

Lemma upf_pods_cost cs label : cost (upf_pods cs label) 1.
Proof. unfold upf_pods. cost_walk. Qed.
#[local] Hint Resolve podExec_cost upf_pods_cost : costs.

Lemma ensureUpfPodHardening_cost r label : cost (ensureUpfPodHardening r label) 3.
Proof. unfold ensureUpfPodHardening. cost_walk. Qed.

Lemma ensureBessAccessRoute_cost r gnb label : cost (ensureBessAccessRoute r gnb label) 5.
Proof. unfold ensureBessAccessRoute. cost_walk. Qed.

(** *** Loops over listings: the listing pays *)

Lemma for_pods_cost (l : list Pod) f c s n k :
  (c ≤ 10)%nat → (∀ p, cost (f p) c) → (k + 10 * length l ≤ n)%nat →
  affordable (for_each (S := Env) (St := UPFDataPath) l f) s n (λ _ _ n', (k ≤ n')%nat).
Proof.
  intros Hc Hf Hn. apply (costs_use credit _ (c * length l)); [|nia|intros; nia].
  apply costs_for_each. auto.
Qed.

Lemma heal_pfcp_cost r cs p : cost (heal_pfcp r cs p) 3.
Proof. unfold heal_pfcp. cost_walk. Qed.

Lemma ensurePfcpHealthy_cost r label : cost (ensurePfcpHealthy r label) 1.
Proof.
  intros s n Hn. unfold ensurePfcpHealthy, upf_pods, env. destruct (dpr_clientset r); [|pay; lia].
  apply affords_bind, affords_bind. pay_step. cbn beta iota. apply affords_ret.
  listing pods; [|pay; lia].
  apply (for_pods_cost _ _ 3); [lia|intros; apply heal_pfcp_cost|lia].
Qed.

Lemma heal_upf_cost p : cost (heal_upf p) 2.
Proof. unfold heal_upf. cost_walk. Qed.

Lemma ensureUpfHealthy_cost label : cost (ensureUpfHealthy label) 2.
Proof.
  intros s n Hn. unfold ensureUpfHealthy, env. do 2 pay_step. cbn beta iota.
  pay_step; [|pay; lia]. do 2 pay_step. cbn beta iota. listing pods; [|pay; lia].
  apply (for_pods_cost _ _ 2); [lia|intros; apply heal_upf_cost|lia].
Qed.

Lemma refresh_neigh_cost x : cost (refresh_neigh x) 2.
Proof.
  destruct x as [ip dev]. intros s n Hn. unfold refresh_neigh, env.
  destruct (unset ip); [pay; lia|]. do 2 pay_step. cbn beta iota. pay_step; [|pay; lia].
  do 2 pay_step. cbn beta iota. listing neighs; [|pay; lia].
  apply (costs_use credit _ (1 * length neighs)); [|lia|intros; lia].
  apply costs_for_each. intros nb _. cost_walk.
Qed.

Lemma refreshNeigh_cost a b x y : cost (refreshNeigh (<[a := x]> (<[b := y]> ∅))) 5.
Proof.
  apply (map_entries_cost _ _ 2 2 (two_entries _ _ _ _)). apply refresh_neigh_cost.
Qed.

(** The addresses announced are among those listed. *)
Lemma wanted_size svcs :
  (length (elements (wanted_vips svcs)) + length svcs ≤
   sum_list_with (listed_items (k := KService)) svcs)%nat.
Proof.
  unfold wanted_vips.
  assert (length (elements (list_to_set (List.filter (λ ip, negb (String.eqb ip ""))
    (svcs ≫= svc_IngressIPs)) : gset string)) ≤ length (svcs ≫= svc_IngressIPs))%nat as Hl.
  { apply submseteq_length, NoDup_submseteq; [apply NoDup_elements|].
    intros x Hx%elem_of_elements%elem_of_list_to_set. apply list_elem_of_In, filter_In in Hx.
    apply list_elem_of_In, Hx. }
  assert (length (svcs ≫= svc_IngressIPs) + length svcs =
          sum_list_with (listed_items (k := KService)) svcs)%nat as <-; [|lia].
  clear Hl. induction svcs as [|svc svcs IH]; [done|].
  cbn [length sum_list_with]. rewrite bind_cons, length_app, <- IH.
  unfold listed_items. lia.
Qed.

Lemma ensureN2VIP_cost nic : cost (ensureN2VIP nic) 4.
Proof.
  intros s n Hn. unfold ensureN2VIP, env. destruct (String.eqb nic ""); [pay; lia|].
  do 2 pay_step. cbn beta iota.
  match goal with |- context [credit ?c ?r] => destruct r as [svcs|e] end; [|pay; lia].
  change (credit (KList KService None [("sdcore.nephio.io/expose", "n2")]) (Ok svcs))
    with (10 * sum_list_with (listed_items (k := KService)) svcs)%nat.
  pose proof (wanted_size svcs) as Hw. do 2 pay_step. cbn beta iota.
  match goal with |- context [credit _ ?r] => destruct r as [l|e] end; [|pay; lia].
  apply affords_bind, range_map_affords; [lia|]. intros ips Hi%Permutation_length.
  apply affords_bind, (costs_use credit _ (1 * length ips));
    [apply costs_for_each; intros ip _; unfold announce; cost_walk|lia|].
  intros s1 [[]|e] n1 Hn1; [|lia]. do 2 pay_step. cbn beta iota. listing existing; [|pay; lia].
  apply (costs_use credit _ (1 * length existing)); [|lia|intros; lia].
  apply costs_for_each. intros a _. cost_walk.
Qed.

(** *** The reconcile *)

Lemma run_step_cost r st c : cost st.2 c → cost (run_step r st) (c + 1).
Proof. intros Hst. unfold run_step. cost_walk. Qed.

Definition step_costs : list nat := [7; 8; 7; 3; 31; 5; 3; 4; 6; 2; 6]%nat.

Lemma datapath_steps_cost r s nic : cost (for_all (datapath_steps r s nic) (run_step r)) 82.
Proof.
  change 82%nat with (sum_list step_costs). apply for_all_cost. unfold datapath_steps, step_costs.
  repeat (apply Forall2_cons; split); [..|constructor].
  - apply (run_step_cost _ _ 6), ensureBridge_cost.
  - apply (run_step_cost _ _ 7), ensureBridgeAddr_cost.
  - apply (run_step_cost _ _ 6), ensureForwarding_cost.
  - apply (run_step_cost _ _ 2), ensureRoute_cost.
  - apply (run_step_cost _ _ 30), ensureN6Nat_cost.
  - apply (run_step_cost _ _ 4), ensureN2VIP_cost.
  - apply (run_step_cost _ _ 2), ensureUpfHealthy_cost.
  - apply (run_step_cost _ _ 3), ensureUpfPodHardening_cost.
  - apply (run_step_cost _ _ 5), ensureBessAccessRoute_cost.
  - apply (run_step_cost _ _ 1), ensurePfcpHealthy_cost.
  - apply (run_step_cost _ _ 5), refreshNeigh_cost.
Qed.

Lemma report_datapath_cost r failed : cost (report_datapath r failed) 3.
Proof. unfold report_datapath. cost_walk. Qed.

Lemma datapath_pays r ns name :
  pays credit (Datapath.Reconcile r ns name) (call_bound (RUPFDataPath r)) (λ _ _, True).
Proof.
  apply (reconcile_pays KUPFDataPath). intros dp. apply (cost_affordable _ 88); [|cbn; lia].
  pose proof hostEgressNic_cost. pose proof datapath_steps_cost. pose proof report_datapath_cost.
  unfold reconcile_datapath. cost_walk.
Qed.
End datapath.

(** ** Every controller *)

(** C17: Every reconcile ends, whatever the environment answers, after a number of calls that is
    linear in what it was told: at most the [call_bound] of its controller - from 5 for a Fleet to
    124 for an EdgeSite - and [item_bound], 10, more for each item of a listing, address of a
    listed Service, and entry of the Fleet it read. *)
Theorem reconcile_terminates `{Apimachinery, Netlink, Helm} r ns name :
  always (reconcile r ns name) (λ t _, (length t ≤ call_bound r + item_bound * told t)%nat).
Proof.
  assert (pays credit (reconcile r ns name) (call_bound r) (λ _ _, True)) as Hp.
  { destruct r; cbn [reconcile];
      auto using sdcore_pays, nf_pays, site_pays, fleet_pays, link_pays, subscriber_pays,
        slice_pays, fabric_pays, datapath_pays. }
  eapply always_impl; [|exact (pays_always credit _ _ _ Hp)]. cbn beta.
  intros t a Ht. by rewrite credits_told in Ht.
Qed.
