(* ===== verification/Health.v ===== *)
(** * In a healthy environment every reconcile succeeds

    The converse of the error theorems: when every call is answered as a working platform would -
    the API server stores and returns objects, Gitea and the webconsole accept requests, charts
    install, the host's links and routes are there - a reconcile of a well-formed object returns
    no error, and every status it writes reports success.  [healthy] is that platform, a call at a
    time; [provisionable] what the object itself must satisfy. *)

From S2P Require Import Prelude GoText Net Host Prog Rely Api Effects Helpers Upsert Schema Charts.
From S2P Require Import SDCore NFDeploy Fabric GitOps Subscribers Slices Datapath Addressing.
From S2P Require Import RanProfile EdgeSite Fleet MeshLink Manager Admission.

Section health.
Context {AM : Apimachinery} {AML : ApimachineryLaws} {NL : Netlink} {H : Helm}.

(** ** Objects *)

Definition nf_wired (s : NFDeploymentSpec) (component : string) : bool :=
  is_ok (loadChart component) &&
  (negb (String.eqb component "upf") ||
   is_ok (firstIfaceIPv4 (nfd_Interfaces s) "n3") && is_ok (firstIfaceIPv4 (nfd_Interfaces s) "n6")).

Definition gateway_ok (gw : string) : bool := unset gw || is_ok (ParseAddr (gw +:+ "/24")).

(** The reconcile of the object has what it needs in its own fields. *)
Definition provisionable {k : kind} : obj k → bool :=
  match k return obj k → bool with
  | KSubscriber => λ o, negb (too_short (sub_spec o))
  | KUPFDataPath => λ o,
      (String.eqb (dp_UEPool (dp_spec o)) "" ||
       bool_decide (is_Some (ParseCIDR (dp_UEPool (dp_spec o))))) &&
      gateway_ok (dp_AccessGateway (dp_spec o)) && gateway_ok (dp_CoreGateway (dp_spec o))
  | KSDCoreDeployment => λ o,
      is_ok (loadChart (sdc_Component (sdc_spec o))) && is_ok (chart_values (sdc_spec o))
  | KNFDeployment => λ o,
      match providerToComponent (nfd_Provider (nfd_spec o)) with
      | Some component => nf_wired (nfd_spec o) component
      | None => true
      end
  | _ => λ _, true
  end.

(** ** The platform *)

(** Which Services and EndpointSlices a peer cluster has. *)
Context (present : clientset → string → bool).

Definition found {A} (b : bool) (r : result A) : Prop :=
  match r with Ok _ => b = true | Err e => b = false ∧ IsNotFound e = true end.

Definition stored {k : kind} (r : result (obj k)) : Prop :=
  match r with Ok o => provisionable o = true | Err _ => False end.

Definition answered {A} (r : result A) : Prop := is_ok r = true.

(** The status of a request that was served: a look-up finds the file or reports it absent; what is
    deleted may be gone and what is posted may exist already; anything else is a success. *)
Definition served (method : string) (code : Z) : bool :=
  if String.eqb method "GET" then (code =? StatusOK) || (code =? StatusNotFound)
  else if String.eqb method "DELETE" then is_2xx code || (code =? StatusNotFound)
  else if String.eqb method "POST" then is_2xx code || (code =? StatusConflict)
  else is_2xx code.

Definition healthy (c : op Env) : ans Env c → Prop :=
  match c as c return answer c → Prop with
  | KGet KSecret _ name => λ r,
      match r with
      | Ok sec => name = "gitea-auth" ∨ is_Some (sec_Data sec !! "value")
      | Err _ => False
      end
  | KGet _ _ _ => λ r, stored r ∨ ∃ e, r = Err e ∧ IsNotFound e = true
  | KCreate k _ | KUpdate k _ | KStatusUpdate k _ => stored
  | KDelete _ _ => λ r, answered r ∨ ∃ e, r = Err e ∧ IsNotFound e = true
  | KList _ _ _ | KSelect _ _ _ => answered
  | NewRequest _ _ => answered
  | HttpDo rq => λ r,
      match r with Ok rs => served (rq_Method rq) (rs_StatusCode rs) = true | Err _ => False end
  | GetConfig | ConfigFromKubeConfig _ => answered
  | NewForConfig _ => answered
  | RGetSecret _ _ _ => answered
  | RGetService cs name => found (present cs name)
  | RCreateService _ _ | RUpdateService _ _ => answered
  | RGetEndpointSlice cs name => found (present cs name)
  | RCreateEndpointSlice _ _ | RUpdateEndpointSlice _ _ => answered
  | RListPods _ _ => answered
  | NewExecutor _ _ _ => answered
  | ExecStream _ => λ r, xo_Err r = None
  | LabelsParse _ => answered
  | LinkByName _ | LinkAddBridge _ => answered
  | LinkByIndex _ => λ r, match r with Ok l => ln_Name l ≠ "" | Err _ => False end
  | LinkSetUp _ => answered
  | RouteGet _ => λ r,
      match r with Ok routes => ∃ rt, rt ∈ routes ∧ 0 < rt_LinkIndex rt | Err _ => False end
  | RouteReplace _ => answered
  | AddrAdd _ _ | AddrReplace _ _ => answered
  | WriteFile _ _ => answered
  | IptInsert _ _ _ _ _ => answered
  | HelmInit _ _ _ => answered
  | HelmHistory _ _ _ => λ h, match h with HistoryError _ => False | _ => True end
  | HelmInstall _ _ | HelmUpgrade _ _ => answered
  | _ => λ _, True
  end.

(** A written status reports success. *)
Definition announces (k : kind) (o : obj k) : Prop :=
  ∃ c, find_condition (condition_type k) (conditions o) = Some c ∧ c_Status c = ConditionTrue.

Definition announced (c : op Env) : Prop :=
  match c : call_op with KStatusUpdate k o => announces k o | _ => True end.

End health.

(** Nothing fails: the assertion on an error is [False]. *)
#[warnings="-notation-for-abbreviation"]
Notation sane present I := (keeps announced (healthy present) I (λ _, False)).

Lemma served_put rq code :
  rq_Method rq = "PUT" → served (rq_Method rq) code = is_2xx code.
Proof. by intros ->. Qed.
Lemma served_post rq code :
  rq_Method rq = "POST" → served (rq_Method rq) code = is_2xx code || (code =? StatusConflict).
Proof. by intros ->. Qed.
Lemma served_delete rq code :
  rq_Method rq = "DELETE" → served (rq_Method rq) code = is_2xx code || (code =? StatusNotFound).
Proof. by intros ->. Qed.

Ltac vitals :=
  cbv beta in *;
  repeat match goal with
  | H : healthy _ _ _ |- _ => progress cbn [healthy] in H
  | H : served _ _ = true |- _ =>
      first [rewrite served_put in H by reflexivity | rewrite served_post in H by reflexivity
            | rewrite served_delete in H by reflexivity]
  | H : stored (Err _) |- _ => destruct H
  | H : stored (Ok _) |- _ => cbn [stored] in H
  | H : answered (Err _) |- _ => discriminate H
  | H : found _ (Err _) |- _ => cbn [found] in H
  | H : found _ (Ok _) |- _ => cbn [found] in H
  | H : False |- _ => destruct H
  | H : stored (Err _) ∨ _ |- _ => destruct H as [[]|H]
  | H : answered (Err _) ∨ _ |- _ => destruct H as [H|H]; [discriminate H|]
  end.

(** A failure a healthy platform cannot cause. *)
Ltac refute :=
  exfalso; vitals;
  try match goal with H : _ = _ ∨ is_Some _ |- _ => destruct H as [H|[? H]]; [discriminate H|] end;
  first [done | congruence | naive_solver congruence
        | unfold is_2xx, StatusNotFound in *; lia].

Ltac sane_step :=
  cbn beta iota zeta;
  lazymatch goal with
  | |- keeps _ _ _ _ (mbind (λ r, of_result r) _) ?Q =>
      first [is_evar Q; eapply keeps_no_error | eapply keeps_post; [|eapply keeps_no_error]]
  | |- ∀ e, ¬ _ => intros ? ?; refute
  | |- keeps _ _ _ _ (of_result _) ?Q =>
      first [is_evar Q; apply keeps_of_ok | eapply keeps_post; [|apply keeps_of_ok]]
  | |- keeps _ _ _ _ (try _) ?Q =>
      first [is_evar Q; eapply keeps_try_ok | eapply keeps_post; [|eapply keeps_try_ok]]
  | |- keeps _ _ _ _ (throw _) _ => refute
  | |- _ => keep_step
  end.

Ltac sane_walk :=
  unfold env_ok, env; repeat first [sane_step | solve [eauto with sane] | done];
  try assumption; try (intros ? _; vitals; assumption).
Create HintDb sane discriminated.

Section shared.
Context {AM : Apimachinery} {NL : Netlink} {H : Helm} (present : clientset → string → bool).
Context {St : Type} (I : St → Prop).

Lemma gitPut_sane repo path yaml : sane present I (gitPut repo path yaml) (λ _, True).
Proof. unfold gitPut, gitea_auth, lookup_sha. sane_walk. Qed.

Lemma removeFromGit_sane repo path : sane present I (removeFromGit repo path) (λ _, True).
Proof. unfold removeFromGit, gitea_auth, lookup_for_removal. sane_walk. Qed.

Lemma webuiPost_sane path body : sane present I (webuiPost path body) (λ _, True).
Proof. unfold webuiPost, accepted_code. sane_walk. Qed.

Lemma mongoExec_sane cfg cs js : sane present I (mongoExec cfg cs js) (λ _, True).
Proof. unfold mongoExec. sane_walk. Qed.

Lemma upsert_sane {k : kind} (o : obj k) :
  k ≠ KSecret → sane present I (upsert o) (λ _, True).
Proof. intros Hk. unfold upsert. destruct k; try done; sane_walk. Qed.
End shared.

#[export] Hint Resolve gitPut_sane removeFromGit_sane webuiPost_sane mongoExec_sane : sane.
#[export] Hint Extern 1 (keeps _ _ _ _ (upsert _) _) => (apply upsert_sane; discriminate) : sane.

(** ** The end of a reconcile

    The object is well formed; a status that reports success is set and written, and what the
    server answers is well formed again. *)

Section status.
Context {AM : Apimachinery} {AML : ApimachineryLaws} {NL : Netlink} {H : Helm}.
Context (present : clientset → string → bool).

Definition formed (k : kind) (o : obj k) : Prop := provisionable o = true.
Definition ready (k : kind) (o : obj k) : Prop := formed k o ∧ announces k o.

(** A change of the status that sets the operator's condition to true. *)
Lemma set_ready {k : kind} (o o' : obj k) c :
  formed k o → provisionable o' = provisionable o →
  conditions o' = SetStatusCondition (conditions o) c →
  c_Type c = condition_type k → c_Status c = ConditionTrue → ready k o'.
Proof.
  intros Ho Hp Hc Ht Hs. split; [by unfold formed; rewrite Hp|]. exists c.
  split; [|done]. by rewrite Hc, <- Ht, set_condition_this.
Qed.

Lemma ready_tail {A} (k : kind) E (f : obj k → obj k) (g : obj k → act Env (obj k) A) Q :
  (∀ o, formed k o → ready k (f o)) →
  (∀ o, announces k o → keeps announced (healthy present) (formed k) E (g o) Q) →
  keeps announced (healthy present) (formed k) E (_ ← modify f; o ← get; g o) Q.
Proof.
  intros Hf Hg. eapply hoare_bind; [by apply hoare_modify|]. intros _ _.
  eapply hoare_bind; [apply hoare_get|]. intros o [Ho Ha].
  eapply hoare_weaken; [|done|done|done|by apply Hg]. by intros s [? _].
Qed.

(** The same with a function that writes the status. *)
Lemma ready_write {A} (k : kind) E (g : obj k → act Env (obj k) A) Q :
  (∀ o, announces k o → keeps announced (healthy present) (formed k) E (g o) Q) →
  hoare announced (healthy present) (ready k) (o ← get; g o) (formed k) E Q.
Proof.
  intros Hg. eapply hoare_bind; [apply hoare_get|]. intros o [Ho Ha].
  eapply hoare_weaken; [|done|done|done|by apply Hg]. by intros s [? _].
Qed.

Lemma ready_then {A B} (k : kind) E (f : obj k → obj k) (w : act Env (obj k) A)
    (g : A → act Env (obj k) B) P Q :
  (∀ o, formed k o → ready k (f o)) →
  hoare announced (healthy present) (ready k) w (formed k) E P →
  (∀ a, P a → keeps announced (healthy present) (formed k) E (g a) Q) →
  keeps announced (healthy present) (formed k) E (_ ← modify f; a ← w; g a) Q.
Proof.
  intros Hf Hw Hg. eapply hoare_bind; [by apply hoare_modify|]. intros _ _.
  by eapply hoare_bind.
Qed.

(** The object is read, and written by the rest. *)
Lemma reconcile_sane {A} (k : kind) ns name (m : act Env (obj k) A) :
  k ≠ KSecret → sane present (formed k) m (λ _, True) →
  ∀ (nf : error → result A), (∀ e, IsNotFound e = true → is_ok (nf e) = true) →
  obeys announced (healthy present)
    (Call (S := Env) (KGet k ns name) (λ ans,
       match ans with Err e => Ret (nf e) | Ok o => x ← m o; mret x.2 end))
    (λ r, is_ok r = true).
Proof.
  intros Hk Hm nf Hnf. split; [done|]. intros [o|e] Hr.
  - apply obeys_bind. eapply obeys_impl; [|apply Hm].
    + by intros [s [a|e]]; cbn.
    + destruct k; try done; destruct Hr as [Hr|(e & Hr & _)]; done.
  - apply Hnf. destruct k; try done; destruct Hr as [[]|(e' & [= <-] & He)]; done.
Qed.
End status.

Ltac ready_status := intros ?o Ho; eapply set_ready; [exact Ho|reflexivity..].

(** The report of success: the status is set, [w] writes it, the rest only logs. *)
Ltac report_ready p k w :=
  apply (ready_then p k _ _ _ _ (λ _, True));
  [ready_status | unfold w; apply (ready_write p k); intros; sane_walk | intros; sane_walk].

(** ** Subscribers and slices *)

Section slices.
Context {AM : Apimachinery} {AML : ApimachineryLaws} {NL : Netlink} {H : Helm}.
Context (present : clientset → string → bool).

Lemma provision_subscriber_sane :
  sane present (formed KSubscriber) provision_subscriber (λ _, True).
Proof.
  unfold provision_subscriber. keep_step; [apply keeps_get|].
  unfold formed in *. cbn [provisionable] in *. destruct (too_short _); [done|]. sane_walk.
Qed.

Lemma subscriber_done_sane :
  sane present (formed KSubscriber) subscriber_done (λ _, True).
Proof.
  unfold subscriber_done. report_ready present KSubscriber write_sub_status.
Qed.
#[local] Hint Resolve provision_subscriber_sane subscriber_done_sane : sane.

Lemma subscriber_healthy ns name :
  obeys announced (healthy present) (Subscribers.Reconcile ns name) (λ r, is_ok r = true).
Proof.
  apply (reconcile_sane present KSubscriber); [done| |
    by intros e He; rewrite ignore_not_found, He].
  unfold reconcile_subscriber. sane_walk.
Qed.

Lemma slice_done_sane imsis : sane present (formed KNetworkSlice) (slice_done imsis) (λ _, True).
Proof.
  unfold slice_done. do 2 (keep_step; [sane_walk|]). cbn beta zeta.
  report_ready present KNetworkSlice write_slice_status.
Qed.
#[local] Hint Resolve slice_done_sane : sane.

Lemma slice_healthy r ns name :
  obeys announced (healthy present) (Slices.Reconcile r ns name) (λ r, is_ok r = true).
Proof.
  apply (reconcile_sane present KNetworkSlice); [done| |
    by intros e He; rewrite ignore_not_found, He].
  unfold reconcile_slice, provision_slice, repair, ensureDnnConfig, ensureProvisionedData.
  sane_walk.
Qed.

(** ** The fabric *)

Lemma fabric_done_sane : sane present (formed KNetworkFabric) fabric_done (λ _, True).
Proof.
  unfold fabric_done. do 2 (keep_step; [sane_walk|]).
  report_ready present KNetworkFabric update_fabric_status.
Qed.
#[local] Hint Resolve fabric_done_sane : sane.

Lemma fabric_healthy ns name :
  obeys announced (healthy present) (Fabric.Reconcile ns name) (λ r, is_ok r = true).
Proof.
  apply (reconcile_sane present KNetworkFabric); [done| |
    by intros e He; rewrite ignore_not_found, He].
  unfold reconcile_fabric, expand, ensure. sane_walk.
Qed.
End slices.

(** ** Charts *)

Section charts.
Context {AM : Apimachinery} {AML : ApimachineryLaws} {NL : Netlink} {H : Helm}.
Context (present : clientset → string → bool).

Lemma deploy_release_sane cfg :
  sane present (formed KSDCoreDeployment) (deploy_release cfg) (λ _, True).
Proof.
  unfold deploy_release. keep_step; [apply keeps_get|]. unfold formed in *.
  cbn [provisionable] in *.
  match goal with H : _ && _ = true |- _ => apply andb_true_iff in H as [Hch Hv] end.
  destruct (loadChart _) as [ch|]; [|done]. destruct (chart_values _) as [vals|]; [|done].
  sane_walk.
Qed.

Lemma sdcore_done_sane rev :
  sane present (formed KSDCoreDeployment) (sdcore_done rev) (λ _, True).
Proof.
  unfold sdcore_done. apply (ready_tail present KSDCoreDeployment); [ready_status|].
  intros. sane_walk.
Qed.
#[local] Hint Resolve deploy_release_sane sdcore_done_sane : sane.

Lemma sdcore_healthy cfg ns name :
  obeys announced (healthy present) (SDCore.Reconcile cfg ns name) (λ r, is_ok r = true).
Proof.
  apply (reconcile_sane present KSDCoreDeployment); [done| |
    by intros e He; rewrite ignore_not_found, He].
  unfold reconcile_sdcore. sane_walk.
Qed.

Lemma nf_done_sane component :
  sane present (formed KNFDeployment) (nf_done component) (λ _, True).
Proof.
  unfold nf_done. apply (ready_tail present KNFDeployment); [ready_status|].
  intros. sane_walk.
Qed.
#[local] Hint Resolve nf_done_sane : sane.

Lemma buildValues_sane component s :
  nf_wired s component = true →
  sane present (formed KNFDeployment) (buildValuesFromNFDeployment component s) (λ _, True).
Proof.
  unfold nf_wired, buildValuesFromNFDeployment, env_or. intros [_ Hw]%andb_true_iff.
  destruct (String.eqb component "upf"); cbn [negb orb] in Hw; [|sane_walk].
  apply andb_true_iff in Hw as [H3 H6].
  destruct (firstIfaceIPv4 _ "n3"); [|done]. destruct (firstIfaceIPv4 _ "n6"); [|done].
  sane_walk.
Qed.

Lemma nf_healthy cfg ns name :
  obeys announced (healthy present) (NFDeploy.Reconcile cfg ns name) (λ r, is_ok r = true).
Proof.
  apply (reconcile_sane present KNFDeployment); [done| |
    by intros e He; rewrite ignore_not_found, He].
  unfold reconcile_nf. keep_step; [apply keeps_get|]. unfold formed in *.
  cbn [provisionable] in *. destruct (providerToComponent _) as [component|]; [|sane_walk].
  pose proof (buildValues_sane component _ H0) as Hb. unfold nf_wired in H0.
  destruct (loadChart component); [|done]. unfold nf_release. sane_walk.
Qed.
End charts.

(** ** Fleets *)

Section fleet.
Context {AM : Apimachinery} {AML : ApimachineryLaws} {NL : Netlink} {H : Helm}.
Context (present : clientset → string → bool).

Lemma applyEdgeSite_sane name server user role ran :
  sane present (formed KFleet) (applyEdgeSite name server user role ran) (λ _, True).
Proof. unfold applyEdgeSite. sane_walk. Qed.
#[local] Hint Resolve applyEdgeSite_sane : sane.

(** No error is collected. *)
Lemma reconcile_entry_sane sites name :
  sane present (formed KFleet) (reconcile_entry sites name) (λ errs, errs = []).
Proof. unfold reconcile_entry. sane_walk. Qed.

Lemma decommission_sane sites es :
  sane present (formed KFleet) (decommission sites es) (λ errs, errs = []).
Proof. unfold decommission. sane_walk. refute. Qed.

Lemma collect_sane {A} (l : list A) (f : A → act Env Fleet (list string)) :
  (∀ x, sane present (formed KFleet) (f x) (λ errs, errs = [])) →
  sane present (formed KFleet) (collect l f) (λ errs, errs = []).
Proof.
  intros Hf. induction l as [|x l IH]; cbn [collect]; [by apply keeps_ret|].
  eapply keeps_bind; [apply Hf|]. intros ? ->. eapply keeps_bind; [apply IH|]. intros ? ->.
  by apply keeps_ret.
Qed.

Lemma report_sane total : sane present (formed KFleet) (report total []) (λ _, True).
Proof. unfold report. report_ready present KFleet update_fleet_status. Qed.
#[local] Hint Resolve report_sane : sane.

Lemma fleet_healthy ns name :
  obeys announced (healthy present) (Fleet.Reconcile ns name) (λ r, is_ok r = true).
Proof.
  apply (reconcile_sane present KFleet); [done| |
    by intros e He; rewrite ignore_not_found, He].
  unfold reconcile_fleet, range_map. keep_step; [apply keeps_get|]. cbn beta zeta.
  keep_step; [sane_walk|].
  keep_step; [apply collect_sane; apply reconcile_entry_sane|]. cbv beta in *. subst.
  eapply keeps_bind; [sane_walk|]. intros [items|e] Hl; [|refute].
  keep_step; [apply collect_sane; apply decommission_sane|]. cbv beta in *. subst.
  apply report_sane.
Qed.
End fleet.

(** ** MeshLinks *)

Section meshlink.
Context {AM : Apimachinery} {AML : ApimachineryLaws} {NL : Netlink} {H : Helm}.
Context (present : clientset → string → bool).

Lemma clusterClient_sane name : sane present (formed KMeshLink) (clusterClient name) (λ _, True).
Proof. unfold clusterClient. sane_walk. Qed.

Lemma apply_sane cs svc : sane present (formed KMeshLink) (apply cs svc) (λ _, True).
Proof. unfold apply. sane_walk. Qed.
#[local] Hint Resolve clusterClient_sane apply_sane : sane.

Lemma ensureN4Endpoint_sane cs name ip :
  sane present (formed KMeshLink) (ensureN4Endpoint cs name ip) (λ _, True).
Proof. unfold ensureN4Endpoint. sane_walk. Qed.

Lemma ensureClusterMesh_sane cs :
  sane present (formed KMeshLink) (ensureClusterMesh cs) (λ _, True).
Proof. unfold ensureClusterMesh, secretYAML, range_map, deliverViaGit. sane_walk. Qed.

Lemma wired_sane : sane present (formed KMeshLink) wired (λ _, True).
Proof.
  unfold wired. keep_step; [sane_walk|]. report_ready present KMeshLink update_link_status.
Qed.
#[local] Hint Resolve ensureN4Endpoint_sane ensureClusterMesh_sane wired_sane : sane.

Lemma attempt_sane {A} what (m : act Env MeshLink A) k :
  sane present (formed KMeshLink) m (λ _, True) →
  (∀ a, sane present (formed KMeshLink) (k a) (λ _, True)) →
  sane present (formed KMeshLink) (attempt what m k) (λ _, True).
Proof. intros Hm Hk. unfold attempt. sane_walk. Qed.

Lemma wire_sane : sane present (formed KMeshLink) wire (λ _, True).
Proof.
  unfold wire. keep_step; [sane_walk|].
  do 5 (apply attempt_sane; [unfold ensureAmfGlobal; sane_walk|intros ?]).
  unfold wire_n4, podIP, attempt. sane_walk.
Qed.

Lemma update_link_sane : sane present (formed KMeshLink) update_link (λ _, True).
Proof. unfold update_link. sane_walk. Qed.

Lemma cleanupRemote_sane : sane present (formed KMeshLink) cleanupRemote (λ _, True).
Proof. unfold cleanupRemote, cleanup_cp. sane_walk. Qed.
#[local] Hint Resolve wire_sane update_link_sane cleanupRemote_sane : sane.

Lemma link_healthy ns name :
  obeys announced (healthy present) (MeshLink.Reconcile ns name) (λ r, is_ok r = true).
Proof.
  apply (reconcile_sane present KMeshLink); [done| |
    by intros e He; rewrite ignore_not_found, He].
  unfold reconcile_link, release. sane_walk.
Qed.
End meshlink.

(** ** EdgeSites *)

Section edgesite.
Context {AM : Apimachinery} {AML : ApimachineryLaws} {NL : Netlink} {H : Helm}.
Context (present : clientset → string → bool).

Lemma step_sane name fn :
  sane present (formed KEdgeSite) fn (λ _, True) →
  sane present (formed KEdgeSite) (step name fn) (λ _, True).
Proof. intros Hfn. unfold step, log_step. sane_walk. Qed.

Lemma deriveAddressing_sane : sane present (formed KEdgeSite) deriveAddressing (λ _, True).
Proof.
  unfold deriveAddressing, put_spec, ranBase, mgmtNodeIP, allocateRanVIP, update_site. sane_walk.
Qed.

Lemma applyOwned_sane {k : kind} (o : obj k) :
  k ≠ KSecret → sane present (formed KEdgeSite) (applyOwned o) (λ _, True).
Proof. intros Hk. unfold applyOwned. keep_step; [sane_walk|]. by apply upsert_sane. Qed.

Lemma deliverRAN_sane repo : sane present (formed KEdgeSite) (deliverRAN repo) (λ _, True).
Proof. unfold deliverRAN. sane_walk. Qed.
#[local] Hint Resolve deriveAddressing_sane deliverRAN_sane : sane.
#[local] Hint Extern 1 (keeps _ _ _ _ (applyOwned _) _) =>
  (apply applyOwned_sane; discriminate) : sane.

Lemma pkgVariant_sane r name up repo down inject :
  sane present (formed KEdgeSite) (pkgVariant r name up repo down inject) (λ _, True).
Proof. unfold pkgVariant. sane_walk. Qed.
#[local] Hint Resolve pkgVariant_sane : sane.
#[local] Hint Extern 2 (keeps _ _ _ _ (step _ _) _) => (apply step_sane; sane_walk) : sane.

Lemma cp_steps_sane r repo : sane present (formed KEdgeSite) (cp_steps r repo) (λ _, True).
Proof.
  unfold cp_steps, site_variant, deliverN2Expose, deliverCoreSlice, ranBase, mgmtNodeIP. sane_walk.
Qed.

Lemma claim_steps_sane : sane present (formed KEdgeSite) claim_steps (λ _, True).
Proof. unfold claim_steps, ipClaim. sane_walk. Qed.

Lemma edge_steps_sane : sane present (formed KEdgeSite) edge_steps (λ _, True).
Proof. unfold edge_steps, meshLink, edgeSlice. sane_walk. Qed.
#[local] Hint Resolve cp_steps_sane claim_steps_sane edge_steps_sane : sane.

Lemma emit_sane r cluster : sane present (formed KEdgeSite) (emit r cluster) (λ _, True).
Proof. unfold emit, infra_variant, site_variant. sane_walk. Qed.

Lemma succeed_sane cluster : sane present (formed KEdgeSite) (succeed cluster) (λ _, True).
Proof.
  unfold succeed. apply (ready_then present KEdgeSite _ _ _ _ (λ r, is_ok r = true)).
  - ready_status.
  - unfold update_status. apply (ready_write present KEdgeSite). intros. sane_walk.
  - intros [[]|e] Hr; [sane_walk | discriminate Hr].
Qed.
#[local] Hint Resolve emit_sane succeed_sane : sane.

Lemma site_healthy r ns name :
  obeys announced (healthy present) (EdgeSite.Reconcile r ns name) (λ r, is_ok r = true).
Proof.
  apply (reconcile_sane present KEdgeSite); [done| |
    by intros e He; rewrite ignore_not_found, He].
  unfold reconcile_site. sane_walk.
Qed.
End edgesite.

(** ** Data paths *)

Section datapath.
Context {AM : Apimachinery} {AML : ApimachineryLaws} {NL : Netlink} {H : Helm}.
Context (present : clientset → string → bool).
Context (I : UPFDataPath → Prop).

(** A usable route with an output interface names a NIC. *)
Lemma first_link_sane usable routes :
  (∃ rt, rt ∈ routes ∧ usable rt = true ∧ 0 < rt_LinkIndex rt) →
  sane present I (first_link usable routes) (λ nic, ∃ n, nic = Some n ∧ n ≠ "").
Proof.
  induction routes as [|rt routes IH]; intros (x & Hin & Hu & Hi); [by apply elem_of_nil in Hin|].
  cbn [first_link]. unfold env. destruct (usable rt && (0 <? rt_LinkIndex rt)) eqn:E.
  - eapply keeps_bind; [sane_walk|]. intros [l|e] Hl; [|refute].
    apply keeps_ret. exists (ln_Name l). by split.
  - apply IH. apply elem_of_cons in Hin as [->|Hin]; [|by exists x].
    rewrite Hu in E. cbn in E. lia.
Qed.

Lemma hostEgressNic_sane preferred :
  sane present I (hostEgressNic preferred) (λ nic, nic ≠ "").
Proof.
  unfold hostEgressNic.
  eapply (keeps_bind _ _ _ _ _ _ (λ nic, match nic with Some n => n ≠ "" | None => True end)).
  { unfold preferred_nic. destruct (String.eqb_spec preferred ""); [by apply keeps_ret|].
    eapply keeps_bind; [sane_walk|]. intros [l|e] _; by apply keeps_ret. }
  intros [nic|] Hnic; [by apply keeps_ret|].
  eapply keeps_bind; [sane_walk|]. intros [routes|e] Hr; [|refute].
  cbn [healthy] in Hr. destruct Hr as (rt & Hin & Hi).
  eapply keeps_bind; [apply first_link_sane; by exists rt|]. intros ? (n & -> & Hn).
  by apply keeps_ret.
Qed.

Lemma for_all_sane {A B} (l : list A) (f : A → act Env UPFDataPath B) (P : B → Prop) :
  (∀ x, x ∈ l → sane present I (f x) P) → sane present I (for_all l f) (Forall P).
Proof.
  induction l as [|x l IH]; intros Hf; cbn [for_all]; [by apply keeps_ret|].
  eapply keeps_bind; [apply Hf; left|]. intros b Hb.
  eapply keeps_bind; [apply IH; intros y Hy; apply Hf; by right|]. intros rest Hrest.
  apply keeps_ret. by constructor.
Qed.

(** No rule is refused. *)
Definition not_refused (x : string * option (result unit)) : Prop :=
  match x.2 with Some (Err _) => False | _ => True end.

Lemma nat_errors_none results : Forall not_refused results → nat_errors results = [].
Proof.
  intros Hr. unfold nat_errors. induction Hr as [|[b [[[]|e]|]] l Hx _ IH]; [done|..]; cbn; try apply IH.
  destruct Hx.
Qed.

Lemma ensureN6Nat_sane pool nic br :
  nic ≠ "" → sane present I (ensureN6Nat pool nic br) (λ _, True).
Proof.
  intros Hn. unfold ensureN6Nat. destruct (String.eqb_spec nic ""); [done|].
  eapply keeps_bind; [apply (for_all_sane _ _ not_refused)|].
  - intros b _. unfold nat_backend, ins, env.
    eapply (keeps_bind _ _ _ _ _ _ (λ r, not_refused (b, r))).
    + eapply keeps_bind; [sane_walk|]. intros [[]|e] _; [|by apply keeps_ret].
      keep_step; [sane_walk|]. eapply keeps_bind; [sane_walk|]. intros [[]|e] Hi; [|refute].
      sane_walk.
    + intros r Hr. by apply keeps_ret.
  - intros results Hr. rewrite (nat_errors_none _ Hr), bool_decide_eq_false_2 by auto.
    rewrite andb_false_r. by apply keeps_ret.
Qed.

Lemma podExec_sane r cs pod container cmd : sane present I (podExec r cs pod container cmd) (λ _, True).
Proof. unfold podExec. sane_walk. Qed.
#[local] Hint Resolve podExec_sane : sane.

Lemma ensure_addr_sane br gw :
  gateway_ok gw = true → sane present I (ensure_addr (br, gw)) (λ _, True).
Proof.
  unfold gateway_ok, ensure_addr. destruct (unset gw); [intros _; by apply keeps_ret|].
  cbn [orb]. destruct (ParseAddr _) as [a|e]; [intros _|done]. sane_walk.
Qed.

Lemma ensureRoute_sane pool nh br :
  is_Some (ParseCIDR pool) → sane present I (ensureRoute pool nh br) (λ _, True).
Proof. intros [[ip net] Hp]. unfold ensureRoute. rewrite Hp. sane_walk. Qed.

Lemma gateways_sane a b x y :
  gateway_ok x = true → gateway_ok y = true →
  sane present I (ensureBridgeAddr (<[a := x]> (<[b := y]> ∅))) (λ _, True).
Proof.
  intros Hx Hy. unfold ensureBridgeAddr, range_map, env.
  eapply (keeps_bind _ _ _ _ _ _ (λ l, ∀ e, e ∈ l → gateway_ok e.2 = true)).
  - eapply keeps_bind; [sane_walk|]. intros order _. apply keeps_ret. intros [k v] Hin. cbn.
    rewrite shuffle_perm, elem_of_map_to_list in Hin.
    apply lookup_insert_Some in Hin as [[_ <-]|[_ Hin]]; [done|].
    apply lookup_insert_Some in Hin as [[_ <-]|[_ Hin]]; [done|]. by rewrite lookup_empty in Hin.
  - intros entries He. apply keeps_for_each. intros [br gw] Hin. by apply ensure_addr_sane, (He (br, gw)).
Qed.

(** Every step of a well-formed data path succeeds. *)
Lemma datapath_steps_sane r s nic st :
  is_Some (ParseCIDR (dp_UEPool s)) → gateway_ok (dp_AccessGateway s) = true →
  gateway_ok (dp_CoreGateway s) = true → nic ≠ "" →
  st ∈ datapath_steps r s nic → sane present I st.2 (λ _, True).
Proof.
  intros Hpool Ha Hc Hnic. unfold datapath_steps. rewrite list_elem_of_In. cbn [In].
  intros Hst; repeat (destruct Hst as [<-|Hst]); [..|done]; cbn [snd].
  - unfold ensureBridge, ensure_bridge. sane_walk.
  - by apply gateways_sane.
  - unfold ensureForwarding. sane_walk.
  - by apply ensureRoute_sane.
  - by apply ensureN6Nat_sane.
  - unfold ensureN2VIP, announce, range_map. sane_walk.
  - unfold ensureUpfHealthy, heal_upf. sane_walk.
  - unfold ensureUpfPodHardening, upf_pods. sane_walk.
  - unfold ensureBessAccessRoute, upf_pods. sane_walk.
  - unfold ensurePfcpHealthy, upf_pods, heal_pfcp. sane_walk.
  - unfold refreshNeigh, refresh_neigh, range_map. sane_walk.
Qed.

Lemma run_step_sane r st :
  sane present I st.2 (λ _, True) → sane present I (run_step r st) (λ o, o = None).
Proof. intros Hst. unfold run_step. sane_walk. Qed.
End datapath.

Section every.
Context {AM : Apimachinery} {AML : ApimachineryLaws} {NL : Netlink} {H : Helm}.
Context (present : clientset → string → bool).

Lemma report_datapath_sane r failed :
  failed = [] → sane present (formed KUPFDataPath) (report_datapath r failed) (λ _, True).
Proof.
  intros ->. unfold report_datapath. rewrite bool_decide_eq_false_2 by auto.
  keep_step; [sane_walk|]. apply (ready_tail present KUPFDataPath); [ready_status|].
  intros. sane_walk.
Qed.

Lemma datapath_healthy r ns name :
  obeys announced (healthy present) (Datapath.Reconcile r ns name) (λ r, is_ok r = true).
Proof.
  apply (reconcile_sane present KUPFDataPath); [done| |
    by intros e He; rewrite ignore_not_found, He].
  unfold reconcile_datapath. eapply keeps_bind; [apply keeps_get|]. intros dp Hdp. cbv beta zeta in *.
  unfold formed in Hdp. cbn [provisionable] in Hdp.
  apply andb_true_iff in Hdp as [[Hp Ha]%andb_true_iff Hc].
  destruct (String.eqb (dp_UEPool (dp_spec dp)) ""); [by apply keeps_ret|].
  cbn [orb] in Hp. apply bool_decide_eq_true in Hp.
  eapply keeps_bind; [apply hostEgressNic_sane|]. intros nic Hnic. cbv beta in Hnic.
  eapply keeps_bind; [apply (for_all_sane _ _ _ _ (λ o, o = None))|].
  - intros st Hst. eapply run_step_sane, datapath_steps_sane; eauto.
  - intros outcomes Ho. apply report_datapath_sane.
    induction Ho as [|o l -> _ IH]; [done|]. exact IH.
Qed.

(** C7: In a healthy environment every reconcile succeeds.  When every call is answered as a working
    platform would - the API server stores and returns well-formed objects or reports them absent,
    Gitea finds the file looked up or answers 404 for one not delivered yet and acknowledges what
    it is sent, what is posted may exist and what is deleted may be gone already, the kubeconfig
    Secrets of the peers have their value, each peer either has a Service or reports it absent,
    charts install, the host has its links, routes and iptables - then a reconcile returns no error
    and every status it writes reports success.  Well formed is: an IMSI long enough, parseable UE
    pool and gateways, a known chart with parseable values, the interfaces a UPF needs. *)
Theorem healthy_reconcile_succeeds r ns name :
  obeys announced (healthy present) (reconcile r ns name) (λ res, is_ok res = true).
Proof.
  destruct r; cbn [reconcile];
    auto using sdcore_healthy, nf_healthy, site_healthy, fleet_healthy, link_healthy,
      subscriber_healthy, slice_healthy, fabric_healthy, datapath_healthy.
Qed.
End every.

(** ** A platform that is healthy on every call *)

Definition lab_link : MeshLink :=
  {| ml_meta := new_meta "default" "edge1";
     ml_spec := {| ml_Edge := "edge1"; ml_ControlPlane := "mgmt"; ml_UPFName := "upf-edge1" |};
     ml_status := empty_MeshLinkStatus |}.

(** What the server answers to a write of an object that is not well formed. *)
Definition sample {k : kind} : obj k → obj k :=
  match k return obj k → obj k with
  | KSubscriber => λ o,
      {| sub_meta := sub_meta o;
         sub_spec := {| sub_IMSI := "001010100007488"; sub_Key := ""; sub_Opc := "";
                        sub_SliceRef := ""; sub_SequenceNumber := "" |};
         sub_status := sub_status o |}
  | KUPFDataPath => λ _, lab_datapath
  | KSDCoreDeployment => λ o,
      {| sdc_meta := sdc_meta o;
         sdc_spec := {| sdc_Component := "upf"; sdc_Values := None; sdc_TargetNamespace := "" |};
         sdc_status := sdc_status o |}
  | KNFDeployment => λ o,
      {| nfd_meta := nfd_meta o;
         nfd_spec := {| nfd_Provider := ""; nfd_Interfaces := []; nfd_NetworkInstances := [] |};
         nfd_Conditions := nfd_Conditions o |}
  | _ => λ o, o
  end.

Section platform.
Existing Instance std_apimachinery.
Existing Instance std_netlink.
#[local] Existing Instance lab_charts.

Definition echo {k : kind} (o : obj k) : result (obj k) :=
  Ok (if provisionable o then o else sample o).

(** The MeshLink is stored; its peers and its repository hold nothing yet: the look-up of a file
    that was never delivered is answered 404, and what is sent is accepted. *)
Definition platform (c : call_op) : answer c :=
  let absent := Error true "not found" in
  let eth0 := {| ln_Name := "eth0"; ln_Index := 2 |} in
  match c return answer c with
  | KGet KMeshLink _ _ => Ok lab_link
  | KGet KSecret ns name =>
      Ok {| sec_meta := new_meta ns name; sec_Data := <["value" := "kubeconfig"]> ∅ |}
  | KGet _ _ _ => Err absent
  | KList _ _ _ | KSelect _ _ _ => Ok []
  | KCreate _ o | KUpdate _ o | KStatusUpdate _ o => echo o
  | KDelete _ _ => Ok tt
  | NewRequest _ _ => Ok tt
  | HttpDo rq =>
      Ok {| rs_StatusCode := if String.eqb (rq_Method rq) "GET" then 404 else 201;
            rs_Body := ""; rs_Sha := "" |}
  | GetConfig | ConfigFromKubeConfig _ => Ok (RestConfig 0)
  | NewForConfig _ => Ok (Clientset 0)
  | RGetSecret _ ns name => Ok {| sec_meta := new_meta ns name; sec_Data := ∅ |}
  | RGetService _ _ | RGetEndpointSlice _ _ => Err absent
  | RCreateService _ s | RUpdateService _ s => Ok s
  | RCreateEndpointSlice _ s | RUpdateEndpointSlice _ s => Ok s
  | RListPods _ _ =>
      Ok [{| pod_meta := new_meta "default" "upf-0"; pod_Created := 0; pod_Phase := "Running";
             pod_PodIP := "10.7.0.12"; pod_Conditions := []; pod_ContainerStatuses := [];
             pod_InitContainerStatuses := [] |}]
  | NewExecutor _ _ _ => Ok tt
  | ExecStream _ => {| xo_Stdout := ""; xo_Stderr := ""; xo_Err := None |}
  | LabelsParse _ => Ok (Selector 0)
  | LinkByName _ | LinkByIndex _ | LinkAddBridge _ => Ok eth0
  | LinkSetUp _ | RouteReplace _ | AddrAdd _ _ | AddrReplace _ _ | WriteFile _ _ => Ok tt
  | RouteGet _ => Ok [{| rt_Dst := None; rt_LinkIndex := 2 |}]
  | IptInsert _ _ _ _ _ => Ok tt
  | HelmInit _ _ _ => Ok (HelmConfig 0)
  | HelmHistory _ _ _ => ReleaseNotFound
  | HelmInstall _ _ | HelmUpgrade _ _ => Ok 1
  | c => refusal c
  end.

Lemma echo_stored {k : kind} (o : obj k) : stored (echo o).
Proof.
  cbn. destruct (provisionable o) eqn:E; [done|].
  destruct k; try discriminate E; vm_compute; reflexivity.
Qed.

Lemma platform_healthy c : healthy (λ _ _, false) c (platform c).
Proof.
  destruct c; try (destruct k); try done; try apply echo_stored; cbn; try (by left);
    try (right; by eexists); try (by eexists; split; [left|]); try (right; by rewrite lookup_insert_eq).
  unfold served. by destruct (String.eqb (rq_Method rq) "GET"),
    (String.eqb (rq_Method rq) "DELETE"), (String.eqb (rq_Method rq) "POST").
Qed.

Definition on_platform : handler Env unit := λ c w, (platform c, w).

Lemma replays_platform w t w' :
  replays on_platform w t w' → Forall (relied (healthy (λ _ _, false))) t.
Proof.
  revert w. induction t as [|[c r] t IH]; intros w; [constructor|]. cbn [replays].
  intros [<- Ht]. constructor; [apply platform_healthy | by eapply IH].
Qed.

Lemma healthy_reconcile_succeeds_witness :
  let p := reconcile RMeshLink "default" "edge1" in
  obeys announced (healthy (λ _ _, false)) p (λ res, is_ok res = true) ∧
  Forall (relied (healthy (λ _ _, false))) (run_trace on_platform p tt) ∧
  is_ok (run_value on_platform p tt) = true.
Proof.
  cbv zeta. split; [apply healthy_reconcile_succeeds|].
  split; [eapply replays_platform, run_replays|]. vm_compute. reflexivity.
Defined.
End platform.
