(* ===== verification/Memory.v ===== *)
(** * Memory: pointers, slices and maps of Go

    The other files treat the objects a reconciler holds as values.  This is sound as long as two
    objects share no memory, and that is what the deep copies of the API types are for
    (DeepCopy.v).  This file is the memory they work on: cells with structs, backing arrays and
    maps, addresses of variables, fields and elements, and a small monad in which a
    nil dereference or an index out of range is a panic.

    [view] reads a value of a type out of memory as a tree without references, with the set of
    the cells it is made of; [copies] says that a function is a deep copy: the tree is the same,
    the cells are new, and nothing else has changed. *)

From S2P Require Import Prelude.

(** ** Values and memory *)

Abbreviation loc := positive (only parsing).

(** The address of a variable, of a field of a struct, or of an element of a backing array. *)
Inductive addr :=
| Cell (l : loc)
| Field (a : addr) (f : string)
| Elem (l : loc) (i : nat).

(** A slice: its backing array, the index it starts at, and its length. *)
Record slice := { arr : loc; off : nat; len : nat }.

#[warnings="-register-all"]
Inductive gval :=
| VString (s : string)
| VInt (z : Z)
| VBool (b : bool)
| VStruct (fs : list (string * gval))
| VPtr (p : option addr)
| VSlice (s : option slice)
| VMap (m : option loc).

Inductive cell :=
| CVal (v : gval)
| CArr (vs : list gval)
| CDict (d : gmap string string).

Abbreviation mem := (gmap loc cell) (only parsing).

(** The cell an address lies in. *)
Fixpoint root (a : addr) : loc :=
  match a with
  | Cell l => l
  | Field a _ => root a
  | Elem l _ => l
  end.

Fixpoint assoc {A} (f : string) (fs : list (string * A)) : option A :=
  match fs with
  | [] => None
  | (g, v) :: fs => if decide (f = g) then Some v else assoc f fs
  end.

Fixpoint assoc_set {A} (f : string) (w : A) (fs : list (string * A)) : list (string * A) :=
  match fs with
  | [] => []
  | (g, v) :: fs => if decide (f = g) then (g, w) :: fs else (g, v) :: assoc_set f w fs
  end.

Fixpoint load (m : mem) (a : addr) : option gval :=
  match a with
  | Cell l => match m !! l with Some (CVal v) => Some v | _ => None end
  | Field a f => match load m a with Some (VStruct fs) => assoc f fs | _ => None end
  | Elem l i => match m !! l with Some (CArr vs) => vs !! i | _ => None end
  end.

(** Assignment to what an address names; there is nothing to assign to where [load] fails. *)
Fixpoint store (m : mem) (a : addr) (w : gval) : option mem :=
  match a with
  | Cell l => match m !! l with Some (CVal _) => Some (<[l := CVal w]> m) | _ => None end
  | Field a f =>
      match load m a with
      | Some (VStruct fs) =>
          match assoc f fs with
          | Some _ => store m a (VStruct (assoc_set f w fs))
          | None => None
          end
      | _ => None
      end
  | Elem l i =>
      match m !! l with
      | Some (CArr vs) =>
          if decide (i < length vs)%nat then Some (<[l := CArr (<[i := w]> vs)]> m) else None
      | _ => None
      end
  end.

(** ** Statements *)

(** A computation on memory; [None] is a panic. *)
Definition Mem (A : Type) : Type := mem → option (A * mem).

#[export] Instance Mem_ret : MRet Mem := λ A a m, Some (a, m).
#[export] Instance Mem_bind : MBind Mem := λ A B f x m,
  match x m with Some (a, m') => f a m' | None => None end.

Definition panic {A} : Mem A := λ m, None.

Definition read_at (a : addr) : Mem gval := λ m, (λ v, (v, m)) <$> load m a.
Definition assign (a : addr) (v : gval) : Mem unit := λ m, (λ m', (tt, m')) <$> store m a v.

(** A new cell, at an address that was not in use. *)
Definition alloc (c : cell) : Mem loc := λ m,
  let l := fresh (dom m) in Some (l, <[l := c]> m).

Definition deref (a : addr) : Mem addr :=
  v ← read_at a; match v with VPtr (Some p) => mret p | _ => panic end.

(** The elements a slice ranges over. *)
Definition elems (m : mem) (s : slice) : option (list gval) :=
  match m !! arr s with
  | Some (CArr vs) =>
      if decide (off s + len s ≤ length vs)%nat then Some (take (len s) (drop (off s) vs)) else None
  | _ => None
  end.

(** The slice in a variable, nil being the empty one; [&x[i]]. *)
Definition slice_at (a : addr) : Mem (option slice) :=
  v ← read_at a; match v with VSlice s => mret s | _ => panic end.

Definition index (a : addr) (i : nat) : Mem addr :=
  s ← slice_at a;
  match s with
  | Some s => if decide (i < len s)%nat then mret (Elem (arr s) (off s + i)) else panic
  | None => panic
  end.

Fixpoint for_each {A} (l : list A) (body : A → Mem unit) : Mem unit :=
  match l with
  | [] => mret tt
  | x :: l => body x ≫= λ _, for_each l body
  end.

(** [copy(dst, src)] for slices of elements without references. *)
Definition copy_slice (dst src : option slice) : Mem unit := λ m,
  match dst, src with
  | Some d, Some s =>
      match elems m s, m !! arr d with
      | Some vs, Some (CArr ws) =>
          let n := Nat.min (len d) (len s) in
          Some (tt, <[arr d := CArr (take (off d) ws ++ take n vs ++ drop (off d + n) ws)]> m)
      | _, _ => None
      end
  | _, _ => Some (tt, m)
  end.

(** [(a)[k] = v] for the map in a variable; assignment to a nil map panics. *)
Definition map_at (a : addr) : Mem (option loc) :=
  v ← read_at a; match v with VMap p => mret p | _ => panic end.

Definition dict (l : loc) : Mem (gmap string string) := λ m,
  match m !! l with Some (CDict d) => Some (d, m) | _ => None end.

Definition set_key (l : loc) (k v : string) : Mem unit := λ m,
  match m !! l with
  | Some (CDict d) => Some (tt, <[l := CDict (<[k := v]> d)]> m)
  | _ => None
  end.

Definition map_assign (a : addr) (k v : string) : Mem unit :=
  p ← map_at a; match p with Some l => set_key l k v | None => panic end.

(** Go leaves the order in which a map is ranged over open. *)
Class MapRange := {
  range_order : gmap string string → list (string * string);
  range_order_perm d : range_order d ≡ₚ map_to_list d;
}.

#[export] Program Instance range_listed : MapRange := {| range_order := map_to_list |}.
Next Obligation. done. Qed.

(** ** Types *)

#[warnings="-register-all"]
Inductive ty :=
| TString
| TInt
| TBool
| TStruct (fs : list (string * ty))
| TPtr (t : ty)
| TSlice (t : ty)
| TMap.  (* map[string]string *)

(** The zero value, with which [new] and [make] fill memory. *)
Fixpoint zero (t : ty) : gval :=
  match t with
  | TString => VString ""
  | TInt => VInt 0
  | TBool => VBool false
  | TStruct fs => VStruct (map (λ '(f, t), (f, zero t)) fs)
  | TPtr _ => VPtr None
  | TSlice _ => VSlice None
  | TMap => VMap None
  end.

Definition new (t : ty) : Mem addr := l ← alloc (CVal (zero t)); mret (Cell l).

Definition make_slice (t : ty) (n : nat) : Mem slice :=
  l ← alloc (CArr (replicate n (zero t))); mret {| arr := l; off := 0; len := n |}.

Definition make_map : Mem loc := alloc (CDict ∅).

(** A type without references: its values can be copied by assignment. *)
Fixpoint flat (t : ty) : bool :=
  match t with
  | TString | TInt | TBool => true
  | TStruct fs => forallb (λ '(f, t), flat t) fs
  | TPtr _ | TSlice _ | TMap => false
  end.

(** ** What a value denotes *)

(** A value without references; nil and empty slices and maps are told apart. *)
#[warnings="-register-all"]
Inductive tree :=
| XString (s : string)
| XInt (z : Z)
| XBool (b : bool)
| XStruct (fs : list (string * tree))
| XPtr (p : option tree)
| XSlice (s : option (list tree))
| XMap (m : option (gmap string string)).

(** The results for the elements of a list, if there is one for each, and the union of their
    cells. *)
Fixpoint gather {A B} (f : A → option (B * gset loc)) (l : list A) :
    option (list B * gset loc) :=
  match l with
  | [] => Some ([], ∅)
  | a :: l =>
      match f a, gather f l with
      | Some (b, F), Some (bs, G) => Some (b :: bs, F ∪ G)
      | _, _ => None
      end
  end.

(** The tree of a value of a type in a memory, with the cells the value refers to, directly or
    not; nothing when the value is not one of the type. *)
Fixpoint view (m : mem) (t : ty) (v : gval) : option (tree * gset loc) :=
  match t, v with
  | TString, VString s => Some (XString s, ∅)
  | TInt, VInt z => Some (XInt z, ∅)
  | TBool, VBool b => Some (XBool b, ∅)
  | TStruct fs, VStruct vs =>
      match gather (λ '(f, t),
              match assoc f vs with
              | Some v => match view m t v with Some (x, F) => Some ((f, x), F) | None => None end
              | None => None
              end) fs with
      | Some (xs, F) => Some (XStruct xs, F)
      | None => None
      end
  | TPtr _, VPtr None => Some (XPtr None, ∅)
  | TPtr t, VPtr (Some a) =>
      match load m a with
      | Some v =>
          match view m t v with
          | Some (x, F) => Some (XPtr (Some x), {[root a]} ∪ F)
          | None => None
          end
      | None => None
      end
  | TSlice _, VSlice None => Some (XSlice None, ∅)
  | TSlice t, VSlice (Some s) =>
      match elems m s with
      | Some vs =>
          match gather (view m t) vs with
          | Some (xs, F) => Some (XSlice (Some xs), {[arr s]} ∪ F)
          | None => None
          end
      | None => None
      end
  | TMap, VMap None => Some (XMap None, ∅)
  | TMap, VMap (Some l) =>
      match m !! l with
      | Some (CDict d) => Some (XMap (Some d), {[l]})
      | _ => None
      end
  | _, _ => None
  end.

(** A statement of a DeepCopyInto method, over the variables [in] and [out]. *)
Definition stmt := addr → addr → Mem unit.

(** From [m] to [m'], nothing changed but the variable [o], which now holds a value of type [t]
    with the tree [x], made of new cells. *)
Definition delivers (m : mem) (o : addr) (t : ty) (x : tree) (m' : mem) : Prop :=
  ∃ v m0 F, store m o v = Some m0 ∧ m0 ⊆ m' ∧ view m' t v = Some (x, F) ∧ F ## dom m.

(** [into] copies a value of type [t] deeply: when [in] holds one, and [out] is a variable in a
    cell that this value does not use, it does not panic and delivers the same tree. *)
Definition copies (t : ty) (into : stmt) : Prop :=
  ∀ m i o v w x F,
    load m i = Some v → view m t v = Some (x, F) →
    load m o = Some w → root o ≠ root i → root o ∉ F →
    ∃ m', into i o m = Some (tt, m') ∧ delivers m o t x m'.

(** [m'] differs from [m] in the cells of [R], and in new ones, only. *)
Definition changes_only (R : gset loc) (m m' : mem) : Prop :=
  ∀ l, l ∈ dom m → l ∉ R → m' !! l = m !! l.

(** ** Fields *)

Lemma assoc_set_eq {A} f (w : A) fs v :
  assoc f fs = Some v → assoc f (assoc_set f w fs) = Some w.
Proof.
  induction fs as [|[g u] fs IH]; simpl; [done|]. case_decide as E; simpl.
  - intros _. by rewrite decide_True.
  - rewrite (decide_False _ _ E). exact IH.
Qed.

Lemma assoc_set_ne {A} f g (w : A) fs : g ≠ f → assoc g (assoc_set f w fs) = assoc g fs.
Proof.
  intros Hn. induction fs as [|[h u] fs IH]; simpl; [done|].
  repeat (case_decide; simpl); subst; done.
Qed.

Lemma assoc_set_twice {A} f (w u : A) fs :
  assoc_set f w (assoc_set f u fs) = assoc_set f w fs.
Proof.
  induction fs as [|[g v] fs IH]; simpl; [done|].
  case_decide as E; simpl; case_decide; congruence.
Qed.

Lemma assoc_zip {A} f (v : A) fs : NoDup fs.*1 → (f, v) ∈ fs → assoc f fs = Some v.
Proof.
  induction fs as [|[g w] fs IH]; cbn [assoc fmap list_fmap fst].
  - by intros _ ?%elem_of_nil.
  - intros [Hg Hnd]%NoDup_cons [[= -> ->]|Hin]%elem_of_cons; [by rewrite decide_True|].
    case_decide as E; [subst g|by apply IH]. destruct Hg. by apply (list_elem_of_fmap_2' _ fs (f, v)).
Qed.

(** ** Loads and stores *)

Lemma load_root m a v : load m a = Some v → root a ∈ dom m.
Proof.
  revert v. induction a as [l|a IH f|l i]; cbn [load root]; intros v.
  - destruct (m !! l) eqn:E; [by intros; apply elem_of_dom|done].
  - destruct (load m a) as [u|]; [by intros; apply (IH u)|done].
  - destruct (m !! l) eqn:E; [by intros; apply elem_of_dom|done].
Qed.

Lemma load_agree m m' a : m' !! root a = m !! root a → load m' a = load m a.
Proof.
  induction a as [l|a IH f|l i]; cbn [load root]; intros E; [by rewrite E|by rewrite IH|by rewrite E].
Qed.

Lemma lookup_mono (m m' : mem) l : m ⊆ m' → l ∈ dom m → m' !! l = m !! l.
Proof. intros Hs [c Hc]%elem_of_dom. rewrite Hc. by apply (lookup_weaken m). Qed.

Lemma load_mono m m' a v : m ⊆ m' → load m a = Some v → load m' a = Some v.
Proof.
  intros Hs Hl. rewrite <-Hl. apply load_agree, lookup_mono; [done|by eapply load_root].
Qed.

(** A store changes the cell of its address, in a way that depends on this cell alone. *)
Lemma store_local m m' a w m1 :
  m' !! root a = m !! root a → store m a w = Some m1 →
  ∃ c, m1 = <[root a := c]> m ∧ store m' a w = Some (<[root a := c]> m').
Proof.
  revert w m1. induction a as [l|a IH f|l i]; cbn [store root]; intros w m1 E.
  - rewrite E. destruct (m !! l) as [[]|]; intros; simplify_eq; by eexists.
  - rewrite (load_agree m m' a E). destruct (load m a) as [[]|]; try done.
    destruct (assoc f fs); [by apply IH|done].
  - rewrite E. destruct (m !! l) as [[]|]; try done. case_decide; intros; simplify_eq.
    by eexists.
Qed.

Lemma store_other m a w m1 l : store m a w = Some m1 → l ≠ root a → m1 !! l = m !! l.
Proof.
  intros H Hl. destruct (store_local m m a w m1 eq_refl H) as (c & -> & _).
  by rewrite lookup_insert_ne.
Qed.

Lemma store_Some m a v w : load m a = Some v → is_Some (store m a w).
Proof.
  revert v w. induction a as [l|a IH f|l i]; cbn [load store]; intros v w.
  - destruct (m !! l) as [[]|]; try done; by eexists.
  - destruct (load m a) as [[]|] eqn:E; try done. intros ->. by eapply IH.
  - destruct (m !! l) as [[]|]; try done. intros Hi.
    rewrite decide_True; [by eexists|]. by eapply lookup_lt_Some.
Qed.

Lemma store_dom m a w m1 : store m a w = Some m1 → dom m1 = dom m.
Proof.
  intros H. destruct (store_local m m a w m1 eq_refl H) as (c & -> & _).
  assert (root a ∈ dom m); [|set_solver].
  revert w H. induction a as [l|a IH f|l i]; cbn [store root] in *; intros w.
  - destruct (m !! l) eqn:E; [|done]. intros _. by apply elem_of_dom.
  - destruct (load m a) eqn:E; [|done]. intros _. by eapply load_root.
  - destruct (m !! l) eqn:E; [|done]. intros _. by apply elem_of_dom.
Qed.

Lemma store_load m a w m1 : store m a w = Some m1 → load m1 a = Some w.
Proof.
  revert w m1. induction a as [l|a IH f|l i]; cbn [store load]; intros w m1.
  - destruct (m !! l) as [[]|]; intros; simplify_eq. by rewrite lookup_insert_eq.
  - destruct (load m a) as [[]|] eqn:E; try done.
    destruct (assoc f fs) eqn:Ef; [|done]. intros H. rewrite (IH _ _ H).
    by eapply assoc_set_eq.
  - destruct (m !! l) as [[]|]; try done. case_decide; intros; simplify_eq.
    rewrite lookup_insert_eq. by rewrite list_lookup_insert_eq.
Qed.

Lemma store_again m a w u m1 : store m a w = Some m1 → store m1 a u = store m a u.
Proof.
  revert w u m1. induction a as [l|a IH f|l i]; cbn [store]; intros w u m1.
  - destruct (m !! l) as [[]|]; intros; simplify_eq.
    by rewrite lookup_insert_eq, insert_insert_eq.
  - destruct (load m a) as [[]|] eqn:E; try done.
    destruct (assoc f fs) eqn:Ef; [|done]. intros H. rewrite (store_load _ _ _ _ H).
    rewrite (assoc_set_eq f w fs g Ef), assoc_set_twice. by eapply IH.
  - destruct (m !! l) as [[]|]; try done. case_decide; intros; simplify_eq.
    rewrite lookup_insert_eq, length_insert, decide_True by done.
    by rewrite insert_insert_eq, list_insert_insert_eq.
Qed.

Lemma store_mono m m' a w m1 :
  m ⊆ m' → store m a w = Some m1 → ∃ m1', store m' a w = Some m1' ∧ m1 ⊆ m1'.
Proof.
  intros Hs H. assert (root a ∈ dom m) as Hr.
  { rewrite <-(store_dom _ _ _ _ H). eapply load_root, store_load, H. }
  destruct (store_local m m' a w m1) as (c & -> & E); [by apply lookup_mono|done|].
  eexists. split; [exact E|]. by apply insert_mono.
Qed.

(** ** Reading values *)

Lemma gather_impl {A B} (f g : A → option (B * gset loc)) l bs G :
  gather f l = Some (bs, G) →
  (∀ a b F, a ∈ l → f a = Some (b, F) → F ⊆ G → g a = Some (b, F)) →
  gather g l = Some (bs, G).
Proof.
  revert bs G. induction l as [|a l IH]; cbn [gather]; intros bs G; [done|].
  destruct (f a) as [[b F]|] eqn:Ea; [|done].
  destruct (gather f l) as [[bs' G']|]; [|done]. intros [= <- <-] Hg.
  rewrite (Hg a b F); [|by left|done|set_solver]. rewrite (IH bs' G'); [done|done|].
  intros a' b' F' Hin Hf HF. apply Hg; [by right|done|set_solver].
Qed.

(** What is known of each element holds of the list. *)
Lemma gather_some {A B} (f : A → option (B * gset loc)) (R : A → B → Prop) (D : gset loc) l :
  (∀ a, a ∈ l → ∃ b F, f a = Some (b, F) ∧ R a b ∧ F ## D) →
  ∃ bs G, gather f l = Some (bs, G) ∧ Forall2 R l bs ∧ G ## D.
Proof.
  induction l as [|a l IH]; cbn [gather]; intros H.
  - eexists [], ∅. split; [done|]. split; [constructor|set_solver].
  - destruct (H a) as (b & F & -> & Hr & HF); [by left|].
    destruct IH as (bs & G & -> & Hrs & HG); [intros; apply H; by right|].
    eexists _, _. split; [done|]. split; [by constructor|set_solver].
Qed.

Lemma gather_inv {A B} (f : A → option (B * gset loc)) l bs G :
  gather f l = Some (bs, G) →
  Forall2 (λ a b, ∃ F, f a = Some (b, F) ∧ F ⊆ G) l bs.
Proof.
  revert bs G. induction l as [|a l IH]; cbn [gather]; intros bs G; [by intros [= <- <-]|].
  destruct (f a) as [[b F]|] eqn:Ea; [|done].
  destruct (gather f l) as [[bs' G']|] eqn:El; [|done]. intros [= <- <-]. constructor.
  - exists F. split; [done|set_solver].
  - eapply Forall2_impl; [by apply IH|]. intros ? ? (F' & ? & ?). exists F'. split; [done|set_solver].
Qed.

Lemma gather_cells {A B} (f : A → option (B * gset loc)) l bs G (D : gset loc) :
  gather f l = Some (bs, G) → (∀ a b F, a ∈ l → f a = Some (b, F) → F ⊆ D) → G ⊆ D.
Proof.
  revert bs G. induction l as [|a l IH]; cbn [gather]; intros bs G; [intros [= <- <-]; set_solver|].
  destruct (f a) as [[b F]|] eqn:Ea; [|done].
  destruct (gather f l) as [[bs' G']|] eqn:El; [|done]. intros [= <- <-] H.
  apply union_least; [by eapply H; [left|]|]. eapply IH; [done|]. intros. eapply H; [by right|done].
Qed.

Section ty_ind.
Variable P : ty → Prop.
Hypothesis HString : P TString.
Hypothesis HInt : P TInt.
Hypothesis HBool : P TBool.
Hypothesis HStruct : ∀ fs, (∀ f t, (f, t) ∈ fs → P t) → P (TStruct fs).
Hypothesis HPtr : ∀ t, P t → P (TPtr t).
Hypothesis HSlice : ∀ t, P t → P (TSlice t).
Hypothesis HMap : P TMap.

Lemma ty_nested_ind : ∀ t, P t.
Proof.
  fix IH 1. destruct t as [| | |fs|t|t|]; [done|done|done| |by apply HPtr|by apply HSlice|done].
  apply HStruct. induction fs as [|[g u] fs IHfs]; intros f t.
  - clear IH. by intros ?%elem_of_nil.
  - intros [[= -> ->]|Hin]%elem_of_cons; [apply IH|exact (IHfs f t Hin)].
Qed.
End ty_ind.

(** The field of a struct as a field of the tree. *)
Definition view_field (m : mem) (vs : list (string * gval)) (ft : string * ty) :
    option (string * tree * gset loc) :=
  match assoc ft.1 vs with
  | Some v => match view m ft.2 v with Some (x, F) => Some ((ft.1, x), F) | None => None end
  | None => None
  end.

Lemma view_struct m fs vs :
  view m (TStruct fs) (VStruct vs) =
  match gather (view_field m vs) fs with Some (xs, F) => Some (XStruct xs, F) | None => None end.
Proof.
  cbn [view].
  match goal with |- context [gather ?g fs] =>
    assert (gather g fs = gather (view_field m vs) fs) as -> end; [|done].
  induction fs as [|[f t] fs IH]; cbn [gather]; [done|]. by rewrite IH.
Qed.

Lemma view_field_Some m vs f t b F :
  view_field m vs (f, t) = Some (b, F) ↔
  ∃ v x, assoc f vs = Some v ∧ view m t v = Some (x, F) ∧ b = (f, x).
Proof.
  unfold view_field. cbn [fst snd]. split.
  - destruct (assoc f vs) as [v|]; [|done]. destruct (view m t v) as [[x G]|] eqn:E; [|done].
    intros [= <- <-]. by exists v, x.
  - by intros (v & x & -> & -> & ->).
Qed.

Lemma view_struct_inv m fs v x F :
  view m (TStruct fs) v = Some (x, F) →
  ∃ vs xs, v = VStruct vs ∧ x = XStruct xs ∧ gather (view_field m vs) fs = Some (xs, F).
Proof.
  destruct v as [| | |vs| | |]; try done. rewrite view_struct.
  destruct (gather (view_field m vs) fs) as [[xs G]|] eqn:E; [|done].
  intros [= <- <-]. by exists vs, xs.
Qed.

Lemma elems_agree m m' s : m' !! arr s = m !! arr s → elems m' s = elems m s.
Proof. unfold elems. by intros ->. Qed.

(** Reading depends on the cells of the value alone. *)
Lemma view_frame m m' t : ∀ v x F,
  view m t v = Some (x, F) → (∀ l, l ∈ F → m' !! l = m !! l) → view m' t v = Some (x, F).
Proof.
  induction t as [| | |fs IH|t IH|t IH|] using ty_nested_ind; intros v x F H Hm.
  1-3: by destruct v.
  - destruct (view_struct_inv _ _ _ _ _ H) as (vs & xs & -> & -> & Hg). rewrite view_struct.
    rewrite (gather_impl _ (view_field m' vs) _ _ _ Hg); [done|].
    intros [f t] b G Hin (u & y & Ha & Hv & ->)%view_field_Some HG.
    apply view_field_Some. exists u, y. split; [done|]. split; [|done].
    eapply IH; [done|done|]. intros; apply Hm; set_solver.
  - destruct v as [| | | |[a|]| |]; try done. cbn [view] in H |- *.
    destruct (load m a) as [w|] eqn:El; [|done].
    destruct (view m t w) as [[y G]|] eqn:Ev; [|done]. injection H as <- <-.
    rewrite (load_agree m m' a) by (apply Hm; set_solver). rewrite El.
    rewrite (IH w y G); [done|done|]. intros; apply Hm; set_solver.
  - destruct v as [| | | | |[s|]|]; try done. cbn [view] in H |- *.
    destruct (elems m s) as [vs|] eqn:El; [|done].
    destruct (gather (view m t) vs) as [[ys G]|] eqn:Ev; [|done]. injection H as <- <-.
    rewrite (elems_agree m m' s) by (apply Hm; set_solver). rewrite El.
    rewrite (gather_impl _ (view m' t) _ _ _ Ev); [done|].
    intros u y G' _ Hv HG. apply IH; [done|]. intros; apply Hm; set_solver.
  - destruct v as [| | | | | |[l|]]; try done. cbn [view] in H |- *.
    destruct (m !! l) as [[]|] eqn:El; try done. injection H as <- <-.
    by rewrite (Hm l), El by set_solver.
Qed.

(** The cells of a value exist. *)
Lemma view_dom m t : ∀ v x F, view m t v = Some (x, F) → F ⊆ dom m.
Proof.
  induction t as [| | |fs IH|t IH|t IH|] using ty_nested_ind; intros v x F H.
  1-3: by destruct v; simplify_eq/=; set_solver.
  - destruct (view_struct_inv _ _ _ _ _ H) as (vs & xs & -> & -> & Hg).
    eapply gather_cells; [done|]. intros [f t] b G Hin (u & y & Ha & Hv & ->)%view_field_Some.
    by eapply IH.
  - destruct v as [| | | |[a|]| |]; try done; cbn [view] in H; [|simplify_eq; set_solver].
    destruct (load m a) as [w|] eqn:El; [|done].
    destruct (view m t w) as [[y G]|] eqn:Ev; [|done]. injection H as <- <-.
    apply load_root in El. apply IH in Ev. set_solver.
  - destruct v as [| | | | |[s|]|]; try done; cbn [view] in H; [|simplify_eq; set_solver].
    destruct (elems m s) as [vs|] eqn:El; [|done].
    destruct (gather (view m t) vs) as [[ys G]|] eqn:Ev; [|done]. injection H as <- <-.
    apply union_least; [|by eapply gather_cells; [|intros; eapply IH]].
    unfold elems in El. destruct (m !! arr s) eqn:E; [|done].
    apply elem_of_dom_2 in E. set_solver.
  - destruct v as [| | | | | |[l|]]; try done; cbn [view] in H; [|simplify_eq; set_solver].
    destruct (m !! l) as [[]|] eqn:El; try done. injection H as <- <-.
    apply elem_of_dom_2 in El. set_solver.
Qed.

Lemma view_mono m m' t v x F : m ⊆ m' → view m t v = Some (x, F) → view m' t v = Some (x, F).
Proof.
  intros Hs H. eapply view_frame; [done|]. intros l Hl.
  apply lookup_mono; [done|]. by apply (view_dom _ _ _ _ _ H).
Qed.

Lemma view_flat m t : ∀ v x F, flat t = true → view m t v = Some (x, F) → F = ∅.
Proof.
  induction t as [| | |fs IH|t IH|t IH|] using ty_nested_ind; intros v x F Hf H; try done.
  1-3: by destruct v; simplify_eq/=.
  destruct (view_struct_inv _ _ _ _ _ H) as (vs & xs & -> & -> & Hg).
  apply leibniz_equiv, equiv_empty. eapply gather_cells; [done|].
  intros [f t] b G Hin (u & y & Ha & Hv & ->)%view_field_Some.
  assert (flat t = true) as Ht.
  { cbn [flat] in Hf. rewrite forallb_forall in Hf. apply (Hf (f, t)).
    by apply list_elem_of_In. }
  by rewrite (IH f t Hin u y G Ht Hv).
Qed.

(** ** Reading after a step *)

Lemma gather_index {A B} (f : A → option (B * gset loc)) (D : gset loc) l : ∀ bs,
  length l = length bs →
  (∀ j a, l !! j = Some a → ∃ b F, bs !! j = Some b ∧ f a = Some (b, F) ∧ F ## D) →
  ∃ G, gather f l = Some (bs, G) ∧ G ## D.
Proof.
  induction l as [|a l IH]; intros [|b bs] Hl H; try done; cbn [gather].
  - exists ∅. split; [done|set_solver].
  - destruct (H 0%nat a eq_refl) as (b' & F & [= <-] & -> & HF).
    destruct (IH bs) as (G & -> & HG); [by injection Hl|intros j; apply (H (S j))|].
    exists (F ∪ G). split; [done|set_solver].
Qed.

Lemma store_same m a v : load m a = Some v → store m a v = Some m.
Proof.
  revert v. induction a as [l|a IH f|l i]; cbn [load store]; intros v.
  - destruct (m !! l) as [[]|] eqn:E; intros; simplify_eq. by rewrite insert_id.
  - destruct (load m a) as [[]|] eqn:E; try done. intros Hf. rewrite Hf, <-(IH _ eq_refl).
    do 2 f_equal. clear -Hf. induction fs as [|[g u] fs IH]; simpl in *; [done|].
    case_decide; [by simplify_eq|]. by rewrite IH.
  - destruct (m !! l) as [[]|] eqn:E; try done. intros Hi.
    rewrite decide_True by by eapply lookup_lt_Some. by rewrite list_insert_id, insert_id.
Qed.

(** What a store followed by allocations leaves alone. *)
Lemma lookup_after m o v m0 m' l :
  store m o v = Some m0 → m0 ⊆ m' → l ∈ dom m → l ≠ root o → m' !! l = m !! l.
Proof.
  intros Hs Hm Hl Hr. rewrite <-(store_other _ _ _ _ _ Hs Hr). apply lookup_mono; [done|].
  by rewrite (store_dom _ _ _ _ Hs).
Qed.

Lemma load_after m o v m0 m' a w :
  store m o v = Some m0 → m0 ⊆ m' → root a ≠ root o → load m a = Some w → load m' a = Some w.
Proof.
  intros Hs Hm Hr Hl. rewrite <-Hl. apply load_agree. eapply lookup_after; [done|done| |done].
  by eapply load_root.
Qed.

Lemma view_after m o v m0 m' t u x F :
  store m o v = Some m0 → m0 ⊆ m' → root o ∉ F →
  view m t u = Some (x, F) → view m' t u = Some (x, F).
Proof.
  intros Hs Hm Hr Hv. eapply view_frame; [done|]. intros l Hl.
  eapply lookup_after; [done|done| |set_solver]. by apply (view_dom _ _ _ _ _ Hv).
Qed.

Lemma alloc_new c m : ∃ l, alloc c m = Some (l, (<[l := c]> m)) ∧ (l ∉ dom m) ∧ m ⊆ (<[l := c]> m).
Proof.
  exists (fresh (dom m)). split; [done|]. pose proof (is_fresh (dom m)). split; [done|].
  by apply insert_subseteq, not_elem_of_dom.
Qed.

(** A loop over the indices of a slice, by its invariant. *)
Lemma for_range (I : nat → mem → Prop) body n : ∀ k m,
  I k m →
  (∀ j m, (k ≤ j < (k + n))%nat → I j m → ∃ m', body j m = Some (tt, m') ∧ I (S j) m') →
  ∃ m', for_each (seq k n) body m = Some (tt, m') ∧ I (k + n)%nat m'.
Proof.
  induction n as [|n IH]; cbn [seq for_each]; intros k m Hk Hb.
  - exists m. by rewrite Nat.add_0_r.
  - destruct (Hb k m) as (m1 & E & H1); [lia|done|].
    destruct (IH (S k) m1 H1) as (m' & E' & H'); [intros; apply Hb; [lia|done]|].
    exists m'. unfold mbind, Mem_bind. rewrite E, E'. split; [done|].
    by replace (k + S n)%nat with (S k + n)%nat by lia.
Qed.
