(* ===== verification/Copy.v ===== *)
(** * Copy: the statements of generated deep copies

    The methods of zz_generated.deepcopy.go are blocks of a few forms of statements, one for each
    kind of field.  This file has the forms, and for each the law that it copies its field deeply;
    [into_copies] composes them: a block that handles every field with references copies its
    struct. *)

From S2P Require Import Prelude Memory.

(** ** The forms *)

(** [*out = *in] *)
Definition shallow : stmt := λ i o, v ← read_at i; assign o v.

(** A statement, with the field it fills. *)
Definition step : Type := string * stmt.

(** [out.f = in.f] *)
Definition same (f : string) : step := (f, λ i o, shallow (Field i f) (Field o f)).

(** [in.f.DeepCopyInto(&out.f)] *)
Definition deep (f : string) (g : stmt) : step := (f, λ i o, g (Field i f) (Field o f)).

(** [if in.f != nil { in, out := &in.f, &out.f; *out = new(t); ( *in).DeepCopyInto( *out) }] *)
Definition new_ptr (f : string) (t : ty) (g : stmt) : step := (f, λ i o,
  let i := Field i f in let o := Field o f in
  v ← read_at i;
  match v with
  | VPtr None => mret tt
  | VPtr (Some _) =>
      q ← new t;
      assign o (VPtr (Some q));;
      src ← deref i; dst ← deref o; g src dst
  | _ => panic
  end).

(** [if in.f != nil { in, out := &in.f, &out.f; *out = make([]t, len( *in));
     for i := range *in { ( *in)[i].DeepCopyInto(&( *out)[i]) } }] *)
Definition new_slice (f : string) (t : ty) (g : stmt) : step := (f, λ i o,
  let i := Field i f in let o := Field o f in
  s ← slice_at i;
  match s with
  | None => mret tt
  | Some s =>
      d ← make_slice t (len s);
      assign o (VSlice (Some d));;
      for_each (seq 0 (len s)) (λ k, src ← index i k; dst ← index o k; g src dst)
  end).

(** [if in.f != nil { in, out := &in.f, &out.f; *out = make([]t, len( *in)); copy( *out, *in) }] *)
Definition new_flat_slice (f : string) (t : ty) : step := (f, λ i o,
  let i := Field i f in let o := Field o f in
  s ← slice_at i;
  match s with
  | None => mret tt
  | Some s =>
      d ← make_slice t (len s);
      assign o (VSlice (Some d));;
      dst ← slice_at o; src ← slice_at i; copy_slice dst src
  end).

(** [if in.f != nil { in, out := &in.f, &out.f; *out = make(map[string]string, len( *in));
     for key, val := range *in { ( *out)[key] = val } }] *)
Definition new_map {MR : MapRange} (f : string) : step := (f, λ i o,
  let i := Field i f in let o := Field o f in
  p ← map_at i;
  match p with
  | None => mret tt
  | Some l =>
      d ← dict l;
      q ← make_map;
      assign o (VMap (Some q));;
      for_each (range_order d) (λ '(k, v), map_assign o k v)
  end).

Fixpoint block (body : list step) : stmt := λ i o,
  match body with
  | [] => mret tt
  | (_, s) :: body => s i o ;; block body i o
  end.

(** DeepCopyInto: the whole struct by assignment, then the fields that need more. *)
Definition into (body : list step) : stmt := λ i o, shallow i o ;; block body i o.

(** [func (in *T) DeepCopy() *T] *)
Definition deep_copy (t : ty) (g : stmt) (p : option addr) : Mem (option addr) :=
  match p with
  | None => mret None
  | Some i => o ← new t; g i o;; mret (Some o)
  end.

(** An interface value: the type of the pointer in it, and the pointer; [None] is nil. *)
Definition iface : Type := option (string * addr).

(** [func (in *T) DeepCopyObject() runtime.Object] *)
Definition deep_copy_object (name : string) (copy : option addr → Mem (option addr))
    (p : option addr) : Mem iface :=
  c ← copy p; match c with Some q => mret (Some (name, q)) | None => mret None end.

(** ** Their laws *)

Lemma bind_ok {A B} (x : Mem A) (f : A → Mem B) m a m' :
  x m = Some (a, m') → (x ≫= f) m = f a m'.
Proof. unfold mbind, Mem_bind. by intros ->. Qed.

Lemma read_at_ok m a v : load m a = Some v → read_at a m = Some (v, m).
Proof. unfold read_at. by intros ->. Qed.

Lemma assign_ok m a v m' : store m a v = Some m' → assign a v m = Some (tt, m').
Proof. unfold assign. by intros ->. Qed.

Lemma deref_ok m a p : load m a = Some (VPtr (Some p)) → deref a m = Some (p, m).
Proof. intros H. unfold deref. by rewrite (bind_ok _ _ _ _ _ (read_at_ok _ _ _ H)). Qed.

Lemma slice_at_ok m a s : load m a = Some (VSlice s) → slice_at a m = Some (s, m).
Proof. intros H. unfold slice_at. by rewrite (bind_ok _ _ _ _ _ (read_at_ok _ _ _ H)). Qed.

Lemma map_at_ok m a p : load m a = Some (VMap p) → map_at a m = Some (p, m).
Proof. intros H. unfold map_at. by rewrite (bind_ok _ _ _ _ _ (read_at_ok _ _ _ H)). Qed.

Lemma index_ok m a s k :
  load m a = Some (VSlice (Some s)) → (k < len s)%nat →
  index a k m = Some (Elem (arr s) (off s + k), m).
Proof.
  intros H Hk. unfold index. rewrite (bind_ok _ _ _ _ _ (slice_at_ok _ _ _ H)).
  by rewrite decide_True.
Qed.

Lemma shallow_ok m i o v w :
  load m i = Some v → load m o = Some w → ∃ m', shallow i o m = Some (tt, m') ∧ store m o v = Some m'.
Proof.
  intros Hi Ho. destruct (store_Some m o w v Ho) as [m' E]. exists m'. split; [|done].
  unfold shallow. rewrite (bind_ok _ _ _ _ _ (read_at_ok _ _ _ Hi)). by apply assign_ok.
Qed.

(** [t := make(...)] or [new(...)], then [*out = t]: what was there is untouched. *)
Lemma alloc_assign m o w c (v : loc → gval) :
  load m o = Some w →
  ∃ l m0 m', alloc c m = Some (l, (<[l := c]> m)) ∧ (l ∉ dom m) ∧
    store (<[l := c]> m) o (v l) = Some m' ∧ store m o (v l) = Some m0 ∧ m0 ⊆ m' ∧
    m' !! l = Some c ∧ dom m' = {[l]} ∪ dom m ∧ load m' o = Some (v l).
Proof.
  intros Ho. destruct (alloc_new c m) as (l & Ea & Hl & Hs).
  destruct (store_Some m o w (v l) Ho) as [m0 E0].
  destruct (store_mono _ _ _ _ _ Hs E0) as (m' & E' & H').
  exists l, m0, m'. repeat split; try done.
  - rewrite (store_other _ _ _ _ _ E'); [by rewrite lookup_insert_eq|].
    intros ->. by apply Hl, (load_root _ _ _ Ho).
  - by rewrite (store_dom _ _ _ _ E'), dom_insert_L.
  - by eapply store_load.
Qed.

(** Filling new memory that [out] refers to, after [*out] was set, delivers. *)
Lemma deliver_new m o v m0 m1 m' l t x F :
  store m o v = Some m0 → m0 ⊆ m1 → l ∉ dom m →
  (∀ l', l' ∈ dom m1 → l' ≠ l → m' !! l' = m1 !! l') →
  view m' t v = Some (x, F) → F ## dom m → delivers m o t x m'.
Proof.
  intros E0 H0 Hl Hk Hv HF. exists v, m0, F. repeat split; try done.
  apply map_subseteq_spec. intros l' c Hc.
  assert (l' ∈ dom m0) as Hd by (by apply elem_of_dom_2 in Hc).
  rewrite <-Hc, Hk, (lookup_mono _ _ _ H0 Hd); [done| |].
  - apply (subseteq_dom _ _ H0), Hd.
  - intros ->. apply Hl. by rewrite <-(store_dom _ _ _ _ E0).
Qed.

(** A statement that copies its field deeply, once the struct has been copied by assignment. *)
Definition field_copies (t : ty) (f : string) (s : stmt) : Prop :=
  ∀ m i o v x F,
    load m (Field i f) = Some v → view m t v = Some (x, F) →
    load m (Field o f) = Some v → root o ≠ root i → root o ∉ F →
    ∃ m', s i o m = Some (tt, m') ∧ delivers m (Field o f) t x m'.

Lemma delivers_flat m o t v x F m' :
  flat t = true → view m t v = Some (x, F) → store m o v = Some m' → delivers m o t x m'.
Proof.
  intros Hf Hv E. pose proof (view_flat _ _ _ _ _ Hf Hv) as ->.
  exists v, m', ∅. repeat split; [done|done| |set_solver].
  eapply view_frame; [done|]. set_solver.
Qed.

Lemma shallow_copies t : flat t = true → copies t shallow.
Proof.
  intros Hf m i o v w x F Hi Hv Ho _ _. destruct (shallow_ok m i o v w Hi Ho) as (m' & E & Hs).
  exists m'. split; [done|]. by eapply delivers_flat.
Qed.

Lemma copies_field t f g : copies t g → field_copies t f (deep f g).2.
Proof. intros Hg m i o v x F Hi Hv Ho Hr HF. by apply (Hg m (Field i f) (Field o f) v v x F). Qed.

Lemma same_copies t f : flat t = true → field_copies t f (same f).2.
Proof. intros Hf. apply (copies_field t f shallow). by apply shallow_copies. Qed.

(** A field that holds nil is left as the assignment of the struct set it. *)
Lemma delivers_nil m o t v x m' :
  load m o = Some v → view m t v = Some (x, ∅) → m' = m → delivers m o t x m'.
Proof.
  intros Ho Hv ->. exists v, m, ∅. repeat split; [by apply store_same|done|done|set_solver].
Qed.

Lemma new_ptr_copies t f g : copies t g → field_copies (TPtr t) f (new_ptr f t g).2.
Proof.
  intros Hg m i o v x F Hi Hv Ho Hr HF. cbn [new_ptr snd].
  rewrite (bind_ok _ _ _ _ _ (read_at_ok _ _ _ Hi)).
  destruct v as [| | | |[a|]| |]; try done; cbn [view] in Hv;
    [|injection Hv as <- <-; exists m; split; [done|by eapply delivers_nil]].
  destruct (load m a) as [w|] eqn:Ea; [|done].
  destruct (view m t w) as [[y G]|] eqn:Ew; [|done]. injection Hv as <- <-.
  destruct (alloc_assign m (Field o f) _ (CVal (zero t)) (λ l, VPtr (Some (Cell l))) Ho)
    as (l & m0 & m1 & El & Hl & E1 & E0 & H01 & Hml & Hdom & Ho1).
  unfold new. rewrite (bind_ok _ _ _ (Cell l) (<[l := CVal (zero t)]> m))
    by (by rewrite (bind_ok _ _ _ _ _ El)).
  rewrite (bind_ok _ _ _ _ _ (assign_ok _ _ _ _ E1)).
  assert (load m1 (Field i f) = Some (VPtr (Some a))) as Hi1 by (by eapply load_after).
  rewrite (bind_ok _ _ _ _ _ (deref_ok _ _ _ Hi1)), (bind_ok _ _ _ _ _ (deref_ok _ _ _ Ho1)).
  pose proof (load_root _ _ _ Ea) as Hra. pose proof (view_dom _ _ _ _ _ Ew) as HG.
  destruct (Hg m1 a (Cell l) w (zero t) y G) as (m' & Em & v' & m2 & F' & E2 & H2 & Hv' & HF').
  { eapply load_after; [exact E0|exact H01| |done]. cbn. set_solver. }
  { eapply view_after; [exact E0|exact H01| |done]. cbn. set_solver. }
  { cbn. by rewrite Hml. }
  { cbn. set_solver. }
  { cbn. set_solver. }
  exists m'. split; [done|].
  eapply (deliver_new m (Field o f) _ m0 m1 m' l _ _ ({[l]} ∪ F')); [done..| | |].
  - intros l' Hd Hn. by eapply lookup_after.
  - cbn [view]. rewrite (load_mono _ _ _ _ H2 (store_load _ _ _ _ E2)), Hv'. done.
  - rewrite Hdom in HF'. set_solver.
Qed.

(** The element of a slice, in its backing array. *)
Lemma elems_lookup m s vs k v :
  elems m s = Some vs → vs !! k = Some v →
  (k < len s)%nat ∧ load m (Elem (arr s) (off s + k)) = Some v.
Proof.
  unfold elems. cbn [load]. destruct (m !! arr s) as [[|ws|]|]; try done.
  case_decide; [|done]. intros [= <-] Hk.
  assert (k < len s)%nat as Hl.
  { apply lookup_lt_Some in Hk. rewrite length_take in Hk. lia. }
  split; [done|]. by rewrite lookup_take_lt, lookup_drop in Hk.
Qed.

Lemma elems_length m s vs : elems m s = Some vs → length vs = len s.
Proof.
  unfold elems. destruct (m !! arr s) as [[|ws|]|]; try done. case_decide; [|done].
  intros [= <-]. rewrite length_take, length_drop. lia.
Qed.

(** After [k] rounds: the first [k] elements of the new array are copies. *)
Definition copied (m1 : mem) (l : loc) (t : ty) (xs : list tree) (k : nat) (m : mem) : Prop :=
  (∀ l', l' ∈ dom m1 → l' ≠ l → m !! l' = m1 !! l') ∧
  ∃ us, m !! l = Some (CArr us) ∧ length us = length xs ∧
  ∀ j, (j < k)%nat → ∃ u x F, us !! j = Some u ∧ xs !! j = Some x ∧
    view m t u = Some (x, F) ∧ F ## dom m1.

Lemma copied_round m1 l t xs k m v' m0 m' x F :
  l ∈ dom m1 → copied m1 l t xs k m → xs !! k = Some x →
  store m (Elem l k) v' = Some m0 → m0 ⊆ m' → view m' t v' = Some (x, F) → F ## dom m →
  copied m1 l t xs (S k) m'.
Proof.
  intros Hl (Hk & us & Hus & Hlen & Hc) Hx E0 H0 Hv HF.
  assert (dom m1 ⊆ dom m) as Hd.
  { intros l' Hl'. destruct (decide (l' = l)) as [->|Hn]; [by apply elem_of_dom_2 in Hus|].
    apply elem_of_dom. rewrite (Hk l' Hl' Hn). by apply elem_of_dom. }
  split.
  { intros l' Hl' Hn. rewrite <-(Hk l' Hl' Hn). eapply lookup_after; [done|done| |done]. by apply Hd. }
  exists (<[k := v']> us).
  assert (m0 !! l = Some (CArr (<[k := v']> us))) as El.
  { cbn [store] in E0. rewrite Hus in E0. case_decide; [|done]. injection E0 as <-.
    by rewrite lookup_insert_eq. }
  split; [by apply (lookup_weaken m0)|]. split; [by rewrite length_insert|].
  intros j Hj. destruct (decide (j = k)) as [->|Hn].
  - exists v', x, F. rewrite list_lookup_insert_eq; [|rewrite Hlen; by eapply lookup_lt_Some].
    repeat split; [done|done|set_solver].
  - destruct (Hc j) as (u & y & G & Hu & Hy & Hw & HG); [lia|].
    exists u, y, G. rewrite list_lookup_insert_ne by done. repeat split; [done|done| |done].
    eapply view_after; [exact E0|exact H0| |done]. cbn. set_solver.
Qed.

(** The whole array, read. *)
Lemma copied_all m1 l t xs m :
  copied m1 l t xs (length xs) m →
  ∃ G, view m (TSlice t) (VSlice (Some {| arr := l; off := 0; len := length xs |})) =
         Some (XSlice (Some xs), {[l]} ∪ G) ∧ G ## dom m1.
Proof.
  intros (_ & us & Hus & Hlen & Hc).
  destruct (gather_index (view m t) (dom m1) us xs Hlen) as (G & E & HG).
  { intros j u Hu. destruct (Hc j) as (u' & x & F & Hu' & Hx & Hv & HF).
    { rewrite <-Hlen. by eapply lookup_lt_Some. }
    simplify_eq. by exists x, F. }
  exists G. split; [|done]. cbn [view]. unfold elems. cbn [arr off len]. rewrite Hus.
  rewrite decide_True by lia. by rewrite drop_0, take_ge, E by lia.
Qed.

Lemma view_slice_inv m t s x F :
  view m (TSlice t) (VSlice (Some s)) = Some (x, F) →
  ∃ vs xs G, elems m s = Some vs ∧ gather (view m t) vs = Some (xs, G) ∧
    x = XSlice (Some xs) ∧ F = {[arr s]} ∪ G ∧ length xs = len s.
Proof.
  cbn [view]. destruct (elems m s) as [vs|] eqn:E; [|done].
  destruct (gather (view m t) vs) as [[xs G]|] eqn:Eg; [|done]. intros [= <- <-].
  exists vs, xs, G. repeat split; try done. rewrite <-(elems_length _ _ _ E).
  symmetry. eapply Forall2_length, gather_inv, Eg.
Qed.

(** One round of the loop over a slice of [m1], the new array being at [l]. *)
Lemma slice_round t g m1 i o s vs xs G l k m :
  copies t g →
  load m1 i = Some (VSlice (Some s)) → root i ≠ l → elems m1 s = Some vs →
  gather (view m1 t) vs = Some (xs, G) → arr s ≠ l → l ∉ G →
  load m1 o = Some (VSlice (Some {| arr := l; off := 0; len := len s |})) → root o ≠ l →
  l ∈ dom m1 → (k < len s)%nat → copied m1 l t xs k m →
  ∃ m', (src ← index i k; dst ← index o k; g src dst) m = Some (tt, m') ∧
    copied m1 l t xs (S k) m'.
Proof.
  intros Hg Hi Hri Es Eg Hs HG Ho Hro Hl Hk Hc. pose proof Hc as (Hsame & us & Hus & Hul & _).
  assert (∀ a w, root a ≠ l → load m1 a = Some w → load m a = Some w) as Hload.
  { intros a w Ha Hw. rewrite <-Hw. apply load_agree, Hsame; [by eapply load_root|done]. }
  pose proof (elems_length _ _ _ Es) as Hlen.
  destruct (lookup_lt_is_Some_2 vs k) as [u Hu]; [lia|].
  destruct (elems_lookup _ _ _ _ _ Es Hu) as [_ Hsrc].
  destruct (Forall2_lookup_l _ _ _ _ _ (gather_inv _ _ _ _ Eg) Hu) as (y & Hy & F & Hvy & HF).
  rewrite (bind_ok _ _ _ _ _ (index_ok _ _ _ k (Hload _ _ Hri Hi) Hk)).
  rewrite (bind_ok _ _ _ _ _ (index_ok _ _ _ k (Hload _ _ Hro Ho) Hk)). cbn [arr off].
  destruct (lookup_lt_is_Some_2 us k) as [z Hz].
  { pose proof (Forall2_length _ _ _ (gather_inv _ _ _ _ Eg)). lia. }
  destruct (Hg m (Elem (arr s) (off s + k)) (Elem l k) u z y F)
    as (m' & Em & v' & m2 & F' & E2 & H2 & Hv' & HF').
  - by apply Hload.
  - eapply view_frame; [exact Hvy|]. intros l' Hl'. apply Hsame; [|set_solver].
    by apply (view_dom _ _ _ _ _ Hvy).
  - cbn. by rewrite Hus.
  - done.
  - set_solver.
  - exists m'. split; [exact Em|]. by eapply copied_round.
Qed.

Lemma new_slice_copies t f g : copies t g → field_copies (TSlice t) f (new_slice f t g).2.
Proof.
  intros Hg m i o v x F Hi Hv Ho Hr HF. cbn [new_slice snd].
  destruct v as [| | | | |[s|]|]; try done;
    [|rewrite (bind_ok _ _ _ _ _ (slice_at_ok _ _ _ Hi));
      injection Hv as <- <-; exists m; split; [done|by eapply delivers_nil]].
  rewrite (bind_ok _ _ _ _ _ (slice_at_ok _ _ _ Hi)).
  destruct (view_slice_inv _ _ _ _ _ Hv) as (_ & xs & G & _ & _ & -> & -> & Hlen).
  pose proof (view_dom _ _ _ _ _ Hv) as Hdm.
  destruct (alloc_assign m (Field o f) _ (CArr (replicate (len s) (zero t)))
    (λ l, VSlice (Some {| arr := l; off := 0; len := len s |})) Ho)
    as (l & m0 & m1 & El & Hl & E1 & E0 & H01 & Hml & Hdom & Ho1).
  unfold make_slice.
  rewrite (bind_ok _ _ _ _ _ (bind_ok _ (λ l, mret {| arr := l; off := 0; len := len s |}) _ _ _ El)).
  rewrite (bind_ok _ _ _ _ _ (assign_ok _ _ _ _ E1)).
  assert (view m1 (TSlice t) (VSlice (Some s)) = Some (XSlice (Some xs), {[arr s]} ∪ G)) as Hv1
    by (by eapply view_after).
  destruct (view_slice_inv _ _ _ _ _ Hv1) as (vs & xs1 & G1 & Es & Eg & [= <-] & EG & _).
  assert (root i ≠ l ∧ root o ≠ l) as [Hri Hro].
  { split; intros <-; [by apply Hl, (load_root _ _ _ Hi)|by apply Hl, (load_root _ _ _ Ho)]. }
  destruct (for_range (copied m1 l t xs)
    (λ k, src ← index (Field i f) k; dst ← index (Field o f) k; g src dst) (len s) 0 m1)
    as (m' & Em & Hc).
  { split; [done|]. eexists. split; [exact Hml|]. rewrite length_replicate. split; [done|lia]. }
  { intros k mk Hk Hc.
    eapply (slice_round t g m1 (Field i f) (Field o f) s vs xs G1 l k mk); try done.
    - by eapply load_after.
    - set_solver.
    - set_solver.
    - rewrite Hdom. set_solver.
    - lia. }
  exists m'. split; [exact Em|]. cbn [Nat.add] in Hc. rewrite <-Hlen in Hc.
  destruct (copied_all _ _ _ _ _ Hc) as (G' & Hvw & HG'). rewrite Hlen in Hvw.
  rewrite Hdom in HG'.
  eapply (deliver_new m (Field o f) _ m0 m1 m' l _ _ ({[l]} ∪ G')); [done..| | |set_solver].
  - apply Hc.
  - exact Hvw.
Qed.

Lemma new_flat_slice_copies t f :
  flat t = true → field_copies (TSlice t) f (new_flat_slice f t).2.
Proof.
  intros Hf m i o v x F Hi Hv Ho Hr HF. cbn [new_flat_slice snd].
  destruct v as [| | | | |[s|]|]; try done;
    [|rewrite (bind_ok _ _ _ _ _ (slice_at_ok _ _ _ Hi));
      injection Hv as <- <-; exists m; split; [done|by eapply delivers_nil]].
  rewrite (bind_ok _ _ _ _ _ (slice_at_ok _ _ _ Hi)).
  destruct (view_slice_inv _ _ _ _ _ Hv) as (vs & xs & G & Es & Eg & -> & -> & Hlen).
  pose proof (view_dom _ _ _ _ _ Hv) as Hdm. pose proof (elems_length _ _ _ Es) as Hvl.
  destruct (alloc_assign m (Field o f) _ (CArr (replicate (len s) (zero t)))
    (λ l, VSlice (Some {| arr := l; off := 0; len := len s |})) Ho)
    as (l & m0 & m1 & El & Hl & E1 & E0 & H01 & Hml & Hdom & Ho1).
  unfold make_slice.
  rewrite (bind_ok _ _ _ _ _ (bind_ok _ (λ l, mret {| arr := l; off := 0; len := len s |}) _ _ _ El)).
  rewrite (bind_ok _ _ _ _ _ (assign_ok _ _ _ _ E1)).
  assert (load m1 (Field i f) = Some (VSlice (Some s))) as Hi1 by (by eapply load_after).
  rewrite (bind_ok _ _ _ _ _ (slice_at_ok _ _ _ Ho1)), (bind_ok _ _ _ _ _ (slice_at_ok _ _ _ Hi1)).
  exists (<[l := CArr vs]> m1).
  assert (elems m1 s = Some vs) as Es1.
  { rewrite <-Es. apply elems_agree. eapply lookup_after; [exact E0|exact H01|set_solver|set_solver]. }
  split.
  { unfold copy_slice. rewrite Es1. cbn [arr off len]. rewrite Hml, Nat.min_id.
    by rewrite take_0, (take_ge vs), drop_ge, app_nil_r by (rewrite ?length_replicate; lia). }
  assert (G = ∅) as ->.
  { apply leibniz_equiv, equiv_empty. eapply gather_cells; [exact Eg|].
    intros u y Fy _ Hu. by rewrite (view_flat _ _ _ _ _ Hf Hu). }
  eapply (deliver_new m (Field o f) _ m0 m1 _ l _ _ {[l]}); [done..| | |set_solver].
  - intros l' _ Hn. by rewrite lookup_insert_ne.
  - cbn [view]. unfold elems. cbn [arr off len]. rewrite lookup_insert_eq.
    rewrite decide_True, drop_0, take_ge by lia.
    rewrite (gather_impl _ (view (<[l := CArr vs]> m1) t) _ _ _ Eg); [by rewrite union_empty_r_L|].
    intros u y Fy _ Hu _. eapply view_frame; [done|].
    rewrite (view_flat _ _ _ _ _ Hf Hu). set_solver.
Qed.

(** Ranging over a map puts every entry in the new one, in whatever order. *)
Lemma range_assign o l kvs : ∀ m d,
  load m o = Some (VMap (Some l)) → root o ≠ l → m !! l = Some (CDict d) → NoDup kvs.*1 →
  for_each kvs (λ '(k, v), map_assign o k v) m =
    Some (tt, <[l := CDict (list_to_map kvs ∪ d)]> m).
Proof.
  induction kvs as [|[k v] kvs IH]; cbn [for_each]; intros m d Ho Hn Hl Hnd.
  - change (list_to_map []) with (∅ : gmap string string).
    by rewrite (left_id_L ∅ (∪)), insert_id.
  - apply NoDup_cons in Hnd as [Hk Hnd]. unfold map_assign.
    rewrite (bind_ok _ _ _ tt (<[l := CDict (<[k := v]> d)]> m)).
    + rewrite (IH _ (<[k := v]> d)); [| |done|by rewrite lookup_insert_eq|done].
      * rewrite insert_insert_eq, list_to_map_cons, <-insert_union_l, <-insert_union_r; [done|].
        by apply not_elem_of_list_to_map_1.
      * rewrite <-Ho. apply load_agree. by rewrite lookup_insert_ne.
    + rewrite (bind_ok _ _ _ _ _ (map_at_ok _ _ _ Ho)). unfold set_key. by rewrite Hl.
Qed.

Lemma new_map_copies {MR : MapRange} f : field_copies TMap f (new_map f).2.
Proof.
  intros m i o v x F Hi Hv Ho Hr HF. cbn [new_map snd].
  destruct v as [| | | | | |[l|]]; try done;
    [|rewrite (bind_ok _ _ _ _ _ (map_at_ok _ _ _ Hi));
      injection Hv as <- <-; exists m; split; [done|by eapply delivers_nil]].
  rewrite (bind_ok _ _ _ _ _ (map_at_ok _ _ _ Hi)). cbn [view] in Hv.
  destruct (m !! l) as [[| |d]|] eqn:El; try done. injection Hv as <- <-.
  rewrite (bind_ok _ _ _ d m) by (unfold dict; by rewrite El).
  destruct (alloc_assign m (Field o f) _ (CDict ∅) (λ q, VMap (Some q)) Ho)
    as (q & m0 & m1 & Eq & Hq & E1 & E0 & H01 & Hml & Hdom & Ho1).
  unfold make_map. rewrite (bind_ok _ _ _ _ _ Eq), (bind_ok _ _ _ _ _ (assign_ok _ _ _ _ E1)).
  eexists. split.
  { apply (range_assign (Field o f) q _ m1 ∅ Ho1); [|done|].
    - intros <-. by apply Hq, (load_root _ _ _ Ho).
    - rewrite range_order_perm. apply NoDup_fst_map_to_list. }
  assert (list_to_map (range_order d) ∪ ∅ = d) as ->.
  { rewrite map_union_empty. rewrite <-(list_to_map_to_list d) at 2.
    apply list_to_map_proper; [|apply range_order_perm].
    rewrite range_order_perm. apply NoDup_fst_map_to_list. }
  eapply (deliver_new m (Field o f) _ m0 m1 _ q _ _ {[q]}); [done..| | |set_solver].
  - intros l' _ Hn. by rewrite lookup_insert_ne.
  - cbn [view]. by rewrite lookup_insert_eq.
Qed.

(** Between the statements of a block: the fields of [todo] are still those of [in], the others
    are copies. *)
Definition partly (m : mem) (o : addr) (fs : list (string * ty)) (vs : list (string * gval))
    (xs : list (string * tree)) (todo : list string) (mk : mem) : Prop :=
  ∃ us m0, store m o (VStruct us) = Some m0 ∧ m0 ⊆ mk ∧
    ∀ j f t, fs !! j = Some (f, t) → ∃ u x F,
      assoc f us = Some u ∧ xs !! j = Some (f, x) ∧ view mk t u = Some (x, F) ∧ (root o ∉ F) ∧
      (f ∈ todo → assoc f us = assoc f vs) ∧ (f ∉ todo → F ## dom m).

Lemma partly_step m o fs vs xs f t x todo mk mk' :
  NoDup fs.*1 → (f, t) ∈ fs → f ∉ todo → root o ∈ dom m →
  (∀ j y, fs !! j = Some (f, t) → xs !! j = Some (f, y) → y = x) →
  partly m o fs vs xs (f :: todo) mk →
  delivers mk (Field o f) t x mk' → partly m o fs vs xs todo mk'.
Proof.
  intros Hnd Hf Htodo Hro Hx (us & m0 & E0 & H0 & Hfs) (v & m1 & F & E1 & H1 & Hv & HF).
  pose proof (load_mono _ _ _ _ H0 (store_load _ _ _ _ E0)) as Ho.
  cbn [store] in E1. rewrite Ho in E1. destruct (assoc f us) as [u|] eqn:Eu; [|done].
  assert (dom m ⊆ dom mk) as Hdm.
  { rewrite <-(store_dom _ _ _ _ E0). by apply subseteq_dom. }
  destruct (store_Some m0 o (VStruct us) (VStruct (assoc_set f v us))) as [m2 E2];
    [by eapply store_load|].
  destruct (store_mono _ _ _ _ _ H0 E2) as (m1' & E1' & H2). simplify_eq.
  exists (assoc_set f v us), m2. rewrite (store_again _ _ _ _ _ E0) in E2.
  split; [done|]. split; [by etransitivity|]. intros j g t' Hj.
  destruct (Hfs j g t' Hj) as (w & y & G & Hw & Hy & Hvw & HG & Hsh & Hcp).
  destruct (decide (g = f)) as [->|Hn].
  - assert (t' = t) as ->.
    { pose proof (assoc_zip f t fs Hnd Hf) as Ht.
      rewrite (assoc_zip f t' fs Hnd) in Ht; [congruence|]. by eapply list_elem_of_lookup_2. }
    exists v, x, F. rewrite (assoc_set_eq f v us u Eu), Hy, (Hx j y Hj Hy).
    repeat split; [done|set_solver|done|set_solver].
  - exists w, y, G. rewrite assoc_set_ne by done. repeat split; [done|done| |done| |].
    + by eapply (view_after mk o).
    + intros Hin. apply Hsh. by right.
    + intros Hin. apply Hcp. set_solver.
Qed.

(** The statements of a block, one field each. *)
Definition handles (fs : list (string * ty)) (body : list step) : Prop :=
  Forall (λ st, ∃ t, (st.1, t) ∈ fs ∧ field_copies t st.1 st.2) body.

Lemma block_partly m i o fs vs xs body : ∀ mk,
  NoDup fs.*1 → NoDup body.*1 → handles fs body →
  load m i = Some (VStruct vs) → root o ≠ root i → root o ∈ dom m →
  partly m o fs vs xs body.*1 mk →
  ∃ m', block body i o mk = Some (tt, m') ∧ partly m o fs vs xs [] m'.
Proof.
  induction body as [|[f s] body IH]; cbn [block fmap list_fmap fst]; intros mk Hnd Hb Hh Hi Hr Hro Hp.
  - by exists mk.
  - apply NoDup_cons in Hb as [Hf Hb]. apply Forall_cons in Hh as [(t & Hin & Hs) Hh].
    pose proof Hp as (us & m0 & E0 & H0 & Hfs).
    pose proof (load_mono _ _ _ _ H0 (store_load _ _ _ _ E0)) as Ho.
    destruct (list_elem_of_lookup_1 _ _ Hin) as [j Hj].
    destruct (Hfs j f t Hj) as (u & x & F & Hu & Hx & Hv & HF & Hsh & _).
    assert (assoc f vs = Some u) as Hvs by (rewrite <-Hsh; [done|left]).
    destruct (Hs mk i o u x F) as (m' & Em & Hd); try done.
    { cbn [load]. by rewrite (load_after _ _ _ _ _ _ _ E0 H0 (not_eq_sym Hr) Hi). }
    { cbn [load]. by rewrite Ho. }
    rewrite (bind_ok _ _ _ _ _ Em). apply IH; try done.
    eapply (partly_step m o fs vs xs f t x); try done.
    intros k y Hk Hy. assert (k = j) as ->; [|congruence].
    apply (NoDup_lookup fs.*1 k j f Hnd); rewrite list_lookup_fmap; [by rewrite Hk|by rewrite Hj].
Qed.

(** A block that handles every field with references copies the struct. *)
Lemma into_copies fs body :
  NoDup fs.*1 → NoDup body.*1 → handles fs body →
  Forall (λ '(f, t), f ∈ body.*1 ∨ flat t = true) fs →
  copies (TStruct fs) (into body).
Proof.
  intros Hnd Hb Hh Hrest m i o v w x F Hi Hv Ho Hr HF.
  destruct (view_struct_inv _ _ _ _ _ Hv) as (vs & xs & -> & -> & Hg).
  destruct (shallow_ok m i o _ w Hi Ho) as (m1 & E1 & Es). unfold into.
  rewrite (bind_ok _ _ _ _ _ E1).
  destruct (block_partly m i o fs vs xs body m1) as (m' & Em & us & m0 & E0 & H0 & Hfs); try done.
  { by eapply load_root. }
  { exists vs, m1. repeat split; [done|done|]. intros j f t Hj.
    destruct (Forall2_lookup_l _ _ _ _ _ (gather_inv _ _ _ _ Hg) Hj)
      as (b & Hx & G & (u & y & Hu & Hvu & ->)%view_field_Some & HG).
    exists u, y, G. repeat split; [done|done| |set_solver|].
    - eapply view_after; [exact Es|done|set_solver|done].
    - intros Hn. rewrite Forall_lookup in Hrest.
      destruct (Hrest j _ Hj) as [?|Hf]; [done|].
      rewrite (view_flat _ _ _ _ _ Hf Hvu). set_solver. }
  exists m'. split; [exact Em|].
  destruct (gather_index (view_field m' us) (dom m) fs xs) as (G & EG & HG).
  - eapply Forall2_length, gather_inv, Hg.
  - intros j [f t] Hj. destruct (Hfs j f t Hj) as (u & y & F' & Hu & Hx & Hvu & _ & _ & HF').
    exists (f, y), F'. split; [done|]. split; [|apply HF'; set_solver].
    apply view_field_Some. by exists u, y.
  - exists (VStruct us), m0, G. repeat split; [done|done| |done]. by rewrite view_struct, EG.
Qed.

(** DeepCopy on a pointer, nil included. *)
Definition clones (t : ty) (copy : option addr → Mem (option addr)) : Prop :=
  ∀ m p x F,
    view m (TPtr t) (VPtr p) = Some (x, F) →
    ∃ q m' F', copy p m = Some (q, m') ∧ m ⊆ m' ∧
      view m' (TPtr t) (VPtr q) = Some (x, F') ∧ F' ## dom m.

Lemma deep_copy_clones t g : copies t g → clones t (deep_copy t g).
Proof.
  intros Hg m [a|] x F Hv; cbn [view] in Hv;
    [|injection Hv as <- <-; exists None, m, ∅; repeat split; [done|set_solver]].
  destruct (load m a) as [w|] eqn:Ea; [|done].
  destruct (view m t w) as [[y G]|] eqn:Ew; [|done]. injection Hv as <- <-.
  destruct (alloc_new (CVal (zero t)) m) as (l & El & Hl & Hs). unfold deep_copy, new.
  rewrite (bind_ok _ _ _ _ _ (bind_ok _ (λ l, mret (Cell l)) _ _ _ El)).
  pose proof (load_root _ _ _ Ea) as Hra. pose proof (view_dom _ _ _ _ _ Ew) as HG.
  destruct (Hg (<[l := CVal (zero t)]> m) a (Cell l) w (zero t) y G)
    as (m' & Em & v' & m2 & F' & E2 & H2 & Hv' & HF').
  { by eapply load_mono. }
  { by eapply view_mono. }
  { cbn. by rewrite lookup_insert_eq. }
  { cbn. set_solver. }
  { cbn. set_solver. }
  rewrite (bind_ok _ _ _ _ _ Em). exists (Some (Cell l)), m', ({[l]} ∪ F').
  repeat split; [| |rewrite dom_insert in HF'; set_solver].
  - apply map_subseteq_spec. intros l' c Hc.
    pose proof (elem_of_dom_2 _ _ _ Hc) as Hd.
    assert (l' ≠ l) by set_solver.
    rewrite (lookup_after _ _ _ _ _ _ E2 H2); [by rewrite lookup_insert_ne| |done].
    rewrite dom_insert. set_solver.
  - cbn [view]. by rewrite (load_mono _ _ _ _ H2 (store_load _ _ _ _ E2)), Hv'.
Qed.

(** The original and a copy share nothing: what is done to the cells of one, and to cells
    allocated later, does not show in the other. *)
Lemma clone_independent t m p x F q m' F' :
  view m (TPtr t) (VPtr p) = Some (x, F) → m ⊆ m' →
  view m' (TPtr t) (VPtr q) = Some (x, F') → F' ## dom m →
  (∀ m'', changes_only F' m' m'' → view m'' (TPtr t) (VPtr p) = Some (x, F)) ∧
  (∀ m'', changes_only F m' m'' → view m'' (TPtr t) (VPtr q) = Some (x, F')).
Proof.
  intros Hp Hs Hq HF. pose proof (view_dom _ _ _ _ _ Hp) as Hpd.
  pose proof (view_dom _ _ _ _ _ Hq) as Hqd. split; intros m'' Hc.
  - eapply view_frame; [exact (view_mono _ _ _ _ _ _ Hs Hp)|]. intros l Hl.
    apply Hc; [|set_solver]. apply (subseteq_dom _ _ Hs). set_solver.
  - eapply view_frame; [exact Hq|]. intros l Hl. apply Hc; set_solver.
Qed.

Lemma deep_copy_object_independent name t copy m p x F :
  clones t copy → view m (TPtr t) (VPtr p) = Some (x, F) →
  ∃ c m', deep_copy_object name copy p m = Some (c, m') ∧ m ⊆ m' ∧
    match c with
    | None => p = None
    | Some (n, q) => p ≠ None ∧ n = name ∧ ∃ F', view m' (TPtr t) (VPtr (Some q)) = Some (x, F') ∧
        (∀ m'', changes_only F' m' m'' → view m'' (TPtr t) (VPtr p) = Some (x, F)) ∧
        (∀ m'', changes_only F m' m'' → view m'' (TPtr t) (VPtr (Some q)) = Some (x, F'))
    end.
Proof.
  intros Hc Hp. destruct (Hc m p x F Hp) as (q & m' & F' & Eq & Hs & Hq & HF).
  unfold deep_copy_object. rewrite (bind_ok _ _ _ _ _ Eq).
  destruct q as [q|].
  - exists (Some (name, q)), m'. repeat split; try done.
    { intros ->. cbn [view] in Hp, Hq. injection Hp as <- _. by repeat case_match. }
    exists F'. split; [done|]. by eapply clone_independent.
  - exists None, m'. repeat split; try done.
    destruct p as [a|]; [|done]. cbn [view] in Hp, Hq. injection Hq as <- _. by repeat case_match.
Qed.

Create HintDb deepcopy discriminated.
#[export] Hint Resolve shallow_copies same_copies copies_field new_ptr_copies new_slice_copies
  new_flat_slice_copies new_map_copies : deepcopy.

(** Proves that a DeepCopyInto copies its struct: the fields are distinct, each statement copies
    its field, and those without a statement have no references. *)
Ltac deep_copies :=
  apply into_copies;
  [ apply (bool_decide_unpack _); vm_compute; exact I
  | apply (bool_decide_unpack _); vm_compute; exact I
  | repeat (apply Forall_cons; split); try apply Forall_nil; try done;
    (eexists; split;
      [repeat first [apply list_elem_of_here | apply list_elem_of_further] | eauto with deepcopy])
  | repeat (apply Forall_cons; split); try apply Forall_nil; try done;
    first [right; reflexivity
          | left; repeat first [apply list_elem_of_here | apply list_elem_of_further]] ].
