(* ===== verification/DeepCopy.v ===== *)
(** * DeepCopy: the API types in memory and their deep copies

    api/v1alpha1/zz_generated.deepcopy.go, method by method, and the layout of the types of
    api/v1alpha1 it works on.  applyOwned reads the stored object into a deep copy of the wanted
    one, and the client's cache hands out deep copies, so the rest of the development, where
    objects are values, rests on what is proved here: a copy has the same content and shares no
    memory with its original.

    The structs of k8s.io/apimachinery that the types embed, and their own DeepCopyInto methods,
    are the class [MetaTypes]; that those methods are deep copies is [MetaTypesLaws]. *)

From S2P Require Import Prelude Memory Copy.

Class MetaTypes := {
  TypeMeta : ty;
  ObjectMeta : ty;
  ListMeta : ty;
  Condition : ty;
  RawExtension : ty;
  ObjectMeta_DeepCopyInto : stmt;
  ListMeta_DeepCopyInto : stmt;
  Condition_DeepCopyInto : stmt;
  RawExtension_DeepCopyInto : stmt;
}.

Class MetaTypesLaws (MT : MetaTypes) : Prop := {
  TypeMeta_flat : flat TypeMeta = true;  (* two strings *)
  ObjectMeta_copies : copies ObjectMeta ObjectMeta_DeepCopyInto;
  ListMeta_copies : copies ListMeta ListMeta_DeepCopyInto;
  Condition_copies : copies Condition Condition_DeepCopyInto;
  RawExtension_copies : copies RawExtension RawExtension_DeepCopyInto;
}.

Section api.
Context {MT : MetaTypes} {MR : MapRange}.

(** ** The types *)

Definition RANCell_type : ty :=
  TStruct
    [("Band", TString); ("DlArfcn", TInt); ("BandwidthMHz", TInt); ("CommonScs", TInt);
     ("Pci", TInt); ("Antennas", TInt)].

Definition RANOfh_type : ty :=
  TStruct
    [("Interface", TString); ("RuMac", TString); ("DuMac", TString); ("VlanTag", TInt);
     ("EalArgs", TString); ("PrachPortId", TSlice TInt); ("DlPortId", TSlice TInt);
     ("UlPortId", TSlice TInt)].

Definition RANSpec_type : ty :=
  TStruct
    [("Stack", TString); ("Enabled", TPtr TBool); ("Split", TString); ("Device", TString);
     ("Config", TString); ("LdLibraryPath", TString); ("Cpuset", TString);
     ("RadioAddr", TString); ("RadioNic", TString); ("Cell", RANCell_type);
     ("Ofh", TPtr RANOfh_type)].

Definition EdgeSiteSpec_type : ty :=
  TStruct
    [("Server", TString); ("User", TString); ("Role", TString); ("ControlPlane", TString);
     ("Colocated", TBool); ("PodCIDR", TString); ("SliceSD", TString); ("UEPool", TString);
     ("AccessCIDR", TString); ("CoreCIDR", TString); ("AccessGw", TString); ("CoreGw", TString);
     ("CoreNextHop", TString); ("GnbIP", TString); ("RanSubnet", TString); ("N2VIP", TString);
     ("RanNic", TString); ("EgressNic", TString); ("RAN", TPtr RANSpec_type)].

Definition EdgeSiteStatus_type : ty :=
  TStruct
    [("Phase", TString); ("Message", TString); ("Cluster", TString);
     ("ObservedGeneration", TInt); ("Conditions", TSlice Condition)].

Definition EdgeSite_type : ty :=
  TStruct
    [("TypeMeta", TypeMeta); ("ObjectMeta", ObjectMeta); ("Spec", EdgeSiteSpec_type);
     ("Status", EdgeSiteStatus_type)].

Definition EdgeSiteList_type : ty :=
  TStruct
    [("TypeMeta", TypeMeta); ("ListMeta", ListMeta); ("Items", TSlice EdgeSite_type)].

Definition FabricPrefix_type : ty :=
  TStruct
    [("Prefix", TString); ("Labels", TMap)].

Definition FleetSite_type : ty :=
  TStruct
    [("Server", TString); ("User", TString); ("Role", TString); ("Name", TString);
     ("RAN", TPtr RANSpec_type)].

Definition FleetSpec_type : ty :=
  TStruct
    [("Sites", TSlice FleetSite_type)].

Definition FleetStatus_type : ty :=
  TStruct
    [("Sites", TInt); ("Message", TString); ("Conditions", TSlice Condition)].

Definition Fleet_type : ty :=
  TStruct
    [("TypeMeta", TypeMeta); ("ObjectMeta", ObjectMeta); ("Spec", FleetSpec_type);
     ("Status", FleetStatus_type)].

Definition FleetList_type : ty :=
  TStruct
    [("TypeMeta", TypeMeta); ("ListMeta", ListMeta); ("Items", TSlice Fleet_type)].

Definition GnbRef_type : ty :=
  TStruct
    [("Name", TString); ("Tac", TInt)].

Definition MeshLinkSpec_type : ty :=
  TStruct
    [("Edge", TString); ("ControlPlane", TString); ("UPFName", TString)].

Definition MeshLinkStatus_type : ty :=
  TStruct
    [("Phase", TString); ("Message", TString); ("Conditions", TSlice Condition)].

Definition MeshLink_type : ty :=
  TStruct
    [("TypeMeta", TypeMeta); ("ObjectMeta", ObjectMeta); ("Spec", MeshLinkSpec_type);
     ("Status", MeshLinkStatus_type)].

Definition MeshLinkList_type : ty :=
  TStruct
    [("TypeMeta", TypeMeta); ("ListMeta", ListMeta); ("Items", TSlice MeshLink_type)].

Definition NetworkFabricSpec_type : ty :=
  TStruct
    [("Prefixes", TSlice FabricPrefix_type)].

Definition NetworkFabricStatus_type : ty :=
  TStruct
    [("LastReconcile", TString); ("Conditions", TSlice Condition)].

Definition NetworkFabric_type : ty :=
  TStruct
    [("TypeMeta", TypeMeta); ("ObjectMeta", ObjectMeta); ("Spec", NetworkFabricSpec_type);
     ("Status", NetworkFabricStatus_type)].

Definition NetworkFabricList_type : ty :=
  TStruct
    [("TypeMeta", TypeMeta); ("ListMeta", ListMeta); ("Items", TSlice NetworkFabric_type)].

Definition PlmnId_type : ty :=
  TStruct
    [("Mcc", TString); ("Mnc", TString)].

Definition SliceQos_type : ty :=
  TStruct
    [("MbrUplink", TInt); ("MbrDownlink", TInt)].

Definition NetworkSliceSpec_type : ty :=
  TStruct
    [("Sst", TString); ("Sd", TString); ("Dnn", TString); ("UePool", TString);
     ("UpfName", TString); ("Plmn", PlmnId_type); ("Gnbs", TSlice GnbRef_type);
     ("Qos", SliceQos_type)].

Definition NetworkSliceStatus_type : ty :=
  TStruct
    [("Phase", TString); ("Message", TString); ("Provisioned", TString);
     ("Conditions", TSlice Condition)].

Definition NetworkSlice_type : ty :=
  TStruct
    [("TypeMeta", TypeMeta); ("ObjectMeta", ObjectMeta); ("Spec", NetworkSliceSpec_type);
     ("Status", NetworkSliceStatus_type)].

Definition NetworkSliceList_type : ty :=
  TStruct
    [("TypeMeta", TypeMeta); ("ListMeta", ListMeta); ("Items", TSlice NetworkSlice_type)].

Definition SDCoreDeploymentSpec_type : ty :=
  TStruct
    [("Component", TString); ("Values", TPtr RawExtension); ("TargetNamespace", TString)].

Definition SDCoreDeploymentStatus_type : ty :=
  TStruct
    [("Phase", TString); ("Message", TString); ("ReleaseRevision", TInt);
     ("ObservedGeneration", TInt); ("Conditions", TSlice Condition)].

Definition SDCoreDeployment_type : ty :=
  TStruct
    [("TypeMeta", TypeMeta); ("ObjectMeta", ObjectMeta); ("Spec", SDCoreDeploymentSpec_type);
     ("Status", SDCoreDeploymentStatus_type)].

Definition SDCoreDeploymentList_type : ty :=
  TStruct
    [("TypeMeta", TypeMeta); ("ListMeta", ListMeta); ("Items", TSlice SDCoreDeployment_type)].

Definition SubscriberSpec_type : ty :=
  TStruct
    [("IMSI", TString); ("Key", TString); ("Opc", TString); ("SliceRef", TString);
     ("SequenceNumber", TString)].

Definition SubscriberStatus_type : ty :=
  TStruct
    [("Phase", TString); ("Message", TString); ("Conditions", TSlice Condition)].

Definition Subscriber_type : ty :=
  TStruct
    [("TypeMeta", TypeMeta); ("ObjectMeta", ObjectMeta); ("Spec", SubscriberSpec_type);
     ("Status", SubscriberStatus_type)].

Definition SubscriberList_type : ty :=
  TStruct
    [("TypeMeta", TypeMeta); ("ListMeta", ListMeta); ("Items", TSlice Subscriber_type)].

Definition UPFDataPathSpec_type : ty :=
  TStruct
    [("UEPool", TString); ("AccessGateway", TString); ("CoreGateway", TString);
     ("CoreNextHop", TString); ("AccessBridge", TString); ("CoreBridge", TString);
     ("GnbIP", TString); ("EgressNic", TString); ("UPFLabel", TString)].

Definition UPFDataPathStatus_type : ty :=
  TStruct
    [("LastReconcile", TString); ("Node", TString); ("Conditions", TSlice Condition)].

Definition UPFDataPath_type : ty :=
  TStruct
    [("TypeMeta", TypeMeta); ("ObjectMeta", ObjectMeta); ("Spec", UPFDataPathSpec_type);
     ("Status", UPFDataPathStatus_type)].

Definition UPFDataPathList_type : ty :=
  TStruct
    [("TypeMeta", TypeMeta); ("ListMeta", ListMeta); ("Items", TSlice UPFDataPath_type)].

(** ** The methods *)

Definition RANCell_DeepCopyInto : stmt :=
  into [].
Definition RANCell_DeepCopy : option addr → Mem (option addr) :=
  deep_copy RANCell_type RANCell_DeepCopyInto.

Definition RANOfh_DeepCopyInto : stmt :=
  into [new_flat_slice "PrachPortId" TInt; new_flat_slice "DlPortId" TInt;
    new_flat_slice "UlPortId" TInt].
Definition RANOfh_DeepCopy : option addr → Mem (option addr) :=
  deep_copy RANOfh_type RANOfh_DeepCopyInto.

Definition RANSpec_DeepCopyInto : stmt :=
  into [new_ptr "Enabled" TBool shallow; same "Cell";
    new_ptr "Ofh" RANOfh_type RANOfh_DeepCopyInto].
Definition RANSpec_DeepCopy : option addr → Mem (option addr) :=
  deep_copy RANSpec_type RANSpec_DeepCopyInto.

Definition EdgeSiteSpec_DeepCopyInto : stmt :=
  into [new_ptr "RAN" RANSpec_type RANSpec_DeepCopyInto].
Definition EdgeSiteSpec_DeepCopy : option addr → Mem (option addr) :=
  deep_copy EdgeSiteSpec_type EdgeSiteSpec_DeepCopyInto.

Definition EdgeSiteStatus_DeepCopyInto : stmt :=
  into [new_slice "Conditions" Condition Condition_DeepCopyInto].
Definition EdgeSiteStatus_DeepCopy : option addr → Mem (option addr) :=
  deep_copy EdgeSiteStatus_type EdgeSiteStatus_DeepCopyInto.

Definition EdgeSite_DeepCopyInto : stmt :=
  into [same "TypeMeta"; deep "ObjectMeta" ObjectMeta_DeepCopyInto;
    deep "Spec" EdgeSiteSpec_DeepCopyInto; deep "Status" EdgeSiteStatus_DeepCopyInto].
Definition EdgeSite_DeepCopy : option addr → Mem (option addr) :=
  deep_copy EdgeSite_type EdgeSite_DeepCopyInto.
Definition EdgeSite_DeepCopyObject : option addr → Mem iface :=
  deep_copy_object "EdgeSite" EdgeSite_DeepCopy.

Definition EdgeSiteList_DeepCopyInto : stmt :=
  into [same "TypeMeta"; deep "ListMeta" ListMeta_DeepCopyInto;
    new_slice "Items" EdgeSite_type EdgeSite_DeepCopyInto].
Definition EdgeSiteList_DeepCopy : option addr → Mem (option addr) :=
  deep_copy EdgeSiteList_type EdgeSiteList_DeepCopyInto.
Definition EdgeSiteList_DeepCopyObject : option addr → Mem iface :=
  deep_copy_object "EdgeSiteList" EdgeSiteList_DeepCopy.

Definition FabricPrefix_DeepCopyInto : stmt :=
  into [new_map "Labels"].
Definition FabricPrefix_DeepCopy : option addr → Mem (option addr) :=
  deep_copy FabricPrefix_type FabricPrefix_DeepCopyInto.

Definition FleetSite_DeepCopyInto : stmt :=
  into [new_ptr "RAN" RANSpec_type RANSpec_DeepCopyInto].
Definition FleetSite_DeepCopy : option addr → Mem (option addr) :=
  deep_copy FleetSite_type FleetSite_DeepCopyInto.

Definition FleetSpec_DeepCopyInto : stmt :=
  into [new_slice "Sites" FleetSite_type FleetSite_DeepCopyInto].
Definition FleetSpec_DeepCopy : option addr → Mem (option addr) :=
  deep_copy FleetSpec_type FleetSpec_DeepCopyInto.

Definition FleetStatus_DeepCopyInto : stmt :=
  into [new_slice "Conditions" Condition Condition_DeepCopyInto].
Definition FleetStatus_DeepCopy : option addr → Mem (option addr) :=
  deep_copy FleetStatus_type FleetStatus_DeepCopyInto.

Definition Fleet_DeepCopyInto : stmt :=
  into [same "TypeMeta"; deep "ObjectMeta" ObjectMeta_DeepCopyInto;
    deep "Spec" FleetSpec_DeepCopyInto; deep "Status" FleetStatus_DeepCopyInto].
Definition Fleet_DeepCopy : option addr → Mem (option addr) :=
  deep_copy Fleet_type Fleet_DeepCopyInto.
Definition Fleet_DeepCopyObject : option addr → Mem iface :=
  deep_copy_object "Fleet" Fleet_DeepCopy.

Definition FleetList_DeepCopyInto : stmt :=
  into [same "TypeMeta"; deep "ListMeta" ListMeta_DeepCopyInto;
    new_slice "Items" Fleet_type Fleet_DeepCopyInto].
Definition FleetList_DeepCopy : option addr → Mem (option addr) :=
  deep_copy FleetList_type FleetList_DeepCopyInto.
Definition FleetList_DeepCopyObject : option addr → Mem iface :=
  deep_copy_object "FleetList" FleetList_DeepCopy.

Definition GnbRef_DeepCopyInto : stmt :=
  into [].
Definition GnbRef_DeepCopy : option addr → Mem (option addr) :=
  deep_copy GnbRef_type GnbRef_DeepCopyInto.

Definition MeshLinkSpec_DeepCopyInto : stmt :=
  into [].
Definition MeshLinkSpec_DeepCopy : option addr → Mem (option addr) :=
  deep_copy MeshLinkSpec_type MeshLinkSpec_DeepCopyInto.

Definition MeshLinkStatus_DeepCopyInto : stmt :=
  into [new_slice "Conditions" Condition Condition_DeepCopyInto].
Definition MeshLinkStatus_DeepCopy : option addr → Mem (option addr) :=
  deep_copy MeshLinkStatus_type MeshLinkStatus_DeepCopyInto.

Definition MeshLink_DeepCopyInto : stmt :=
  into [same "TypeMeta"; deep "ObjectMeta" ObjectMeta_DeepCopyInto; same "Spec";
    deep "Status" MeshLinkStatus_DeepCopyInto].
Definition MeshLink_DeepCopy : option addr → Mem (option addr) :=
  deep_copy MeshLink_type MeshLink_DeepCopyInto.
Definition MeshLink_DeepCopyObject : option addr → Mem iface :=
  deep_copy_object "MeshLink" MeshLink_DeepCopy.

Definition MeshLinkList_DeepCopyInto : stmt :=
  into [same "TypeMeta"; deep "ListMeta" ListMeta_DeepCopyInto;
    new_slice "Items" MeshLink_type MeshLink_DeepCopyInto].
Definition MeshLinkList_DeepCopy : option addr → Mem (option addr) :=
  deep_copy MeshLinkList_type MeshLinkList_DeepCopyInto.
Definition MeshLinkList_DeepCopyObject : option addr → Mem iface :=
  deep_copy_object "MeshLinkList" MeshLinkList_DeepCopy.

Definition NetworkFabricSpec_DeepCopyInto : stmt :=
  into [new_slice "Prefixes" FabricPrefix_type FabricPrefix_DeepCopyInto].
Definition NetworkFabricSpec_DeepCopy : option addr → Mem (option addr) :=
  deep_copy NetworkFabricSpec_type NetworkFabricSpec_DeepCopyInto.

Definition NetworkFabricStatus_DeepCopyInto : stmt :=
  into [new_slice "Conditions" Condition Condition_DeepCopyInto].
Definition NetworkFabricStatus_DeepCopy : option addr → Mem (option addr) :=
  deep_copy NetworkFabricStatus_type NetworkFabricStatus_DeepCopyInto.

Definition NetworkFabric_DeepCopyInto : stmt :=
  into [same "TypeMeta"; deep "ObjectMeta" ObjectMeta_DeepCopyInto;
    deep "Spec" NetworkFabricSpec_DeepCopyInto; deep "Status" NetworkFabricStatus_DeepCopyInto].
Definition NetworkFabric_DeepCopy : option addr → Mem (option addr) :=
  deep_copy NetworkFabric_type NetworkFabric_DeepCopyInto.
Definition NetworkFabric_DeepCopyObject : option addr → Mem iface :=
  deep_copy_object "NetworkFabric" NetworkFabric_DeepCopy.

Definition NetworkFabricList_DeepCopyInto : stmt :=
  into [same "TypeMeta"; deep "ListMeta" ListMeta_DeepCopyInto;
    new_slice "Items" NetworkFabric_type NetworkFabric_DeepCopyInto].
Definition NetworkFabricList_DeepCopy : option addr → Mem (option addr) :=
  deep_copy NetworkFabricList_type NetworkFabricList_DeepCopyInto.
Definition NetworkFabricList_DeepCopyObject : option addr → Mem iface :=
  deep_copy_object "NetworkFabricList" NetworkFabricList_DeepCopy.

Definition PlmnId_DeepCopyInto : stmt :=
  into [].
Definition PlmnId_DeepCopy : option addr → Mem (option addr) :=
  deep_copy PlmnId_type PlmnId_DeepCopyInto.

Definition SliceQos_DeepCopyInto : stmt :=
  into [].
Definition SliceQos_DeepCopy : option addr → Mem (option addr) :=
  deep_copy SliceQos_type SliceQos_DeepCopyInto.

Definition NetworkSliceSpec_DeepCopyInto : stmt :=
  into [same "Plmn"; new_flat_slice "Gnbs" GnbRef_type; same "Qos"].
Definition NetworkSliceSpec_DeepCopy : option addr → Mem (option addr) :=
  deep_copy NetworkSliceSpec_type NetworkSliceSpec_DeepCopyInto.

Definition NetworkSliceStatus_DeepCopyInto : stmt :=
  into [new_slice "Conditions" Condition Condition_DeepCopyInto].
Definition NetworkSliceStatus_DeepCopy : option addr → Mem (option addr) :=
  deep_copy NetworkSliceStatus_type NetworkSliceStatus_DeepCopyInto.

Definition NetworkSlice_DeepCopyInto : stmt :=
  into [same "TypeMeta"; deep "ObjectMeta" ObjectMeta_DeepCopyInto;
    deep "Spec" NetworkSliceSpec_DeepCopyInto; deep "Status" NetworkSliceStatus_DeepCopyInto].
Definition NetworkSlice_DeepCopy : option addr → Mem (option addr) :=
  deep_copy NetworkSlice_type NetworkSlice_DeepCopyInto.
Definition NetworkSlice_DeepCopyObject : option addr → Mem iface :=
  deep_copy_object "NetworkSlice" NetworkSlice_DeepCopy.

Definition NetworkSliceList_DeepCopyInto : stmt :=
  into [same "TypeMeta"; deep "ListMeta" ListMeta_DeepCopyInto;
    new_slice "Items" NetworkSlice_type NetworkSlice_DeepCopyInto].
Definition NetworkSliceList_DeepCopy : option addr → Mem (option addr) :=
  deep_copy NetworkSliceList_type NetworkSliceList_DeepCopyInto.
Definition NetworkSliceList_DeepCopyObject : option addr → Mem iface :=
  deep_copy_object "NetworkSliceList" NetworkSliceList_DeepCopy.

Definition SDCoreDeploymentSpec_DeepCopyInto : stmt :=
  into [new_ptr "Values" RawExtension RawExtension_DeepCopyInto].
Definition SDCoreDeploymentSpec_DeepCopy : option addr → Mem (option addr) :=
  deep_copy SDCoreDeploymentSpec_type SDCoreDeploymentSpec_DeepCopyInto.

Definition SDCoreDeploymentStatus_DeepCopyInto : stmt :=
  into [new_slice "Conditions" Condition Condition_DeepCopyInto].
Definition SDCoreDeploymentStatus_DeepCopy : option addr → Mem (option addr) :=
  deep_copy SDCoreDeploymentStatus_type SDCoreDeploymentStatus_DeepCopyInto.

Definition SDCoreDeployment_DeepCopyInto : stmt :=
  into [same "TypeMeta"; deep "ObjectMeta" ObjectMeta_DeepCopyInto;
    deep "Spec" SDCoreDeploymentSpec_DeepCopyInto;
    deep "Status" SDCoreDeploymentStatus_DeepCopyInto].
Definition SDCoreDeployment_DeepCopy : option addr → Mem (option addr) :=
  deep_copy SDCoreDeployment_type SDCoreDeployment_DeepCopyInto.
Definition SDCoreDeployment_DeepCopyObject : option addr → Mem iface :=
  deep_copy_object "SDCoreDeployment" SDCoreDeployment_DeepCopy.

Definition SDCoreDeploymentList_DeepCopyInto : stmt :=
  into [same "TypeMeta"; deep "ListMeta" ListMeta_DeepCopyInto;
    new_slice "Items" SDCoreDeployment_type SDCoreDeployment_DeepCopyInto].
Definition SDCoreDeploymentList_DeepCopy : option addr → Mem (option addr) :=
  deep_copy SDCoreDeploymentList_type SDCoreDeploymentList_DeepCopyInto.
Definition SDCoreDeploymentList_DeepCopyObject : option addr → Mem iface :=
  deep_copy_object "SDCoreDeploymentList" SDCoreDeploymentList_DeepCopy.

Definition SubscriberSpec_DeepCopyInto : stmt :=
  into [].
Definition SubscriberSpec_DeepCopy : option addr → Mem (option addr) :=
  deep_copy SubscriberSpec_type SubscriberSpec_DeepCopyInto.

Definition SubscriberStatus_DeepCopyInto : stmt :=
  into [new_slice "Conditions" Condition Condition_DeepCopyInto].
Definition SubscriberStatus_DeepCopy : option addr → Mem (option addr) :=
  deep_copy SubscriberStatus_type SubscriberStatus_DeepCopyInto.

Definition Subscriber_DeepCopyInto : stmt :=
  into [same "TypeMeta"; deep "ObjectMeta" ObjectMeta_DeepCopyInto; same "Spec";
    deep "Status" SubscriberStatus_DeepCopyInto].
Definition Subscriber_DeepCopy : option addr → Mem (option addr) :=
  deep_copy Subscriber_type Subscriber_DeepCopyInto.
Definition Subscriber_DeepCopyObject : option addr → Mem iface :=
  deep_copy_object "Subscriber" Subscriber_DeepCopy.

Definition SubscriberList_DeepCopyInto : stmt :=
  into [same "TypeMeta"; deep "ListMeta" ListMeta_DeepCopyInto;
    new_slice "Items" Subscriber_type Subscriber_DeepCopyInto].
Definition SubscriberList_DeepCopy : option addr → Mem (option addr) :=
  deep_copy SubscriberList_type SubscriberList_DeepCopyInto.
Definition SubscriberList_DeepCopyObject : option addr → Mem iface :=
  deep_copy_object "SubscriberList" SubscriberList_DeepCopy.

Definition UPFDataPathSpec_DeepCopyInto : stmt :=
  into [].
Definition UPFDataPathSpec_DeepCopy : option addr → Mem (option addr) :=
  deep_copy UPFDataPathSpec_type UPFDataPathSpec_DeepCopyInto.

Definition UPFDataPathStatus_DeepCopyInto : stmt :=
  into [new_slice "Conditions" Condition Condition_DeepCopyInto].
Definition UPFDataPathStatus_DeepCopy : option addr → Mem (option addr) :=
  deep_copy UPFDataPathStatus_type UPFDataPathStatus_DeepCopyInto.

Definition UPFDataPath_DeepCopyInto : stmt :=
  into [same "TypeMeta"; deep "ObjectMeta" ObjectMeta_DeepCopyInto; same "Spec";
    deep "Status" UPFDataPathStatus_DeepCopyInto].
Definition UPFDataPath_DeepCopy : option addr → Mem (option addr) :=
  deep_copy UPFDataPath_type UPFDataPath_DeepCopyInto.
Definition UPFDataPath_DeepCopyObject : option addr → Mem iface :=
  deep_copy_object "UPFDataPath" UPFDataPath_DeepCopy.

Definition UPFDataPathList_DeepCopyInto : stmt :=
  into [same "TypeMeta"; deep "ListMeta" ListMeta_DeepCopyInto;
    new_slice "Items" UPFDataPath_type UPFDataPath_DeepCopyInto].
Definition UPFDataPathList_DeepCopy : option addr → Mem (option addr) :=
  deep_copy UPFDataPathList_type UPFDataPathList_DeepCopyInto.
Definition UPFDataPathList_DeepCopyObject : option addr → Mem iface :=
  deep_copy_object "UPFDataPathList" UPFDataPathList_DeepCopy.

(** Every struct with its DeepCopyInto and DeepCopy; every API object with its DeepCopyObject. *)
Definition generated : list (ty * stmt * (option addr → Mem (option addr))) :=
  [(RANCell_type, RANCell_DeepCopyInto, RANCell_DeepCopy);
   (RANOfh_type, RANOfh_DeepCopyInto, RANOfh_DeepCopy);
   (RANSpec_type, RANSpec_DeepCopyInto, RANSpec_DeepCopy);
   (EdgeSiteSpec_type, EdgeSiteSpec_DeepCopyInto, EdgeSiteSpec_DeepCopy);
   (EdgeSiteStatus_type, EdgeSiteStatus_DeepCopyInto, EdgeSiteStatus_DeepCopy);
   (EdgeSite_type, EdgeSite_DeepCopyInto, EdgeSite_DeepCopy);
   (EdgeSiteList_type, EdgeSiteList_DeepCopyInto, EdgeSiteList_DeepCopy);
   (FabricPrefix_type, FabricPrefix_DeepCopyInto, FabricPrefix_DeepCopy);
   (FleetSite_type, FleetSite_DeepCopyInto, FleetSite_DeepCopy);
   (FleetSpec_type, FleetSpec_DeepCopyInto, FleetSpec_DeepCopy);
   (FleetStatus_type, FleetStatus_DeepCopyInto, FleetStatus_DeepCopy);
   (Fleet_type, Fleet_DeepCopyInto, Fleet_DeepCopy);
   (FleetList_type, FleetList_DeepCopyInto, FleetList_DeepCopy);
   (GnbRef_type, GnbRef_DeepCopyInto, GnbRef_DeepCopy);
   (MeshLinkSpec_type, MeshLinkSpec_DeepCopyInto, MeshLinkSpec_DeepCopy);
   (MeshLinkStatus_type, MeshLinkStatus_DeepCopyInto, MeshLinkStatus_DeepCopy);
   (MeshLink_type, MeshLink_DeepCopyInto, MeshLink_DeepCopy);
   (MeshLinkList_type, MeshLinkList_DeepCopyInto, MeshLinkList_DeepCopy);
   (NetworkFabricSpec_type, NetworkFabricSpec_DeepCopyInto, NetworkFabricSpec_DeepCopy);
   (NetworkFabricStatus_type, NetworkFabricStatus_DeepCopyInto, NetworkFabricStatus_DeepCopy);
   (NetworkFabric_type, NetworkFabric_DeepCopyInto, NetworkFabric_DeepCopy);
   (NetworkFabricList_type, NetworkFabricList_DeepCopyInto, NetworkFabricList_DeepCopy);
   (PlmnId_type, PlmnId_DeepCopyInto, PlmnId_DeepCopy);
   (SliceQos_type, SliceQos_DeepCopyInto, SliceQos_DeepCopy);
   (NetworkSliceSpec_type, NetworkSliceSpec_DeepCopyInto, NetworkSliceSpec_DeepCopy);
   (NetworkSliceStatus_type, NetworkSliceStatus_DeepCopyInto, NetworkSliceStatus_DeepCopy);
   (NetworkSlice_type, NetworkSlice_DeepCopyInto, NetworkSlice_DeepCopy);
   (NetworkSliceList_type, NetworkSliceList_DeepCopyInto, NetworkSliceList_DeepCopy);
   (SDCoreDeploymentSpec_type, SDCoreDeploymentSpec_DeepCopyInto, SDCoreDeploymentSpec_DeepCopy);
   (SDCoreDeploymentStatus_type, SDCoreDeploymentStatus_DeepCopyInto, SDCoreDeploymentStatus_DeepCopy);
   (SDCoreDeployment_type, SDCoreDeployment_DeepCopyInto, SDCoreDeployment_DeepCopy);
   (SDCoreDeploymentList_type, SDCoreDeploymentList_DeepCopyInto, SDCoreDeploymentList_DeepCopy);
   (SubscriberSpec_type, SubscriberSpec_DeepCopyInto, SubscriberSpec_DeepCopy);
   (SubscriberStatus_type, SubscriberStatus_DeepCopyInto, SubscriberStatus_DeepCopy);
   (Subscriber_type, Subscriber_DeepCopyInto, Subscriber_DeepCopy);
   (SubscriberList_type, SubscriberList_DeepCopyInto, SubscriberList_DeepCopy);
   (UPFDataPathSpec_type, UPFDataPathSpec_DeepCopyInto, UPFDataPathSpec_DeepCopy);
   (UPFDataPathStatus_type, UPFDataPathStatus_DeepCopyInto, UPFDataPathStatus_DeepCopy);
   (UPFDataPath_type, UPFDataPath_DeepCopyInto, UPFDataPath_DeepCopy);
   (UPFDataPathList_type, UPFDataPathList_DeepCopyInto, UPFDataPathList_DeepCopy)].

Definition api_objects : list (string * ty * (option addr → Mem iface)) :=
  [("EdgeSite", EdgeSite_type, EdgeSite_DeepCopyObject);
   ("EdgeSiteList", EdgeSiteList_type, EdgeSiteList_DeepCopyObject);
   ("Fleet", Fleet_type, Fleet_DeepCopyObject);
   ("FleetList", FleetList_type, FleetList_DeepCopyObject);
   ("MeshLink", MeshLink_type, MeshLink_DeepCopyObject);
   ("MeshLinkList", MeshLinkList_type, MeshLinkList_DeepCopyObject);
   ("NetworkFabric", NetworkFabric_type, NetworkFabric_DeepCopyObject);
   ("NetworkFabricList", NetworkFabricList_type, NetworkFabricList_DeepCopyObject);
   ("NetworkSlice", NetworkSlice_type, NetworkSlice_DeepCopyObject);
   ("NetworkSliceList", NetworkSliceList_type, NetworkSliceList_DeepCopyObject);
   ("SDCoreDeployment", SDCoreDeployment_type, SDCoreDeployment_DeepCopyObject);
   ("SDCoreDeploymentList", SDCoreDeploymentList_type, SDCoreDeploymentList_DeepCopyObject);
   ("Subscriber", Subscriber_type, Subscriber_DeepCopyObject);
   ("SubscriberList", SubscriberList_type, SubscriberList_DeepCopyObject);
   ("UPFDataPath", UPFDataPath_type, UPFDataPath_DeepCopyObject);
   ("UPFDataPathList", UPFDataPathList_type, UPFDataPathList_DeepCopyObject)].
End api.

(** ** Every method copies its struct *)

Section laws.
Context {MT : MetaTypes} {L : MetaTypesLaws MT} {MR : MapRange}.

#[local] Hint Resolve TypeMeta_flat ObjectMeta_copies ListMeta_copies Condition_copies
  RawExtension_copies : deepcopy.
#[local] Hint Extern 1 (flat _ = true) => reflexivity : deepcopy.

Lemma RANCell_copies : copies RANCell_type RANCell_DeepCopyInto.
Proof. deep_copies. Qed.
#[local] Hint Resolve RANCell_copies : deepcopy.

Lemma RANOfh_copies : copies RANOfh_type RANOfh_DeepCopyInto.
Proof. deep_copies. Qed.
#[local] Hint Resolve RANOfh_copies : deepcopy.

Lemma RANSpec_copies : copies RANSpec_type RANSpec_DeepCopyInto.
Proof. deep_copies. Qed.
#[local] Hint Resolve RANSpec_copies : deepcopy.

Lemma EdgeSiteSpec_copies : copies EdgeSiteSpec_type EdgeSiteSpec_DeepCopyInto.
Proof. deep_copies. Qed.
#[local] Hint Resolve EdgeSiteSpec_copies : deepcopy.

Lemma EdgeSiteStatus_copies : copies EdgeSiteStatus_type EdgeSiteStatus_DeepCopyInto.
Proof. deep_copies. Qed.
#[local] Hint Resolve EdgeSiteStatus_copies : deepcopy.

Lemma EdgeSite_copies : copies EdgeSite_type EdgeSite_DeepCopyInto.
Proof. deep_copies. Qed.
#[local] Hint Resolve EdgeSite_copies : deepcopy.

Lemma EdgeSiteList_copies : copies EdgeSiteList_type EdgeSiteList_DeepCopyInto.
Proof. deep_copies. Qed.
#[local] Hint Resolve EdgeSiteList_copies : deepcopy.

Lemma FabricPrefix_copies : copies FabricPrefix_type FabricPrefix_DeepCopyInto.
Proof. deep_copies. Qed.
#[local] Hint Resolve FabricPrefix_copies : deepcopy.

Lemma FleetSite_copies : copies FleetSite_type FleetSite_DeepCopyInto.
Proof. deep_copies. Qed.
#[local] Hint Resolve FleetSite_copies : deepcopy.

Lemma FleetSpec_copies : copies FleetSpec_type FleetSpec_DeepCopyInto.
Proof. deep_copies. Qed.
#[local] Hint Resolve FleetSpec_copies : deepcopy.

Lemma FleetStatus_copies : copies FleetStatus_type FleetStatus_DeepCopyInto.
Proof. deep_copies. Qed.
#[local] Hint Resolve FleetStatus_copies : deepcopy.

Lemma Fleet_copies : copies Fleet_type Fleet_DeepCopyInto.
Proof. deep_copies. Qed.
#[local] Hint Resolve Fleet_copies : deepcopy.

Lemma FleetList_copies : copies FleetList_type FleetList_DeepCopyInto.
Proof. deep_copies. Qed.
#[local] Hint Resolve FleetList_copies : deepcopy.

Lemma GnbRef_copies : copies GnbRef_type GnbRef_DeepCopyInto.
Proof. deep_copies. Qed.
#[local] Hint Resolve GnbRef_copies : deepcopy.

Lemma MeshLinkSpec_copies : copies MeshLinkSpec_type MeshLinkSpec_DeepCopyInto.
Proof. deep_copies. Qed.
#[local] Hint Resolve MeshLinkSpec_copies : deepcopy.

Lemma MeshLinkStatus_copies : copies MeshLinkStatus_type MeshLinkStatus_DeepCopyInto.
Proof. deep_copies. Qed.
#[local] Hint Resolve MeshLinkStatus_copies : deepcopy.

Lemma MeshLink_copies : copies MeshLink_type MeshLink_DeepCopyInto.
Proof. deep_copies. Qed.
#[local] Hint Resolve MeshLink_copies : deepcopy.

Lemma MeshLinkList_copies : copies MeshLinkList_type MeshLinkList_DeepCopyInto.
Proof. deep_copies. Qed.
#[local] Hint Resolve MeshLinkList_copies : deepcopy.

Lemma NetworkFabricSpec_copies : copies NetworkFabricSpec_type NetworkFabricSpec_DeepCopyInto.
Proof. deep_copies. Qed.
#[local] Hint Resolve NetworkFabricSpec_copies : deepcopy.

Lemma NetworkFabricStatus_copies : copies NetworkFabricStatus_type NetworkFabricStatus_DeepCopyInto.
Proof. deep_copies. Qed.
#[local] Hint Resolve NetworkFabricStatus_copies : deepcopy.

Lemma NetworkFabric_copies : copies NetworkFabric_type NetworkFabric_DeepCopyInto.
Proof. deep_copies. Qed.
#[local] Hint Resolve NetworkFabric_copies : deepcopy.

Lemma NetworkFabricList_copies : copies NetworkFabricList_type NetworkFabricList_DeepCopyInto.
Proof. deep_copies. Qed.
#[local] Hint Resolve NetworkFabricList_copies : deepcopy.

Lemma PlmnId_copies : copies PlmnId_type PlmnId_DeepCopyInto.
Proof. deep_copies. Qed.
#[local] Hint Resolve PlmnId_copies : deepcopy.

Lemma SliceQos_copies : copies SliceQos_type SliceQos_DeepCopyInto.
Proof. deep_copies. Qed.
#[local] Hint Resolve SliceQos_copies : deepcopy.

Lemma NetworkSliceSpec_copies : copies NetworkSliceSpec_type NetworkSliceSpec_DeepCopyInto.
Proof. deep_copies. Qed.
#[local] Hint Resolve NetworkSliceSpec_copies : deepcopy.

Lemma NetworkSliceStatus_copies : copies NetworkSliceStatus_type NetworkSliceStatus_DeepCopyInto.
Proof. deep_copies. Qed.
#[local] Hint Resolve NetworkSliceStatus_copies : deepcopy.

Lemma NetworkSlice_copies : copies NetworkSlice_type NetworkSlice_DeepCopyInto.
Proof. deep_copies. Qed.
#[local] Hint Resolve NetworkSlice_copies : deepcopy.

Lemma NetworkSliceList_copies : copies NetworkSliceList_type NetworkSliceList_DeepCopyInto.
Proof. deep_copies. Qed.
#[local] Hint Resolve NetworkSliceList_copies : deepcopy.

Lemma SDCoreDeploymentSpec_copies : copies SDCoreDeploymentSpec_type SDCoreDeploymentSpec_DeepCopyInto.
Proof. deep_copies. Qed.
#[local] Hint Resolve SDCoreDeploymentSpec_copies : deepcopy.

Lemma SDCoreDeploymentStatus_copies : copies SDCoreDeploymentStatus_type SDCoreDeploymentStatus_DeepCopyInto.
Proof. deep_copies. Qed.
#[local] Hint Resolve SDCoreDeploymentStatus_copies : deepcopy.

Lemma SDCoreDeployment_copies : copies SDCoreDeployment_type SDCoreDeployment_DeepCopyInto.
Proof. deep_copies. Qed.
#[local] Hint Resolve SDCoreDeployment_copies : deepcopy.

Lemma SDCoreDeploymentList_copies : copies SDCoreDeploymentList_type SDCoreDeploymentList_DeepCopyInto.
Proof. deep_copies. Qed.
#[local] Hint Resolve SDCoreDeploymentList_copies : deepcopy.

Lemma SubscriberSpec_copies : copies SubscriberSpec_type SubscriberSpec_DeepCopyInto.
Proof. deep_copies. Qed.
#[local] Hint Resolve SubscriberSpec_copies : deepcopy.

Lemma SubscriberStatus_copies : copies SubscriberStatus_type SubscriberStatus_DeepCopyInto.
Proof. deep_copies. Qed.
#[local] Hint Resolve SubscriberStatus_copies : deepcopy.

Lemma Subscriber_copies : copies Subscriber_type Subscriber_DeepCopyInto.
Proof. deep_copies. Qed.
#[local] Hint Resolve Subscriber_copies : deepcopy.

Lemma SubscriberList_copies : copies SubscriberList_type SubscriberList_DeepCopyInto.
Proof. deep_copies. Qed.
#[local] Hint Resolve SubscriberList_copies : deepcopy.

Lemma UPFDataPathSpec_copies : copies UPFDataPathSpec_type UPFDataPathSpec_DeepCopyInto.
Proof. deep_copies. Qed.
#[local] Hint Resolve UPFDataPathSpec_copies : deepcopy.

Lemma UPFDataPathStatus_copies : copies UPFDataPathStatus_type UPFDataPathStatus_DeepCopyInto.
Proof. deep_copies. Qed.
#[local] Hint Resolve UPFDataPathStatus_copies : deepcopy.

Lemma UPFDataPath_copies : copies UPFDataPath_type UPFDataPath_DeepCopyInto.
Proof. deep_copies. Qed.
#[local] Hint Resolve UPFDataPath_copies : deepcopy.

Lemma UPFDataPathList_copies : copies UPFDataPathList_type UPFDataPathList_DeepCopyInto.
Proof. deep_copies. Qed.
#[local] Hint Resolve UPFDataPathList_copies : deepcopy.

(** The lemmas above, applied without unfolding the types. *)
Create HintDb copies discriminated.
#[local] Hint Constants Opaque : copies.
#[local] Hint Resolve RANCell_copies RANOfh_copies RANSpec_copies EdgeSiteSpec_copies EdgeSiteStatus_copies
  EdgeSite_copies EdgeSiteList_copies FabricPrefix_copies FleetSite_copies FleetSpec_copies
  FleetStatus_copies Fleet_copies FleetList_copies GnbRef_copies MeshLinkSpec_copies
  MeshLinkStatus_copies MeshLink_copies MeshLinkList_copies NetworkFabricSpec_copies
  NetworkFabricStatus_copies NetworkFabric_copies NetworkFabricList_copies PlmnId_copies
  SliceQos_copies NetworkSliceSpec_copies NetworkSliceStatus_copies NetworkSlice_copies
  NetworkSliceList_copies SDCoreDeploymentSpec_copies SDCoreDeploymentStatus_copies
  SDCoreDeployment_copies SDCoreDeploymentList_copies SubscriberSpec_copies
  SubscriberStatus_copies Subscriber_copies SubscriberList_copies UPFDataPathSpec_copies
  UPFDataPathStatus_copies UPFDataPath_copies UPFDataPathList_copies : copies.

(** C15: Every generated copy is a deep copy.  For each of the 40 structs of the API, DeepCopyInto,
    given a value of the type and a variable outside of its memory, does not panic, changes
    nothing but that variable, and leaves in it a value with the same content - nil and empty
    slices and maps told apart - whose every pointer, slice and map is newly allocated; and
    DeepCopy returns a new such value, or nil for nil. *)
Theorem generated_copies_are_deep :
  Forall (λ '(t, g, copy), copies t g ∧ clones t copy) generated.
Proof.
  repeat (apply Forall_cons; split); [..|by apply Forall_nil].
  all: split; [|apply deep_copy_clones]; eauto with copies nocore.
Qed.

(** C16: An object and its DeepCopyObject are independent.  Whatever object of the API a pointer
    leads to, DeepCopyObject returns a pointer of the same Go type to an equal object and changes
    nothing that was there; afterwards nothing written through the copy - by a client that decodes
    the stored object into it, as in applyOwned - shows in the original, and nothing written
    through the original shows in the copy.  For nil it returns nil. *)
Theorem deep_copies_are_independent name t copy m p x F :
  (name, t, copy) ∈ api_objects →
  view m (TPtr t) (VPtr p) = Some (x, F) →
  ∃ c m', copy p m = Some (c, m') ∧ m ⊆ m' ∧
    match c with
    | None => p = None
    | Some (n, q) => p ≠ None ∧ n = name ∧ ∃ F', view m' (TPtr t) (VPtr (Some q)) = Some (x, F') ∧
        (∀ m'', changes_only F' m' m'' → view m'' (TPtr t) (VPtr p) = Some (x, F)) ∧
        (∀ m'', changes_only F m' m'' → view m'' (TPtr t) (VPtr (Some q)) = Some (x, F'))
    end.
Proof.
  intros Hin Hv.
  assert (∃ dc, copy = deep_copy_object name dc ∧ clones t dc) as (dc & -> & Hc).
  { unfold api_objects in Hin. rewrite !elem_of_cons, elem_of_nil in Hin.
    repeat destruct Hin as [[= -> -> ->]|Hin]; try done;
      (eexists; split; [reflexivity|]; apply deep_copy_clones; eauto with copies nocore). }
  by apply deep_copy_object_independent.
Qed.
End laws.

(** ** On concrete objects *)

(** The fields of apimachinery's structs that this operator's objects use. *)
Definition lab_ObjectMeta : ty :=
  TStruct [("Name", TString); ("Namespace", TString); ("ResourceVersion", TString);
    ("Labels", TMap); ("Annotations", TMap); ("Finalizers", TSlice TString)].
Definition lab_ListMeta : ty :=
  TStruct [("ResourceVersion", TString); ("Continue", TString); ("RemainingItemCount", TPtr TInt)].

#[export] Instance lab_types : MetaTypes := {|
  TypeMeta := TStruct [("Kind", TString); ("APIVersion", TString)];
  ObjectMeta := lab_ObjectMeta;
  ListMeta := lab_ListMeta;
  Condition := TStruct [("Type", TString); ("Status", TString); ("ObservedGeneration", TInt);
                        ("Reason", TString); ("Message", TString)];
  RawExtension := TStruct [("Raw", TSlice TInt)];
  ObjectMeta_DeepCopyInto :=
    into [new_map "Labels"; new_map "Annotations"; new_flat_slice "Finalizers" TString];
  ListMeta_DeepCopyInto := into [new_ptr "RemainingItemCount" TInt shallow];
  Condition_DeepCopyInto := shallow;
  RawExtension_DeepCopyInto := into [new_flat_slice "Raw" TInt];
|}.

#[local] Hint Extern 1 (flat _ = true) => reflexivity : deepcopy.

#[export] Instance lab_types_laws : MetaTypesLaws lab_types.
Proof. split; [done|deep_copies|deep_copies|by apply shallow_copies|deep_copies]. Qed.

(** A Fleet of two sites at cell 1, the first of them with a radio whose PRACH ports are listed,
    labelled, without conditions: cells 2 to 6. *)
Definition lab_fleet : gval :=
  VStruct [("TypeMeta", VStruct [("Kind", VString "Fleet"); ("APIVersion", VString "")]);
    ("ObjectMeta", VStruct [("Name", VString "fleet"); ("Namespace", VString "default");
       ("ResourceVersion", VString "7"); ("Labels", VMap (Some 2%positive)); ("Annotations", VMap None);
       ("Finalizers", VSlice None)]);
    ("Spec", VStruct [("Sites", VSlice (Some {| arr := 3%positive; off := 0; len := 2 |}))]);
    ("Status", VStruct [("Sites", VInt 0); ("Message", VString "");
                        ("Conditions", VSlice None)])].

Definition lab_site (server : string) (ran : option addr) : gval :=
  VStruct [("Server", VString server); ("User", VString ""); ("Role", VString "cp+upf");
           ("Name", VString ""); ("RAN", VPtr ran)].

Definition lab_ran : gval :=
  match zero RANSpec_type with
  | VStruct fs => VStruct (assoc_set "Ofh" (VPtr (Some (Cell 5))) fs)
  | v => v
  end.
Definition lab_ofh : gval :=
  match zero RANOfh_type with
  | VStruct fs =>
      VStruct (assoc_set "PrachPortId" (VSlice (Some {| arr := 6; off := 1; len := 2 |})) fs)
  | v => v
  end.

Definition lab_memory : mem :=
  list_to_map
    [(1%positive, CVal lab_fleet); (2%positive, CDict {["site" := "lab"]});
     (3%positive, CArr [lab_site "192.168.1.5" (Some (Cell 4)); lab_site "192.168.1.6" None]);
     (4%positive, CVal lab_ran); (5%positive, CVal lab_ofh);
     (6%positive, CArr [VInt 0; VInt 4; VInt 5])].

Definition tree_at (m : mem) (a : addr) : option tree := fst <$> view m (TPtr Fleet_type) (VPtr (Some a)).

(** An assignment to an element three references deep in a copy, and what the copy and the
    original are then. *)
Definition edited_copy : option (option tree * option tree) :=
  match Fleet_DeepCopyObject (Some (Cell 1)) lab_memory with
  | Some (Some (_, q), m) =>
      match (src ← index (Field (Field q "Spec") "Sites") 0; ran ← deref (Field src "RAN");
             ofh ← deref (Field ran "Ofh"); port ← index (Field ofh "PrachPortId") 0;
             assign port (VInt 9)) m with
      | Some (_, m') => Some (tree_at m' q, tree_at m' (Cell 1))
      | None => None
      end
  | _ => None
  end.

Example edit_stays_in_the_copy :
  match edited_copy with
  | Some (c, o) => o = tree_at lab_memory (Cell 1) ∧ c ≠ o ∧ is_Some c
  | None => False
  end.
Proof. vm_compute. split; [reflexivity|]. split; [discriminate|by eexists]. Qed.

Lemma generated_copies_are_deep_witness :
  Forall (λ '(t, g, copy), copies t g ∧ clones t copy) generated.
Proof. exact (generated_copies_are_deep (MT := lab_types) (L := lab_types_laws)). Defined.

Lemma deep_copies_are_independent_witness :
  ∃ c m', Fleet_DeepCopyObject (Some (Cell 1)) lab_memory = Some (c, m') ∧ lab_memory ⊆ m'.
Proof.
  destruct (view lab_memory (TPtr Fleet_type) (VPtr (Some (Cell 1)))) as [[x F]|] eqn:E.
  - destruct (deep_copies_are_independent "Fleet" Fleet_type Fleet_DeepCopyObject lab_memory
      (Some (Cell 1)) x F) as (c & m' & Ec & Hs & _).
    + unfold api_objects. rewrite !elem_of_cons. auto 20.
    + exact E.
    + exists c, m'. exact (conj Ec Hs).
  - exfalso. vm_compute in E. discriminate.
Defined.
