(* ===== verification/Scheme.v ===== *)
(** * Scheme: the types a process knows

    The init functions of api/v1alpha1 and of cmd/main.go, which fill the scheme with which the
    client encodes and decodes objects, and without whose entries a controller does not start.
    k8s.io/apimachinery's Scheme and SchemeBuilder, client-go's types and Nephio's are the class
    [SchemeLib], with their documented behaviour in [SchemeLibLaws]. *)

From S2P Require Import Prelude Prog Api Effects EdgeSite Memory Copy DeepCopy.

Record GroupVersion := { gv_Group : string; gv_Version : string }.

Definition with_kind (gv : GroupVersion) (kind : string) : GroupVersionKind :=
  {| gvk_Group := gv_Group gv; gvk_Version := gv_Version gv; gvk_Kind := kind |}.

(** Go types are given by their names, which AddKnownTypes takes as kinds. *)
Class SchemeLib := {
  Scheme : Type;
  NewScheme : Scheme;
  AddKnownTypes : GroupVersion → list string → Scheme → Scheme;
  AddToGroupVersion : GroupVersion → Scheme → Scheme;
  run_builder : list (Scheme → result Scheme) → Scheme → result Scheme;
  clientgoscheme_AddToScheme : Scheme → result Scheme;
  nephio_GroupVersion : GroupVersion;
  nephio_AddToScheme : Scheme → result Scheme;
  Recognizes : Scheme → GroupVersionKind → bool;
}.

(** ** Registration *)

Section scheme.
Context {SL : SchemeLib}.

Definition SchemeGroupVersion : GroupVersion :=
  {| gv_Group := "sdcore.nephio.io"; gv_Version := "v1alpha1" |}.

(** A SchemeBuilder is the list of the functions registered so far. *)
Definition NewSchemeBuilder : list (Scheme → result Scheme) :=
  [λ s, Ok (AddToGroupVersion SchemeGroupVersion s)].

Definition Register (types : list string) (b : list (Scheme → result Scheme)) :
    list (Scheme → result Scheme) :=
  (b ++ [λ s, Ok (AddKnownTypes SchemeGroupVersion types s)])%list.

Definition edgesite_init := Register ["EdgeSite"; "EdgeSiteList"; "MeshLink"; "MeshLinkList"].
Definition fleet_init := Register ["Fleet"; "FleetList"].
Definition networkfabric_init := Register ["NetworkFabric"; "NetworkFabricList"].
Definition sdcoredeployment_init := Register ["SDCoreDeployment"; "SDCoreDeploymentList"].
Definition subscriber_init :=
  Register ["Subscriber"; "SubscriberList"; "NetworkSlice"; "NetworkSliceList"].
Definition upfdatapath_init := Register ["UPFDataPath"; "UPFDataPathList"].

(** The package after its init functions, which run in the order of the file names. *)
Definition SchemeBuilder : list (Scheme → result Scheme) :=
  upfdatapath_init (subscriber_init (sdcoredeployment_init (networkfabric_init
    (fleet_init (edgesite_init NewSchemeBuilder))))).

Definition AddToScheme : Scheme → result Scheme := run_builder SchemeBuilder.

(** utilruntime.Must: an error ends the process. *)
Definition Must (r : result Scheme) : option Scheme :=
  match r with Ok s => Some s | Err _ => None end.

Definition main_init : option Scheme :=
  s ← Must (clientgoscheme_AddToScheme NewScheme);
  s ← Must (AddToScheme s);
  s ← Must (nephio_AddToScheme s);
  Some (AddToGroupVersion nephio_GroupVersion
          (AddKnownTypes nephio_GroupVersion ["NFDeployment"; "NFDeploymentList"] s)).

(** The group, version and kind of the objects of a kind; unstructured objects carry their own
    and need no entry. *)
Definition gvk_of (k : kind) : option GroupVersionKind :=
  let core := {| gv_Group := ""; gv_Version := "v1" |} in
  match k with
  | KEdgeSite => Some (with_kind SchemeGroupVersion "EdgeSite")
  | KFleet => Some (with_kind SchemeGroupVersion "Fleet")
  | KMeshLink => Some (with_kind SchemeGroupVersion "MeshLink")
  | KSubscriber => Some (with_kind SchemeGroupVersion "Subscriber")
  | KNetworkSlice => Some (with_kind SchemeGroupVersion "NetworkSlice")
  | KUPFDataPath => Some (with_kind SchemeGroupVersion "UPFDataPath")
  | KNetworkFabric => Some (with_kind SchemeGroupVersion "NetworkFabric")
  | KSDCoreDeployment => Some (with_kind SchemeGroupVersion "SDCoreDeployment")
  | KNFDeployment => Some (with_kind nephio_GroupVersion "NFDeployment")
  | KSecret => Some (with_kind core "Secret")
  | KNode => Some (with_kind core "Node")
  | KPod => Some (with_kind core "Pod")
  | KService => Some (with_kind core "Service")
  | KUnstructured _ => None
  end.

Definition list_of (g : GroupVersionKind) : GroupVersionKind :=
  {| gvk_Group := gvk_Group g; gvk_Version := gvk_Version g; gvk_Kind := gvk_Kind g +:+ "List" |}.
End scheme.

(** ** The libraries *)

Definition core_kinds : list string :=
  ["Secret"; "SecretList"; "Node"; "NodeList"; "Pod"; "PodList"; "Service"; "ServiceList"].

Class SchemeLibLaws (SL : SchemeLib) : Prop := {
  known_added gv types s k :
    k ∈ types → Recognizes (AddKnownTypes gv types s) (with_kind gv k) = true;
  known_kept gv types s g :
    Recognizes s g = true → Recognizes (AddKnownTypes gv types s) g = true;
  group_kept gv s g : Recognizes s g = true → Recognizes (AddToGroupVersion gv s) g = true;
  builder_nil s : run_builder [] s = Ok s;
  builder_cons f l s :
    run_builder (f :: l) s = match f s with Ok s' => run_builder l s' | Err e => Err e end;
  clientgo_adds :
    ∃ s, clientgoscheme_AddToScheme NewScheme = Ok s ∧
      ∀ k, k ∈ core_kinds → Recognizes s (with_kind {| gv_Group := ""; gv_Version := "v1" |} k) = true;
  (* the upstream package registers nothing *)
  nephio_adds s : nephio_AddToScheme s = Ok s;
}.

(** A scheme as the list of what it knows. *)
#[export] Instance lab_scheme : SchemeLib := {|
  Scheme := list GroupVersionKind;
  NewScheme := [];
  AddKnownTypes gv types s := (map (with_kind gv) types ++ s)%list;
  AddToGroupVersion gv s := with_kind gv "WatchEvent" :: s;
  run_builder fs s :=
    foldl (λ r f, match r with Ok s => f s | Err e => Err e end) (Ok s) fs;
  clientgoscheme_AddToScheme s :=
    Ok (map (with_kind {| gv_Group := ""; gv_Version := "v1" |}) core_kinds ++ s)%list;
  nephio_GroupVersion := {| gv_Group := "workload.nephio.org"; gv_Version := "v1alpha1" |};
  nephio_AddToScheme s := Ok s;
  Recognizes s g := bool_decide (g ∈ s);
|}.

#[export] Instance lab_scheme_laws : SchemeLibLaws lab_scheme.
Proof.
  split; cbn -[core_kinds].
  - intros gv types s k Hk. apply bool_decide_eq_true, elem_of_app. left. by apply list_elem_of_fmap_2.
  - intros gv types s g ?%bool_decide_eq_true. apply bool_decide_eq_true, elem_of_app. by right.
  - intros gv s g ?%bool_decide_eq_true. apply bool_decide_eq_true, elem_of_cons. by right.
  - done.
  - intros f l s. destruct (f s) as [s'|e]; [done|]. by induction l.
  - eexists. split; [done|]. intros k Hk. apply bool_decide_eq_true, elem_of_app. left.
    by apply list_elem_of_fmap_2.
  - done.
Qed.

(** ** Every kind is known *)

Section laws.
Context {SL : SchemeLib} {L : SchemeLibLaws SL} {MT : MetaTypes} {MR : MapRange}.

(** Decides whether a string is one of a list of literals. *)
Ltac listed := apply (bool_decide_unpack _); vm_compute; exact I.

Lemma AddToScheme_known s :
  ∃ s', AddToScheme s = Ok s' ∧ (∀ g, Recognizes s g = true → Recognizes s' g = true) ∧
    ∀ k, k ∈ map (λ o, o.1.1) api_objects →
      Recognizes s' (with_kind SchemeGroupVersion k) = true.
Proof.
  unfold AddToScheme, SchemeBuilder, upfdatapath_init, subscriber_init, sdcoredeployment_init,
    networkfabric_init, fleet_init, edgesite_init, Register, NewSchemeBuilder.
  rewrite <-!app_assoc. cbn [app]. rewrite !builder_cons, builder_nil.
  eexists. split; [reflexivity|]. split.
  - intros g Hg. by repeat apply known_kept; apply group_kept.
  - cbn [map api_objects fst]. apply Forall_forall. repeat (apply Forall_cons; split); [..|by apply Forall_nil].
    all: repeat first [apply known_added; listed | apply known_kept].
Qed.

(** C26: The scheme knows every type the program handles.  The init functions end without a panic
    and leave a scheme that recognises every kind any controller reads, lists, writes, owns or
    watches, with its list - NFDeployment included, though Nephio's own registration adds nothing
    - and every API type that has a DeepCopyObject. *)
Theorem scheme_knows_every_kind :
  ∃ s, main_init = Some s ∧
    (∀ k g, gvk_of k = Some g → Recognizes s g = true ∧ Recognizes s (list_of g) = true) ∧
    (∀ name t copy, (name, t, copy) ∈ api_objects →
       Recognizes s (with_kind SchemeGroupVersion name) = true).
Proof.
  destruct clientgo_adds as (s0 & E0 & Hcore). destruct (AddToScheme_known s0) as (s1 & E1 & Hk & Hown).
  unfold main_init. rewrite E0. cbn [Must mbind option_bind]. rewrite E1.
  cbn [Must mbind option_bind]. rewrite nephio_adds. eexists. split; [reflexivity|].
  assert (∀ k, k ∈ map (λ o, o.1.1) api_objects →
    Recognizes (AddToGroupVersion nephio_GroupVersion
      (AddKnownTypes nephio_GroupVersion ["NFDeployment"; "NFDeploymentList"] s1))
      (with_kind SchemeGroupVersion k) = true) as Hown'.
  { intros k Hin. by apply group_kept, known_kept, Hown. }
  split.
  - intros k g. destruct k; cbn [gvk_of]; intros [= <-]; unfold list_of; cbn [gvk_Group gvk_Version gvk_Kind with_kind].
    all: split; first
      [ apply Hown'; listed
      | apply group_kept, known_added; listed
      | apply group_kept, known_kept, Hk, Hcore; listed ].
  - intros name t copy Hin. apply Hown'. by apply (list_elem_of_fmap_2' _ _ (name, t, copy)).
Qed.
End laws.

Lemma scheme_knows_every_kind_witness :
  ∃ s, main_init (SL := lab_scheme) = Some s ∧
    Recognizes (SchemeLib := lab_scheme) s
      {| gvk_Group := "workload.nephio.org"; gvk_Version := "v1alpha1"; gvk_Kind := "NFDeployment" |} = true.
Proof.
  destruct (scheme_knows_every_kind (SL := lab_scheme) (L := lab_scheme_laws) (MT := lab_types))
    as (s & E & Hk & _).
  exists s. split; [exact E|]. exact (proj1 (Hk KNFDeployment _ eq_refl)).
Defined.

(** Without the explicit registration the kind would be unknown: the upstream AddToScheme alone
    leaves it out. *)
Example nephio_alone_is_not_enough :
  (s ← Must (SL := lab_scheme) (clientgoscheme_AddToScheme NewScheme);
   s ← Must (AddToScheme s); s ← Must (nephio_AddToScheme s);
   Some (Recognizes s (with_kind nephio_GroupVersion "NFDeployment"))) = Some false.
Proof. by vm_compute. Qed.
