(* ===== verification/Platform.v ===== *)
(** * A platform: API server and Git server

    What a reconciler can rely on when nothing fails: besides the API server of Effects.v a Git
    server that holds the files of the deploy repositories.  A file is replaced only by a request
    that names its current SHA and created only by one that names none, as Gitea's contents API
    has it; so [gitPut] must read before it writes.

    [runs] is total correctness of an action on such a platform: it succeeds, in a world that
    satisfies the postcondition.  A [demand] is a piece of desired state - an object of the API
    server or a file - and [brings] says that an action establishes a list of demands and touches
    nothing else; it composes. *)

From S2P Require Import Prelude GoText Prog Api Effects Upsert GitOps.

(** ** The platform *)

(** Calls that leave the world alone. *)
Definition quiet (c : op Env) : bool :=
  match c : call_op with
  | KList _ _ _ | LogInfo _ _ | LogError _ _ _ | MapOrder _ | NewRequest _ _ => true
  | _ => false
  end.

(** The server stored a status: spec and metadata are those it held. *)
Definition status_stored {k : kind} (submitted held stored : obj k) : Prop :=
  spec_part stored = spec_part held ∧
  Name (meta stored) = Name (meta held) ∧ Namespace (meta stored) = Namespace (meta held) ∧
  UID (meta stored) = UID (meta held) ∧ Labels (meta stored) = Labels (meta held) ∧
  OwnerReferences (meta stored) = OwnerReferences (meta held) ∧
  Finalizers (meta stored) = Finalizers (meta held) ∧
  DeletionTimestamp (meta stored) = DeletionTimestamp (meta held) ∧
  match k return obj k → obj k → Prop with
  | KEdgeSite => λ o o', es_status o' = es_status o
  | KFleet => λ o o', fl_status o' = fl_status o
  | _ => λ _ _, True
  end submitted stored.

Class Platform {W : Type} (h : handler Env W) {server : ApiServer h} := {
  files : W → string → option (string * string);  (* by contents URL: the SHA and the content *)
  credentials : string * string;
  quiet_silent c w : quiet c = true → (h c w).2 = w;
  list_ok k ns sel w : is_ok (h (KList k ns sel) w).1 = true;
  request_ok method url w : (h (NewRequest method url) w).1 = Ok tt;
  create_files k o w url : files (h (KCreate k o) w).2 url = files w url;
  update_files k o w url : files (h (KUpdate k o) w).2 url = files w url;
  update_uid w k (o o' cur : obj k) w' :
    stored w k (Namespace (meta o)) (Name (meta o)) = Some cur →
    UID (meta o) = UID (meta cur) → h (KUpdate k o) w = (Ok o', w') →
    UID (meta o') = UID (meta cur);
  status_update w k (o cur : obj k) :
    stored w k (Namespace (meta o)) (Name (meta o)) = Some cur →
    ResourceVersion (meta o) = ResourceVersion (meta cur) →
    ∃ o' w', h (KStatusUpdate k o) w = (Ok o', w') ∧ status_stored o cur o' ∧
      put_at (stored w) (stored w') (Namespace (meta o)) (Name (meta o)) o' ∧
      ∀ url, files w' url = files w url;
  delete_object w k (o : obj k) :
    let '(r, w') := h (KDelete k o) w in
    match r with
    | Ok _ => True
    | Err e => IsNotFound e = true
    end ∧
    (∀ k' ns name, (k', ns, name) ≠ (k, Namespace (meta o), Name (meta o)) →
       stored w' k' ns name = stored w k' ns name) ∧
    ∀ url, files w' url = files w url;
  git_get w rq url :
    rq_Method rq = "GET" → rq_URL rq = url +:+ "?ref=main" → rq_BasicAuth rq = Some credentials →
    ∃ rs, h (HttpDo rq) w = (Ok rs, w) ∧
      match files w url with
      | Some (sha, _) => rs_StatusCode rs = 200 ∧ rs_Sha rs = sha ∧ sha ≠ ""
      | None => rs_StatusCode rs = 404
      end;
  git_put w rq url members content :
    rq_Method rq = "PUT" → rq_URL rq = url → rq_BasicAuth rq = Some credentials →
    rq_Body rq = Some (JObj members) → assoc "content" members = Some (JStr content) →
    assoc "sha" members = match files w url with Some (sha, _) => Some (JStr sha) | None => None end →
    ∃ rs w' sha, h (HttpDo rq) w = (Ok rs, w') ∧ is_2xx (rs_StatusCode rs) = true ∧
      files w' url = Some (sha, content) ∧
      (∀ url', url' ≠ url → files w' url' = files w url') ∧
      ∀ k ns name, stored w' k ns name = stored w k ns name;
}.

(** ** Total correctness *)

Section runs.
Context {S : signature} {W St : Type} (h : handler S W).

Definition runs {A} (m : act S St A) (s : St) (w : W) (Q : St → A → W → Prop) : Prop :=
  ∃ s' a, run_value h (m s) w = (s', Ok a) ∧ Q s' a (run_world h (m s) w).

Lemma runs_impl {A} (m : act S St A) s w (Q Q' : St → A → W → Prop) :
  (∀ s' a w', Q s' a w' → Q' s' a w') → runs m s w Q → runs m s w Q'.
Proof. intros H (s' & a & E & HQ). exists s', a. auto. Qed.

Lemma runs_bind {A B} (m : act S St A) (f : A → act S St B) s w Q :
  runs m s w (λ s' a w', runs (f a) s' w' Q) → runs (m ≫= f) s w Q.
Proof.
  intros (s' & a & E & s'' & b & E' & HQ). destruct (run_bind_ok h m f s w s' a E) as (Ev & Ew & _).
  exists s'', b. by rewrite Ev, Ew.
Qed.

Lemma runs_ret {A} (a : A) s w (Q : St → A → W → Prop) : Q s a w → runs (mret a) s w Q.
Proof. intros H. by exists s, a. Qed.

Lemma runs_get s w (Q : St → St → W → Prop) : Q s s w → runs get s w Q.
Proof. intros H. by exists s, s. Qed.

Lemma runs_modify f s w (Q : St → unit → W → Prop) : Q (f s) tt w → runs (modify f) s w Q.
Proof. intros H. by exists (f s), tt. Qed.

Lemma runs_call c s w (Q : St → ans S c → W → Prop) :
  Q s (h c w).1 (h c w).2 → runs (call c) s w Q.
Proof.
  intros H. unfold runs, call, run_value, run_world. cbn [run].
  destruct (h c w) as [r w']. by exists s, r.
Qed.

Lemma runs_of_result {A} (a : A) s w (Q : St → A → W → Prop) :
  Q s a w → runs (of_result (Ok a)) s w Q.
Proof. intros H. by exists s, a. Qed.

Lemma runs_try {A} (m : act S St A) s w Q :
  runs m s w (λ s' a w', Q s' (Ok a) w') → runs (try m) s w Q.
Proof.
  intros (s' & a & E & HQ). unfold runs, try, run_value, run_world in *.
  change (prog_bind (m s) ?k) with (m s ≫= k). rewrite run_bind.
  destruct (run h (m s) w) as [[w1 t1] x]. cbn in E, HQ |- *. subst x. by exists s', (Ok a).
Qed.

Lemma runs_wrap {A} p (m : act S St A) s w Q : runs m s w Q → runs (wrap p m) s w Q.
Proof.
  intros (s' & a & E & HQ). destruct (run_wrap_ok h p m s w s' a E) as (Ev & Ew & _).
  exists s', a. by rewrite Ev, Ew.
Qed.

Lemma runs_value {A} (m : act S St A) s w Q :
  runs m s w Q → ∃ s' a, run_value h (m s) w = (s', Ok a) ∧ Q s' a (run_world h (m s) w).
Proof. done. Qed.
End runs.

(** One construct of the program at a time; calls are taken by [run_call]. *)
Ltac run_step :=
  cbn beta iota zeta;
  lazymatch goal with
  | |- runs _ (mbind _ _) _ _ _ => apply runs_bind
  | |- runs _ (mret _) _ _ _ => apply runs_ret
  | |- runs _ get _ _ _ => apply runs_get
  | |- runs _ (modify _) _ _ _ => apply runs_modify
  | |- runs _ (of_result (Ok _)) _ _ _ => apply runs_of_result
  | |- runs _ (try _) _ _ _ => apply runs_try
  | |- runs _ (wrap _ _) _ _ _ => apply runs_wrap
  end.

Ltac run_call :=
  cbn beta iota zeta;
  lazymatch goal with
  | |- @runs ?S ?W ?St ?h _ (call ?c) ?s ?w ?Q => apply (@runs_call S W St h c s w Q)
  end.

Lemma quiet_call {W St} (h : handler Env W) {server : ApiServer h} {P : Platform h} c (s : St) w
    (Q : St → ans Env c → W → Prop) :
  quiet c = true → Q s (h c w).1 w → runs h (call c) s w Q.
Proof. intros Hc H. apply runs_call. by rewrite quiet_silent. Qed.

(** A call that leaves the world alone. *)
Ltac run_quiet :=
  cbn beta iota zeta;
  lazymatch goal with
  | |- runs ?h (call ?c) ?s ?w ?Q => apply (quiet_call h c s w Q); [done|]; cbn beta
  end.

(** ** Desired state *)

(** An object the API server should hold, or a file a repository should. *)
Inductive demand :=
| DObject {k : kind} (o : obj k)
| DFile (url content : string).

(** The place of a demand in a world. *)
Definition place : Type := (kind * string * string) + string.

Definition place_of (d : demand) : place :=
  match d with
  | @DObject k o => inl (k, Namespace (meta o), Name (meta o))
  | DFile url _ => inr url
  end.

(** Where [gitPut] finds its credentials. *)
Definition auth_place : place := inl (KSecret, "default", "gitea-auth").

Section platform.
Context {W St : Type} (h : handler Env W) {server : ApiServer h} {P : Platform h}.
Implicit Types (w : W) (d : demand) (q : place) (s : St).

(** Two worlds hold the same at a place. *)
Definition same_at w w' q : Prop :=
  match q with
  | inl (k, ns, name) => stored w' k ns name = stored w k ns name
  | inr url => files w' url = files w url
  end.

(** The server holds the wanted object, or an equal one, or the repository the file. *)
Definition holds w d : Prop :=
  match d with
  | @DObject k o => ∃ o', stored w k (Namespace (meta o)) (Name (meta o)) = Some o' ∧
      DeletionTimestamp (meta o') = None ∧ (accepted o o' ∨ unchanged o o' = true)
  | DFile url content => ∃ sha, files w url = Some (sha, content)
  end.

(** From [w] to [w'], the demand was established: the object is in place and not being deleted,
    or the repository holds the file. *)
Definition established w w' d : Prop :=
  match d with
  | @DObject k o => in_place h o w w' ∧ free_of_deletion h o w'
  | DFile url content => ∃ sha, files w' url = Some (sha, content)
  end.

Lemma established_holds w w' d : established w w' d → holds w' d.
Proof.
  destruct d as [k o|url content]; cbn; [|done]. intros [Hp Hd].
  assert (stored_anew h o w' → holds w' (DObject o)) as Hs.
  { intros (o' & E & Ha). exists o'. repeat split; [done|apply Ha|by left]. }
  unfold in_place in Hp. destruct (live h w o) as [cur|]; [|by apply Hs].
  destruct (unchanged o cur) eqn:U; [|by apply Hs].
  exists cur. repeat split; [done|by apply Hd|by right].
Qed.

(** No object that is being deleted is in the way. *)
Definition unobstructed w q : Prop :=
  match q with
  | inl (k, ns, name) => ∀ o, stored w k ns name = Some o → DeletionTimestamp (meta o) = None
  | inr _ => True
  end.

Definition clear w q : bool :=
  match q with
  | inl (k, ns, name) =>
      match stored w k ns name with
      | Some o => bool_decide (DeletionTimestamp (meta o) = None)
      | None => true
      end
  | inr _ => true
  end.

Lemma clear_spec w q : clear w q = true → unobstructed w q.
Proof.
  destruct q as [[[k ns] name]|url]; cbn; [|done]. intros H o Ho. rewrite Ho in H.
  by apply bool_decide_eq_true in H.
Qed.

Lemma all_clear w qs : forallb (clear w) qs = true → Forall (unobstructed w) qs.
Proof. induction qs as [|q qs IH]; cbn; [done|]. intros [Hq%clear_spec Hqs%IH]%andb_prop. by constructor. Qed.

(** The Secret with Gitea's credentials is there. *)
Definition signed_in w : Prop :=
  ∃ sec, stored w KSecret "default" "gitea-auth" = Some sec ∧
    (sec_value sec "username", sec_value sec "password") = credentials.

(** From any world that is ready for them, the action succeeds, establishes the demands, and
    leaves every other place as it was. *)
Definition brings (m : act Env St unit) s (ds : list demand) : Prop :=
  ∀ w, signed_in w → Forall (unobstructed w) (place_of <$> ds) → NoDup (place_of <$> ds) →
    auth_place ∉ place_of <$> ds →
    runs h m s w (λ s' _ w', s' = s ∧ Forall (established w w') ds ∧
      ∀ q, q ∉ place_of <$> ds → same_at w w' q).

Lemma same_at_refl w q : same_at w w q.
Proof. by destruct q as [[[k ns] name]|url]. Qed.

Lemma same_at_trans w1 w2 w3 q : same_at w1 w2 q → same_at w2 w3 q → same_at w1 w3 q.
Proof. destruct q as [[[k ns] name]|url]; cbn; congruence. Qed.

Lemma same_signed_in w w' : same_at w w' auth_place → signed_in w → signed_in w'.
Proof. intros E (sec & Hs & Hc). exists sec. cbn in E. by rewrite E. Qed.

Lemma same_unobstructed w w' q : same_at w w' q → unobstructed w q → unobstructed w' q.
Proof. destruct q as [[[k ns] name]|url]; cbn; [|done]. by intros ->. Qed.

Lemma same_holds w w' d : same_at w w' (place_of d) → holds w d → holds w' d.
Proof. destruct d as [k o|url content]; cbn; by intros ->. Qed.

Lemma established_after w w1 w2 d :
  same_at w1 w2 (place_of d) → established w w1 d → established w w2 d.
Proof.
  destruct d as [k o|url content]; cbn; unfold in_place, stored_anew, free_of_deletion, live;
    by intros ->.
Qed.

Lemma established_before w w1 w2 d :
  same_at w w1 (place_of d) → established w1 w2 d → established w w2 d.
Proof. destruct d as [k o|url content]; cbn; [|done]. unfold in_place, live. by intros ->. Qed.

Lemma all_established_after w w1 w2 ds :
  (∀ q, q ∈ place_of <$> ds → same_at w1 w2 q) →
  Forall (established w w1) ds → Forall (established w w2) ds.
Proof.
  intros Hk. rewrite !Forall_forall. intros H d Hd. eapply established_after; [|by apply H].
  by apply Hk, list_elem_of_fmap_2.
Qed.

Lemma all_established_before w w1 w2 ds :
  (∀ q, q ∈ place_of <$> ds → same_at w w1 q) →
  Forall (established w1 w2) ds → Forall (established w w2) ds.
Proof.
  intros Hk. rewrite !Forall_forall. intros H d Hd. eapply established_before; [|by apply H].
  by apply Hk, list_elem_of_fmap_2.
Qed.

(** ** Composition *)

Lemma brings_nil s : brings (mret tt) s [].
Proof.
  intros w _ _ _ _. run_step. split; [done|]. split; [constructor|]. intros. apply same_at_refl.
Qed.

Lemma brings_get (f : St → act Env St unit) s ds : brings (f s) s ds → brings (x ← get; f x) s ds.
Proof. intros H w Hs Hu Hn Ha. run_step. apply runs_get. by apply H. Qed.

Lemma brings_seq m1 m2 s ds1 ds2 :
  brings m1 s ds1 → brings m2 s ds2 → brings (_ ← m1; m2) s (ds1 ++ ds2)%list.
Proof.
  intros H1 H2 w Hs Hu Hn Ha. rewrite fmap_app in Hu, Hn, Ha.
  apply Forall_app in Hu as [Hu1 Hu2]. apply NoDup_app in Hn as (Hn1 & Hdis & Hn2).
  rewrite elem_of_app in Ha. run_step.
  eapply runs_impl; [|apply H1; [done|done|done|tauto]]. cbn beta.
  intros s' [] w1 (-> & Hd1 & Hk1).
  eapply runs_impl; [|apply H2; [| |done|tauto]].
  - cbn beta. intros s' [] w2 (-> & Hd2 & Hk2). split; [done|]. split.
    + apply Forall_app. split.
      * eapply all_established_after; [|exact Hd1]. intros q Hq. by apply Hk2, Hdis.
      * eapply all_established_before; [|exact Hd2]. intros q Hq. apply Hk1. intros Hq1.
        by apply (Hdis q).
    + intros q Hq. rewrite fmap_app, elem_of_app in Hq.
      eapply same_at_trans; [apply Hk1|apply Hk2]; tauto.
  - eapply same_signed_in; [apply Hk1; tauto|done].
  - rewrite Forall_forall in Hu2 |- *. intros q Hq. eapply same_unobstructed; [|by apply Hu2].
    apply Hk1. intros Hq1. by apply (Hdis q).
Qed.

Lemma brings_when (b : bool) m s ds :
  brings m s ds → brings (when b m) s (if b then ds else []).
Proof. destruct b; [done|]. intros _. apply brings_nil. Qed.

Lemma brings_for_each {A} (l : list A) (f : A → act Env St unit) (g : A → list demand) s :
  (∀ x, brings (f x) s (g x)) → brings (for_each l f) s (concat (g <$> l)).
Proof.
  intros H. induction l as [|x l IH]; cbn [for_each fmap list_fmap concat]; [apply brings_nil|].
  by apply brings_seq.
Qed.

(** ** The two kinds of writes *)

Lemma upsert_files {k : kind} (o : obj k) s w url :
  files (run_world h (upsert o s) w) url = files w url.
Proof.
  unfold run_world, upsert, env_ok, env, call, of_result, mbind, act_mbind, mret, act_mret, throw.
  cbn -[unchanged meta].
  destruct (stored w k (Namespace (meta o)) (Name (meta o))) as [cur|] eqn:E.
  - rewrite (get_found w _ _ _ _ E). cbn -[unchanged meta].
    destruct (unchanged o cur); cbn -[unchanged meta]; [done|].
    match goal with |- context [h (KUpdate k ?x) w] => pose proof (update_files k x w url) as Hf;
      destruct (h (KUpdate k x) w) as [[r|e] w'] end; exact Hf.
  - destruct (get_missing w _ _ _ E) as (e & -> & Hnf). cbn -[unchanged meta]. rewrite Hnf.
    cbn -[unchanged meta]. pose proof (create_files k o w url) as Hf.
    destruct (h (KCreate k o) w) as [[r|e'] w']; exact Hf.
Qed.

Lemma upsert_brings {k : kind} (o : obj k) s : brings (upsert o) s [DObject o].
Proof.
  intros w _ Hu _ _. apply Forall_cons in Hu as [Hu _]. cbn in Hu.
  assert (free_of_deletion h o w) as Hd by exact Hu.
  destruct (upsert_places h o s w Hd) as (Hv & Hin & Ho). exists s, tt. split; [exact Hv|].
  split; [done|]. split.
  { apply Forall_singleton. split; [exact Hin|]. by eapply in_place_alive. }
  intros q Hq. destruct q as [[[k' ns] name]|url]; [|apply upsert_files].
  apply Ho. intros E. apply Hq. rewrite E. left.
Qed.

Lemma gitPut_brings repo path yaml s :
  brings (gitPut repo path yaml) s
    [DFile (contents_url credentials.1 repo path) (EncodeToString yaml)].
Proof.
  intros w (sec & Hsec & Hcred) _ _ _. unfold gitPut, gitea_auth, lookup_sha, env_ok, env.
  repeat run_step. run_call. rewrite (get_found w _ _ _ _ Hsec). cbn [fst snd]. repeat run_step.
  rewrite Hcred. set (url := contents_url credentials.1 repo path).
  run_quiet. rewrite request_ok. repeat run_step.
  destruct (git_get w (get_request credentials (url +:+ "?ref=main")) url)
    as (rs & Eget & Hrs); [done..|].
  run_call. rewrite Eget. cbn [fst snd]. repeat run_step.
  run_quiet. rewrite request_ok. repeat run_step. run_call.
  match goal with |- context [put_body path yaml ?sha] => set (sh := sha) end.
  destruct (git_put w (json_request "PUT" credentials url (put_body path yaml sh)) url
    ([("message", JStr ("meshlink: reconcile clustermesh KRM " +:+ path));
      ("content", JStr (EncodeToString yaml)); ("branch", JStr "main")] ++
     (if String.eqb sh "" then [] else [("sha", JStr sh)]))%list (EncodeToString yaml))
    as (rs' & w' & sha' & Eput & H2xx & Hf & Hother & Hst); [done..| |].
  { subst sh. destruct (files w url) as [[sha c]|].
    - destruct Hrs as (Ec & <- & Hne). rewrite Ec. cbn.
      by rewrite (proj2 (String.eqb_neq _ _) Hne).
    - by rewrite Hrs. }
  rewrite Eput. cbn [fst snd]. rewrite H2xx. run_step. split; [done|]. split.
  - apply Forall_singleton. by exists sha'.
  - intros q Hq. destruct q as [[[k ns] name]|url']; [apply Hst|].
    apply Hother. intros ->. apply Hq. left.
Qed.
End platform.
