(* ===== verification/Forge.v ===== *)
(** * A platform in memory

    [MemServer] with statuses (a new version each), listings by label and a Git server beside it: one map of the files
    by contents URL, with the blob's identity as its SHA, behind basic authentication.  A request
    that replaces a file must name its current SHA, one that creates it must name none; others are
    answered 409 or 422, as Gitea's contents API does.  [platform] shows that it is a [Platform]
    of Platform.v. *)

From S2P Require Import Prelude GoText Prog Api Effects GitOps Platform.

Import MemServer.

Record forge := Forge { cluster : world; repos : gmap string string }.

Definition robot : string * string := ("gitea", "s3cret").

(** A blob is known by its content. *)
Definition blob_sha (content : string) : string := "blob:" +:+ content.

Definition file_at (w : forge) (url : string) : option (string * string) :=
  (λ content, (blob_sha content, content)) <$> repos w !! url.

(** ** The API server *)

(** The object held, with the status submitted. *)
Definition with_status_of {k : kind} : obj k → obj k → obj k :=
  match k return obj k → obj k → obj k with
  | KEdgeSite => λ o held, set_es_status (es_status o) held
  | KFleet => λ o held, set_fl_status (fl_status o) held
  | KMeshLink => λ o held, set_ml_status (ml_status o) held
  | KSubscriber => λ o held, set_sub_status (sub_status o) held
  | KNetworkSlice => λ o held, set_ns_status (ns_status o) held
  | KUPFDataPath => λ o held, set_dp_status (dp_status o) held
  | KNetworkFabric => λ o held, set_nf_status (nf_status o) held
  | KSDCoreDeployment => λ o held, set_sdc_status (sdc_status o) held
  | _ => λ _ held, held
  end.

(** A new version of an object the server holds. *)
Definition restamp (w : world) {k : kind} (o : obj k) : obj k :=
  with_meta {| Name := Name (meta o); Namespace := Namespace (meta o); UID := UID (meta o);
               ResourceVersion := Itoa (clock w); Generation := Generation (meta o);
               Labels := Labels (meta o); Annotations := Annotations (meta o);
               OwnerReferences := OwnerReferences (meta o);
               Finalizers := Finalizers (meta o);
               DeletionTimestamp := DeletionTimestamp (meta o) |} o.

Definition chosen (ns : option string) (labels : list (string * string)) (m : ObjectMeta) : bool :=
  match ns with Some ns => String.eqb (Namespace m) ns | None => true end &&
  forallb (λ '(l, v), bool_decide (Labels m !! l = Some v)) labels.

(** ** The Git server *)

Definition respond (code : Z) (sha : string) : result http_response :=
  Ok {| rs_StatusCode := code; rs_Body := ""; rs_Sha := sha |}.

(** The URL a request without a body asks about: the branch is the only parameter. *)
Definition main_branch : string := "?ref=main".
Definition asked_url (url : string) : string :=
  take_bytes (String.length url - String.length main_branch) url.

Definition member (name : string) (body : option json) : option string :=
  match body with
  | Some (JObj members) => match assoc name members with Some (JStr s) => Some s | _ => None end
  | _ => None
  end.

Definition with_repos (w : forge) (m : gmap string string) : forge := Forge (cluster w) m.

(** The request names the state of the file it was written against. *)
Definition current (w : forge) (rq : http_request) : bool :=
  bool_decide (member "sha" (rq_Body rq) = fst <$> file_at w (rq_URL rq)).

Definition git_serve (w : forge) (rq : http_request) : result http_response * forge :=
  if negb (bool_decide (rq_BasicAuth rq = Some robot)) then (respond 401 "", w)
  else if String.eqb (rq_Method rq) "GET" then
    match file_at w (asked_url (rq_URL rq)) with
    | Some (sha, _) => (respond 200 sha, w)
    | None => (respond 404 "", w)
    end
  else if negb (current w rq) then (respond 409 "", w)
  else if String.eqb (rq_Method rq) "PUT" then
    match member "content" (rq_Body rq) with
    | Some content =>
        (respond 201 (blob_sha content), with_repos w (<[rq_URL rq := content]> (repos w)))
    | None => (respond 422 "", w)
    end
  else if String.eqb (rq_Method rq) "DELETE" then
    (respond 200 "", with_repos w (delete (rq_URL rq) (repos w)))
  else (respond 405 "", w).

(** ** Both *)

Definition in_cluster {A} (r : A * world) (w : forge) : A * forge := (r.1, Forge r.2 (repos w)).

Definition serve : handler Env forge := λ c,
  match c return forge → answer c * forge with
  | HttpDo rq => λ w, git_serve w rq
  | KList k ns labels => λ w,
      (Ok (filter (λ o, Is_true (chosen ns labels (meta o))) (map_to_list (objects (cluster w) k)).*2), w)
  | KStatusUpdate k o => λ w,
      match objects (cluster w) k !! key_of o with
      | None => (Err not_found, w)
      | Some held =>
          if String.eqb (ResourceVersion (meta o)) (ResourceVersion (meta held)) then
            let o' := restamp (cluster w) (with_status_of o held) in
            (Ok o', Forge (put (cluster w) k (key_of o) o') (repos w))
          else (Err (errorf "conflict"), w)
      end
  | c => λ w, in_cluster (handle c (cluster w)) w
  end.

#[export, program] Instance forge_server : ApiServer serve := {| stored w := lookup (cluster w) |}.
Next Obligation.
  intros [m rs] k ns name o H. unfold lookup in H. cbn in *. unfold in_cluster. cbn. by rewrite H.
Qed.
Next Obligation.
  intros [m rs] k ns name H. exists not_found. unfold lookup in H. cbn in *. unfold in_cluster. cbn.
  by rewrite H.
Qed.
Next Obligation.
  intros [m rs] k o H.
  change (serve (KCreate k o) (Forge m rs)) with (in_cluster (handle (KCreate k o) m) (Forge m rs)).
  rewrite (handle_create m k o H). eexists _, _. split; [done|].
  split; [apply stamp_accepted | apply put_at_put].
Qed.
Next Obligation.
  intros [m rs] k o cur H _ HRV.
  change (serve (KUpdate k o) (Forge m rs)) with (in_cluster (handle (KUpdate k o) m) (Forge m rs)).
  rewrite (handle_update m k o cur H HRV). eexists _, _. split; [done|].
  split; [apply stamp_accepted | apply put_at_put].
Qed.
Next Obligation. by intros [m rs] msg kv. Qed.

(** ** The laws of a platform *)

Lemma with_status_of_stored w {k : kind} (o held : obj k) :
  status_stored o held (restamp w (with_status_of o held)).
Proof. by destruct k. Qed.

Lemma write_uid w {k : kind} (o : obj k) : UID (meta (stamp w o)) = UID (meta o).
Proof. by destruct k. Qed.

Lemma take_bytes_app a b : take_bytes (String.length a) (a +:+ b) = a.
Proof. induction a as [|c a IH]; cbn; [by destruct b|]. by rewrite IH. Qed.

Lemma asked_url_main url : asked_url (url +:+ main_branch) = url.
Proof.
  unfold asked_url. rewrite string_length_app, Nat.add_sub. apply take_bytes_app.
Qed.

Lemma serve_api c w :
  match c with HttpDo _ | KList _ _ _ | KStatusUpdate _ _ => False | _ => True end →
  repos (serve c w).2 = repos w.
Proof. destruct c; intros H; done. Qed.

Lemma delete_keeps w k (o : obj k) k' ns name :
  (k', ns, name) ≠ (k, Namespace (meta o), Name (meta o)) →
  lookup (handle (KDelete k o) w).2 k' ns name = lookup w k' ns name.
Proof.
  intros Hne. cbn [handle]. destruct (objects w k !! key_of o); cbn [snd]; [|done].
  unfold lookup, remove, with_objects. cbn [objects].
  destruct (decide (k = k')) as [<-|]; [|done]. cbn. apply lookup_delete_ne. unfold key_of. congruence.
Qed.

Lemma git_get_served w rq url :
  rq_Method rq = "GET" → rq_URL rq = url +:+ main_branch → rq_BasicAuth rq = Some robot →
  git_serve w rq =
    match file_at w url with Some (sha, _) => (respond 200 sha, w) | None => (respond 404 "", w) end.
Proof.
  intros Hm Hu Ha. unfold git_serve. by rewrite Ha, bool_decide_true, Hm, Hu, asked_url_main.
Qed.

Lemma git_put_served w rq members content :
  rq_Method rq = "PUT" → rq_BasicAuth rq = Some robot → rq_Body rq = Some (JObj members) →
  assoc "content" members = Some (JStr content) →
  assoc "sha" members = JStr <$> (fst <$> file_at w (rq_URL rq)) →
  git_serve w rq =
    (respond 201 (blob_sha content), with_repos w (<[rq_URL rq := content]> (repos w))).
Proof.
  intros Hm Ha Hb Hc Hs. unfold git_serve, current, member.
  rewrite Ha, bool_decide_true, Hm, Hb, Hs, Hc by done. cbn.
  rewrite bool_decide_true; [done|]. by destruct (file_at w (rq_URL rq)) as [[sha c]|].
Qed.

#[export, program] Instance platform : Platform serve :=
  {| files := file_at; credentials := robot |}.
Next Obligation. by intros [] [m rs]. Qed.
Next Obligation. done. Qed.
Next Obligation. done. Qed.
Next Obligation. intros. unfold file_at. by rewrite serve_api. Qed.
Next Obligation. intros. unfold file_at. by rewrite serve_api. Qed.
Next Obligation.
  intros [m rs] k o o' cur w' Hst Hu.
  change (serve (KUpdate k o) (Forge m rs)) with (in_cluster (handle (KUpdate k o) m) (Forge m rs)).
  cbn [handle]. change (objects m k !! key_of o = Some cur) in Hst. rewrite Hst.
  destruct (String.eqb _ _); [|done]. intros [= <- _]. by rewrite write_uid.
Qed.
Next Obligation.
  intros [m rs] k o cur Hst Hrv. change (objects m k !! key_of o = Some cur) in Hst.
  set (o' := restamp m (with_status_of o cur)). exists o', (Forge (put m k (key_of o) o') rs).
  cbn [serve cluster]. rewrite Hst, Hrv, String.eqb_refl. split; [done|]. split; [apply with_status_of_stored|].
  split; [apply put_at_put|done].
Qed.
Next Obligation.
  intros w k o. pose proof (delete_keeps (cluster w) k o) as Hk.
  change (serve (KDelete k o) w) with (in_cluster (handle (KDelete k o) (cluster w)) w).
  unfold in_cluster. destruct (handle (KDelete k o) (cluster w)) as [r w'] eqn:E. cbn in Hk |- *.
  split; [|split; [exact Hk|done]].
  cbn [handle] in E. by destruct (objects (cluster w) k !! key_of o); injection E as <- _.
Qed.
Next Obligation.
  intros w rq url Hm Hu Ha. cbn [serve]. rewrite (git_get_served w rq url Hm Hu Ha).
  unfold file_at. destruct (repos w !! url) as [content|]; eexists; done.
Qed.
Next Obligation.
  intros w rq url members content Hm Hu Ha Hb Hc Hs. cbn [serve]. subst url.
  rewrite (git_put_served w rq members content Hm Ha Hb Hc).
  - eexists _, _, (blob_sha content). split; [done|]. split; [done|]. unfold file_at. cbn.
    split; [by rewrite lookup_insert_eq|]. split; [|done]. intros u Hne. by rewrite lookup_insert_ne.
  - rewrite Hs. by destruct (file_at w (rq_URL rq)) as [[sha c]|].
Qed.

(** A cluster whose only object is the Secret with Gitea's credentials. *)
Definition gitea_secret : Secret :=
  {| sec_meta := new_meta "default" "gitea-auth";
     sec_Data := <["username" := robot.1]> (<["password" := robot.2]> ∅) |}.

Definition fresh_cluster : world := put empty KSecret ("default", "gitea-auth") gitea_secret.
