(* ===== verification/Desired.v ===== *)
(** * The desired state of an EdgeSite, and that a reconcile brings it about

    [demands] is the desired state of an addressed site: the children of the management cluster
    with their contents and owner, and the manifests of its deploy repository.
    [site_reaches_desired_state] is the functional correctness of the EdgeSite reconciler against
    it: on a platform where nothing fails, one reconcile of a stored site derives its addresses,
    establishes every demand, reports it, and touches nothing else. *)

From S2P Require Import Prelude GoText Prog Api Effects Helpers Upsert GitOps Addressing.
From S2P Require Import AddressPlan RanProfile EdgeSite Fleet Platform Forge.

#[local] Strategy 1000 [gnb_configmap gnb_config gnb_deployment ofh_detect uhd_detect radio_net
  n2_expose core_slice starter_subscribers derived_spec siteIndex Sprintf
  EncodeToString contents_url].

Section desired.
Context {W : Type} (h : handler Env W) {server : ApiServer h} {P : Platform h}.
Context {AM : Apimachinery} {AML : ApimachineryLaws}.

(** ** The demands *)

Definition cluster_of (es : EdgeSite) : string := "cluster-" +:+ Name (es_meta es).

Definition repo_of (r : EdgeSiteReconciler) (es : EdgeSite) : string :=
  if es_Colocated (es_spec es) then MgmtRepo r else cluster_of es.

Definition variant (r : EdgeSiteReconciler) (es : EdgeSite)
    (name upstreamPkg downRepo downPkg : string) (inject : bool) : demand :=
  DObject (k := KUnstructured pvGVK) (owned_by (k := KUnstructured pvGVK) es
    (new_unstructured pvGVK (Namespace (es_meta es)) name
       (pv_spec r es upstreamPkg downRepo downPkg inject))).

Definition claimed (es : EdgeSite) (c : string * string) : demand :=
  let name := Name (es_meta es) +:+ "-" +:+ c.1 in
  DObject (k := KUnstructured ipClaimGVK) (owned_by (k := KUnstructured ipClaimGVK) es
    (new_unstructured ipClaimGVK (Namespace (es_meta es)) name (claim_spec es name c.2))).

Definition manifest (repo : string) (f : string * string) : demand :=
  DFile (contents_url credentials.1 repo f.1) (EncodeToString f.2).

Definition control_plane_of (es : EdgeSite) : string :=
  if String.eqb (es_ControlPlane (es_spec es)) "" then "mgmt" else es_ControlPlane (es_spec es).

(** The manifests a core brings: the exposed N2 Service, the slice, the subscribers, the gNB. *)
Definition core_files (es : EdgeSite) : list (string * string) :=
  ([("n2-expose/amf-ngap.yaml", n2_expose (es_N2VIP (es_spec es)));
    ("core-slice/networkslice.yaml", core_slice es);
    ("core-slice/subscriber.yaml", starter_subscribers es)] ++
   match es_RAN (es_spec es) with Some ran => ran_files es ran | None => [] end)%list.

Definition cp_demands (r : EdgeSiteReconciler) (es : EdgeSite) : list demand :=
  let name := Name (es_meta es) in
  variant r es ("cp-" +:+ name) "sdcore-cp" (repo_of r es) ("cp-" +:+ name) true ::
  (manifest (repo_of r es) <$> core_files es).

Definition edge_demands (es : EdgeSite) : list demand :=
  [DObject (owned_by (k := KMeshLink) es (mesh_link_of es (control_plane_of es)));
   DObject (owned_by (k := KNetworkSlice) es (edge_slice_of es))].

Definition demands (r : EdgeSiteReconciler) (es : EdgeSite) : list demand :=
  let name := Name (es_meta es) in
  let repo := repo_of r es in
  ((if negb (es_Colocated (es_spec es)) then
      [variant r es (cluster_of es) "cluster-ck8s-byoh" (MgmtRepo r) (cluster_of es) true]
    else []) ++
   (claimed es <$> claims) ++
   (if String.eqb (es_Role (es_spec es)) "cp+upf" then cp_demands r es else []) ++
   [variant r es ("multus-" +:+ repo) "multus" repo ("multus-" +:+ repo) false] ++
   [variant r es ("upf-" +:+ name) "edge-site" repo ("upf-" +:+ name) true] ++
   [variant r es ("datapath-" +:+ repo) "datapath-actuator" repo ("datapath-" +:+ repo) false] ++
   (if String.eqb (es_Role (es_spec es)) "upf-only" then edge_demands es else []))%list.

(** ** The steps bring them *)

Lemma step_brings name fn es ds : brings h fn es ds → brings h (step name fn) es ds.
Proof.
  intros H w Hs Hu Hn Ha. unfold step, log_step, env. repeat run_step. run_quiet. repeat run_step.
  eapply runs_impl; [|by apply H]. cbn beta iota. intros s' [] w' HQ. by run_step.
Qed.

Lemma variant_brings r es name up repo pkg inject :
  brings h (pkgVariant r name up repo pkg inject) es [variant r es name up repo pkg inject].
Proof. unfold pkgVariant, applyOwned. do 2 apply brings_get. apply upsert_brings. Qed.

Lemma claim_brings es c :
  brings h (es ← get; ipClaim (Name (es_meta es) +:+ "-" +:+ c.1) c.2) es [claimed es c].
Proof. unfold ipClaim, applyOwned. do 3 apply brings_get. apply upsert_brings. Qed.

Lemma child_brings {k : kind} (o : obj k) es :
  brings h (applyOwned o) es [DObject (owned_by es o)].
Proof. unfold applyOwned. apply brings_get, upsert_brings. Qed.

Lemma claims_bring es : brings h claim_steps es (claimed es <$> claims).
Proof.
  unfold claim_steps.
  assert (claimed es <$> claims = concat ((λ c, [claimed es c]) <$> claims)) as -> by done.
  apply brings_for_each. intros c. apply step_brings, claim_brings.
Qed.

Lemma file_brings repo f (es : EdgeSite) : brings h (gitPut repo f.1 f.2) es [manifest repo f].
Proof. exact (gitPut_brings h repo f.1 f.2 es). Qed.

Lemma n2_brings repo es :
  es_N2VIP (es_spec es) ≠ "" →
  brings h (deliverN2Expose repo) es
    [manifest repo ("n2-expose/amf-ngap.yaml", n2_expose (es_N2VIP (es_spec es)))].
Proof.
  intros Hv. unfold deliverN2Expose. apply brings_get.
  rewrite (proj2 (String.eqb_neq _ _) Hv). intros w Hs Hu Hn Ha. repeat run_step.
  exact (file_brings repo ("n2-expose/amf-ngap.yaml", n2_expose (es_N2VIP (es_spec es))) es
           w Hs Hu Hn Ha).
Qed.

Lemma ran_brings repo es ran :
  es_RAN (es_spec es) = Some ran →
  brings h (deliverRAN repo) es (manifest repo <$> ran_files es ran).
Proof.
  intros E. unfold deliverRAN. apply brings_get. rewrite E. unfold ran_files.
  rewrite !fmap_app. apply brings_seq; [apply (file_brings repo (_, _))|].
  apply brings_seq; [|apply brings_seq; [|apply (file_brings repo (_, _))]].
  - destruct (isOFH ran); [apply (file_brings repo (_, _))|].
    destruct (isUHD ran); [apply (file_brings repo (_, _))|apply brings_nil].
  - unfold when. destruct (networked_sdr ran); [apply (file_brings repo (_, _))|apply brings_nil].
Qed.

Lemma cp_brings r es :
  es_N2VIP (es_spec es) ≠ "" → brings h (cp_steps r (repo_of r es)) es (cp_demands r es).
Proof.
  intros Hv. unfold cp_steps, cp_demands, core_files.
  rewrite fmap_app. cbn [fmap list_fmap].
  apply (brings_seq h _ _ es [_]).
  { apply step_brings. unfold site_variant. apply brings_get, variant_brings. }
  apply (brings_seq h _ _ es [_]); [by apply step_brings, n2_brings|].
  apply (brings_seq h _ _ es [_; _]).
  { apply step_brings. unfold deliverCoreSlice. apply brings_get.
    apply (brings_seq h _ _ es [_] [_]); apply (file_brings (repo_of r es) (_, _)). }
  apply brings_get. destruct (es_RAN (es_spec es)) as [ran|] eqn:E; [|apply brings_nil].
  by apply step_brings, ran_brings.
Qed.

Lemma emit_brings r es :
  es_N2VIP (es_spec es) ≠ "" → brings h (emit r (cluster_of es)) es (demands r es).
Proof.
  intros Hv. unfold emit, demands. apply brings_get. cbv zeta. fold (repo_of r es).
  apply brings_seq; [apply brings_when, step_brings, variant_brings|].
  apply brings_seq; [apply claims_bring|]. apply brings_get.
  apply brings_seq; [by apply brings_when, cp_brings|].
  apply brings_seq; [apply step_brings; unfold infra_variant; apply variant_brings|].
  apply brings_seq; [apply step_brings; unfold site_variant; apply brings_get, variant_brings|].
  apply brings_seq; [apply step_brings; unfold infra_variant; apply variant_brings|].
  apply brings_get. apply brings_when. unfold edge_steps. apply brings_get.
  apply (brings_seq h _ _ es [_] [_]); apply step_brings.
  - unfold meshLink. apply brings_get, child_brings.
  - unfold edgeSlice. apply brings_get, child_brings.
Qed.

(** ** Where they are *)

Lemma contents_url_eq u repo path :
  contents_url u repo path =
  giteaBase +:+ "/api/v1/repos/" +:+ (u +:+ "/" +:+ (repo +:+ "/contents/" +:+ path)).
Proof. unfold contents_url. eval_sprintf. by rewrite string_app_nil_r. Qed.

Lemma contents_url_path u repo p q : contents_url u repo p = contents_url u repo q → p = q.
Proof.
  rewrite !contents_url_eq. intros E. by repeat apply string_app_inj_l in E.
Qed.

Definition child_place (gvk : GroupVersionKind) (es : EdgeSite) (name : string) : place :=
  inl (KUnstructured gvk, Namespace (es_meta es), name).
Definition file_place (repo path : string) : place := inr (contents_url credentials.1 repo path).
Definition site_place (es : EdgeSite) : place :=
  inl (KEdgeSite, Namespace (es_meta es), Name (es_meta es)).

(** Every place a site may have something at. *)
Definition all_paths : list string :=
  ["n2-expose/amf-ngap.yaml"; "core-slice/networkslice.yaml"; "core-slice/subscriber.yaml";
   "ran/configmap.yaml"; "ran/detect.yaml"; "ran/radio-net.yaml"; "ran/deployment.yaml"].

Definition all_places (r : EdgeSiteReconciler) (es : EdgeSite) : list place :=
  let name := Name (es_meta es) in
  let repo := repo_of r es in
  ([child_place pvGVK es (cluster_of es)] ++
   ((λ c : string * string, child_place ipClaimGVK es (name +:+ "-" +:+ c.1)) <$> claims) ++
   (child_place pvGVK es ("cp-" +:+ name) :: (file_place repo <$> all_paths)) ++
   [child_place pvGVK es ("multus-" +:+ repo)] ++ [child_place pvGVK es ("upf-" +:+ name)] ++
   [child_place pvGVK es ("datapath-" +:+ repo)] ++
   [inl (KMeshLink, Namespace (es_meta es), name); inl (KNetworkSlice, Namespace (es_meta es), name)])%list.

Lemma if_sublist {A} (b : bool) (l l' : list A) :
  l `sublist_of` l' → (if b then l else []) `sublist_of` l'.
Proof. destruct b; [done|]. intros _. apply sublist_nil_l. Qed.

Lemma core_files_paths es : (core_files es).*1 `sublist_of` all_paths.
Proof.
  unfold core_files, all_paths. rewrite fmap_app.
  apply (sublist_app _ [_; _; _] _ [_; _; _; _]); [done|].
  destruct (es_RAN (es_spec es)) as [ran|]; [|apply sublist_nil_l]. unfold ran_files.
  rewrite !fmap_app. apply (sublist_app _ [_] _ [_; _; _]); [done|].
  apply (sublist_app _ [_] _ [_; _]); [by destruct (isOFH ran), (isUHD ran); repeat constructor|].
  apply (sublist_app _ [_] _ [_]); [by destruct (networked_sdr ran); repeat constructor|done].
Qed.

Lemma manifest_places repo fs : place_of <$> (manifest repo <$> fs) = file_place repo <$> fs.*1.
Proof. by rewrite <-!list_fmap_compose. Qed.

Lemma demands_places r es : place_of <$> demands r es `sublist_of` all_places r es.
Proof.
  unfold demands, all_places. rewrite !fmap_app.
  repeat apply sublist_app; try done.
  - by destruct (negb _); repeat constructor.
  - destruct (String.eqb _ _); [|apply sublist_nil_l]. unfold cp_demands. rewrite fmap_cons.
    constructor. rewrite manifest_places. by apply fmap_sublist, core_files_paths.
  - by destruct (String.eqb _ _); repeat constructor.
Qed.

(** Literal prefixes and suffixes tell the names of the children apart. *)
Ltac apart :=
  let E := fresh in
  intros E; unfold child_place in E; injection E; clear E; intros;
  repeat match goal with
  | H : _ +:+ _ = _ +:+ _ |- _ => apply string_app_inj_l in H
  | U : ∀ p q, _ = _ → p = q, H : _ = _ |- _ => apply U in H
  end; discriminate.

Ltac not_there :=
  repeat (apply not_elem_of_cons; split); first [apply not_elem_of_nil | discriminate | apart].

Lemma all_places_distinct r es : NoDup (all_places r es).
Proof.
  unfold all_places, claims, all_paths, cluster_of, file_place.
  pose proof (contents_url_path credentials.1 (repo_of r es)) as U. revert U.
  cbn [app fmap list_fmap fst snd].
  generalize (contents_url credentials.1 (repo_of r es)). intros u.
  generalize (repo_of r es), (Name (es_meta es)). intros repo name U.
  repeat (apply NoDup_cons; split); [not_there..|apply NoDup_nil_2].
Qed.

Lemma auth_place_apart r es : auth_place ∉ all_places r es.
Proof.
  unfold all_places, auth_place, file_place, child_place. cbn [app fmap list_fmap all_paths claims].
  generalize (contents_url credentials.1 (repo_of r es)). intros u.
  repeat (apply not_elem_of_cons; split); first [apply not_elem_of_nil | discriminate].
Qed.

Lemma site_place_apart r es es' : site_place es' ∉ all_places r es.
Proof.
  unfold all_places, site_place, file_place, child_place. cbn [app fmap list_fmap all_paths claims].
  generalize (contents_url credentials.1 (repo_of r es)). intros u.
  repeat (apply not_elem_of_cons; split); first [apply not_elem_of_nil | discriminate].
Qed.

(** ** The addresses, the status, the whole *)

(** [es1] is the site of [es] with its addresses. *)
Definition addressed_as (es es1 : EdgeSite) : Prop :=
  addressed (es_spec es1) ∧ given_part (es_spec es1) = given_part (es_spec es) ∧
  Name (es_meta es1) = Name (es_meta es) ∧ Namespace (es_meta es1) = Namespace (es_meta es) ∧
  UID (es_meta es1) = UID (es_meta es).

(** The status says that everything was emitted. *)
Definition reported (es : EdgeSite) : Prop :=
  ess_Phase (es_status es) = "Deploying" ∧ ess_Cluster (es_status es) = cluster_of es ∧
  ∃ c, find_condition "Ready" (ess_Conditions (es_status es)) = Some c ∧
    c_Status c = ConditionTrue ∧ c_Reason c = "Emitted".

(** The demands of a site are told by its spec and identity. *)
Lemma demands_agree r es1 es2 :
  es_spec es1 = es_spec es2 → Name (es_meta es1) = Name (es_meta es2) →
  Namespace (es_meta es1) = Namespace (es_meta es2) → UID (es_meta es1) = UID (es_meta es2) →
  demands r es1 = demands r es2.
Proof.
  intros Es En Ens Eu.
  unfold demands, cp_demands, edge_demands, core_files, ran_files, variant, claimed, pv_spec,
    injector, claim_spec, prefix_length, core_slice, starter_subscribers, starter_subscriber,
    mesh_link_of, edge_slice_of, control_plane_of, repo_of, cluster_of, owned_by, owner_of.
  rewrite Es, En, Ens, Eu. reflexivity.
Qed.

Lemma replays_quiet w c r t w' :
  quiet c = true → replays h w (Ev c r :: t) w' → replays h w t w'.
Proof. intros Hc [_ Hr]. by rewrite quiet_silent in Hr. Qed.

Lemma derive_runs es w :
  stored w KEdgeSite (Namespace (es_meta es)) (Name (es_meta es)) = Some es →
  DeletionTimestamp (es_meta es) = None →
  runs h deriveAddressing es w (λ es1 _ w1,
    addressed_as es es1 ∧ DeletionTimestamp (es_meta es1) = None ∧
    stored w1 KEdgeSite (Namespace (es_meta es)) (Name (es_meta es)) = Some es1 ∧
    ∀ q, q ≠ site_place es → same_at h w w1 q).
Proof.
  intros Hst Hd. unfold runs.
  destruct (always_replays h (deriveAddressing es) _ w (deriveAddressing_trace es))
    as (t & Hr & tn & tl & tu & base & vip & Et & Hn & _ & Hv & Hl & H).
  destruct (run_value h (deriveAddressing es) w) as [es1 r]. cbn [fst snd] in *.
  assert (replays h w tu (run_world h (deriveAddressing es) w)) as Hu.
  { rewrite Et in Hr. assert (replays h w (tl ++ tu) (run_world h (deriveAddressing es) w)) as Hr'.
    { destruct Hn as [->|[n ->]]; [exact Hr|by eapply replays_quiet; [|exact Hr]]. }
    unfold offered_vip in Hl. destruct (es_Colocated _); [by destruct Hl as [-> _]|].
    destruct (held_vip es); [by destruct Hl as [-> _]|]. destruct Hl as (l & -> & _).
    by eapply replays_quiet; [|exact Hr']. }
  destruct (addressedb (es_spec es)) eqn:Ea.
  - destruct H as (-> & -> & ->). cbn in Hu. rewrite Hu. exists es, tt. split; [done|].
    apply addressedb_spec in Ea. repeat split; try done. intros. apply same_at_refl.
  - destruct H as (a & -> & H). set (o := set_es_spec _ es) in *.
    destruct (update_stores w KEdgeSite o es Hst Hd eq_refl) as (o' & w1 & Ho & Hacc & Hput & Hkept).
    pose proof (update_files KEdgeSite o w) as Hf. destruct Hu as [Eu Hu]. rewrite Ho in Eu, Hu, Hf.
    cbn in Eu, Hu, Hf. rewrite Hu. subst a. destruct H as [-> ->]. exists o', tt. split; [done|].
    pose proof (update_uid w KEdgeSite o o' es w1 Hst eq_refl Ho) as Euid.
    destruct Hacc as (Hs & En & Ens & _ & _ & _ & Hdel). cbn in Hs, En, Ens, Euid.
    split; [|split; [done|split; [exact Hput|]]].
    + unfold addressed_as. rewrite Hs. cbn. split; [by apply derived_spec_addressed|].
      split; [apply derived_spec_given|done].
    + intros [[[k ns] name]|url] Hq; [|apply Hf]. apply Hkept. intros E. apply Hq. by rewrite E.
Qed.

Lemma succeed_runs cluster es w cur :
  stored w KEdgeSite (Namespace (es_meta es)) (Name (es_meta es)) = Some cur →
  ResourceVersion (es_meta es) = ResourceVersion (es_meta cur) →
  runs h (succeed cluster) es w (λ es2 res w2,
    res = no_requeue ∧ es_status es2 = success_status es cluster ∧ es_spec es2 = es_spec cur ∧
    Name (es_meta es2) = Name (es_meta cur) ∧ Namespace (es_meta es2) = Namespace (es_meta cur) ∧
    UID (es_meta es2) = UID (es_meta cur) ∧
    stored w2 KEdgeSite (Namespace (es_meta es)) (Name (es_meta es)) = Some es2 ∧
    ∀ q, q ≠ site_place es → same_at h w w2 q).
Proof.
  intros Hst Hrv. unfold succeed, update_status, env. repeat run_step.
  destruct (status_update w KEdgeSite (set_es_status (success_status es cluster) es) cur Hst Hrv)
    as (o' & w2 & Eo & Hss & Hput & Hf).
  run_call. rewrite Eo. cbn [fst snd]. repeat run_step. run_quiet. repeat run_step.
  destruct Hss as (Hs & En & Ens & Euid & _ & _ & _ & _ & Hstat). destruct Hput as [Hput Hkept].
  repeat split; try done. intros [[[k ns] name]|url] Hq; [|apply Hf].
  apply Hkept. intros E. apply Hq. by rewrite E.
Qed.

Lemma succeeded_reported es es2 :
  es_status es2 = success_status es (cluster_of es) → Name (es_meta es2) = Name (es_meta es) →
  reported es2.
Proof.
  intros E En. unfold reported, cluster_of. rewrite E, En.
  split; [reflexivity|]. split; [reflexivity|]. eexists. split; [apply setCondition_find|]. done.
Qed.

Lemma all_places_agree r es es1 : addressed_as es es1 → all_places r es1 = all_places r es.
Proof.
  intros (_ & Hg & En & Ens & _). unfold given_part in Hg. injection Hg as _ _ _ _ Hc _.
  unfold all_places, repo_of, cluster_of, child_place. by rewrite En, Ens, Hc.
Qed.

Lemma demands_in_places r es q : q ∈ place_of <$> demands r es → q ∈ all_places r es.
Proof. intros Hq. eapply elem_of_submseteq; [exact Hq|]. apply sublist_submseteq, demands_places. Qed.

(** What is emitted once the site is addressed: the demands, and the site is still stored. *)
Lemma emit_runs r es w :
  stored w KEdgeSite (Namespace (es_meta es)) (Name (es_meta es)) = Some es →
  addressed (es_spec es) → signed_in h w → Forall (unobstructed h w) (all_places r es) →
  runs h (emit r (cluster_of es)) es w (λ es' _ w', es' = es ∧
    stored w' KEdgeSite (Namespace (es_meta es)) (Name (es_meta es)) = Some es ∧
    Forall (established h w w') (demands r es) ∧
    ∀ q, q ∉ place_of <$> demands r es → same_at h w w' q).
Proof.
  intros Hst Ha Hs Hu. eapply runs_impl; [|apply (emit_brings r es)].
  - cbn beta. intros es' _ w' (-> & Hh & Hk). split; [reflexivity|]. split; [|by split].
    rewrite <-Hst. apply (Hk (site_place es)). intros Hq.
    by apply demands_in_places, site_place_apart in Hq.
  - intros Ev. unfold addressed in Ha. rewrite Forall_forall in Ha.
    apply (Ha p_N2VIP); [|exact Ev]. unfold derived_ptrs. cbn. rewrite !elem_of_cons. tauto.
  - exact Hs.
  - rewrite Forall_forall in Hu |- *. intros q Hq. by apply Hu, demands_in_places.
  - eapply sublist_NoDup; [apply (all_places_distinct r es)|apply demands_places].
  - intros Hq. by apply (auth_place_apart r es), demands_in_places.
Qed.

(** A reconcile of a stored site brings about its desired state. *)
Lemma reconcile_site_runs r es w :
  stored w KEdgeSite (Namespace (es_meta es)) (Name (es_meta es)) = Some es →
  DeletionTimestamp (es_meta es) = None →
  signed_in h w → Forall (unobstructed h w) (all_places r es) →
  runs h (reconcile_site r) es w (λ es' res w', res = no_requeue ∧
    addressed_as es es' ∧ reported es' ∧
    stored w' KEdgeSite (Namespace (es_meta es)) (Name (es_meta es)) = Some es' ∧
    Forall (established h w w') (demands r es') ∧
    ∀ q, q ∉ site_place es :: (place_of <$> demands r es') → same_at h w w' q).
Proof.
  intros Hst Hd Hs Hu.
  unfold reconcile_site, step at 1, log_step, env. repeat run_step. run_quiet. repeat run_step.
  eapply runs_impl; [|by apply derive_runs]. cbn beta iota.
  intros es1 [] w1 (Has & Hd1 & Hst1 & Hk1). repeat run_step.
  pose proof Has as (Ha & Hg & En & Ens & Euid).
  assert (cluster_of es1 = cluster_of es) as Ecl by (unfold cluster_of; by rewrite En).
  assert (site_place es1 = site_place es) as Esp by (unfold site_place; by rewrite En, Ens).
  pose proof (all_places_agree r es es1 Has) as Eall.
  change ("cluster-" +:+ Name (es_meta es)) with (cluster_of es). rewrite <-Ecl.
  rewrite <-Ens, <-En in Hst1.
  eapply runs_impl; [|apply (emit_runs r es1 w1 Hst1 Ha)].
  - cbn beta. intros es' [] w2 (-> & Hst2 & Hh & Hk2).
    eapply runs_impl; [|exact (succeed_runs (cluster_of es1) es1 w2 es1 Hst2 eq_refl)]. cbn beta.
    intros es2 res w3 (-> & Hstat & Hspec & En2 & Ens2 & Eu2 & Hst3 & Hk3).
    rewrite (demands_agree r es2 es1 Hspec En2 Ens2 Eu2). rewrite Ens, En in Hst3.
    split; [reflexivity|]. split.
    { unfold addressed_as. rewrite Hspec, En2, Ens2, Eu2. done. }
    split; [exact (succeeded_reported es1 es2 Hstat En2)|]. split; [exact Hst3|]. split.
    + assert (∀ q, q ∈ place_of <$> demands r es1 → q ≠ site_place es1) as Hne.
      { intros q Hq ->. by apply demands_in_places, site_place_apart in Hq. }
      apply (all_established_after h w w2); [intros; by apply Hk3, Hne|].
      apply (all_established_before h w w1); [intros q Hq; apply Hk1; rewrite <-Esp; by apply Hne|].
      exact Hh.
    + intros q Hq. apply not_elem_of_cons in Hq as [Hq1 Hq2].
      eapply same_at_trans; [by apply Hk1|]. eapply same_at_trans; [by apply Hk2|].
      apply Hk3. by rewrite Esp.
  - eapply same_signed_in; [|exact Hs]. by apply Hk1.
  - rewrite Eall. rewrite Forall_forall in Hu |- *. intros q Hq.
    eapply same_unobstructed; [|by apply Hu]. apply Hk1. intros ->.
    by apply site_place_apart in Hq.
Qed.

End desired.

(** edge-01 with a networked radio; an old version of its gNB is deployed and its cluster is
    already there. *)
Definition radio_site : EdgeSite :=
  set_es_spec (declare "192.168.1.5" "" "cp+upf" (Some (ran_of "n310" "192.168.10.2" "ens3"))
                 (es_spec edge_01)) edge_01.

Definition old_cluster : Unstructured :=
  new_unstructured pvGVK "default" "cluster-edge-01" (JObj [("upstream", JStr "old")]).

Definition before_reconcile : forge :=
  Forge (MemServer.put (MemServer.put fresh_cluster KEdgeSite (site_key "edge-01") radio_site)
           (KUnstructured pvGVK) ("default", "cluster-edge-01") old_cluster)
    (<[contents_url robot.1 "cluster-edge-01" "ran/deployment.yaml" := "b2xk"]> ∅).

Definition defaults : EdgeSiteReconciler := with_defaults {| BlueprintRepo := ""; MgmtRepo := "" |}.

