(* ===== verification/Pipeline.v ===== *)
(** * From a Fleet to its sites

    The two reconcilers one after the other on one platform: a reconcile of a Fleet declares its
    EdgeSites ([fleet_runs]), a reconcile of each of these brings about its desired state, and
    no site disturbs another ([fleet_to_sites]). *)

From S2P Require Import Prelude GoText Prog Api Effects Helpers Upsert GitOps Addressing.
From S2P Require Import AddressPlan RanProfile EdgeSite Fleet System Platform Forge Desired.

#[local] Strategy 1000 [gnb_configmap gnb_config gnb_deployment ofh_detect uhd_detect radio_net
  n2_expose core_slice starter_subscribers derived_spec siteIndex Sprintf
  EncodeToString contents_url].

Section fleet.
Context {W : Type} (h : handler Env W) {server : ApiServer h} {P : Platform h}.
Context {AM : Apimachinery}.

(** ** One entry *)

(** The EdgeSite carries what the entry declares. *)
Definition declared (s : FleetSite) (o : EdgeSite) : Prop :=
  es_Server (es_spec o) = fs_Server s ∧ es_User (es_spec o) = fs_User s ∧
  es_Role (es_spec o) = site_role s ∧ es_RAN (es_spec o) = fs_RAN s.

Definition edge_place (ns name : string) : place := inl (KEdgeSite, ns, name).

(** What is stored under the name of an EdgeSite is one of that name, alive, and has a cluster of
    its own. *)
Definition own_cluster (ns name : string) (o : EdgeSite) : Prop :=
  Name (es_meta o) = name ∧ Namespace (es_meta o) = ns ∧ DeletionTimestamp (es_meta o) = None ∧
  es_Colocated (es_spec o) = false.

Definition open_for (w : W) (ns name : string) : Prop :=
  ∀ o, stored w KEdgeSite ns name = Some o → own_cluster ns name o.

Definition site_declared (w : W) (ns name : string) (s : FleetSite) : Prop :=
  ∃ o, stored w KEdgeSite ns name = Some o ∧ declared s o ∧ own_cluster ns name o.

Lemma entry_stored fleet name s w (o : EdgeSite) :
  own_cluster (Namespace (fl_meta fleet)) name o → declared s o →
  stored w KEdgeSite (Namespace (fl_meta fleet)) name = Some o →
  site_declared w (Namespace (fl_meta fleet)) name s.
Proof. intros Ho Hd Hs. by exists o. Qed.

Lemma applyEdgeSite_runs fleet name s w :
  let ns := Namespace (fl_meta fleet) in
  open_for w ns name →
  runs h (applyEdgeSite name (fs_Server s) (fs_User s) (site_role s) (fs_RAN s)) fleet w
    (λ fleet' _ w', fleet' = fleet ∧ site_declared w' ns name s ∧
       ∀ q, q ≠ edge_place ns name → same_at h w w' q).
Proof.
  intros ns Hopen. unfold applyEdgeSite, env_ok, env. repeat run_step. run_call. fold ns.
  destruct (stored w KEdgeSite ns name) as [cur|] eqn:E.
  - rewrite (get_found w _ _ _ _ E). cbn [fst snd]. repeat run_step.
    destruct (Hopen cur E) as (En & Ens & Hd & Hcol).
    set (o := updated_site fleet (fs_Server s) (fs_User s) (site_role s) (fs_RAN s) cur).
    destruct (update_stores w KEdgeSite o cur) as (o' & w' & Ho & Hacc & Hput & Hkept);
      [cbn; by rewrite En, Ens|done|done|].
    pose proof (update_files KEdgeSite o w) as Hf. rewrite Ho in Hf. cbn in Hf.
    run_call. rewrite Ho. cbn [fst snd]. repeat run_step.
    destruct Hacc as (Hs & En' & Ens' & _ & _ & _ & Hd'). unfold o in *.
    cbn in Hs, En', Ens', Hput, Hkept.
    rewrite En, Ens in Hput, Hkept. split; [done|]. split.
    + apply (entry_stored fleet name s w' o'); [|by unfold declared; rewrite Hs|exact Hput].
      split; [by rewrite En'|]. split; [by rewrite Ens'|].
      split; [done|]. by rewrite Hs.
    + intros [[[k ns'] n]|url] Hq; [|apply Hf]. apply Hkept. intros Eq. apply Hq. by rewrite Eq.
  - destruct (get_missing w _ _ _ E) as (e & -> & Hnf). cbn [fst snd]. rewrite Hnf. repeat run_step.
    set (o := new_site fleet name (fs_Server s) (fs_User s) (site_role s) (fs_RAN s)).
    destruct (create_stores w KEdgeSite o) as (o' & w' & Ho & Hacc & Hput & Hkept); [exact E|].
    pose proof (create_files KEdgeSite o w) as Hf. rewrite Ho in Hf. cbn in Hf.
    run_call. rewrite Ho. cbn [fst snd]. repeat run_step.
    destruct Hacc as (Hs & En' & Ens' & _ & _ & _ & Hd'). unfold o in *.
    cbn in Hs, En', Ens', Hput, Hkept.
    split; [done|]. split.
    + apply (entry_stored fleet name s w' o'); [|by unfold declared; rewrite Hs|exact Hput].
      split; [done|]. split; [done|]. split; [done|]. by rewrite Hs.
    + intros [[[k ns'] n]|url] Hq; [|apply Hf]. apply Hkept. intros Eq. apply Hq. by rewrite Eq.
Qed.

Lemma same_declared w w' ns name s :
  same_at h w w' (edge_place ns name) → site_declared w ns name s → site_declared w' ns name s.
Proof. intros E (o & Hs & H). exists o. cbn in E. by rewrite E. Qed.

(** ** The whole Fleet *)

Lemma entries_run fleet sites names :
  let ns := Namespace (fl_meta fleet) in
  NoDup names → ∀ w, (∀ name, name ∈ names → open_for w ns name) →
  runs h (collect names (reconcile_entry sites)) fleet w (λ fleet' errs w',
    fleet' = fleet ∧ errs = [] ∧
    (∀ name s, name ∈ names → sites !! name = Some s → site_declared w' ns name s) ∧
    ∀ q, (∀ name, name ∈ names → q ≠ edge_place ns name) → same_at h w w' q).
Proof.
  intros ns. induction names as [|name names IH]; intros Hn w Ho; cbn [collect].
  - run_step. repeat split; try done; intros; [by apply elem_of_nil in H|apply same_at_refl].
  - apply NoDup_cons in Hn as [Hname Hn]. run_step. unfold reconcile_entry. repeat run_step.
    assert (∀ w', (∀ q, q ≠ edge_place ns name → same_at h w w' q) →
      ∀ n, n ∈ names → open_for w' ns n) as Hopen.
    { intros w' Hk n Hin o Hs. apply (Ho n); [by right|].
      rewrite <-(Hk (edge_place ns n)); [done|]. intros [= ->]. done. }
    destruct (sites !! name) as [s|] eqn:Es.
    + repeat run_step. eapply runs_impl; [|apply (applyEdgeSite_runs fleet name s w), Ho; left].
      cbn beta iota. intros f [] w1 (-> & Hd & Hk). fold ns in Hk. repeat run_step.
      eapply runs_impl; [|apply IH; [done|by apply Hopen]]. cbn beta.
      intros f errs w2 (-> & -> & Hd2 & Hk2). run_step. split; [done|]. split; [done|]. split.
      * intros n s' [->|Hin]%elem_of_cons Hs'; [|by apply Hd2]. simplify_eq.
        eapply same_declared; [|exact Hd]. apply Hk2. intros n Hin [= ->]. done.
      * intros q Hq. eapply same_at_trans; [apply Hk, Hq; left|]. apply Hk2.
        intros n Hin. apply Hq. by right.
    + repeat run_step. eapply runs_impl; [|apply IH; [done|apply Hopen; intros; apply same_at_refl]].
      cbn beta. intros f errs w2 (-> & -> & Hd2 & Hk2). run_step. split; [done|]. split; [done|].
      split.
      * intros n s' [->|Hin]%elem_of_cons Hs'; [congruence|by apply Hd2].
      * intros q Hq. apply Hk2. intros n Hin. apply Hq. by right.
Qed.

(** Places the clean-up of a Fleet leaves alone: all but EdgeSites no entry wants. *)
Definition spared (sites : gmap string FleetSite) (q : place) : Prop :=
  match q with
  | inl (KEdgeSite, _, name) => is_Some (sites !! name)
  | _ => True
  end.

Lemma decommission_runs sites es fleet w :
  runs h (decommission sites es) fleet w (λ fleet' errs w',
    fleet' = fleet ∧ errs = [] ∧ ∀ q, spared sites q → same_at h w w' q).
Proof.
  unfold decommission, env. repeat run_step. destruct (unwanted sites es) eqn:Hu.
  - repeat run_step. run_quiet. repeat run_step. run_call.
    pose proof (delete_object w KEdgeSite es) as Hdel.
    destruct (h (KDelete KEdgeSite es) w) as [r w'] eqn:E. cbn [fst snd].
    destruct Hdel as (Hr & Hst & Hf).
    assert (∀ q, spared sites q → same_at h w w' q) as Hk.
    { intros [[[k ns] name]|url] Hq; [|apply Hf]. apply Hst. intros [= -> _ ->].
      unfold unwanted in Hu. cbn in Hq. destruct Hq as [s Hq]. by rewrite Hq in Hu. }
    destruct r as [u|e]; [by run_step|]. rewrite Hr. by run_step.
  - run_step. repeat split; try done. intros. apply same_at_refl.
Qed.

Lemma decommissions_run sites items fleet : ∀ w,
  runs h (collect items (decommission sites)) fleet w (λ fleet' errs w',
    fleet' = fleet ∧ errs = [] ∧ ∀ q, spared sites q → same_at h w w' q).
Proof.
  induction items as [|es items IH]; intros w; cbn [collect].
  - run_step. repeat split; try done. intros. apply same_at_refl.
  - run_step. eapply runs_impl; [|apply decommission_runs]. cbn beta.
    intros f errs w1 (-> & -> & Hk1). run_step. eapply runs_impl; [|apply IH]. cbn beta.
    intros f errs w2 (-> & -> & Hk2). run_step. repeat split; try done.
    intros q Hq. eapply same_at_trans; [by apply Hk1|by apply Hk2].
Qed.

Definition fleet_place (fleet : Fleet) : place :=
  inl (KFleet, Namespace (fl_meta fleet), Name (fl_meta fleet)).

Lemma fleet_runs fleet w :
  let ns := Namespace (fl_meta fleet) in
  let sites := desired (fl_Sites fleet) in
  stored w KFleet ns (Name (fl_meta fleet)) = Some fleet →
  (∀ name, is_Some (sites !! name) → open_for w ns name) →
  runs h reconcile_fleet fleet w (λ _ res w', res = no_requeue ∧
    (∀ name s, sites !! name = Some s → site_declared w' ns name s) ∧
    ∀ q, (∀ ns' name, q ≠ edge_place ns' name) → q ≠ fleet_place fleet → same_at h w w' q).
Proof.
  intros ns sites Hfl Hopen. unfold reconcile_fleet, range_map, env. repeat run_step. run_quiet.
  repeat run_step. fold sites.
  match goal with |- context [sort_strings (shuffle ?n ?order ?l)] =>
    assert (sort_strings (shuffle n order l) = site_names sites) as -> by apply sort_strings_perm, shuffle_perm
  end.
  destruct (site_names_spec sites) as (_ & Hnd & Hin).
  eapply runs_impl; [|apply (entries_run fleet sites (site_names sites) Hnd w)];
    [|intros; by apply Hopen, Hin].
  cbn beta. intros f errs w1 (-> & -> & Hd1 & Hk1). fold ns in Hd1, Hk1. run_step. run_quiet.
  pose proof (list_ok KEdgeSite (Some ns) [(fleetLabel, Name (fl_meta fleet))] w1) as Hl.
  fold ns. destruct (h (KList KEdgeSite (Some ns) _) w1).1 as [items|e]; [|done].
  run_step. eapply runs_impl; [|apply decommissions_run]. cbn beta.
  intros f errs w2 (-> & -> & Hk2). unfold report, update_fleet_status, env. cbn [app].
  repeat run_step.
  match goal with |- context [fleet_status ?a ?b ?c ?d fleet] => set (f' := fleet_status a b c d fleet) end.
  destruct (status_update w2 KFleet f' fleet) as (o' & w3 & Eo & _ & [_ Hkept] & Hf).
  { etransitivity; [exact (Hk2 (fleet_place fleet) I)|]. etransitivity; [|exact Hfl].
    by apply (Hk1 (fleet_place fleet)). }
  { reflexivity. }
  run_call. rewrite Eo. cbn [fst snd]. repeat run_step. split; [done|].
  assert (∀ q, q ≠ fleet_place fleet → same_at h w2 w3 q) as Hk3.
  { intros [[[k n'] nm]|url] Hq; [|apply Hf]. apply Hkept. intros E. apply Hq. by rewrite E. }
  split.
  - intros name s Hs. eapply same_declared; [by apply Hk3|].
    eapply same_declared; [apply Hk2; by exists s|]. apply Hd1; [by apply Hin; exists s|done].
  - intros q Hq1 Hq2. eapply same_at_trans; [apply Hk1; intros; apply Hq1|].
    eapply same_at_trans; [apply Hk2|by apply Hk3].
    destruct q as [[[k n'] nm]|url]; [|done]. cbn. destruct k; try done.
    by destruct (Hq1 n' nm).
Qed.
End fleet.

(** ** Two sites have nothing in common *)

(** A name that can be a repository: object names have no slash. *)
Fixpoint slash_free (s : string) : bool :=
  match s with
  | EmptyString => true
  | String c s => negb (Ascii.eqb c "/") && slash_free s
  end.

Lemma slash_free_split a b p q :
  slash_free a = true → slash_free b = true →
  a +:+ "/contents/" +:+ p = b +:+ "/contents/" +:+ q → a = b.
Proof.
  revert b. induction a as [|c a IH]; intros [|d b]; cbn; intros Ha Hb E; try done.
  - exfalso. injection E as <- _. done.
  - exfalso. injection E as -> _. done.
  - injection E as -> E. apply andb_true_iff in Ha as [_ Ha], Hb as [_ Hb].
    f_equal. by apply IH.
Qed.

Lemma contents_url_repo u a b p q :
  slash_free a = true → slash_free b = true → contents_url u a p = contents_url u b q → a = b.
Proof.
  rewrite !contents_url_eq. intros Ha Hb E. do 4 apply string_app_inj_l in E.
  by eapply slash_free_split.
Qed.

(** What ends in the same text begins with the same. *)
Lemma string_app_inj_r (a b s : string) : a +:+ s = b +:+ s → a = b.
Proof.
  intros E%(f_equal bytes). rewrite !bytes_app in E. by apply app_inv_tail, bytes_inj in E.
Qed.

Lemma last_byte a s (z : Z) : last (bytes s) = Some z → last (bytes (a +:+ s)) = Some z.
Proof. intros H. by rewrite bytes_app, last_app, H. Qed.

(** The claims' names tell a site's name from what follows it: their last letters differ. *)
Lemma claim_names_apart a b c d :
  c ∈ claims → d ∈ claims → a +:+ "-" +:+ c.1 = b +:+ "-" +:+ d.1 → a = b.
Proof.
  intros Hc Hd E. enough (c.1 = d.1) as Ecd by (rewrite Ecd in E; by apply string_app_inj_r in E).
  apply (f_equal (λ s, last (bytes s))) in E. unfold claims in Hc, Hd.
  rewrite !elem_of_cons, elem_of_nil in Hc, Hd.
  repeat destruct Hc as [->|Hc]; try done; repeat destruct Hd as [->|Hd]; try done; exfalso;
    cbn [fst] in E; erewrite !last_byte in E by reflexivity; discriminate.
Qed.

Section sites.
Context {W : Type} (h : handler Env W) {server : ApiServer h} {P : Platform h}.
Context {AM : Apimachinery} {AML : ApimachineryLaws}.

(** The places of a site of its own cluster, by its name. *)
Inductive belongs (ns name : string) : place → Prop :=
| belongs_variant prefix :
    prefix ∈ ["cluster-"; "cp-"; "upf-"; "multus-cluster-"; "datapath-cluster-"] →
    belongs ns name (inl (KUnstructured pvGVK, ns, prefix +:+ name))
| belongs_claim c :
    c ∈ claims → belongs ns name (inl (KUnstructured ipClaimGVK, ns, name +:+ "-" +:+ c.1))
| belongs_file path : belongs ns name (file_place h ("cluster-" +:+ name) path)
| belongs_link : belongs ns name (inl (KMeshLink, ns, name))
| belongs_slice : belongs ns name (inl (KNetworkSlice, ns, name)).

Lemma all_places_belong r ns name es q :
  Name (es_meta es) = name → Namespace (es_meta es) = ns → es_Colocated (es_spec es) = false →
  q ∈ all_places h r es → belongs ns name q.
Proof.
  intros En Ens Hc. unfold all_places, repo_of, cluster_of, child_place.
  rewrite Hc, En, Ens. rewrite !elem_of_app, !elem_of_cons, !elem_of_nil, !list_elem_of_fmap.
  assert (∀ prefix s, prefix ∈ ["cluster-"; "cp-"; "upf-"; "multus-cluster-"; "datapath-cluster-"] →
    s = prefix +:+ name → belongs ns name (inl (KUnstructured pvGVK, ns, s))) as Hv.
  { intros prefix s Hp ->. by apply belongs_variant. }
  intros H. repeat destruct H as [H|H]; try done; subst; try (by constructor).
  - apply (Hv "cluster-"); [repeat first [left|right]|done].
  - destruct H as (c & -> & Hin). by constructor.
  - apply (Hv "cp-"); [right; left|done].
  - destruct H as (p & -> & _). constructor.
  - apply (Hv "multus-cluster-"); [do 3 right; left|done].
  - apply (Hv "upf-"); [do 2 right; left|done].
  - apply (Hv "datapath-cluster-"); [do 4 right; left|done].
Qed.

Lemma belongs_url ns name u :
  belongs ns name (inr u) → ∃ path, u = contents_url credentials.1 ("cluster-" +:+ name) path.
Proof.
  intros H. remember (inr u : place) as q eqn:E. destruct H as [| |path| |]; try done. exists path.
  exact (f_equal (λ q : place, match q with inr u => u | _ => u end) (eq_sym E)).
Qed.

Lemma belongs_one ns a b q :
  slash_free a = true → slash_free b = true → belongs ns a q → belongs ns b q → a = b.
Proof.
  intros Ha Hb [p1 Hp1|c1 Hc1|p1| |] H2.
  - inversion H2 as [p2 Hp2 E| | | |]. rewrite !elem_of_cons, elem_of_nil in Hp1, Hp2.
    repeat destruct Hp1 as [->|Hp1]; try done; repeat destruct Hp2 as [->|Hp2]; try done;
      by injection E.
  - inversion H2 as [|c2 Hc2 E| | |]. exact (eq_sym (claim_names_apart b a c2 c1 ltac:(assumption) ltac:(assumption) E)).
  - apply belongs_url in H2 as [p2 E]. by apply contents_url_repo, string_app_inj_l in E.
  - by inversion H2.
  - by inversion H2.
Qed.
Lemma edge_place_apart ns name ns' name' : ¬ belongs ns name (edge_place ns' name').
Proof. intros H. by inversion H. Qed.

Lemma fleet_place_apart ns name fleet : ¬ belongs ns name (fleet_place fleet).
Proof. intros H. by inversion H. Qed.

Lemma auth_apart ns name : ¬ belongs ns name auth_place.
Proof. intros H. by inversion H. Qed.

(** ** Sites one after the other *)

(** The site has what its Fleet declares, every address, and all of its desired state. *)
Definition site_reached (r : EdgeSiteReconciler) (w : W) (ns name : string) (s : FleetSite) : Prop :=
  ∃ es, stored w KEdgeSite ns name = Some es ∧ Name (es_meta es) = name ∧
    Namespace (es_meta es) = ns ∧ declared s es ∧ es_Colocated (es_spec es) = false ∧
    addressed (es_spec es) ∧ reported es ∧ Forall (holds h w) (demands h r es).

Definition after_site (r : EdgeSiteReconciler) (ns : string) (w : W) (name : string) : W :=
  run_world h (EdgeSite.Reconcile r ns name) w.

Lemma reconcile_site_world r ns name es w :
  stored w KEdgeSite ns name = Some es →
  after_site r ns w name = run_world h (reconcile_site r es) w.
Proof.
  intros E. unfold after_site, EdgeSite.Reconcile, run_world. cbn [run].
  rewrite (get_found w KEdgeSite ns name es E), run_bind.
  by destruct (run h (reconcile_site r es) w) as [[w1 t1] [es1 x]].
Qed.

Lemma demands_belong r es ns name q :
  Name (es_meta es) = name → Namespace (es_meta es) = ns → es_Colocated (es_spec es) = false →
  q ∈ place_of <$> demands h r es → belongs ns name q.
Proof. intros En Ens Hc Hq. by eapply all_places_belong, demands_in_places. Qed.

(** One site is brought to its desired state and only its places change. *)
Lemma after_site_reached r ns name s w :
  site_declared h w ns name s → signed_in h w → (∀ q, belongs ns name q → unobstructed h w q) →
  site_reached r (after_site r ns w name) ns name s ∧
  ∀ q, q ≠ edge_place ns name → ¬ belongs ns name q → same_at h w (after_site r ns w name) q.
Proof.
  intros (es & Hst & Hdec & En & Ens & Hd & Hcol) Hs Hu.
  rewrite (reconcile_site_world r ns name es w Hst).
  destruct (reconcile_site_runs h r es w) as
    (es' & res & E & _ & (Ha & Hg & En' & Ens' & _) & Hr & Hst' & Hh & Hk); try assumption.
  { by rewrite En, Ens. }
  { apply Forall_forall. intros q Hq. apply Hu. by eapply all_places_belong. }
  rewrite En, Ens in Hst'. unfold given_part in Hg. injection Hg as Hg1 Hg2 Hg3 _ Hg5 Hg6.
  assert (Name (es_meta es') = name) as En2 by congruence.
  assert (Namespace (es_meta es') = ns) as Ens2 by congruence.
  assert (es_Colocated (es_spec es') = false) as Hcol2 by congruence. split.
  - exists es'. do 3 (split; [assumption|]). split; [|split; [|split; [|split]]]; try assumption.
    { unfold declared in *. by rewrite Hg1, Hg2, Hg3, Hg6. }
    eapply Forall_impl; [exact Hh|]. apply established_holds.
  - intros q Hq1 Hq2. apply Hk. apply not_elem_of_cons. split.
    + unfold site_place. by rewrite En, Ens.
    + intros Hq. by apply Hq2, (demands_belong r es').
Qed.

Lemma same_reached r w w' ns name s :
  same_at h w w' (edge_place ns name) → (∀ q, belongs ns name q → same_at h w w' q) →
  site_reached r w ns name s → site_reached r w' ns name s.
Proof.
  intros E Hk (es & Hst & En & Ens & Hdec & Hcol & Ha & Hr & Hh). exists es.
  split; [by rewrite <-Hst|]. do 6 (split; [assumption|]).
  rewrite Forall_forall in Hh |- *. intros d Hd. eapply same_holds; [|by apply Hh].
  apply Hk, (demands_belong r es); [assumption..|]. by apply list_elem_of_fmap_2.
Qed.

(** What a site needs of the world before its reconcile. *)
Definition site_ready (sites : gmap string FleetSite) (ns : string) (w : W) (name : string) : Prop :=
  slash_free name = true ∧ (∀ q, belongs ns name q → unobstructed h w q) ∧
  ∃ s, sites !! name = Some s ∧ site_declared h w ns name s.

Lemma same_ready sites ns w w' name :
  same_at h w w' (edge_place ns name) → (∀ q, belongs ns name q → same_at h w w' q) →
  site_ready sites ns w name → site_ready sites ns w' name.
Proof.
  intros E Hk (Hf & Hu & s & Hs & Hd). split; [done|]. split.
  - intros q Hq. eapply same_unobstructed; [by apply Hk|by apply Hu].
  - exists s. split; [done|]. by eapply same_declared.
Qed.

Lemma sites_reached r sites ns names :
  NoDup names → ∀ w, signed_in h w → Forall (site_ready sites ns w) names →
  let w' := foldl (after_site r ns) w names in
  (∀ name s, name ∈ names → sites !! name = Some s → site_reached r w' ns name s) ∧
  ∀ name, name ∉ names → slash_free name = true →
    same_at h w w' (edge_place ns name) ∧ ∀ q, belongs ns name q → same_at h w w' q.
Proof.
  induction names as [|name names IH]; intros Hn w Hs Hr; cbn [foldl].
  { split; [by intros ? ? ?%elem_of_nil|]. intros. split; intros; apply same_at_refl. }
  apply NoDup_cons in Hn as [Hname Hn]. apply Forall_cons in Hr as [(Hf & Hu & s & Hsite & Hd) Hr].
  destruct (after_site_reached r ns name s w Hd Hs Hu) as [Hreach Hk].
  assert (∀ n, n ≠ name → slash_free n = true →
    same_at h w (after_site r ns w name) (edge_place ns n) ∧
    ∀ q, belongs ns n q → same_at h w (after_site r ns w name) q) as Hother.
  { intros n Hne Hfn. split.
    - apply Hk; [by intros [= ->]|apply edge_place_apart].
    - intros q Hq. apply Hk; [intros ->; by apply edge_place_apart in Hq|].
      intros Hq'. by apply Hne, (belongs_one ns n name q). }
  destruct (IH Hn (after_site r ns w name)) as [IHr IHk].
  - eapply same_signed_in; [|exact Hs]. apply Hk; [done|apply auth_apart].
  - rewrite Forall_forall in Hr |- *. intros n Hin. pose proof (Hr n Hin) as Hready.
    assert (n ≠ name) as Hne by congruence.
    destruct (Hother n Hne (proj1 Hready)) as [H1 H2]. by eapply same_ready.
  - split.
    + intros n s' [->|Hin]%elem_of_cons Hs'; [|by apply IHr]. simplify_eq.
      destruct (IHk name Hname Hf) as [H1 H2]. by eapply same_reached.
    + intros n [Hne Hnin]%not_elem_of_cons Hfn.
      destruct (Hother n Hne Hfn) as [H1 H2], (IHk n Hnin Hfn) as [H3 H4].
      split; [by eapply same_at_trans|]. intros q Hq. eapply same_at_trans; [by apply H2|by apply H4].
Qed.

(** ** From the Fleet to its sites *)

(** What a Fleet needs of the world: the names of its sites are names of objects, what is stored
    under them is alive and has its own cluster, and no child of theirs is being deleted. *)
Definition fleet_ready (w : W) (fleet : Fleet) : Prop :=
  ∀ name, is_Some (desired (fl_Sites fleet) !! name) →
    slash_free name = true ∧ open_for h w (Namespace (fl_meta fleet)) name ∧
    ∀ q, belongs (Namespace (fl_meta fleet)) name q → unobstructed h w q.

Lemma reconcile_fleet_world fleet w :
  let ns := Namespace (fl_meta fleet) in
  let p := Fleet.Reconcile ns (Name (fl_meta fleet)) in
  stored w KFleet ns (Name (fl_meta fleet)) = Some fleet → fleet_ready w fleet →
  run_value h p w = Ok no_requeue ∧
  (∀ name s, desired (fl_Sites fleet) !! name = Some s →
     site_declared h (run_world h p w) ns name s) ∧
  ∀ q, (∀ ns' name, q ≠ edge_place ns' name) → q ≠ fleet_place fleet →
    same_at h w (run_world h p w) q.
Proof.
  intros ns p Hst Hr.
  destruct (fleet_runs h fleet w Hst) as (f' & res & E & -> & Hd & Hk).
  { intros name Hn. by apply Hr. }
  unfold p, Fleet.Reconcile, run_value, run_world in *. cbn [run].
  rewrite (get_found w KFleet ns _ fleet Hst), run_bind.
  destruct (run h (reconcile_fleet fleet) w) as [[w1 t1] [f1 x]]. cbn in *.
  by injection E as -> ->.
Qed.

(** C3: A Fleet becomes running sites.  One reconcile of a stored Fleet followed by one of each
    EdgeSite it declares, in whatever order, leaves every declared site with the Fleet's server,
    user, role and radio, all addresses, a status that says so, and its whole desired state in
    place: the children on the management cluster and the manifests of its deploy repository.  In
    particular no site undoes another's: their children and repositories are told apart by their
    names.  What is asked of the world is that Gitea's credentials are there and nothing of these
    sites is being deleted or colocated with the core. *)
Theorem fleet_to_sites r fleet order w :
  let ns := Namespace (fl_meta fleet) in
  let reconcile := Fleet.Reconcile ns (Name (fl_meta fleet)) in
  stored w KFleet ns (Name (fl_meta fleet)) = Some fleet →
  signed_in h w → fleet_ready w fleet → order ≡ₚ site_names (desired (fl_Sites fleet)) →
  run_value h reconcile w = Ok no_requeue ∧
  let w' := foldl (after_site r ns) (run_world h reconcile w) order in
  ∀ name s, desired (fl_Sites fleet) !! name = Some s → site_reached r w' ns name s.
Proof.
  intros ns reconcile Hst Hs Hr Ho.
  destruct (reconcile_fleet_world fleet w Hst Hr) as (Hv & Hd & Hk). split; [exact Hv|].
  destruct (site_names_spec (desired (fl_Sites fleet))) as (_ & Hnd & Hin).
  assert (∀ name, name ∈ order ↔ is_Some (desired (fl_Sites fleet) !! name)) as Hin'.
  { intros name. by rewrite Ho. }
  assert (NoDup order) as Hno by by rewrite Ho.
  destruct (sites_reached r (desired (fl_Sites fleet)) ns order Hno (run_world h reconcile w))
    as [H _].
  - eapply same_signed_in; [|exact Hs]. by apply Hk.
  - rewrite Forall_forall. intros name Hn%Hin'. pose proof Hn as [s Es].
    destruct (Hr name Hn) as (Hf & _ & Hu). split; [exact Hf|]. split.
    + intros q Hq. eapply same_unobstructed; [|by apply Hu]. apply Hk.
      * intros ns' name' ->. by apply edge_place_apart in Hq.
      * intros ->. by apply fleet_place_apart in Hq.
    + exists s. split; [exact Es|by apply Hd].
  - intros w' name s Es. apply (H name s); [apply Hin'; by exists s|exact Es].
Qed.
End sites.

(** The Fleet of edge-01 and edge-29, whose names hash to the same slot; edge-01 is already there,
    and declared otherwise. *)
Definition before_fleet : forge :=
  Forge (MemServer.put (MemServer.put fresh_cluster KFleet ("default", "fleet") two_sites)
           KEdgeSite (site_key "edge-01") (user_site "edge-01" "192.168.1.77")) ∅.

Lemma no_others k ns name :
  k ≠ KSecret → k ≠ KFleet → k ≠ KEdgeSite → unobstructed serve before_fleet (inl (k, ns, name)).
Proof.
  intros H1 H2 H3 o Ho. exfalso. revert o Ho. cbn [stored forge_server]. unfold MemServer.lookup.
  assert (MemServer.objects (cluster before_fleet) k = ∅) as ->.
  { unfold before_fleet, fresh_cluster, MemServer.put, MemServer.with_objects.
    cbn [cluster MemServer.objects].
    by do 3 (match goal with |- context [decide (?a = k)] => destruct (decide (a = k)) end;
      [congruence|]). }
  intros o Ho. by rewrite lookup_empty in Ho.
Qed.

Lemma no_children ns name q : belongs serve ns name q → unobstructed serve before_fleet q.
Proof.
  intros [prefix _|c _|path| |]; [| |exact I| |]; apply no_others; discriminate.
Qed.

Lemma two_sites_ready : fleet_ready serve before_fleet two_sites.
Proof.
  intros name Hn. apply site_names_spec in Hn.
  assert (site_names (desired (fl_Sites two_sites)) = ["edge-01"; "edge-29"]) as E by by vm_compute.
  rewrite E, !elem_of_cons, elem_of_nil in Hn.
  assert (slash_free name = true) as Hf by by destruct Hn as [->|[->|[]]].
  split; [exact Hf|]. split; [|intros q; exact (no_children _ name q)].
  intros o Ho. destruct Hn as [->|[->|[]]].
  - assert (stored before_fleet KEdgeSite "default" "edge-01"
            = Some (user_site "edge-01" "192.168.1.77")) as Eo by (vm_compute; reflexivity).
    assert (o = user_site "edge-01" "192.168.1.77") as -> by (apply (inj Some); exact (eq_trans (eq_sym Ho) Eo)).
    repeat split.
  - assert (stored before_fleet KEdgeSite "default" "edge-29" = None) as Eo by (vm_compute; reflexivity).
    discriminate (eq_trans (eq_sym Ho) Eo).
Qed.

Lemma fleet_to_sites_witness :
  run_value serve (Fleet.Reconcile "default" "fleet") before_fleet = Ok no_requeue ∧
  let w' := foldl (after_site serve defaults "default")
              (run_world serve (Fleet.Reconcile "default" "fleet") before_fleet)
              ["edge-29"; "edge-01"] in
  ∃ s, desired (fl_Sites two_sites) !! "edge-29" = Some s ∧
    site_reached serve defaults w' "default" "edge-29" s.
Proof.
  destruct (fleet_to_sites serve defaults two_sites ["edge-29"; "edge-01"] before_fleet) as [Hv H].
  - vm_compute. reflexivity.
  - eexists. split; [vm_compute|]; reflexivity.
  - exact two_sites_ready.
  - assert (site_names (desired (fl_Sites two_sites)) = ["edge-01"; "edge-29"]) as -> by by vm_compute.
    apply Permutation_swap.
  - split; [exact Hv|]. eexists. split; [vm_compute; reflexivity|]. apply H. vm_compute. reflexivity.
Defined.
