(* ===== verification/Interleave.v ===== *)
(** * Programs under interference

    A reconcile is not atomic: between two of its calls other controllers and users change the
    server.  [guarded] is a judgement on a program that runs among others: at each of its calls
    the others have moved the world by [Rely] (and kept [Inv]); the call must move it by [Guar]
    and keep [Inv].  Programs whose calls are all harmless are guarded by the judgement of
    Rely.v ([guarded_obeys]); programs of which the traces are known, by them
    ([guarded_traces]). *)

From S2P Require Import Prelude Prog Rely.

Section interference.
Context {S : signature} {W : Type} (h : handler S W).
Context (Rely Guar : W → W → Prop) (Inv Pre : W → Prop).

(** [Pre] is what is assumed of the world at the program's own calls besides the invariant. *)
Fixpoint guarded {A} (p : prog S A) (w : W) (Q : A → W → Prop) : Prop :=
  match p with
  | Ret a => Q a w
  | Call c k => ∀ w1, Rely w w1 → Inv w1 → Pre w1 →
      Guar w1 (h c w1).2 ∧ Inv (h c w1).2 ∧ guarded (k (h c w1).1) (h c w1).2 Q
  end.

Definition safe {A} (p : prog S A) (w : W) : Prop := guarded p w (λ _ _, True).

Lemma guarded_impl {A} (p : prog S A) w (Q Q' : A → W → Prop) :
  (∀ a w', Q a w' → Q' a w') → guarded p w Q → guarded p w Q'.
Proof.
  intros H. revert w. induction p as [a|c k IH]; intros w; cbn; [apply H|].
  intros Hc w1 Hr Hi Hp. destruct (Hc w1 Hr Hi Hp) as (Hg & Hi' & Hk). auto.
Qed.

Lemma guarded_bind {A B} (p : prog S A) (f : A → prog S B) w Q :
  guarded p w (λ a w', guarded (f a) w' Q) → guarded (prog_bind p f) w Q.
Proof.
  revert w. induction p as [a|c k IH]; intros w; cbn; [done|].
  intros Hc w1 Hr Hi Hp. destruct (Hc w1 Hr Hi Hp) as (Hg & Hi' & Hk). auto.
Qed.

(** Moves of the others before the next call change nothing. *)
Lemma safe_rely `{!Transitive Rely} {A} (p : prog S A) w w' :
  Rely w w' → safe p w → safe p w'.
Proof.
  intros Hw. destruct p as [a|c k]; cbn; [done|]. intros H w1 Hr. apply H. by transitivity w'.
Qed.

(** ** Calls that are fine in every world *)

Definition fine (c : op S) : Prop :=
  ∀ w, Inv w → Pre w → Guar w (h c w).2 ∧ Inv (h c w).2.

Lemma guarded_obeys {A} (G : op S → Prop) (p : prog S A) (Q : A → Prop) w :
  (∀ c, G c → fine c) → obeys G (λ _ _, True) p Q → guarded p w (λ a _, Q a).
Proof.
  intros HG. revert w. induction p as [a|c k IH]; intros w; cbn; [done|].
  intros [Hc Hk] w1 _ Hi Hp. destruct (HG c Hc w1 Hi Hp). auto.
Qed.

(** ** From traces *)

(** The calls of the trace were answered while the others moved the world, from [w] to [w']. *)
Fixpoint replays_among (w : W) (t : list (event S)) (w' : W) : Prop :=
  match t with
  | [] => Rely w w'
  | Ev c r :: t => ∃ w1, Rely w w1 ∧ Inv w1 ∧ Pre w1 ∧ r = (h c w1).1 ∧
      replays_among (h c w1).2 t w'
  end.


Lemma replays_among_rely `{!Transitive Rely} w w' t w'' :
  Rely w w' → replays_among w' t w'' → replays_among w t w''.
Proof.
  intros Hr. destruct t as [|[c r] t]; cbn; [by transitivity w'|].
  intros (w1 & Hw1 & H). exists w1. split; [by transitivity w'|done].
Qed.

Lemma always_some {A} (p : prog S A) (Q : list (event S) → A → Prop) (w : W) :
  always p Q → ∃ t a, Q t a.
Proof. intros H. destruct (always_replays h p Q w H) as (t & _ & Ht). by eexists _, _. Qed.

Lemma guarded_traces {A} (p : prog S A) w :
  always p (λ t _, ∀ t1 c r t2 w1, t = (t1 ++ Ev c r :: t2)%list → replays_among w t1 w1 →
    Inv w1 → Pre w1 → Guar w1 (h c w1).2 ∧ Inv (h c w1).2) →
  safe p w.
Proof.
  unfold safe. revert w. induction p as [a|c k IH]; intros w; cbn; [done|].
  intros H w1 Hr Hi Hp. specialize (H (h c w1).1).
  destruct (always_some _ _ w1 H) as (t & a & Ht).
  destruct (Ht [] c (h c w1).1 t w1 eq_refl Hr Hi Hp) as [Hg Hi'].
  split; [done|]. split; [done|]. apply IH. eapply always_impl; [|exact H]. cbn beta.
  intros t' a' Ht' t1 c' r' t2 w2 -> Hra. apply (Ht' (Ev c (h c w1).1 :: t1) c' r' t2 w2 eq_refl).
  by exists w1.
Qed.
End interference.
