(* ===== verification/Concurrent.v ===== *)
(** * EdgeSite and Fleet controllers at once

    The EdgeSite controller, the Fleet controller and users work on one platform, interleaved
    call by call; either controller may die between two calls and start over.  N2 VIPs stay
    distinct ([vips_distinct_under_interleaving]): between the listing that picks a VIP and the
    update that stores it nobody else stores one, and the update fails when its own site has
    changed meanwhile.

    The EdgeSite controller has one worker, as controller-runtime gives it by default; so has the
    Fleet controller.  With two, or when a listing fails, two sites can share a VIP
    ([racing_workers_share_a_vip], [failed_listing_shares_a_vip]). *)

From S2P Require Import Prelude GoText Prog Rely Api Effects Helpers Upsert GitOps Addressing.
From S2P Require Import AddressPlan RanProfile EdgeSite Fleet System Platform Forge Desired Interleave.

Import MemServer.

#[local] Strategy 1000 [gnb_configmap gnb_config gnb_deployment ofh_detect uhd_detect radio_net
  n2_expose core_slice starter_subscribers derived_spec siteIndex Sprintf
  EncodeToString contents_url].

(** ** Sites and versions *)

Definition sites (w : forge) : gmap (string * string) EdgeSite := edge_sites (cluster w).
Definition now (w : forge) : Z := clock (cluster w).

(** The version was given out in the interval of time. *)
Definition stamped (a b : Z) (o : EdgeSite) : Prop :=
  ∃ n, a ≤ n < b ∧ ResourceVersion (es_meta o) = Itoa n.

(** Versions never repeat: a number is read back from its digits. *)
Definition read_digit (v z : Z) : Z := v * 10 + (z - 48).

Lemma read_digits fuel n acc :
  0 ≤ n < 10 ^ Z.of_nat fuel →
  foldl read_digit 0 (bytes (fmt_digits 10 fuel n acc)) = foldl read_digit n (bytes acc).
Proof.
  revert n acc. induction fuel as [|f IH]; intros n acc Hn.
  { change (10 ^ Z.of_nat 0) with 1 in Hn. by replace n with 0 by lia. }
  assert (0 ≤ n mod 10 < 10) by (apply Z.mod_pos_bound; lia).
  assert (n = 10 * (n / 10) + n mod 10) as Hdm by (apply Z.div_mod; lia).
  assert (∀ v, v * 10 + n mod 10 = n →
    foldl read_digit v (bytes (String (digit_char (n mod 10)) acc)) = foldl read_digit n (bytes acc)) as Hs.
  { intros v Hv. cbn [bytes foldl]. rewrite digit_char_10 by lia. unfold read_digit at 2. f_equal. lia. }
  cbn [fmt_digits]. destruct (Z.eqb_spec (n / 10) 0) as [E|E]; [apply Hs; lia|].
  rewrite IH; [apply Hs; lia|]. split; [apply Z.div_pos; lia|].
  rewrite Nat2Z.inj_succ, Z.pow_succ_r in Hn by lia. apply Z.div_lt_upper_bound; lia.
Qed.

Lemma Itoa_inj a b : 0 ≤ a → 0 ≤ b → Itoa a = Itoa b → a = b.
Proof.
  intros Ha Hb E. rewrite !Itoa_nonneg in E by done.
  apply (f_equal (λ s, foldl read_digit 0 (bytes s))) in E. unfold format_uint in E.
  rewrite !read_digits in E by (split; [done|apply (fmt_fuel_enough 10); lia]). done.
Qed.

Lemma stamped_weaken a b a' b' o : a' ≤ a → b ≤ b' → stamped a b o → stamped a' b' o.
Proof. intros ? ? (n & Hn & E). exists n. split; [lia|done]. Qed.

(** An object of an older version is not of a newer one. *)
Lemma stamped_apart a b c d o o' :
  0 ≤ a → b ≤ c → stamped a b o → stamped c d o' →
  ResourceVersion (es_meta o) ≠ ResourceVersion (es_meta o').
Proof.
  intros Ha Hbc (n & Hn & En) (m & Hm & Em) E. rewrite En, Em in E.
  apply Itoa_inj in E; lia.
Qed.

(** ** What others may do *)

(** Any controller: what it stores is of a new version. *)
Definition touched (w w' : forge) : Prop :=
  now w ≤ now w' ∧
  ∀ key o', sites w' !! key = Some o' → sites w !! key = Some o' ∨ stamped (now w) (now w') o'.

(** All but the EdgeSite controller: what they store keeps the VIP of the site it replaces, or has
    none. *)
Definition calm (w w' : forge) : Prop :=
  now w ≤ now w' ∧
  ∀ key o', sites w' !! key = Some o' → sites w !! key = Some o' ∨
    stamped (now w) (now w') o' ∧
    (es_N2VIP (es_spec o') = "" ∨
     ∃ o, sites w !! key = Some o ∧ es_N2VIP (es_spec o') = es_N2VIP (es_spec o)).

#[export] Instance touched_trans : Transitive touched.
Proof.
  intros w1 w2 w3 [H1 T1] [H2 T2]. split; [lia|]. intros key o Ho.
  destruct (T2 key o Ho) as [Ho2|Hs]; [|right; by eapply stamped_weaken; [| |exact Hs]].
  destruct (T1 key o Ho2) as [Ho1|Hs]; [by left|right; by eapply stamped_weaken; [| |exact Hs]].
Qed.

#[export] Instance calm_trans : Transitive calm.
Proof.
  intros w1 w2 w3 [H1 T1] [H2 T2]. split; [lia|].
  assert (∀ key o, sites w2 !! key = Some o → es_N2VIP (es_spec o) = "" ∨
    ∃ o1, sites w1 !! key = Some o1 ∧ es_N2VIP (es_spec o) = es_N2VIP (es_spec o1)) as Hv.
  { intros key o Ho. destruct (T1 key o Ho) as [Ho1|[_ H]]; [right; by exists o | exact H]. }
  intros key o Ho. destruct (T2 key o Ho) as [Ho2|[Hs Hv2]].
  - destruct (T1 key o Ho2) as [Ho1|[Hs Hv1]]; [by left|right].
    split; [by eapply stamped_weaken; [| |exact Hs] | exact Hv1].
  - right. split; [by eapply stamped_weaken; [| |exact Hs]|].
    destruct Hv2 as [Ev|(o2 & Ho2 & Ev)]; [by left|]. rewrite Ev. by apply (Hv key).
Qed.

Lemma calm_touched w w' : calm w w' → touched w w'.
Proof. intros [H T]. split; [done|]. intros key o Ho. destruct (T key o Ho) as [?|[? _]]; auto. Qed.

Lemma calm_refl w : calm w w.
Proof. split; [lia|]. auto. Qed.

(** A copy whose version is still the current one is the current object. *)
Lemma copy_current w w' key o cur :
  0 ≤ now w → touched w w' → sites w !! key = Some o → stamped 0 (now w) o →
  sites w' !! key = Some cur → ResourceVersion (es_meta o) = ResourceVersion (es_meta cur) →
  cur = o ∧ sites w' !! key = Some o.
Proof.
  intros Hn [_ T] Ho Hs Hc E. destruct (T key cur Hc) as [Hc'|Hs'].
  - by simplify_eq.
  - exfalso. by eapply (stamped_apart 0 (now w) (now w)).
Qed.

(** ** The invariant *)

Section core.
(** The one site that may be colocated with its core, and then holds .240. *)
Context (core : string).

Definition keyed_kind (k : kind) (w : world) : Prop :=
  ∀ key (o : obj k), objects w k !! key = Some o → key_of o = key.

Record consistent (w : forge) : Prop := {
  c_now : 0 ≤ now w;
  c_keyed : keyed (cluster w);
  c_fleets : keyed_kind KFleet (cluster w);
  c_stamped key o : sites w !! key = Some o → stamped 0 (now w) o;
  c_colocated key o : sites w !! key = Some o → es_Colocated (es_spec o) = true →
    Name (es_meta o) = core;
  c_reserved key o : sites w !! key = Some o → octet_of o = Some 240 → Name (es_meta o) = core;
  c_distinct : distinct_vips (cluster w);
}.

(** What is left alone. *)
Definition same_sites (w w' : forge) : Prop :=
  sites w' = sites w ∧ now w ≤ now w' ∧ keyed_kind KFleet (cluster w').

Lemma same_sites_consistent w w' :
  consistent w → same_sites w w' → calm w w' ∧ consistent w'.
Proof.
  intros [] (E & Hn & Hf). split; [split; [done|]; rewrite E; auto|].
  split; unfold sites, keyed, distinct_vips in *; rewrite ?E; try done; [lia|].
  intros key o Ho. eapply stamped_weaken; [..|by eapply c_stamped0]; lia.
Qed.

(** A site stored. *)
Definition stores (w w' : forge) (o : EdgeSite) : Prop :=
  sites w' = <[site_key (Name (es_meta o)) := o]> (sites w) ∧
  key_of (k := KEdgeSite) o = site_key (Name (es_meta o)) ∧
  now w ≤ now w' ∧ stamped (now w) (now w') o ∧ keyed_kind KFleet (cluster w').

Lemma stores_touched w w' o : stores w w' o → touched w w'.
Proof.
  intros (E & _ & Hn & Hs & _). split; [done|]. intros key o'. rewrite E.
  intros [[<- <-]|[_ L]]%lookup_insert_Some; auto.
Qed.

Lemma stores_consistent w w' o :
  consistent w → stores w w' o →
  (es_Colocated (es_spec o) = true → Name (es_meta o) = core) →
  (octet_of o = Some 240 → Name (es_meta o) = core) →
  (∀ k o' d, k ≠ site_key (Name (es_meta o)) → sites w !! k = Some o' → octet_of o = Some d →
     octet_of o' ≠ Some d) →
  consistent w'.
Proof.
  intros [] (E & Ek & Hn & Hs & Hf) Hc Hr Hfree. split.
  - lia.
  - by eapply keyed_insert.
  - done.
  - intros key o'. rewrite E. intros [[<- <-]|[_ L]]%lookup_insert_Some.
    + by eapply stamped_weaken; [..|exact Hs]; lia.
    + eapply stamped_weaken; [..|by eapply c_stamped0]; lia.
  - intros key o'. rewrite E. intros [[<- <-]|[_ L]]%lookup_insert_Some; [done|by eapply c_colocated0].
  - intros key o'. rewrite E. intros [[<- <-]|[_ L]]%lookup_insert_Some; [done|by eapply c_reserved0].
  - by eapply distinct_insert.
Qed.

(** A site stored with the VIP of the one it replaces, or none. *)
Lemma stores_calm w w' o :
  consistent w → stores w w' o →
  (es_Colocated (es_spec o) = true → Name (es_meta o) = core) →
  (es_N2VIP (es_spec o) = "" ∨ ∃ o', sites w !! site_key (Name (es_meta o)) = Some o' ∧
     es_N2VIP (es_spec o) = es_N2VIP (es_spec o')) →
  calm w w' ∧ consistent w'.
Proof.
  intros Hi Hst Hc Hv. pose proof Hst as (E & Ek & Hn & Hs & _). split.
  - split; [done|]. intros key o'. rewrite E. intros [[<- <-]|[_ L]]%lookup_insert_Some; auto.
  - assert (∀ d, octet_of o = Some d → ∃ o', sites w !! site_key (Name (es_meta o)) = Some o' ∧
      octet_of o' = Some d) as Hoct.
    { intros d. unfold octet_of. destruct Hv as [->|(o' & Ho' & ->)]; [done|]. by exists o'. }
    eapply stores_consistent; [done..| |].
    + intros H. destruct (Hoct 240 H) as (o' & Ho' & Ho240).
      pose proof (c_reserved w Hi _ o' Ho' Ho240) as <-.
      destruct (c_keyed w Hi _ o' Ho') as [[= <-] _]. done.
    + intros k o2 d Hne L Hd Hd2. destruct (Hoct d Hd) as (o' & Ho' & Hd').
      apply Hne. by apply (c_distinct w Hi k _ o2 o' d).
Qed.

(** A site deleted. *)
Lemma deletes_calm w w' key :
  consistent w → sites w' = delete key (sites w) → now w ≤ now w' →
  keyed_kind KFleet (cluster w') → calm w w' ∧ consistent w'.
Proof.
  intros [] E Hn Hf.
  assert (∀ k o, sites w' !! k = Some o → sites w !! k = Some o) as Hsub.
  { intros k o. rewrite E. by intros [_ L]%lookup_delete_Some. }
  split; [split; [done|]; intros; left; by apply Hsub|]. split; [lia| |done|..].
  - intros k o Ho. by apply c_keyed0, Hsub.
  - intros k o Ho. eapply stamped_weaken; [..|by eapply c_stamped0, Hsub]; lia.
  - intros k o Ho. by eapply c_colocated0, Hsub.
  - intros k o Ho. by eapply c_reserved0, Hsub.
  - intros k1 k2 o1 o2 d H1 H2. apply (c_distinct0 k1 k2 o1 o2 d); by apply Hsub.
Qed.

(** ** What the calls do *)

Lemma objects_put_other w k k' key (o : obj k) : k ≠ k' → objects (put w k key o) k' = objects w k'.
Proof. intros H. unfold put, with_objects. cbn. by destruct (decide (k = k')). Qed.

Lemma objects_remove_other w k k' key : k ≠ k' → objects (remove w k key) k' = objects w k'.
Proof. intros H. unfold remove, with_objects. cbn. by destruct (decide (k = k')). Qed.

Lemma keyed_put k' w k key (o : obj k) :
  keyed_kind k' w → (k = k' → key_of o = key) → keyed_kind k' (put w k key o).
Proof.
  intros Hk Ho key' o'. destruct (decide (k = k')) as [<-|Hne].
  - unfold put. rewrite with_objects_same. intros [[<- <-]|[_ L]]%lookup_insert_Some; auto.
  - rewrite objects_put_other by done. apply Hk.
Qed.

Lemma keyed_remove k' w k key : keyed_kind k' w → keyed_kind k' (remove w k key).
Proof.
  intros Hk key' o'. destruct (decide (k = k')) as [<-|Hne].
  - unfold remove. rewrite with_objects_same. intros [_ L]%lookup_delete_Some; auto.
  - rewrite objects_remove_other by done. apply Hk.
Qed.

Lemma key_of_stamp w {k : kind} (o : obj k) : key_of (stamp w o) = key_of o.
Proof. by destruct k. Qed.

Lemma key_of_restamp w {k : kind} (o held : obj k) :
  key_of (restamp w (with_status_of o held)) = key_of held.
Proof. by destruct k. Qed.

(** A call that neither creates, updates nor deletes an EdgeSite. *)
Definition harmless (c : op Env) : Prop :=
  match c : call_op with
  | KCreate k _ | KUpdate k _ | KDelete k _ => k ≠ KEdgeSite
  | _ => True
  end.

Lemma put_same w k key (o : obj k) rs :
  keyed_kind KFleet (cluster w) → k ≠ KEdgeSite → (k = KFleet → key_of o = key) →
  same_sites w (Forge (put (cluster w) k key o) rs).
Proof.
  intros Hf Hk Ho. split; [exact (objects_put_other _ k KEdgeSite key o Hk)|]. split; [unfold now; cbn; lia|].
  by apply keyed_put.
Qed.

Lemma same_sites_refl w rs : keyed_kind KFleet (cluster w) → same_sites w (Forge (cluster w) rs).
Proof. intros Hf. split; [done|]. split; [unfold now; cbn; lia|done]. Qed.

(** The status of a site: a new version of what is held. *)
Lemma status_calm (o : EdgeSite) w :
  consistent w →
  calm w (serve (KStatusUpdate KEdgeSite o) w).2 ∧ consistent (serve (KStatusUpdate KEdgeSite o) w).2.
Proof.
  intros Hi. cbn [serve].
  destruct (objects (cluster w) KEdgeSite !! key_of (k := KEdgeSite) o) as [held|] eqn:E;
    [|by split; [apply calm_refl|]].
  destruct (String.eqb _ _); [|by split; [apply calm_refl|]]. cbn [snd].
  destruct (c_keyed w Hi _ held E) as [Ek Ekey].
  apply (stores_calm w _ (restamp (cluster w) (with_status_of (k := KEdgeSite) o held))).
  - done.
  - split; [|split; [|split; [|split]]].
    + etransitivity; [apply edge_sites_put|]. by rewrite Ek.
    + etransitivity; [apply key_of_restamp|]. rewrite Ekey. exact Ek.
    + unfold now. cbn. lia.
    + exists (now w). split; [unfold now; cbn; lia|done].
    + apply keyed_put; [apply Hi|done].
  - apply (c_colocated w Hi _ held E).
  - right. exists held. split; [|done]. rewrite Ek in E. exact E.
Qed.

(** What an update of a site does: nothing, or the site is stored over the version it names. *)
Lemma update_effect (o : EdgeSite) w :
  consistent w →
  let w' := (serve (KUpdate KEdgeSite o) w).2 in
  w' = Forge (cluster w) (repos w) ∨
  ∃ cur, sites w !! site_key (Name (es_meta o)) = Some cur ∧
    ResourceVersion (es_meta o) = ResourceVersion (es_meta cur) ∧
    stores w w' (stamp (cluster w) (k := KEdgeSite) o).
Proof.
  intros Hi. cbv zeta.
  change (serve (KUpdate KEdgeSite o) w)
    with (in_cluster (handle (KUpdate KEdgeSite o) (cluster w)) w).
  unfold in_cluster. cbn [handle].
  destruct (objects (cluster w) KEdgeSite !! key_of (k := KEdgeSite) o) as [cur|] eqn:E; [|by left].
  destruct (String.eqb_spec (ResourceVersion (meta (k := KEdgeSite) o)) (ResourceVersion (meta cur)))
    as [Erv|_]; [|by left].
  right. exists cur. destruct (c_keyed w Hi _ cur E) as [Ek Ekey].
  assert (key_of (k := KEdgeSite) o = site_key (Name (es_meta o))) as Eo.
  { rewrite Ek. unfold key_of in Ek. by injection Ek as _ <-. }
  rewrite Eo in E. split; [exact E|]. split; [exact Erv|]. unfold write. cbn [fst snd]. rewrite Eo.
  split; [exact (edge_sites_put _ _ _)|]. split; [exact Eo|]. split; [unfold now; cbn; lia|].
  split; [exists (now w); split; [unfold now; cbn; lia|done]|]. by apply keyed_put; [apply Hi|].
Qed.

Lemma create_effect (o : EdgeSite) w :
  consistent w → Namespace (es_meta o) = "default" →
  let w' := (serve (KCreate KEdgeSite o) w).2 in
  w' = Forge (cluster w) (repos w) ∨ stores w w' (stamp (cluster w) (k := KEdgeSite) o).
Proof.
  intros Hi Hns. cbv zeta.
  change (serve (KCreate KEdgeSite o) w)
    with (in_cluster (handle (KCreate KEdgeSite o) (cluster w)) w).
  unfold in_cluster. cbn [handle].
  assert (key_of (k := KEdgeSite) o = site_key (Name (es_meta o))) as Ek
    by (unfold site_key; by rewrite <-Hns).
  rewrite Ek. destruct (objects (cluster w) KEdgeSite !! site_key (Name (es_meta o))); [by left|].
  right. unfold write. cbn [fst snd]. rewrite Ek.
  split; [exact (edge_sites_put _ _ _)|]. split; [exact Ek|]. split; [unfold now; cbn; lia|].
  split; [exists (now w); split; [unfold now; cbn; lia|done]|]. by apply keyed_put; [apply Hi|].
Qed.

Lemma nothing_written w :
  consistent w →
  calm w (Forge (cluster w) (repos w)) ∧ consistent (Forge (cluster w) (repos w)).
Proof. intros Hi. apply same_sites_consistent, same_sites_refl, Hi. exact Hi. Qed.

(** A site created without a VIP. *)
Lemma create_calm (o : EdgeSite) w :
  Namespace (es_meta o) = "default" → es_N2VIP (es_spec o) = "" →
  (es_Colocated (es_spec o) = true → Name (es_meta o) = core) → consistent w →
  calm w (serve (KCreate KEdgeSite o) w).2 ∧ consistent (serve (KCreate KEdgeSite o) w).2.
Proof.
  intros Hns Hv Hc Hi. destruct (create_effect o w Hi Hns) as [->|Hs]; [by apply nothing_written|].
  apply (stores_calm w _ _ Hi Hs); [exact Hc|by left].
Qed.

(** A site edited without touching its VIP, by who has its current version. *)
Lemma edit_calm (o : EdgeSite) w :
  (∀ cur, sites w !! site_key (Name (es_meta o)) = Some cur →
     ResourceVersion (es_meta o) = ResourceVersion (es_meta cur) →
     es_N2VIP (es_spec o) = es_N2VIP (es_spec cur) ∧
     (es_Colocated (es_spec o) = true → Name (es_meta o) = core)) → consistent w →
  calm w (serve (KUpdate KEdgeSite o) w).2 ∧ consistent (serve (KUpdate KEdgeSite o) w).2.
Proof.
  intros Hv Hi. destruct (update_effect o w Hi) as [->|(cur & Hcur & Erv & Hs)];
    [by apply nothing_written|].
  destruct (Hv cur Hcur Erv) as [Ev Hc].
  apply (stores_calm w _ _ Hi Hs); [exact Hc|right; by exists cur].
Qed.

Lemma status_same k (o : obj k) w :
  k ≠ KEdgeSite → keyed_kind KFleet (cluster w) → same_sites w (serve (KStatusUpdate k o) w).2.
Proof.
  intros Hk Hf. cbn [serve].
  destruct (objects (cluster w) k !! key_of o) as [held|] eqn:E; [|by destruct w; apply same_sites_refl].
  destruct (String.eqb _ _); [|by destruct w; apply same_sites_refl]. cbn [snd].
  apply put_same; [done..|]. intros ->. rewrite key_of_restamp. by apply Hf.
Qed.

Lemma git_same rq w : keyed_kind KFleet (cluster w) → same_sites w (git_serve w rq).2.
Proof.
  intros Hf. destruct w as [m rs]. unfold git_serve.
  repeat match goal with |- context [if ?b then _ else _] => destruct b end;
    repeat match goal with |- context [match ?x with Some _ => _ | None => _ end] =>
      destruct x as [?|] end; try destruct p; by apply same_sites_refl.
Qed.

Lemma harmless_calm c w :
  harmless c → consistent w → calm w (serve c w).2 ∧ consistent (serve c w).2.
Proof.
  intros Hc Hi. pose proof (c_fleets w Hi) as Hf. destruct w as [m rs].
  destruct c; cbn in Hc;
    try (apply same_sites_consistent; [done|]; exact (same_sites_refl (Forge m rs) rs Hf)).
  - apply same_sites_consistent; [done|]. unfold serve, in_cluster. cbn [handle cluster repos].
    destruct (objects m k !! key_of o); [exact (same_sites_refl (Forge m rs) rs Hf)|].
    apply (put_same (Forge m rs)); [done..|]. intros _. apply key_of_stamp.
  - apply same_sites_consistent; [done|]. unfold serve, in_cluster. cbn [handle cluster repos].
    destruct (objects m k !! key_of o); [|exact (same_sites_refl (Forge m rs) rs Hf)].
    destruct (String.eqb _ _); [|exact (same_sites_refl (Forge m rs) rs Hf)].
    apply (put_same (Forge m rs)); [done..|]. intros _. apply key_of_stamp.
  - destruct (decide (k = KEdgeSite)) as [->|Hk]; [by apply status_calm|].
    apply same_sites_consistent; [done|]. by apply status_same.
  - apply same_sites_consistent; [done|]. unfold serve, in_cluster. cbn [handle cluster repos].
    destruct (objects m k !! key_of o); [|exact (same_sites_refl (Forge m rs) rs Hf)]. cbn [snd].
    split; [exact (objects_remove_other _ k KEdgeSite _ Hc)|]. split; [unfold now; cbn; lia|].
    by apply keyed_remove.
  - apply same_sites_consistent; [done|]. by apply git_same.
Qed.

(** ** The EdgeSite worker

    It relies on the others being [calm], and stores a VIP itself: what it promises them is that
    its writes are of a new version. *)

Definition small (w : forge) : Prop := (size (sites w) ≤ 14)%nat.

Lemma octet_empty (o : EdgeSite) : es_N2VIP (es_spec o) = "" → octet_of o = None.
Proof. unfold octet_of. by intros ->. Qed.

(** A site that is there with its old version was there all along. *)
Lemma there_before w0 w w1 key es :
  consistent w0 → sites w0 !! key = Some es → calm w0 w → calm w w1 → sites w1 !! key = Some es →
  sites w !! key = Some es.
Proof.
  intros Hi Hes [Hn _] [_ T] Hes1. destruct (T key es Hes1) as [H|[Hs _]]; [done|].
  exfalso. by eapply (stamped_apart 0 (now w0)); [| |by eapply c_stamped|exact Hs|].
Qed.

(** An octet held now was held before. *)
Lemma held_before w w1 key o d :
  calm w w1 → sites w1 !! key = Some o → octet_of o = Some d →
  ∃ o', sites w !! key = Some o' ∧ octet_of o' = Some d.
Proof.
  intros [_ T] Ho Hd. destruct (T key o Ho) as [H|[_ [H|(o' & Ho' & E)]]].
  - by exists o.
  - by rewrite octet_empty in Hd.
  - exists o'. unfold octet_of in *. by rewrite <-E.
Qed.

Section derive.
Context (w0 wl w1 : forge) (es : EdgeSite) (base vip : string).
Context (Hi0 : consistent w0) (Hil : consistent wl) (Hi1 : consistent w1) (Hsmall : small wl)
        (Hes : sites w0 !! site_key (Name (es_meta es)) = Some es)
        (Hc0 : calm w0 wl) (Hcl : calm wl w1)
        (Hes1 : sites w1 !! site_key (Name (es_meta es)) = Some es)
        (Hb : is_base base) (Hoff : offered_now (cluster wl) es base vip).

Let spec1 : EdgeSiteSpec := derived_spec (siteIndex (Name (es_meta es))) base vip (es_spec es).

Lemma derived_vip :
  es_N2VIP spec1 = if String.eqb (es_N2VIP (es_spec es)) "" then vip else es_N2VIP (es_spec es).
Proof.
  apply (derived_spec_peek _ _ _ _ p_N2VIP vip). unfold derived_fields.
  apply elem_of_app. right. right. left.
Qed.

Lemma derived_colocated : es_Colocated spec1 = es_Colocated (es_spec es).
Proof.
  exact (f_equal (λ x, x.1.2)
    (derived_spec_given (siteIndex (Name (es_meta es))) base vip (es_spec es))).
Qed.

Lemma derived_reserved :
  vip_octet (es_N2VIP spec1) = Some 240 → Name (es_meta es) = core.
Proof.
  rewrite derived_vip. destruct (String.eqb_spec (es_N2VIP (es_spec es)) "") as [Ev|_].
  - unfold offered_now in Hoff. destruct (es_Colocated (es_spec es)) eqn:Ec.
    { intros _. by eapply (c_colocated w1 Hi1). }
    assert (held_vip es = None) as Eh by (unfold held_vip; by rewrite Ev).
    rewrite Eh in Hoff. rewrite Hoff.
    destruct (pick_vip_octet (Name (es_meta es)) base
      (taken_by (Name (es_meta es)) (map_to_list (edge_sites (cluster wl))).*2) Hb)
      as (d & _ & -> & Hd & _). intros [= ->]. lia.
  - intros H. by eapply (c_reserved w1 Hi1 _ es Hes1).
Qed.

Lemma derived_free k o' d :
  k ≠ site_key (Name (es_meta es)) → sites w1 !! k = Some o' →
  vip_octet (es_N2VIP spec1) = Some d → octet_of o' ≠ Some d.
Proof.
  rewrite derived_vip. intros Hne Ho'.
  destruct (String.eqb_spec (es_N2VIP (es_spec es)) "") as [Ev|_].
  - intros Hd Hd'. destruct (held_before wl w1 k o' d Hcl Ho' Hd') as (o2 & Ho2 & Hd2).
    pose proof (there_before w0 wl w1 _ es Hi0 Hes Hc0 Hcl Hes1) as Hesl.
    eapply (offered_vip_free (cluster wl) es base vip); [done|exact Hesl|apply Hil|done|done|
      |done|exact Hne|exact Ho2|exact Hd|exact Hd2].
    intros Ec key o Ho H240.
    assert (Name (es_meta o) = Name (es_meta es)) as En.
    { rewrite (c_reserved wl Hil key o Ho H240). symmetry. by eapply (c_colocated wl Hil). }
    destruct (c_keyed wl Hil key o Ho) as [-> _]. rewrite En in Ho.
    assert (Some o = Some es) as [= ->] by by rewrite <-Hesl, <-Ho.
    by rewrite octet_empty in H240.
  - intros Hd Hd'. apply Hne. by apply (c_distinct w1 Hi1 k _ o' es d).
Qed.

Lemma derived_stored w' :
  stores w1 w' (stamp (cluster w1) (k := KEdgeSite) (set_es_spec spec1 es)) →
  touched w1 w' ∧ consistent w'.
Proof.
  intros Hst. split; [by eapply stores_touched|]. eapply stores_consistent; [done|exact Hst|..].
  - intros H. apply (c_colocated w1 Hi1 _ es Hes1). rewrite <-derived_colocated. exact H.
  - exact derived_reserved.
  - intros k o' d Hne Ho' Hd. exact (derived_free k o' d Hne Ho' Hd).
Qed.
End derive.

(** The update, in whatever world it is made: it fails when the site has changed. *)
Lemma derived_update w0 wl w1 es base vip :
  consistent w0 → consistent wl → consistent w1 → small wl →
  sites w0 !! site_key (Name (es_meta es)) = Some es → calm w0 wl → calm wl w1 →
  is_base base → offered_now (cluster wl) es base vip →
  let o := set_es_spec (derived_spec (siteIndex (Name (es_meta es))) base vip (es_spec es)) es in
  touched w1 (serve (KUpdate KEdgeSite o) w1).2 ∧ consistent (serve (KUpdate KEdgeSite o) w1).2.
Proof.
  intros Hi0 Hil Hi1 Hsm Hes Hc0 Hcl Hb Hoff o.
  destruct (update_effect o w1 Hi1) as [->|(cur & Hcur & Erv & Hs)].
  { destruct (nothing_written w1 Hi1). split; [by apply calm_touched|done]. }
  destruct (copy_current w0 w1 (site_key (Name (es_meta es))) es cur) as [_ Hes1];
    [apply Hi0|etransitivity; apply calm_touched; [exact Hc0|exact Hcl]|done|by eapply c_stamped|done|done|].
  by apply (derived_stored w0 wl w1 es base vip).
Qed.

(** The worker's program is safe among calm others. *)
Definition site_safe {A} : prog Env A → forge → Prop := safe serve calm touched consistent small.
Definition site_replays : forge → list (event Env) → forge → Prop :=
  replays_among serve calm consistent small.

Lemma filter_all {A} (P : A → Prop) `{∀ x, Decision (P x)} (l : list A) : (∀ x, P x) → filter P l = l.
Proof.
  intros HP. induction l as [|x l IH]; [done|]. rewrite filter_cons_True by apply HP. by rewrite IH.
Qed.

Lemma listing_all es w :
  answered es (serve (KList KEdgeSite None []) w).1
  = taken_by (Name (es_meta es)) (map_to_list (sites w)).*2.
Proof. cbn [serve fst answered]. f_equal. by apply filter_all. Qed.

(** Before its update the derivation has seen a listing, or needs none. *)
Lemma listing_seen es base vip tn tl w0 w1 :
  node_listing tn → offered_vip es base tl vip → consistent w1 → small w1 →
  site_replays w0 (tn ++ tl) w1 →
  ∃ wl, consistent wl ∧ small wl ∧ calm w0 wl ∧ calm wl w1 ∧
    offered_now (cluster wl) es base vip.
Proof.
  intros Hn Hoff Hi1 Hs1 Hr.
  assert (site_replays w0 tl w1) as Hr'.
  { destruct Hn as [->|[n ->]]; [done|]. destruct Hr as (wa & Hc & _ & _ & _ & Hr).
    exact (replays_among_rely serve calm consistent small w0 wa tl w1 Hc Hr). }
  clear Hr. unfold offered_vip, offered_now in *.
  assert (tl = [] → ∃ wl, consistent wl ∧ small wl ∧ calm w0 wl ∧ calm wl w1) as Hnone.
  { intros ->. exists w1. do 3 (split; [done|]). apply calm_refl. }
  destruct (es_Colocated (es_spec es)).
  { destruct Hoff as [Htl ->]. destruct (Hnone Htl) as (wl & ? & ? & ? & ?). by exists wl. }
  destruct (held_vip es).
  { destruct Hoff as [Htl ->]. destruct (Hnone Htl) as (wl & ? & ? & ? & ?). by exists wl. }
  destruct Hoff as (l & -> & ->). destruct Hr' as (wl & Hc & Hil & Hsl & -> & Hcl).
  exists wl. do 4 (split; [done|]). f_equal. apply listing_all.
Qed.

Lemma in_lists es base vip tn tl e :
  node_listing tn → offered_vip es base tl vip → e ∈ (tn ++ tl)%list → harmless (ev_op e).
Proof.
  intros Hn Hoff [He|He]%elem_of_app.
  - destruct Hn as [->|[n ->]]; [by apply elem_of_nil in He|]. by apply list_elem_of_singleton in He as ->.
  - unfold offered_vip in Hoff. destruct (es_Colocated _); [|destruct (held_vip es)].
    + destruct Hoff as [-> _]. by apply elem_of_nil in He.
    + destruct Hoff as [-> _]. by apply elem_of_nil in He.
    + destruct Hoff as (l & -> & _). by apply list_elem_of_singleton in He as ->.
Qed.

Lemma harmless_site c w : harmless c → consistent w → touched w (serve c w).2 ∧ consistent (serve c w).2.
Proof. intros Hc Hi. destruct (harmless_calm c w Hc Hi). split; [by apply calm_touched|done]. Qed.

(** An event of a trace is before its last one, or is it. *)
Lemma before_last {A} (t1 t2 l : list A) e x :
  (t1 ++ e :: t2)%list = (l ++ [x])%list → e ∈ l ∨ e = x ∧ t1 = l.
Proof.
  intros E. destruct t2 as [|y t2 _] using rev_ind.
  - right. apply app_inj_tail in E as [-> ->]. done.
  - left. rewrite app_comm_cons, app_assoc in E. apply app_inj_tail in E as [<- _].
    apply elem_of_app. right. left.
Qed.

Lemma derive_safe es w :
  consistent w → sites w !! site_key (Name (es_meta es)) = Some es →
  site_safe (deriveAddressing es) w.
Proof.
  intros Hi Hes. apply guarded_traces.
  eapply always_impl; [|exact (deriveAddressing_trace es)]. cbn beta.
  intros t x (tn & tl & tu & base & vip & -> & Hn & Hb & Hv & Hoff & Hu) t1 c r t2 w1 E Hr Hi1 Hs1.
  rewrite app_assoc in E.
  assert (∀ e, e ∈ (tn ++ tl)%list → e = Ev c r → touched w1 (serve c w1).2 ∧ consistent (serve c w1).2)
    as Hlist.
  { intros e He ->. apply (harmless_site c); [|done]. exact (in_lists es base vip tn tl _ Hn Hoff He). }
  destruct (addressedb (es_spec es)).
  - destruct Hu as (-> & _). rewrite app_nil_r in E. apply (Hlist (Ev c r)); [|done].
    rewrite E. apply elem_of_app. right. left.
  - destruct Hu as (a & -> & _). destruct (before_last _ _ _ _ _ (eq_sym E)) as [He|[He ->]].
    + by apply (Hlist (Ev c r)).
    + apply (f_equal ev_op) in He. cbn in He. subst c.
      destruct (listing_seen es base vip tn tl w w1 Hn Hoff Hi1 Hs1 Hr)
        as (wl & Hil & Hsl & Hc0 & Hcl & Hnow).
      by apply (derived_update w wl w1).
Qed.

(** *** The rest of the reconcile writes no site *)

#[local] Notation mild m := (keeps harmless (λ _ _, True) (λ _, True) (λ _, True) m (λ _, True)).

Lemma mild_try {St A} (m : act Env St A) : mild m → mild (try m).
Proof. intros H. eapply keeps_post; [|apply (keeps_try _ _ _ _ m (λ _, True)), H]. done. Qed.

Lemma mild_call {St} c : harmless c → mild (call (St := St) c).
Proof. intros Hc s _. split; [done|]. by split. Qed.

Ltac mild_walk :=
  unfold log_step, env_ok, env;
  repeat first
    [ progress cbn beta iota zeta
    | solve [eauto with keeps]
    | match goal with
      | |- keeps _ _ _ _ (mbind _ _) _ => eapply (keeps_bind _ _ _ _ _ _ (λ _, True)); [|intros ? _]
      | |- keeps _ _ _ _ (mret _) _ => by apply keeps_ret
      | |- keeps _ _ _ _ get _ => by intros ? _
      | |- keeps _ _ _ _ (modify _) _ => by apply keeps_modify
      | |- keeps _ _ _ _ (throw _) _ => by apply keeps_throw
      | |- keeps _ _ _ _ (of_result ?r) _ => by intros ? _; destruct r
      | |- keeps _ _ _ _ (call _) _ => by apply mild_call
      | |- keeps _ _ _ _ (try _) _ => apply mild_try
      | |- keeps _ _ _ _ (wrap _ _) _ => apply keeps_wrap
      | |- keeps _ _ _ _ (when _ _) _ => apply keeps_when; intros _
      | |- keeps _ _ _ _ (for_each _ _) _ => apply keeps_for_each; intros ? _
      | |- keeps _ _ _ _ (match ?x with _ => _ end) _ => destruct x
      end ].

Lemma upsert_mild {St} {k : kind} (o : obj k) : k ≠ KEdgeSite → mild (upsert (St := St) o).
Proof. intros Hk. unfold upsert. mild_walk. Qed.

Lemma gitPut_mild {St} repo path yaml : mild (gitPut (St := St) repo path yaml).
Proof. unfold gitPut, gitea_auth, lookup_sha. mild_walk. Qed.

#[local] Hint Resolve gitPut_mild : keeps.
#[local] Hint Extern 2 (keeps _ _ _ _ (upsert _) _) => apply upsert_mild; discriminate : keeps.

Lemma child_mild {k : kind} (o : obj k) : k ≠ KEdgeSite → mild (applyOwned o).
Proof. intros Hk. unfold applyOwned. mild_walk. by apply upsert_mild. Qed.

#[local] Hint Extern 2 (keeps _ _ _ _ (applyOwned _) _) => apply child_mild; discriminate : keeps.

Lemma step_failed_mild {AM : Apimachinery} name e : mild (step_failed name e).
Proof. unfold step_failed, update_status. mild_walk. Qed.
#[local] Hint Resolve step_failed_mild : keeps.

Lemma step_mild {AM : Apimachinery} name fn : mild fn → mild (step name fn).
Proof. intros H. unfold step. mild_walk. Qed.

#[local] Hint Extern 3 (keeps _ _ _ _ (step _ _) _) => apply step_mild; mild_walk : keeps.

Lemma pkgVariant_mild r name up repo pkg inject : mild (pkgVariant r name up repo pkg inject).
Proof. unfold pkgVariant. mild_walk. Qed.

Lemma ipClaim_mild name kind : mild (ipClaim name kind).
Proof. unfold ipClaim. mild_walk. Qed.
#[local] Hint Resolve pkgVariant_mild ipClaim_mild : keeps.

Lemma emit_mild {AM : Apimachinery} r cluster : mild (emit r cluster).
Proof.
  unfold emit, claim_steps, cp_steps, edge_steps, infra_variant, site_variant, meshLink, edgeSlice,
    deliverN2Expose, deliverCoreSlice, deliverRAN, ranBase, mgmtNodeIP.
  mild_walk.
Qed.

Lemma succeed_mild {AM : Apimachinery} cluster : mild (succeed cluster).
Proof. unfold succeed, update_status. mild_walk. Qed.

Lemma mild_safe {St A} (m : act Env St A) s w : mild m → site_safe (m s) w.
Proof.
  intros Hm. eapply guarded_impl; [|apply (guarded_obeys serve calm touched consistent small harmless)].
  - done.
  - intros c Hc w' Hi _. by apply harmless_site.
  - by apply Hm.
Qed.

Lemma safe_then {St A B} (m : act Env St A) (f : A → act Env St B) s w :
  site_safe (m s) w → (∀ a, mild (f a)) → site_safe ((m ≫= f) s) w.
Proof.
  intros Hm Hf. apply guarded_bind. eapply guarded_impl; [|exact Hm]. cbn beta.
  intros [s' [a|e]] w' _; [|exact I]. by apply mild_safe.
Qed.

Lemma try_safe {St A} (m : act Env St A) s w : site_safe (m s) w → site_safe (try m s) w.
Proof.
  intros H. apply guarded_bind. eapply guarded_impl; [|exact H]. by intros [s' x] w' _.
Qed.

(** A log line before an action. *)
Lemma log_safe {A} msg kv (p : prog Env A) w :
  site_safe p w → site_safe (Call (S := Env) (LogInfo msg kv) (λ _, p)) w.
Proof.
  intros H w1 Hr Hi Hp. destruct (harmless_site (LogInfo msg kv) w1 I Hi) as [Ht Hc].
  split; [exact Ht|]. split; [exact Hc|]. eapply (safe_rely _ _ _ _ _ p w); [|exact H].
  destruct w1 as [m rs]. exact Hr.
Qed.

Section reconcilers.
Context {AM : Apimachinery}.

Lemma step_safe name fn es w : site_safe (fn es) w → site_safe (step name fn es) w.
Proof.
  intros H. unfold step. apply (log_safe _ _ ((r ← try fn; _) es) w).
  apply safe_then; [by apply try_safe|]. intros [u|e]; mild_walk.
Qed.

Lemma reconcile_site_safe r es w :
  consistent w → sites w !! site_key (Name (es_meta es)) = Some es →
  site_safe (reconcile_site r es) w.
Proof.
  intros Hi Hes. unfold reconcile_site.
  apply (safe_then (step "DeriveAddressing" deriveAddressing)
    (λ _, _ ← emit r ("cluster-" +:+ Name (es_meta es)); succeed ("cluster-" +:+ Name (es_meta es)))).
  - by apply step_safe, derive_safe.
  - intros _. apply (keeps_bind _ _ _ _ _ _ (λ _, True)); [apply emit_mild|]. intros _ _. apply succeed_mild.
Qed.

(** A whole reconcile of a site, from its read of the object to its last status. *)
Lemma site_reconcile_safe r name w : site_safe (EdgeSite.Reconcile r "default" name) w.
Proof.
  intros w1 Hr Hi Hp. destruct (harmless_site (KGet KEdgeSite "default" name) w1 I Hi) as [Ht Hc].
  split; [exact Ht|]. split; [exact Hc|]. cbn -[reconcile_site].
  match goal with |- context [match ?x with Some _ => _ | None => _ end] =>
    destruct x as [es|] eqn:E end; [|exact I].
  apply guarded_bind. eapply guarded_impl; [|apply (reconcile_site_safe r es)]; [done|exact Hc|].
  destruct (c_keyed w1 Hi _ es E) as [Ek _]. rewrite <-Ek. exact E.
Qed.
End reconcilers.

(** ** The Fleet worker

    It relies on writes being of new versions, and promises calm. *)

(** It may also delete sites. *)
Definition gentle (c : op Env) : Prop :=
  match c : call_op with
  | KDelete _ _ => True
  | _ => harmless c
  end.

Lemma delete_calm (o : EdgeSite) w :
  consistent w →
  calm w (serve (KDelete KEdgeSite o) w).2 ∧ consistent (serve (KDelete KEdgeSite o) w).2.
Proof.
  intros Hi.
  change (serve (KDelete KEdgeSite o) w)
    with (in_cluster (handle (KDelete KEdgeSite o) (cluster w)) w).
  unfold in_cluster. cbn [handle]. destruct (objects (cluster w) KEdgeSite !! _).
  - apply (deletes_calm w _ (key_of (k := KEdgeSite) o) Hi).
    + exact (edge_sites_remove _ _).
    + unfold now. cbn. lia.
    + apply keyed_remove, Hi.
  - apply same_sites_consistent, same_sites_refl, Hi. exact Hi.
Qed.

Lemma gentle_calm c w : gentle c → consistent w → calm w (serve c w).2 ∧ consistent (serve c w).2.
Proof.
  intros Hc Hi. destruct c; try by apply harmless_calm.
  destruct (decide (k = KEdgeSite)) as [->|Hk]; [by apply delete_calm|by apply harmless_calm].
Qed.

Definition fleet_safe {A} : prog Env A → forge → Prop :=
  safe serve touched calm consistent (λ _, True).

(** The action keeps the Fleet in its namespace, in every world. *)
Definition guards {A} (m : act Env Fleet A) : Prop :=
  ∀ s w, Namespace (fl_meta s) = "default" →
    guarded serve touched calm consistent (λ _, True) (m s) w
      (λ x _, Namespace (fl_meta x.1) = "default").

Lemma guards_bind {A B} (m : act Env Fleet A) (f : A → act Env Fleet B) :
  guards m → (∀ a, guards (f a)) → guards (m ≫= f).
Proof.
  intros Hm Hf s w Hs. apply guarded_bind. eapply guarded_impl; [|by apply Hm]. cbn beta.
  intros [s' [a|e]] w' Hs'; [by apply Hf|done].
Qed.

Lemma guards_ret {A} (a : A) : guards (mret a).
Proof. by intros s w. Qed.

Lemma guards_get {A} (f : Fleet → act Env Fleet A) : (∀ s, guards (f s)) → guards (get ≫= f).
Proof. intros H s w Hs. by apply (H s). Qed.

Lemma guards_try {A} (m : act Env Fleet A) : guards m → guards (try m).
Proof.
  intros H s w Hs. apply guarded_bind. eapply guarded_impl; [|by apply H]. by intros [s' x] w'.
Qed.

Lemma guards_call c : gentle c → guards (call c).
Proof.
  intros Hc s w Hs w1 Hr Hi _. destruct (gentle_calm c w1 Hc Hi). split; [done|]. by split.
Qed.

(** *** Reading a site and writing it back *)

Lemma update_calm fleet server user role ran w w1 (cur : EdgeSite) :
  consistent w → consistent w1 → touched w w1 → sites w !! site_key (Name (es_meta cur)) = Some cur →
  let c := KUpdate KEdgeSite (updated_site fleet server user role ran cur) in
  calm w1 (serve c w1).2 ∧ consistent (serve c w1).2.
Proof.
  intros Hi Hi1 Ht Hcur. apply edit_calm; [|done]. intros cur1 Hcur1 Erv.
  destruct (copy_current w w1 (site_key (Name (es_meta cur))) cur cur1) as [-> H];
    [apply Hi|exact Ht|done|by eapply c_stamped|done|done|].
  split; [done|]. exact (c_colocated w1 Hi1 _ cur H).
Qed.

Lemma applyEdgeSite_guards name server user role ran :
  guards (applyEdgeSite name server user role ran).
Proof.
  unfold applyEdgeSite. intros fleet w Hns w1 Hr Hi _.
  destruct (gentle_calm (KGet KEdgeSite (Namespace (fl_meta fleet)) name) w1 I Hi) as [Hc Hi'].
  split; [exact Hc|]. split; [exact Hi'|]. cbn -[new_site updated_site]. rewrite Hns.
  match goal with |- context [match ?x with Some _ => _ | None => _ end] =>
    destruct x as [cur|] eqn:E end; cbn -[new_site updated_site serve].
  - intros w2 Hr2 Hi2 _. destruct (c_keyed w1 Hi _ cur E) as [Ek _].
    destruct (update_calm fleet server user role ran w1 w2 cur Hi Hi2) as [Hc2 Hi2'].
    + destruct w1. exact Hr2.
    + rewrite <-Ek. exact E.
    + split; [exact Hc2|]. split; [exact Hi2'|].
      by destruct (serve (KUpdate KEdgeSite _) w2).1.
  - intros w2 Hr2 Hi2 _.
    destruct (create_calm (new_site fleet name server user role ran) w2) as [Hc2 Hi2']; [done..|].
    split; [exact Hc2|]. split; [exact Hi2'|]. by destruct (serve (KCreate KEdgeSite _) w2).1.
Qed.

Lemma guards_then_safe {A B} (m : act Env Fleet A) (f : A → act Env Fleet B) s w :
  Namespace (fl_meta s) = "default" → guards m →
  (∀ a s' w', Namespace (fl_meta s') = "default" → fleet_safe (f a s') w') →
  fleet_safe ((m ≫= f) s) w.
Proof.
  intros Hs Hm Hf. apply guarded_bind. eapply guarded_impl; [|by apply Hm]. cbn beta.
  intros [s' [a|e]] w' Hs'; [by apply Hf|exact I].
Qed.

Lemma mild_fleet_safe {A} (m : act Env Fleet A) s w : mild m → fleet_safe (m s) w.
Proof.
  intros Hm. eapply guarded_impl; [|apply (guarded_obeys serve touched calm consistent _ harmless)].
  - done.
  - intros c Hc w' Hi _. by apply harmless_calm.
  - by apply Hm.
Qed.

Ltac guards_walk :=
  unfold env_ok, env;
  repeat first
    [ progress cbn beta iota zeta
    | match goal with
      | |- guards (get ≫= _) => apply guards_get; intros ?
      | |- guards (_ ≫= _) => apply guards_bind; [|intros ?]
      | |- guards (mret _) => apply guards_ret
      | |- guards (try _) => apply guards_try
      | |- guards (call _) => by apply guards_call
      | |- guards (applyEdgeSite _ _ _ _ _) => apply applyEdgeSite_guards
      | |- guards (match ?x with _ => _ end) => destruct x
      end ].

Lemma entry_guards entries name : guards (reconcile_entry entries name).
Proof. unfold reconcile_entry. guards_walk. Qed.

Lemma decommission_guards entries es : guards (decommission entries es).
Proof. unfold decommission. guards_walk. Qed.

Lemma collect_guards {A} (l : list A) f : (∀ x, guards (f x)) → guards (collect l f).
Proof. intros H. induction l as [|x l IH]; cbn [collect]; guards_walk; auto. Qed.

Section fleet_reconciler.
Context {AM : Apimachinery}.

Lemma report_mild total errs : mild (report total errs).
Proof. unfold report, update_fleet_status. mild_walk. Qed.

Lemma fleet_fail_mild e : mild (fleet_fail e).
Proof. unfold fleet_fail, update_fleet_status. mild_walk. Qed.

Lemma reconcile_fleet_safe fleet w :
  Namespace (fl_meta fleet) = "default" → fleet_safe (reconcile_fleet fleet) w.
Proof.
  intros Hns. unfold reconcile_fleet, range_map, env.
  change ((get ≫= ?f) fleet) with (f fleet fleet). cbv beta zeta.
  apply guards_then_safe; [done|guards_walk|]. intros keys s1 w1 Hs1.
  apply guards_then_safe; [done|apply collect_guards; intros; apply entry_guards|].
  intros errs s2 w2 Hs2.
  apply guards_then_safe; [done|by apply guards_call|]. intros [items|e] s3 w3 Hs3.
  - apply guards_then_safe; [done|apply collect_guards; intros; apply decommission_guards|].
    intros errs' s4 w4 Hs4. apply mild_fleet_safe, report_mild.
  - apply mild_fleet_safe, fleet_fail_mild.
Qed.

Lemma fleet_reconcile_safe name w : fleet_safe (Fleet.Reconcile "default" name) w.
Proof.
  intros w1 Hr Hi Hp. destruct (harmless_calm (KGet KFleet "default" name) w1 I Hi) as [Ht Hc].
  split; [exact Ht|]. split; [exact Hc|]. cbn -[reconcile_fleet].
  match goal with |- context [match ?x with Some _ => _ | None => _ end] =>
    destruct x as [fleet|] eqn:E end; [|exact I].
  apply guarded_bind. eapply guarded_impl; [|apply (reconcile_fleet_safe fleet)]; [done|].
  pose proof (c_fleets w1 Hi _ fleet E) as Ek. by injection Ek.
Qed.
End fleet_reconciler.

(** ** Users *)

(** What everyone else does: anything that leaves EdgeSites alone, creating a site without a VIP,
    editing one without touching its VIP, deleting one. *)
Inductive user_call (w : forge) : op Env → Prop :=
| user_other c : harmless c → user_call w c
| user_create (o : EdgeSite) :
    Namespace (es_meta o) = "default" → es_N2VIP (es_spec o) = "" →
    (es_Colocated (es_spec o) = true → Name (es_meta o) = core) →
    user_call w (KCreate KEdgeSite o)
| user_edit (o : EdgeSite) :
    (∀ cur, sites w !! site_key (Name (es_meta o)) = Some cur →
       es_N2VIP (es_spec o) = es_N2VIP (es_spec cur)) →
    (es_Colocated (es_spec o) = true → Name (es_meta o) = core) →
    user_call w (KUpdate KEdgeSite o)
| user_delete (o : EdgeSite) : user_call w (KDelete KEdgeSite o).

Lemma user_calm w c :
  user_call w c → consistent w → calm w (serve c w).2 ∧ consistent (serve c w).2.
Proof.
  intros [c' Hc|o Hns Hv Hc|o Hv Hc|o] Hi.
  - by apply harmless_calm.
  - by apply create_calm.
  - apply edit_calm; [|done]. intros cur Hcur _. split; [|done]. by apply Hv.
  - by apply delete_calm.
Qed.

(** ** The system *)

(** The platform and what each worker still has to do, [None] when it is idle. *)
Record config := Config {
  state : forge;
  site_worker : option (prog Env (result Result));
  fleet_worker : option (prog Env (result Result));
}.

Context {AM : Apimachinery} (r : EdgeSiteReconciler).

(** One turn: a user's call, a worker's next call, a worker that takes up a request or is done
    with one, or a crash of the operator, which forgets what was under way. *)
Inductive turn : config → config → Prop :=
| turn_user w s f c : user_call w c → turn (Config w s f) (Config (serve c w).2 s f)
| turn_site_start w f name :
    turn (Config w None f) (Config w (Some (EdgeSite.Reconcile r "default" name)) f)
| turn_site_call w c k f :
    small w → turn (Config w (Some (Call c k)) f) (Config (serve c w).2 (Some (k (serve c w).1)) f)
| turn_site_done w a f : turn (Config w (Some (Ret a)) f) (Config w None f)
| turn_fleet_start w s name :
    turn (Config w s None) (Config w s (Some (Fleet.Reconcile "default" name)))
| turn_fleet_call w s c k :
    turn (Config w s (Some (Call c k))) (Config (serve c w).2 s (Some (k (serve c w).1)))
| turn_fleet_done w s a : turn (Config w s (Some (Ret a))) (Config w s None)
| turn_crash w s f : turn (Config w s f) (Config w None None).

Definition under_control (c : config) : Prop :=
  consistent (state c) ∧
  match site_worker c with Some p => site_safe p (state c) | None => True end ∧
  match fleet_worker c with Some p => fleet_safe p (state c) | None => True end.

Lemma turn_keeps c c' : turn c c' → under_control c → under_control c'.
Proof.
  assert (∀ w w' s, calm w w' → match s with Some p => site_safe (A := result Result) p w | None => True end →
    match s with Some p => site_safe p w' | None => True end) as Hsite.
  { intros w w' [p|] Hc; [|done]. exact (safe_rely serve _ _ _ _ p w w' Hc). }
  assert (∀ w w' f, touched w w' → match f with Some p => fleet_safe (A := result Result) p w | None => True end →
    match f with Some p => fleet_safe p w' | None => True end) as Hfleet.
  { intros w w' [p|] Hc; [|done]. exact (safe_rely serve _ _ _ _ p w w' Hc). }
  intros Ht (Hi & Hs & Hf). destruct Ht; cbn in *.
  - destruct (user_calm w c H Hi) as [Hc Hi']. split; [done|].
    split; [exact (Hsite _ _ s Hc Hs)|exact (Hfleet _ _ f (calm_touched _ _ Hc) Hf)].
  - split; [done|]. split; [apply site_reconcile_safe|done].
  - destruct (Hs w (calm_refl w) Hi H) as (Ht & Hi' & Hk). split; [done|].
    split; [done|exact (Hfleet _ _ f Ht Hf)].
  - done.
  - split; [done|]. split; [done|apply fleet_reconcile_safe].
  - destruct (Hf w (calm_touched _ _ (calm_refl w)) Hi I) as (Hc & Hi' & Hk). split; [done|].
    split; [exact (Hsite _ _ s Hc Hs)|done].
  - done.
  - done.
Qed.

(** An operator that has just started, on a platform without sites or Fleets. *)
Definition starting : config := Config (Forge fresh_cluster ∅) None None.

Lemma starting_controlled : under_control starting.
Proof.
  split; [|done].
  assert (sites (state starting) = ∅) as E by by vm_compute.
  assert (objects (cluster (state starting)) KFleet = ∅) as Ef by by vm_compute.
  split; unfold sites, keyed, keyed_kind, distinct_vips in *; rewrite ?E, ?Ef; [done|..];
    intros *; by rewrite lookup_empty.
Qed.

(** C1: N2 VIPs stay distinct whatever the order in which things happen.  The EdgeSite worker,
    the Fleet worker and users take turns call by call: between any two calls of a reconcile a user
    may create, edit and delete sites and anything else, the other controller may create, update
    and delete sites, and the operator may crash and start over.  No two sites ever hold VIPs with
    the same last octet, provided that users leave the VIP to the operator (sites are created
    without one, in namespace "default", and an edit does not change it), that one given name alone
    is colocated, that at most 14 sites are stored when the EdgeSite worker makes a call, and that
    every read and listing shows the server's current state: one from a stale cache gives two sites
    one VIP ([stale_listing_collides]).  What carries it is that updates name the version they were
    computed from. *)
Theorem vips_distinct_under_interleaving c :
  rtc turn starting c → distinct_vips (cluster (state c)).
Proof.
  intros H. apply c_distinct. apply (rtc_ind_r under_control starting) in H as [Hi _]; [exact Hi| |].
  - exact starting_controlled.
  - intros c1 c2 _ Ht Hc. by eapply turn_keeps.
Qed.
End core.

(** ** A run *)

(** What happens next. *)
Inductive move :=
| MCreateFleet (fl : Fleet)
| MSite (name : string)
| MSiteCall
| MFleet (name : string)
| MFleetCall
| MCrash.

Definition smallb (w : forge) : bool := (size (sites w) <=? 14)%nat.

(** A move that is not possible is skipped. *)
Definition do_move {AM : Apimachinery} (r : EdgeSiteReconciler) (c : config) (m : move) : config :=
  match m, c with
  | MCreateFleet fl, Config w s f => Config (serve (KCreate KFleet fl) w).2 s f
  | MSite name, Config w None f => Config w (Some (EdgeSite.Reconcile r "default" name)) f
  | MSiteCall, Config w (Some (Call c k)) f =>
      let x := serve c w in if smallb w then Config x.2 (Some (k x.1)) f else Config w (Some (Call c k)) f
  | MSiteCall, Config w (Some (Ret _)) f => Config w None f
  | MFleet name, Config w s None => Config w s (Some (Fleet.Reconcile "default" name))
  | MFleetCall, Config w s (Some (Call c k)) => let x := serve c w in Config x.2 s (Some (k x.1))
  | MFleetCall, Config w s (Some (Ret _)) => Config w s None
  | MCrash, Config w _ _ => Config w None None
  | _, c => c
  end.

Lemma do_move_turn core {AM : Apimachinery} r c m : rtc (turn core r) c (do_move r c m).
Proof.
  destruct m as [fl|name| |name| |].
  { destruct c as [w s f]. apply rtc_once, (turn_user core r w s f (KCreate KFleet fl)).
    by apply user_other. }
  all: destruct c as [w [[a|c k]|] [[b|d l]|]]; cbn -[serve smallb]; try apply rtc_refl;
    try solve [apply rtc_once; first [apply turn_site_start | apply turn_site_done
      | apply turn_fleet_start | apply turn_fleet_call | apply turn_fleet_done | apply turn_crash]];
    (destruct (smallb w) eqn:E; [|apply rtc_refl]; apply rtc_once, turn_site_call;
     by apply Nat.leb_le).
Qed.

Lemma do_moves_turns core {AM : Apimachinery} r l c : rtc (turn core r) c (foldl (do_move r) c l).
Proof.
  revert c. induction l as [|m l IH]; intros c; cbn [foldl]; [done|].
  etransitivity; [apply do_move_turn|apply IH].
Qed.

(** The Fleet of edge-01 and edge-29, whose names hash to one slot: the Fleet worker creates
    edge-01, the EdgeSite worker takes it up while edge-29 is being created, the operator crashes
    in the middle of edge-01's derivation, and both are taken up again. *)
Definition script : list move :=
  ([MCreateFleet two_sites; MFleet "fleet"] ++ repeat MFleetCall 4 ++
   [MSite "edge-01"; MSiteCall; MFleetCall; MSiteCall; MFleetCall; MSiteCall; MCrash;
    MSite "edge-29"; MFleet "fleet"; MSiteCall; MFleetCall; MSiteCall; MFleetCall] ++
   repeat MSiteCall 60 ++ [MSite "edge-01"] ++ repeat MSiteCall 60 ++ repeat MFleetCall 20)%list.

Definition after_run : config := foldl (do_move defaults) starting script.

(** The octet of the VIP stored for a site. *)
Definition stored_octet (c : config) (name : string) : option Z :=
  o ← sites (state c) !! site_key name; octet_of o.

Lemma vips_distinct_under_interleaving_witness :
  distinct_vips (cluster (state after_run)) ∧
  stored_octet after_run "edge-29" = Some 242 ∧ stored_octet after_run "edge-01" = Some 243.
Proof.
  split; [|by vm_compute].
  apply (vips_distinct_under_interleaving "edge-01" defaults after_run). unfold after_run.
  apply do_moves_turns.
Defined.

(** ** Where it stops *)

(** edge-01 and edge-29, created and not yet reconciled. *)
Definition two_new_sites : forge :=
  (serve (KCreate KEdgeSite edge_29) (serve (KCreate KEdgeSite edge_01) (Forge fresh_cluster ∅)).2).2.

(** Two workers for EdgeSites, as two replicas of the operator would be: the second takes the
    place of the Fleet's. *)
Definition two_replicas : config :=
  Config two_new_sites (Some (EdgeSite.Reconcile defaults "default" "edge-01"))
    (Some (EdgeSite.Reconcile defaults "default" "edge-29")).

(** One worker is needed: two that list before either has stored its VIP pick the same one when
    the names of their sites hash to one offset, and both updates are accepted. *)
Theorem racing_workers_share_a_vip :
  let c := foldl (do_move defaults) two_replicas (concat (repeat [MSiteCall; MFleetCall] 6)) in
  stored_octet c "edge-01" = Some 242 ∧ stored_octet c "edge-29" = Some 242.
Proof. by vm_compute. Qed.

(** The platform while its listings fail. *)
Definition no_lists : handler Env forge := λ c,
  match c return forge → answer c * forge with
  | KList _ _ _ => λ w, (Err (errorf "etcdserver: request timed out"), w)
  | c => serve c
  end.

(** The listing is needed too: when it fails, the derivation goes on as if no site held a VIP,
    stores one that is taken, and reports success. *)
Theorem failed_listing_shares_a_vip :
  let w := run_world serve (EdgeSite.Reconcile defaults "default" "edge-01") two_new_sites in
  let p := EdgeSite.Reconcile defaults "default" "edge-29" in
  run_value no_lists p w = Ok no_requeue ∧
  stored_octet (Config (run_world no_lists p w) None None) "edge-01" = Some 242 ∧
  stored_octet (Config (run_world no_lists p w) None None) "edge-29" = Some 242.
Proof. by vm_compute. Qed.
